(** * HashChain: a shallow embedding of the search variants and their properties

    The C sources are a family of near-identical files, one per tuning.  Each
    file has a [preprocessing] function that fills the fingerprint table [B]
    and a [search] function that scans the text.  The embedding keeps the C
    structure: loops are [while] loops over an explicit state, array reads
    and writes are checked (a read or write outside the array is a [Fault]),
    [unsigned int] arithmetic wraps at 2^32.  [int] variables (positions and
    lengths) are integers of the range [[INT_MIN, INT_MAX]]: an [int]
    expression of the scanner whose value can leave that range is checked,
    and its overflow, undefined in C, is a [Fault]. *)

From Stdlib Require Import Strings.String.
From Stdlib Require Import ZArith List Lia Bool.
From Stdlib Require Import Strings.Byte.
Import ListNotations.
Open Scope Z_scope.

(** ** Results of running C code *)

(** A run either returns a value, has undefined behaviour -- an access
    outside an array or the overflow of an [int] -- ([Fault]), or exhausts
    the iteration budget of a loop ([Timeout]). *)
Inductive result (A : Type) : Type :=
| Ok (a : A)
| Fault
| Timeout.
Arguments Ok {A} a.
Arguments Fault {A}.
Arguments Timeout {A}.

Definition bind {A B} (r : result A) (k : A -> result B) : result B :=
  match r with
  | Ok a => k a
  | Fault => Fault
  | Timeout => Timeout
  end.

Notation "'let*' x ':=' r 'in' k" := (bind r (fun x => k))
  (at level 10, x pattern, r at level 100, k at level 200).

(** [while fuel cond body s] runs the C loop [while (cond) body] from state
    [s]; every test of the condition uses one unit of [fuel]. *)
Fixpoint while {S : Type} (fuel : nat) (cond : S -> result bool)
         (body : S -> result S) (s : S) : result S :=
  match fuel with
  | O => Timeout
  | Datatypes.S f =>
      let* b := cond s in
      if b then let* s' := body s in while f cond body s' else Ok s
  end.

(** ** [int] arithmetic *)

Definition INT_MAX : Z := 2147483647.
Definition INT_MIN : Z := -2147483648.

(** The value of an [int] expression: [z] when it is representable. *)
Definition int (z : Z) : result Z :=
  if (INT_MIN <=? z) && (z <=? INT_MAX) then Ok z else Fault.

(** ** Memory: byte buffers and integer arrays *)

Definition bytes := list byte.

Definition u8 (b : byte) : Z := Z.of_N (Byte.to_N b).

(** [x[i]] for an [unsigned char *x] whose allocation is the list [x]. *)
Definition rd (x : bytes) (i : Z) : result Z :=
  if i <? 0 then Fault
  else match nth_error x (Z.to_nat i) with
       | Some b => Ok (u8 b)
       | None => Fault
       end.

(** [a[i]] and [a[i] = v] for an [int] array. *)
Definition rdi (a : list Z) (i : Z) : result Z :=
  if i <? 0 then Fault
  else match nth_error a (Z.to_nat i) with
       | Some v => Ok v
       | None => Fault
       end.

Fixpoint upd {A} (a : list A) (i : nat) (v : A) : list A :=
  match a, i with
  | [], _ => []
  | _ :: t, O => v :: t
  | h :: t, Datatypes.S i' => h :: upd t i' v
  end.

Definition wri (a : list Z) (i : Z) (v : Z) : result (list Z) :=
  if (i <? 0) || (Z.of_nat (length a) <=? i) then Fault
  else Ok (upd a (Z.to_nat i) v).

(** The bytes [x[a..b)], empty when the range is empty or reversed. *)
Definition slice (x : bytes) (a b : Z) : bytes :=
  firstn (Z.to_nat (b - a)) (skipn (Z.to_nat a) x).

(** [x[i]] as a partial function, for stating properties. *)
Definition byte_at (x : bytes) (i : Z) : option byte :=
  if i <? 0 then None else nth_error x (Z.to_nat i).

(** ** The failure table of the linear variants

    [pre_kmp] of src/LinearHashChain/lhc4.c, which is also [preKmp] of
    src/Experimental/LinearHashChain/lhc3-kmp.c (the one its [search]
    calls). *)
Module KMP.

Record st := mk { j : Z; t : Z; tab : list Z }.

(** [while (t > -1 && x[j] != x[t]) t = KMP[t];] *)
Definition inner_cond (x : bytes) (jj : Z) (K : list Z) (tt : Z) : result bool :=
  if tt >? -1 then
    let* a := rd x jj in
    let* b := rd x tt in
    Ok (negb (a =? b))
  else Ok false.

Definition inner_body (K : list Z) (tt : Z) : result Z := rdi K tt.

Definition outer_cond (m : Z) (s : st) : result bool := Ok (j s <? m).

Definition outer_body (x : bytes) (m : Z) (s : st) : result st :=
  let* t1 := while (Datatypes.S (Z.to_nat (t s + 1)))
                   (inner_cond x (j s) (tab s)) (inner_body (tab s)) (t s) in
  let j' := j s + 1 in
  let t' := t1 + 1 in
  let* same :=
    (if j' <? m then
       let* a := rd x j' in
       let* b := rd x t' in
       Ok (a =? b)
     else Ok false) in
  if same then
    let* v := rdi (tab s) t' in
    let* K' := wri (tab s) j' v in
    Ok (mk j' t' K')
  else
    let* K' := wri (tab s) j' t' in
    Ok (mk j' t' K').

(** [KMP] is the caller's [int KMP[m + 1]], whatever it holds on entry. *)
Definition pre_kmp (x : bytes) (m : Z) (KMP : list Z) : result (list Z) :=
  let* K0 := wri KMP 0 (-1) in
  let* s := while (Datatypes.S (Z.to_nat m)) (outer_cond m) (outer_body x m)
                  (mk 0 (-1) K0) in
  Ok (tab s).

(** The verification loop, the same text in lhc4.c and in lhc3-kmp.c. *)
Record kmp_st := mkKmp { pattern_pos : Z; next_verify_pos : Z; kcount : Z }.

(** [while (pattern_pos < m && x[pattern_pos] == y[next_verify_pos])
      { pattern_pos++; next_verify_pos++; }] *)
Definition match_cond (x : bytes) (m : Z) (y : bytes) (s : kmp_st) : result bool :=
  if pattern_pos s <? m then
    let* a := rd x (pattern_pos s) in
    let* b := rd y (next_verify_pos s) in
    Ok (a =? b)
  else Ok false.

Definition match_step (s : kmp_st) : result kmp_st :=
  Ok (mkKmp (pattern_pos s + 1) (next_verify_pos s + 1) (kcount s)).

(** The body of [while (pattern_pos >= next_verify_pos - window_start_pos)]. *)
Definition verify_step (x : bytes) (m : Z) (y : bytes) (K : list Z) (s : kmp_st)
  : result kmp_st :=
  let* s1 := while (Datatypes.S (Z.to_nat m)) (match_cond x m y) match_step s in
  let count := if pattern_pos s1 =? m then kcount s1 + 1 else kcount s1 in
  let* p := rdi K (pattern_pos s1) in
  if p <? 0 then Ok (mkKmp (p + 1) (next_verify_pos s1 + 1) count)
  else Ok (mkKmp p (next_verify_pos s1) count).

Definition verify (x : bytes) (m : Z) (y : bytes) (n : Z) (K : list Z)
           (window_start_pos : Z) (s : kmp_st) : result kmp_st :=
  while (Datatypes.S (Z.to_nat n))
        (fun s => Ok (pattern_pos s >=? next_verify_pos s - window_start_pos))
        (verify_step x m y K) s.

(** [if (window_start_pos > next_verify_pos)
      { next_verify_pos = window_start_pos; pattern_pos = 0; }] *)
Definition restart (window_start_pos : Z) (s : kmp_st) : kmp_st :=
  if window_start_pos >? next_verify_pos s
  then mkKmp 0 window_start_pos (kcount s)
  else s.

End KMP.

(** Byte strings for examples. *)
Definition str (s : String.string) : bytes := String.list_byte_of_string s.
Arguments str s%_string.

(** ** Shared pieces of the hash-chain files *)

(** [unsigned int] arithmetic: the value modulo 2^32. *)
Definition u32 (z : Z) : Z := z mod 2 ^ 32.

Fixpoint bytes_eqb (a b : bytes) : bool :=
  match a, b with
  | [], [] => true
  | c :: a', d :: b' => Byte.eqb c d && bytes_eqb a' b'
  | _, _ => false
  end.

(** [memcmp(y + a, x, m) == 0]; all [m] bytes of both operands must lie
    inside their buffers. *)
Definition memcmp_eq (y : bytes) (a : Z) (x : bytes) (m : Z) : result bool :=
  if (a <? 0) || (Z.of_nat (length y) <? a + m) || (Z.of_nat (length x) <? m)
  then Fault
  else Ok (bytes_eqb (slice y a (a + m)) (slice x 0 m)).

(** ** hc3.c: rolling hash chain, Q = 3 *)
Module HC3.

Definition ASIZE : Z := 2048.
Definition S1 : Z := 3.
Definition S2 : Z := 4.
Definition S3 : Z := 1.
Definition Q : Z := 3.

(** [((((x[p] << s) + x[p - 1]) << s) + x[p - 2])], an [int] that stays
    below 2^31 for the shifts used here. *)
Definition HASH (x : bytes) (p s : Z) : result Z :=
  let* a := rd x p in
  let* b := rd x (p - 1) in
  let* c := rd x (p - 2) in
  Ok (Z.shiftl (Z.shiftl a s + b) s + c).

Definition ANCHOR_HASH (x : bytes) (p : Z) : result Z := HASH x p S1.
Definition CHAIN_HASH (x : bytes) (p : Z) : result Z := HASH x p S3.
Definition LINK_HASH (H : Z) : Z := Z.shiftl 1 (Z.land H 31).
Definition TABLE_MASK : Z := ASIZE - 1.
Definition Q2 : Z := Q + Q.
Definition END_FIRST_QGRAM : Z := Q - 1.
Definition END_SECOND_QGRAM : Z := Q2 - 1.

(** [CEIL_DIV(n, d)] on the integers it is applied to; [log2(ASIZE)] is
    exactly 11. *)
Definition CEIL_DIV (n d : Z) : Z := (n + d - 1) / d.
Definition CHAIN_LENGTH : Z := (CEIL_DIV (Z.log2 ASIZE) S2 + 1) * Q.

Record chain_st := mkChain { chain_pos : Z; cH : Z; cB : list Z }.

(** [H_last = H; H = (H << S2) + CHAIN_HASH(x, chain_pos);
     B[H_last & TABLE_MASK] |= LINK_HASH(H);] *)
Definition link_step (x : bytes) (s : chain_st) : result chain_st :=
  let H_last := cH s in
  let* c := CHAIN_HASH x (chain_pos s) in
  let H := u32 (Z.shiftl (cH s) S2 + c) in
  let* w := rdi (cB s) (Z.land H_last TABLE_MASK) in
  let* B' := wri (cB s) (Z.land H_last TABLE_MASK) (Z.lor w (LINK_HASH H)) in
  Ok (mkChain (chain_pos s - Q) H B').

Record anchor_st := mkAnchor { anchor_pos : Z; aB : list Z }.

(** Step 1 of [preprocessing]: one anchor q-gram and its chain. *)
Definition anchor_step (x : bytes) (s : anchor_st) : result anchor_st :=
  let* H := ANCHOR_HASH x (anchor_pos s) in
  let start_chain := anchor_pos s - Q in
  let stop_chain := Z.max END_FIRST_QGRAM (start_chain - CHAIN_LENGTH) in
  let* c := while (Z.to_nat (CHAIN_LENGTH + 5))
                  (fun c => Ok (chain_pos c >=? stop_chain))
                  (link_step x) (mkChain start_chain H (aB s)) in
  Ok (mkAnchor (anchor_pos s + 1) (cB c)).

(** Step 2: [if (!(B[H & TABLE_MASK])) B[H & TABLE_MASK] = LINK_HASH(~H);] *)
Definition first_step (x : bytes) (s : anchor_st) : result anchor_st :=
  let* H := ANCHOR_HASH x (anchor_pos s) in
  let* w := rdi (aB s) (Z.land H TABLE_MASK) in
  let* B' := (if w =? 0
              then wri (aB s) (Z.land H TABLE_MASK) (LINK_HASH (u32 (Z.lnot H)))
              else Ok (aB s)) in
  Ok (mkAnchor (anchor_pos s + 1) B').

(** Step 3: [H = (H << S2) + CHAIN_HASH(x, chain_pos)] down to the first
    q-gram.  The state is the pair (chain_pos, H). *)
Definition roll_step (x : bytes) (s : Z * Z) : result (Z * Z) :=
  let* c := CHAIN_HASH x (fst s) in
  Ok (fst s - Q, u32 (Z.shiftl (snd s) S2 + c)).

Definition preprocessing (x : bytes) (m : Z) (B : list Z) : result (Z * list Z) :=
  let B := map (fun _ => 0) B in
  let* s1 := while (Datatypes.S (Z.to_nat m))
                   (fun s => Ok (anchor_pos s <? m))
                   (anchor_step x) (mkAnchor END_SECOND_QGRAM B) in
  let stop := Z.min m END_SECOND_QGRAM in
  let* s2 := while (Datatypes.S (Z.to_nat Q))
                   (fun s => Ok (anchor_pos s <? stop))
                   (first_step x) (mkAnchor END_FIRST_QGRAM (aB s1)) in
  let final_pos := m - 1 in
  let* H := ANCHOR_HASH x final_pos in
  let* r := while (Datatypes.S (Z.to_nat m))
                  (fun s => Ok (fst s >=? END_FIRST_QGRAM))
                  (roll_step x) (final_pos - Q, H) in
  Ok (snd r, aB s2).

Record walk_st := mkWalk { wpos : Z; wH : Z; wV : Z; failed : bool }.

(** The body of [while (pos >= end_second_qgram_pos)]; [failed] records the
    [goto shift]. *)
Definition walk_step (y : bytes) (B : list Z) (s : walk_st) : result walk_st :=
  let pos := wpos s - Q in
  let* c := CHAIN_HASH y pos in
  let H := u32 (Z.shiftl (wH s) S2 + c) in
  if Z.land (wV s) (LINK_HASH H) =? 0 then Ok (mkWalk pos H (wV s) true)
  else
    let* V := rdi B (Z.land H TABLE_MASK) in
    Ok (mkWalk pos H V false).

(** [while (pos >= end_second_qgram_pos) { ... }] entered with hash [H] and
    table word [V] at position [pos]. *)
Definition walk (y : bytes) (B : list Z) (m pos H V : Z) : result walk_st :=
  let end_second_qgram_pos := pos - m + Q2 in
  while (Datatypes.S (Z.to_nat m))
        (fun w => Ok (negb (failed w) && (wpos w >=? end_second_qgram_pos)))
        (walk_step y B) (mkWalk pos H V false).

Record scan_st := mkScan { pos : Z; count : Z }.

(** One iteration of [while (pos < n)].  [pos += MQ1] can pass [n] by up to
    [m - Q], and [pos - m + Q2] can pass [pos]. *)
Definition scan_step (x : bytes) (m : Z) (y : bytes) (B : list Z) (Hm : Z)
           (s : scan_st) : result scan_st :=
  let MQ1 := m - Q + 1 in
  let* H := ANCHOR_HASH y (pos s) in
  let* V := rdi B (Z.land H TABLE_MASK) in
  if V =? 0 then
    let* pos' := int (pos s + MQ1) in
    Ok (mkScan pos' (count s))
  else
    let* end_second_qgram_pos := int (pos s - m + Q2) in
    let* w := walk y B m (pos s) H V in
    if failed w then
      let* pos' := int (wpos w + MQ1) in
      Ok (mkScan pos' (count s))
    else
      let pos1 := end_second_qgram_pos - Q in
      let* hit := (if wH w =? Hm
                   then memcmp_eq y (pos1 - END_FIRST_QGRAM) x m
                   else Ok false) in
      let* pos' := int (pos1 + MQ1) in
      Ok (mkScan pos' (if hit then count s + 1 else count s)).

(** [while (pos < n) { ... }] from [pos = m - 1], [count = 0]; [n]
    iterations are allowed. *)
Definition scan (x : bytes) (m : Z) (y : bytes) (n : Z) (B : list Z) (Hm : Z)
  : result scan_st :=
  while (Datatypes.S (Z.to_nat n)) (fun s => Ok (pos s <? n))
        (scan_step x m y B Hm) (mkScan (m - 1) 0).

Definition search (x : bytes) (m : Z) (y : bytes) (n : Z) : result Z :=
  if m <? Q then Ok (-1)
  else
    let B := repeat 0 (Z.to_nat ASIZE) in
    let* (Hm, B) := preprocessing x m B in
    let* s := scan x m y n B Hm in
    Ok (count s).

(** The states in which the main loop tests its condition. *)
Inductive reached (x : bytes) (m : Z) (y : bytes) (n : Z) (B : list Z) (Hm : Z)
  : scan_st -> Prop :=
| reached_init : reached x m y n B Hm (mkScan (m - 1) 0)
| reached_step s s' :
    reached x m y n B Hm s -> pos s < n ->
    scan_step x m y B Hm s = Ok s' -> reached x m y n B Hm s'.

End HC3.

(** ** Specification vocabulary *)

(** [x[0..v)] is a suffix of [x[0..k)], byte by byte. *)
Definition border (x : bytes) (k v : Z) : Prop :=
  forall i, 0 <= i < v -> byte_at x i = byte_at x (k - v + i).

(** Entry [k] of a failure table: a proper border of [x[0..k)], or -1, that
    is not followed by the byte that follows the prefix. *)
Definition kmp_entry (x : bytes) (m : Z) (K : list Z) (k : Z) : Prop :=
  exists v, rdi K k = Ok v /\ -1 <= v < k /\ border x k v /\
            (k < m -> 0 <= v -> byte_at x v <> byte_at x k).

Definition kmp_inv (x : bytes) (m : Z) (s : KMP.st) : Prop :=
  0 <= KMP.j s <= m /\ -1 <= KMP.t s < KMP.j s /\
  Z.of_nat (length (KMP.tab s)) = m + 1 /\
  border x (KMP.j s) (KMP.t s) /\
  forall k, 0 <= k <= KMP.j s -> kmp_entry x m (KMP.tab s) k.

(** The byte [x[i]] as a number, 0 outside the buffer. *)
Definition bv (x : bytes) (i : Z) : Z :=
  match byte_at x i with Some b => u8 b | None => 0 end.
(** The word [B[i]], 0 outside the table. *)
Definition word_at (B : list Z) (i : Z) : Z := nth (Z.to_nat i) B 0.
(** Every bit set in [B] is set in [B']: the table only gains bits. *)
Definition tbl_le (B B' : list Z) : Prop :=
  length B' = length B /\ forall i, Z.land (word_at B i) (word_at B' i) = word_at B i.

(** ** Pure readings of the hc3 hashes, for stating properties *)
Module HC3S.

(** The value of [HASH(x, p, s)] when its three bytes are in range. *)
Definition hashv (x : bytes) (p s : Z) : Z :=
  Z.shiftl (Z.shiftl (bv x p) s + bv x (p - 1)) s + bv x (p - 2).

Definition anchor (x : bytes) (p : Z) : Z := hashv x p HC3.S1.
Definition chain (x : bytes) (p : Z) : Z := hashv x p HC3.S3.

(** The rolling hash after [j] chain steps back from the anchor at [a]. *)
Fixpoint roll (x : bytes) (a : Z) (j : nat) : Z :=
  match j with
  | O => anchor x a
  | Datatypes.S j' =>
      u32 (Z.shiftl (roll x a j') HC3.S2 + chain x (a - HC3.Q * Z.of_nat j))
  end.

(** The table word of hash [h] carries the fingerprint of hash [h']. *)
Definition linked (B : list Z) (h h' : Z) : Prop :=
  Z.testbit (word_at B (Z.land h HC3.TABLE_MASK)) (Z.land h' 31) = true.

End HC3S.

(** ** Occurrences *)

(** [y[i..i+m) == x[0..m)]. *)
Definition occ_at (x : bytes) (m : Z) (y : bytes) (i : Z) : bool :=
  bytes_eqb (slice y i (i + m)) (slice x 0 m).

(** The number of occurrences that start at a position below [k]. *)
Fixpoint count_below (x : bytes) (m : Z) (y : bytes) (k : nat) : Z :=
  match k with
  | O => 0
  | Datatypes.S k' =>
      count_below x m y k' + (if occ_at x m y (Z.of_nat k') then 1 else 0)
  end.

(** The number of positions [i] in [[0, n - m]] with [y[i..i+m) == x]. *)
Definition occurrences (x : bytes) (m : Z) (y : bytes) (n : Z) : Z :=
  count_below x m y (Z.to_nat (n - m + 1)).

(** What the scanner relies on in the table that [preprocessing] returns. *)
Definition hc3_table_ok (x : bytes) (m : Z) (B : list Z) (Hm : Z) : Prop :=
  Z.of_nat (length B) = 2048 /\
  (forall a (j : nat), 5 <= a < m -> 2 <= a - 3 * (Z.of_nat j + 1) ->
     HC3S.linked B (HC3S.roll x a j) (HC3S.roll x a (Datatypes.S j))) /\
  (forall p, 2 <= p < m -> word_at B (Z.land (HC3S.anchor x p) HC3.TABLE_MASK) <> 0) /\
  (exists i : nat, Hm = HC3S.roll x (m - 1) i /\ -1 <= m - 4 - 3 * Z.of_nat i < 2).

(** The main loop has counted the occurrences whose window ends before
    [pos]. *)
Definition hc3_scan_inv (x : bytes) (m : Z) (y : bytes) (s : HC3.scan_st) : Prop :=
  m - 1 <= HC3.pos s /\
  HC3.count s = count_below x m y (Z.to_nat (HC3.pos s - m + 1)).

(** The scanner of hc3 finds the occurrence of [x] at [y[i..i+m)]: the main
    loop arrives at the last byte of the occurrence, the probe and every
    fingerprint of the backward walk are in the table, the walk ends at the
    verification step for position [i] with the hash of the pattern, and the
    comparison succeeds and is counted. *)
Definition hc3_occurrence_found (x : bytes) (m : Z) (y : bytes) (n i : Z) : Prop :=
  exists Hm B s H V w s',
    HC3.preprocessing x m (repeat 0 (Z.to_nat HC3.ASIZE)) = Ok (Hm, B) /\
    HC3.reached x m y n B Hm s /\ HC3.pos s = i + m - 1 /\ HC3.pos s < n /\
    HC3.ANCHOR_HASH y (HC3.pos s) = Ok H /\
    rdi B (Z.land H HC3.TABLE_MASK) = Ok V /\ V <> 0 /\
    H = HC3S.roll y (HC3.pos s) 0 /\
    (forall j : nat,
       HC3.END_FIRST_QGRAM <= m - 1 - HC3.Q * (Z.of_nat j + 1) ->
       HC3S.linked B (HC3S.roll y (HC3.pos s) j) (HC3S.roll y (HC3.pos s) (Datatypes.S j))) /\
    HC3.walk y B m (HC3.pos s) H V = Ok w /\
    HC3.failed w = false /\ HC3.wH w = Hm /\
    (HC3.pos s - m + HC3.Q2 - HC3.Q) - (HC3.Q - 1) = i /\
    memcmp_eq y i x m = Ok true /\
    HC3.scan_step x m y B Hm s = Ok s' /\ HC3.count s' = HC3.count s + 1.

(** ** hc4-qverify.c: plain hash chain, Q = 4, verifying Q alignments *)
Module HC4Q.

Definition ALPHA : Z := 12.
Definition Q : Z := 4.
Definition S : Z := ALPHA / Q.

(** [((((((x[p] << s) + x[p - 1]) << s) + x[p - 2]) << s) + x[p - 3])] *)
Definition HASH (x : bytes) (p s : Z) : result Z :=
  let* a := rd x p in
  let* b := rd x (p - 1) in
  let* c := rd x (p - 2) in
  let* d := rd x (p - 3) in
  Ok (Z.shiftl (Z.shiftl (Z.shiftl a s + b) s + c) s + d).

Definition CHAIN_HASH (x : bytes) (p : Z) : result Z := HASH x p S.
Definition LINK_HASH (H : Z) : Z := Z.shiftl 1 (Z.land H 31).
Definition ASIZE : Z := Z.shiftl 1 ALPHA.
Definition TABLE_MASK : Z := ASIZE - 1.
Definition Q2 : Z := Q + Q.
Definition END_FIRST_QGRAM : Z := Q - 1.
Definition END_SECOND_QGRAM : Z := Q2 - 1.

Record chain_st := mkChain { chain_pos : Z; cH : Z; cB : list Z }.

(** [H_last = H; H = CHAIN_HASH(x, chain_pos);
     B[H_last & TABLE_MASK] |= LINK_HASH(H);] *)
Definition link_step (x : bytes) (s : chain_st) : result chain_st :=
  let H_last := cH s in
  let* H := CHAIN_HASH x (chain_pos s) in
  let* w := rdi (cB s) (Z.land H_last TABLE_MASK) in
  let* B' := wri (cB s) (Z.land H_last TABLE_MASK) (Z.lor w (LINK_HASH H)) in
  Ok (mkChain (chain_pos s - Q) H B').

Record pre_st := mkPre { chain_no : Z; pH : Z; pB : list Z }.

(** Step 1 of [preprocessing]: the chain that ends at [m - chain_no]. *)
Definition chain_step (x : bytes) (m : Z) (s : pre_st) : result pre_st :=
  let* H := CHAIN_HASH x (m - chain_no s) in
  let* c := while (Datatypes.S (Z.to_nat m))
                  (fun c => Ok (chain_pos c >=? END_FIRST_QGRAM))
                  (link_step x) (mkChain (m - chain_no s - Q) H (pB s)) in
  Ok (mkPre (chain_no s - 1) (cH c) (cB c)).

Record fill_st := mkFill { fill_pos : Z; fB : list Z }.

(** Step 2: [F = CHAIN_HASH(x, chain_pos);
     if (!B[F & TABLE_MASK]) B[F & TABLE_MASK] = LINK_HASH(~F);] *)
Definition fill_step (x : bytes) (s : fill_st) : result fill_st :=
  let* F := CHAIN_HASH x (fill_pos s) in
  let* w := rdi (fB s) (Z.land F TABLE_MASK) in
  let* B' := (if w =? 0
              then wri (fB s) (Z.land F TABLE_MASK) (LINK_HASH (u32 (Z.lnot F)))
              else Ok (fB s)) in
  Ok (mkFill (fill_pos s + 1) B').

Definition preprocessing (x : bytes) (m : Z) (B : list Z) : result (Z * list Z) :=
  let B := map (fun _ => 0) B in
  let* s1 := while (Datatypes.S (Z.to_nat Q))
                   (fun s => Ok (chain_no s >=? 1))
                   (chain_step x m) (mkPre Q 0 B) in
  let stop := Z.min m END_SECOND_QGRAM in
  let* s2 := while (Datatypes.S (Z.to_nat Q))
                   (fun s => Ok (fill_pos s <? stop))
                   (fill_step x) (mkFill END_FIRST_QGRAM (pB s1)) in
  Ok (pH s1, fB s2).

Record walk_st := mkWalk { wpos : Z; wH : Z; wV : Z; failed : bool }.

Definition walk_step (y : bytes) (B : list Z) (s : walk_st) : result walk_st :=
  let pos := wpos s - Q in
  let* H := CHAIN_HASH y pos in
  if Z.land (wV s) (LINK_HASH H) =? 0 then Ok (mkWalk pos H (wV s) true)
  else
    let* V := rdi B (Z.land H TABLE_MASK) in
    Ok (mkWalk pos H V false).

Definition walk (y : bytes) (B : list Z) (m pos H V : Z) : result walk_st :=
  let end_second_qgram_pos := pos - m + Q2 in
  while (Datatypes.S (Z.to_nat m))
        (fun w => Ok (negb (failed w) && (wpos w >=? end_second_qgram_pos)))
        (walk_step y B) (mkWalk pos H V false).

(** [if (pattern_start <= n - m && memcmp(y + pattern_start, x, m) == 0)
     count++;] with state (pattern_start, count). *)
Definition verify_step (x : bytes) (m : Z) (y : bytes) (n : Z) (s : Z * Z)
  : result (Z * Z) :=
  let* hit := (if fst s <=? n - m then memcmp_eq y (fst s) x m else Ok false) in
  Ok (fst s + 1, if hit then snd s + 1 else snd s).

Record scan_st := mkScan { pos : Z; count : Z }.

Definition scan_step (x : bytes) (m : Z) (y : bytes) (n : Z) (B : list Z)
           (s : scan_st) : result scan_st :=
  let MQ1 := m - Q + 1 in
  let* H := CHAIN_HASH y (pos s) in
  let* V := rdi B (Z.land H TABLE_MASK) in
  if V =? 0 then
    let* pos' := int (pos s + MQ1) in
    Ok (mkScan pos' (count s))
  else
    let* end_second_qgram_pos := int (pos s - m + Q2) in
    let* w := walk y B m (pos s) H V in
    if failed w then
      let* pos' := int (wpos w + MQ1) in
      Ok (mkScan pos' (count s))
    else
      let* v := while (Datatypes.S (Z.to_nat Q))
                      (fun v => Ok (fst v <=? end_second_qgram_pos - Q))
                      (verify_step x m y n)
                      (end_second_qgram_pos - Q - END_FIRST_QGRAM, count s) in
      let* pos' := int (end_second_qgram_pos - 1 + MQ1) in
      Ok (mkScan pos' (snd v)).

Definition scan (x : bytes) (m : Z) (y : bytes) (n : Z) (B : list Z)
  : result scan_st :=
  while (Datatypes.S (Z.to_nat n)) (fun s => Ok (pos s <? n))
        (scan_step x m y n B) (mkScan (m - 1) 0).

Definition search (x : bytes) (m : Z) (y : bytes) (n : Z) : result Z :=
  if m <? Q then Ok (-1)
  else
    let B := repeat 0 (Z.to_nat ASIZE) in
    let* (Hm, B) := preprocessing x m B in
    let* s := scan x m y n B in
    Ok (count s).

End HC4Q.

(** Pure readings of the hc4-qverify chain hash. *)
Module HC4QS.

Definition chain (x : bytes) (p : Z) : Z :=
  Z.shiftl (Z.shiftl (Z.shiftl (bv x p) HC4Q.S + bv x (p - 1)) HC4Q.S + bv x (p - 2)) HC4Q.S
  + bv x (p - 3).

Definition linked (B : list Z) (h h' : Z) : Prop :=
  Z.testbit (word_at B (Z.land h HC4Q.TABLE_MASK)) (Z.land h' 31) = true.

End HC4QS.

(** ** lhc4.c: linear hash chain, Q = 4, verification by the failure table *)
Module LHC4.

Definition ALPHA : Z := 12.
Definition Q : Z := 4.
Definition S : Z := ALPHA / Q.

Definition HASH (x : bytes) (p s : Z) : result Z :=
  let* a := rd x p in
  let* b := rd x (p - 1) in
  let* c := rd x (p - 2) in
  let* d := rd x (p - 3) in
  Ok (Z.shiftl (Z.shiftl (Z.shiftl a s + b) s + c) s + d).

Definition CHAIN_HASH (x : bytes) (p : Z) : result Z := HASH x p S.
Definition LINK_HASH (H : Z) : Z := Z.shiftl 1 (Z.land H 31).
Definition ASIZE : Z := Z.shiftl 1 ALPHA.
Definition TABLE_MASK : Z := ASIZE - 1.
Definition Q2 : Z := Q + Q.
Definition END_FIRST_QGRAM : Z := Q - 1.
Definition END_SECOND_QGRAM : Z := Q2 - 1.

Definition pre_kmp : bytes -> Z -> list Z -> result (list Z) := KMP.pre_kmp.

Record chain_st := mkChain { chain_pos : Z; cH : Z; cB : list Z }.

Definition link_step (x : bytes) (s : chain_st) : result chain_st :=
  let H_last := cH s in
  let* H := CHAIN_HASH x (chain_pos s) in
  let* w := rdi (cB s) (Z.land H_last TABLE_MASK) in
  let* B' := wri (cB s) (Z.land H_last TABLE_MASK) (Z.lor w (LINK_HASH H)) in
  Ok (mkChain (chain_pos s - Q) H B').

Record pre_st := mkPre { chain_no : Z; pH : Z; pB : list Z }.

Definition chain_step (x : bytes) (m : Z) (s : pre_st) : result pre_st :=
  let* H := CHAIN_HASH x (m - chain_no s) in
  let* c := while (Datatypes.S (Z.to_nat m))
                  (fun c => Ok (chain_pos c >=? END_FIRST_QGRAM))
                  (link_step x) (mkChain (m - chain_no s - Q) H (pB s)) in
  Ok (mkPre (chain_no s - 1) (cH c) (cB c)).

Record fill_st := mkFill { fill_pos : Z; fB : list Z }.

Definition fill_step (x : bytes) (s : fill_st) : result fill_st :=
  let* F := CHAIN_HASH x (fill_pos s) in
  let* w := rdi (fB s) (Z.land F TABLE_MASK) in
  let* B' := (if w =? 0
              then wri (fB s) (Z.land F TABLE_MASK) (LINK_HASH (u32 (Z.lnot F)))
              else Ok (fB s)) in
  Ok (mkFill (fill_pos s + 1) B').

(** Unlike hc4-qverify, the number of chains is cut down for short patterns:
    [int start = m < Q2 ? m - END_FIRST_QGRAM : Q;] *)
Definition preprocessing (x : bytes) (m : Z) (B : list Z) : result (Z * list Z) :=
  let B := map (fun _ => 0) B in
  let start := if m <? Q2 then m - END_FIRST_QGRAM else Q in
  let* s1 := while (Datatypes.S (Z.to_nat Q))
                   (fun s => Ok (chain_no s >=? 1))
                   (chain_step x m) (mkPre start 0 B) in
  let stop := Z.min m END_SECOND_QGRAM in
  let* s2 := while (Datatypes.S (Z.to_nat Q))
                   (fun s => Ok (fill_pos s <? stop))
                   (fill_step x) (mkFill END_FIRST_QGRAM (pB s1)) in
  Ok (pH s1, fB s2).

Record walk_st := mkWalk { wpos : Z; wH : Z; wV : Z; failed : bool }.

Definition walk_step (y : bytes) (B : list Z) (s : walk_st) : result walk_st :=
  let pos := wpos s - Q in
  let* H := CHAIN_HASH y pos in
  if Z.land (wV s) (LINK_HASH H) =? 0 then Ok (mkWalk pos H (wV s) true)
  else
    let* V := rdi B (Z.land H TABLE_MASK) in
    Ok (mkWalk pos H V false).

(** [while (pos >= scan_back_pos) { ... }] *)
Definition walk (y : bytes) (B : list Z) (m scan_back_pos pos H V : Z)
  : result walk_st :=
  while (Datatypes.S (Z.to_nat m))
        (fun w => Ok (negb (failed w) && (wpos w >=? scan_back_pos)))
        (walk_step y B) (mkWalk pos H V false).

Record scan_st := mkScan {
  pos : Z; count : Z; rightmost_match_pos : Z; kmp_next_verify_pos : Z; kmp_pattern_pos : Z }.

Definition scan_step (x : bytes) (m : Z) (y : bytes) (n : Z) (B K : list Z)
           (s : scan_st) : result scan_st :=
  let MQ1 := m - Q + 1 in
  let* H := CHAIN_HASH y (pos s) in
  let* V := rdi B (Z.land H TABLE_MASK) in
  if V =? 0
  then
    let* pos' := int (pos s + MQ1) in
    Ok (mkScan pos' (count s) (rightmost_match_pos s)
               (kmp_next_verify_pos s) (kmp_pattern_pos s))
  else
    let end_first_qgram_pos := pos s - m + Q in
    let* scan_back_pos := int (Z.max end_first_qgram_pos (rightmost_match_pos s) + Q) in
    let rightmost := pos s in
    let* w := walk y B m scan_back_pos (pos s) H V in
    if failed w
    then
      let* pos' := int (wpos w + MQ1) in
      Ok (mkScan pos' (count s) rightmost
                 (kmp_next_verify_pos s) (kmp_pattern_pos s))
    else
      let window_start_pos := end_first_qgram_pos - Q + 1 in
      let k0 := KMP.restart window_start_pos
                  (KMP.mkKmp (kmp_pattern_pos s) (kmp_next_verify_pos s) (count s)) in
      let* k := KMP.verify x m y n K window_start_pos k0 in
      let* e := int (KMP.next_verify_pos k + m) in
      let* pos' := int (e - 1 - KMP.pattern_pos k) in
      Ok (mkScan pos' (KMP.kcount k) rightmost
                 (KMP.next_verify_pos k) (KMP.pattern_pos k)).

Definition scan (x : bytes) (m : Z) (y : bytes) (n : Z) (B K : list Z)
  : result scan_st :=
  while (Datatypes.S (Z.to_nat n)) (fun s => Ok (pos s <? n))
        (scan_step x m y n B K) (mkScan (m - 1) 0 0 0 0).

(** The states at the head of the main loop. *)
Inductive reached (x : bytes) (m : Z) (y : bytes) (n : Z) (B K : list Z)
  : scan_st -> Prop :=
| reached_init : reached x m y n B K (mkScan (m - 1) 0 0 0 0)
| reached_step s s' :
    reached x m y n B K s -> pos s < n ->
    scan_step x m y n B K s = Ok s' -> reached x m y n B K s'.

Definition search (x : bytes) (m : Z) (y : bytes) (n : Z) : result Z :=
  if m <? Q then Ok (-1)
  else
    let B := repeat 0 (Z.to_nat ASIZE) in
    let KMP := repeat 0 (Z.to_nat (m + 1)) in
    let* (Hm, B) := preprocessing x m B in
    let* K := pre_kmp x m KMP in
    let* s := scan x m y n B K in
    Ok (count s).

End LHC4.

(** ** whc3.c: weaker hash chain, Q = 3, with the rightmost-match guard *)
Module WHC3.

Definition ALPHA : Z := 11.
Definition Q : Z := 3.
Definition S : Z := ALPHA / Q.

Definition HASH (x : bytes) (p s : Z) : result Z :=
  let* a := rd x p in
  let* b := rd x (p - 1) in
  let* c := rd x (p - 2) in
  Ok (Z.shiftl (Z.shiftl a s + b) s + c).

Definition CHAIN_HASH (x : bytes) (p : Z) : result Z := HASH x p S.
Definition LINK_HASH (H : Z) : Z := Z.shiftl 1 (Z.land H 31).
Definition ASIZE : Z := Z.shiftl 1 ALPHA.
Definition TABLE_MASK : Z := ASIZE - 1.
Definition Q2 : Z := Q + Q.
Definition END_FIRST_QGRAM : Z := Q - 1.
Definition END_SECOND_QGRAM : Z := Q2 - 1.

Record chain_st := mkChain { chain_pos : Z; cH : Z; cB : list Z }.

Definition link_step (x : bytes) (s : chain_st) : result chain_st :=
  let H_last := cH s in
  let* H := CHAIN_HASH x (chain_pos s) in
  let* w := rdi (cB s) (Z.land H_last TABLE_MASK) in
  let* B' := wri (cB s) (Z.land H_last TABLE_MASK) (Z.lor w (LINK_HASH H)) in
  Ok (mkChain (chain_pos s - Q) H B').

Record pre_st := mkPre { chain_no : Z; pH : Z; pB : list Z }.

Definition chain_step (x : bytes) (m : Z) (s : pre_st) : result pre_st :=
  let* H := CHAIN_HASH x (m - chain_no s) in
  let* c := while (Datatypes.S (Z.to_nat m))
                  (fun c => Ok (chain_pos c >=? END_FIRST_QGRAM))
                  (link_step x) (mkChain (m - chain_no s - Q) H (pB s)) in
  Ok (mkPre (chain_no s - 1) (cH c) (cB c)).

Record fill_st := mkFill { fill_pos : Z; fB : list Z }.

Definition fill_step (x : bytes) (s : fill_st) : result fill_st :=
  let* F := CHAIN_HASH x (fill_pos s) in
  let* w := rdi (fB s) (Z.land F TABLE_MASK) in
  let* B' := (if w =? 0
              then wri (fB s) (Z.land F TABLE_MASK) (LINK_HASH (u32 (Z.lnot F)))
              else Ok (fB s)) in
  Ok (mkFill (fill_pos s + 1) B').

Definition preprocessing (x : bytes) (m : Z) (B : list Z) : result (Z * list Z) :=
  let B := map (fun _ => 0) B in
  let start := if m <? Q2 then m - END_FIRST_QGRAM else Q in
  let* s1 := while (Datatypes.S (Z.to_nat Q))
                   (fun s => Ok (chain_no s >=? 1))
                   (chain_step x m) (mkPre start 0 B) in
  let stop := Z.min m END_SECOND_QGRAM in
  let* s2 := while (Datatypes.S (Z.to_nat Q))
                   (fun s => Ok (fill_pos s <? stop))
                   (fill_step x) (mkFill END_FIRST_QGRAM (pB s1)) in
  Ok (pH s1, fB s2).

Record walk_st := mkWalk { wpos : Z; wH : Z; wV : Z; failed : bool }.

Definition walk_step (y : bytes) (B : list Z) (s : walk_st) : result walk_st :=
  let pos := wpos s - Q in
  let* H := CHAIN_HASH y pos in
  if Z.land (wV s) (LINK_HASH H) =? 0 then Ok (mkWalk pos H (wV s) true)
  else
    let* V := rdi B (Z.land H TABLE_MASK) in
    Ok (mkWalk pos H V false).

Definition walk (y : bytes) (B : list Z) (m scan_back_pos pos H V : Z)
  : result walk_st :=
  while (Datatypes.S (Z.to_nat m))
        (fun w => Ok (negb (failed w) && (wpos w >=? scan_back_pos)))
        (walk_step y B) (mkWalk pos H V false).

Record scan_st := mkScan { pos : Z; count : Z; rightmost_match_pos : Z }.

Definition scan_step (x : bytes) (m : Z) (y : bytes) (B : list Z)
           (s : scan_st) : result scan_st :=
  let MQ1 := m - Q + 1 in
  let* H := CHAIN_HASH y (pos s) in
  let* V := rdi B (Z.land H TABLE_MASK) in
  if V =? 0 then
    let* pos' := int (pos s + MQ1) in
    Ok (mkScan pos' (count s) (rightmost_match_pos s))
  else
    let end_first_qgram_pos := pos s - m + Q in
    let* scan_back_pos := int (Z.max end_first_qgram_pos (rightmost_match_pos s) + Q) in
    let rightmost := pos s in
    let* w := walk y B m scan_back_pos (pos s) H V in
    if failed w then
      let* pos' := int (wpos w + MQ1) in
      Ok (mkScan pos' (count s) rightmost)
    else
      let pos1 := end_first_qgram_pos in
      let* hit := memcmp_eq y (pos1 - END_FIRST_QGRAM) x m in
      let* pos' := int (pos1 + MQ1) in
      Ok (mkScan pos' (if hit then count s + 1 else count s) rightmost).

Definition scan (x : bytes) (m : Z) (y : bytes) (n : Z) (B : list Z)
  : result scan_st :=
  while (Datatypes.S (Z.to_nat n)) (fun s => Ok (pos s <? n))
        (scan_step x m y B) (mkScan (m - 1) 0 0).

Definition search (x : bytes) (m : Z) (y : bytes) (n : Z) : result Z :=
  if m <? Q then Ok (-1)
  else
    let B := repeat 0 (Z.to_nat ASIZE) in
    let* (Hm, B) := preprocessing x m B in
    let* s := scan x m y n B in
    Ok (count s).

End WHC3.

(** [y[i] = v] for an [unsigned char *y]. *)
Definition wrb (y : bytes) (i : Z) (v : byte) : result bytes :=
  if (i <? 0) || (Z.of_nat (length y) <=? i) then Fault
  else Ok (upd y (Z.to_nat i) v).

(** [x[i]] as a byte, for copying. *)
Definition rdb (x : bytes) (i : Z) : result byte :=
  if i <? 0 then Fault
  else match nth_error x (Z.to_nat i) with
       | Some b => Ok b
       | None => Fault
       end.

(** ** experiments/thc2-1.c: rolling hash chain, Q = 2, with the pattern
    copied behind the text as a sentinel.  The text buffer is state here:
    [search] returns it together with the count.  The pattern [x] and the
    buffer [y] are separate objects: no store of the copy reaches [x]. *)
Module THC2.

Definition ASIZE : Z := 2048.
Definition S1 : Z := 3.
Definition S2 : Z := 4.
Definition S3 : Z := 1.
Definition Q : Z := 2.

(** [((((x)[(p)]) << (s)) + ((x)[(p) - 1]))] *)
Definition HASH (x : bytes) (p s : Z) : result Z :=
  let* a := rd x p in
  let* b := rd x (p - 1) in
  Ok (Z.shiftl a s + b).

Definition ANCHOR_HASH (x : bytes) (p : Z) : result Z := HASH x p S1.
Definition CHAIN_HASH (x : bytes) (p : Z) : result Z := HASH x p S3.
Definition FINGERPRINT (H : Z) : Z := Z.shiftl 1 (Z.land H 31).
Definition TABLE_MASK : Z := ASIZE - 1.
Definition END_FIRST_QGRAM : Z := Q - 1.
Definition END_SECOND_QGRAM : Z := 2 * Q - 1.
Definition CEIL_DIV (n d : Z) : Z := (n + d - 1) / d.
Definition CHAIN_LENGTH : Z := (CEIL_DIV (Z.log2 ASIZE) S2 + 1) * Q.

Record chain_st := mkChain { chain_pos : Z; cH : Z; cB : list Z }.

Definition link_step (x : bytes) (s : chain_st) : result chain_st :=
  let H_last := cH s in
  let* c := CHAIN_HASH x (chain_pos s) in
  let H := u32 (Z.shiftl (cH s) S2 + c) in
  let* w := rdi (cB s) (Z.land H_last TABLE_MASK) in
  let* B' := wri (cB s) (Z.land H_last TABLE_MASK) (Z.lor w (FINGERPRINT H)) in
  Ok (mkChain (chain_pos s - Q) H B').

Record anchor_st := mkAnchor { anchor_pos : Z; aB : list Z }.

Definition anchor_step (x : bytes) (s : anchor_st) : result anchor_st :=
  let* H := ANCHOR_HASH x (anchor_pos s) in
  let start_chain := anchor_pos s - Q in
  let stop_chain := Z.max END_FIRST_QGRAM (start_chain - CHAIN_LENGTH) in
  let* c := while (Z.to_nat (CHAIN_LENGTH + 5))
                  (fun c => Ok (chain_pos c >=? stop_chain))
                  (link_step x) (mkChain start_chain H (aB s)) in
  Ok (mkAnchor (anchor_pos s + 1) (cB c)).

Definition first_step (x : bytes) (s : anchor_st) : result anchor_st :=
  let* H := ANCHOR_HASH x (anchor_pos s) in
  let* w := rdi (aB s) (Z.land H TABLE_MASK) in
  let* B' := (if w =? 0
              then wri (aB s) (Z.land H TABLE_MASK) (FINGERPRINT (u32 (Z.lnot H)))
              else Ok (aB s)) in
  Ok (mkAnchor (anchor_pos s + 1) B').

Definition roll_step (x : bytes) (s : Z * Z) : result (Z * Z) :=
  let* c := CHAIN_HASH x (fst s) in
  Ok (fst s - Q, u32 (Z.shiftl (snd s) S2 + c)).

Definition preprocessing (x : bytes) (m : Z) (B : list Z) : result (Z * list Z) :=
  let B := map (fun _ => 0) B in
  let* s1 := while (Datatypes.S (Z.to_nat m))
                   (fun s => Ok (anchor_pos s <? m))
                   (anchor_step x) (mkAnchor END_SECOND_QGRAM B) in
  let stop := Z.min m END_SECOND_QGRAM in
  let* s2 := while (Datatypes.S (Z.to_nat Q))
                   (fun s => Ok (anchor_pos s <? stop))
                   (first_step x) (mkAnchor END_FIRST_QGRAM (aB s1)) in
  let final_pos := m - 1 in
  let* H := ANCHOR_HASH x final_pos in
  let* r := while (Datatypes.S (Z.to_nat m))
                  (fun s => Ok (fst s >=? END_FIRST_QGRAM))
                  (roll_step x) (final_pos - Q, H) in
  Ok (snd r, aB s2).

(** [for (int i = 0; i < m; i++) y[n + i] = x[i];] with state (i, y). *)
Definition copy_step (x : bytes) (n : Z) (s : Z * bytes) : result (Z * bytes) :=
  let* b := rdb x (fst s) in
  let* y' := wrb (snd s) (n + fst s) b in
  Ok (fst s + 1, y').

Definition copy_pattern (x : bytes) (m : Z) (y : bytes) (n : Z) : result bytes :=
  let* s := while (Datatypes.S (Z.to_nat m)) (fun s => Ok (fst s <? m))
                  (copy_step x n) (0, y) in
  Ok (snd s).

(** [while (!((V = B[ANCHOR_HASH(y, pos) & TABLE_MASK]))) pos += MQ1;]
    The condition has no position check.  [V] is read again after the loop
    from the same table entry. *)
Definition skip_cond (y : bytes) (B : list Z) (pos : Z) : result bool :=
  let* H := ANCHOR_HASH y pos in
  let* V := rdi B (Z.land H TABLE_MASK) in
  Ok (V =? 0).

Definition skip (y : bytes) (B : list Z) (m n pos : Z) : result Z :=
  let MQ1 := m - Q + 1 in
  while (Datatypes.S (Z.to_nat (n + m))) (skip_cond y B)
        (fun pos => int (pos + MQ1)) pos.

Record walk_st := mkWalk { wpos : Z; wH : Z; wV : Z; failed : bool }.

Definition walk_step (y : bytes) (B : list Z) (s : walk_st) : result walk_st :=
  let pos := wpos s - Q in
  let* c := CHAIN_HASH y pos in
  let H := u32 (Z.shiftl (wH s) S2 + c) in
  if Z.land (wV s) (FINGERPRINT H) =? 0 then Ok (mkWalk pos H (wV s) true)
  else
    let* V := rdi B (Z.land H TABLE_MASK) in
    Ok (mkWalk pos H V false).

(** The [while (1)] loop: it steps back while [pos >= end_second_qgram_pos]
    and leaves either by the [break] of a missing fingerprint ([failed]) or
    through its [else] branch. *)
Definition walk (y : bytes) (B : list Z) (m pos H V : Z) : result walk_st :=
  let MQQ := m - Q - Q in
  let end_second_qgram_pos := pos - MQQ in
  while (Datatypes.S (Z.to_nat m))
        (fun w => Ok (negb (failed w) && (wpos w >=? end_second_qgram_pos)))
        (walk_step y B) (mkWalk pos H V false).

Record scan_st := mkScan { pos : Z; count : Z }.

Definition scan_step (x : bytes) (m : Z) (y : bytes) (n : Z) (B : list Z) (Hm : Z)
           (s : scan_st) : result scan_st :=
  let MQ := m - Q in
  let MQQ := MQ - Q in
  let MQ1 := MQ + 1 in
  let* pos1 := skip y B m n (pos s) in
  if pos1 <? n then
    let* H := ANCHOR_HASH y pos1 in
    let* V := rdi B (Z.land H TABLE_MASK) in
    let* end_second_qgram_pos := int (pos1 - MQQ) in
    let* w := walk y B m pos1 H V in
    if failed w then
      let* pos' := int (wpos w + MQ1) in
      Ok (mkScan pos' (count s))
    else
      let pos2 := end_second_qgram_pos - Q in
      let* hit := (if wH w =? Hm
                   then memcmp_eq y (pos2 - Q + 1) x m
                   else Ok false) in
      let* pos' := int (pos2 + MQ1) in
      Ok (mkScan pos' (if hit then count s + 1 else count s))
  else
    let* pos' := int (pos1 + MQ1) in
    Ok (mkScan pos' (count s)).

Definition scan (x : bytes) (m : Z) (y : bytes) (n : Z) (B : list Z) (Hm : Z)
  : result scan_st :=
  while (Datatypes.S (Z.to_nat n)) (fun s => Ok (pos s <? n))
        (scan_step x m y n B Hm) (mkScan (m - 1) 0).

(** Returns the count and the text buffer as [search] leaves it. *)
Definition search (x : bytes) (m : Z) (y : bytes) (n : Z) : result (Z * bytes) :=
  if m <? Q then Ok (-1, y)
  else
    let B := repeat 0 (Z.to_nat ASIZE) in
    let* (Hm, B) := preprocessing x m B in
    let* y := copy_pattern x m y n in
    let* s := scan x m y n B Hm in
    Ok (count s, y).

End THC2.

(** Pure readings of the thc2-1 hashes. *)
Module THC2S.

Definition anchor (x : bytes) (p : Z) : Z :=
  Z.shiftl (bv x p) THC2.S1 + bv x (p - 1).

Definition chain (x : bytes) (p : Z) : Z :=
  Z.shiftl (bv x p) THC2.S3 + bv x (p - 1).

(** The rolling hash after [j] chain steps back from the anchor at [a]. *)
Fixpoint roll (x : bytes) (a : Z) (j : nat) : Z :=
  match j with
  | O => anchor x a
  | Datatypes.S j' =>
      u32 (Z.shiftl (roll x a j') THC2.S2 + chain x (a - THC2.Q * Z.of_nat j))
  end.

Definition linked (B : list Z) (h h' : Z) : Prop :=
  Z.testbit (word_at B (Z.land h THC2.TABLE_MASK)) (Z.land h' 31) = true.

End THC2S.

(** The text buffer after the sentinel copy: the text is as it was, the
    pattern follows it, and the rest of the buffer is as it was. *)
Definition sentinel_copy (x : bytes) (m : Z) (y : bytes) (n : Z) (y' : bytes) : Prop :=
  length y' = length y /\
  (forall k, 0 <= k < n -> byte_at y' k = byte_at y k) /\
  (forall i, 0 <= i < m -> byte_at y' (n + i) = byte_at x i) /\
  (forall k, n + m <= k -> byte_at y' k = byte_at y k).

(** ** hc6.c: rolling hash chain, Q = 6 *)
Module HC6.

Definition Q : Z := 6.
Definition S1 : Z := 2.
Definition S2 : Z := 4.
Definition S3 : Z := 1.
Definition ASIZE : Z := 4096.
Definition TABLE_MASK : Z := ASIZE - 1.

Definition HASH (x : bytes) (p s : Z) : result Z :=
  let* a := rd x p in
  let* b := rd x (p - 1) in
  let* c := rd x (p - 2) in
  let* d := rd x (p - 3) in
  let* e := rd x (p - 4) in
  let* f := rd x (p - 5) in
  Ok (Z.shiftl (Z.shiftl (Z.shiftl (Z.shiftl (Z.shiftl a s + b) s + c) s + d) s + e) s + f).

Definition ANCHOR_HASH (x : bytes) (p : Z) : result Z := HASH x p S1.
Definition CHAIN_HASH (x : bytes) (p : Z) : result Z := HASH x p S3.
Definition FINGERPRINT (H : Z) : Z := Z.shiftl 1 (Z.land H 31).

Section WithLog2.

(** [LOG2] comes from include/log2.h, which is not among the sources; the
    preprocessing is taken for any value of [LOG2(ASIZE)]. *)
Variable LOG2_ASIZE : Z.

Record chain_st := mkChain { chainPos : Z; cH : Z; cB : list Z }.

(** [H2 = H; H = (H << S2) + CHAIN_HASH(x, chainPos);
     B[H2 & TABLE_MASK] |= FINGERPRINT(H);] *)
Definition link_step (x : bytes) (s : chain_st) : result chain_st :=
  let H2 := cH s in
  let* c := CHAIN_HASH x (chainPos s) in
  let H := u32 (Z.shiftl (cH s) S2 + c) in
  let* w := rdi (cB s) (Z.land H2 TABLE_MASK) in
  let* B' := wri (cB s) (Z.land H2 TABLE_MASK) (Z.lor w (FINGERPRINT H)) in
  Ok (mkChain (chainPos s - Q) H B').

Record anchor_st := mkAnchor { anchor : Z; aB : list Z }.

Definition anchor_step (x : bytes) (m fact : Z) (s : anchor_st) : result anchor_st :=
  let* H := ANCHOR_HASH x (anchor s) in
  let stop := if anchor s - fact + 1 >? Q - 1 then anchor s - fact + 1 else Q - 1 in
  let* c := while (Datatypes.S (Z.to_nat m))
                  (fun c => Ok (chainPos c >=? stop))
                  (link_step x) (mkChain (anchor s - Q) H (aB s)) in
  Ok (mkAnchor (anchor s + 1) (cB c)).

(** Step 3: [H2 = ANCHOR_HASH(x, anchor); if (!(B[H2 & TABLE_MASK]))
     B[H2 & TABLE_MASK] = FINGERPRINT(CHAIN_HASH(x, anchor) ^ 0xFF);] *)
Definition first_step (x : bytes) (s : anchor_st) : result anchor_st :=
  let* H2 := ANCHOR_HASH x (anchor s) in
  let* w := rdi (aB s) (Z.land H2 TABLE_MASK) in
  let* B' := (if w =? 0
              then let* c := CHAIN_HASH x (anchor s) in
                   wri (aB s) (Z.land H2 TABLE_MASK) (FINGERPRINT (Z.lxor c 255))
              else Ok (aB s)) in
  Ok (mkAnchor (anchor s + 1) B').

Definition preprocessing (x : bytes) (m : Z) (B : list Z) : result (Z * list Z) :=
  let rollingHashLimit := LOG2_ASIZE * Q / S2 + Q * 2 in
  let fact := if m <? rollingHashLimit then m else rollingHashLimit in
  let B := map (fun _ => 0) B in
  let* s1 := while (Datatypes.S (Z.to_nat m))
                   (fun s => Ok (anchor s <? m - 1))
                   (anchor_step x m fact) (mkAnchor (2 * Q - 1) B) in
  let* H := ANCHOR_HASH x (m - 1) in
  let* c := while (Datatypes.S (Z.to_nat m))
                  (fun c => Ok (chainPos c >=? Q - 1))
                  (link_step x) (mkChain (m - 1 - Q) H (aB s1)) in
  let stop := if m <? 2 * Q then m - 1 else 2 * Q - 1 in
  let* s3 := while (Datatypes.S (Z.to_nat (Q + 1)))
                   (fun s => Ok (anchor s <=? stop))
                   (first_step x) (mkAnchor (Q - 1) (cB c)) in
  Ok (cH c, aB s3).

End WithLog2.

Record walk_st := mkWalk { wpos : Z; wH : Z; wV : Z; failed : bool }.

(** One round of the [chain:] loop: [pos -= Q; H = (H << S2) +
    CHAIN_HASH(y, pos);], then either [V = B[H & TABLE_MASK]; goto chain;] or,
    when the fingerprint is missing, the fall through to the shift
    ([failed]). *)
Definition walk_step (y : bytes) (B : list Z) (s : walk_st) : result walk_st :=
  let pos := wpos s - Q in
  let* c := CHAIN_HASH y pos in
  let H := u32 (Z.shiftl (wH s) S2 + c) in
  if Z.land (wV s) (FINGERPRINT H) =? 0 then Ok (mkWalk pos H (wV s) true)
  else
    let* V := rdi B (Z.land H TABLE_MASK) in
    Ok (mkWalk pos H V false).

(** The loop is repeated while [pos >= endFirstQgram + Q]. *)
Definition walk (y : bytes) (B : list Z) (m pos H V : Z) : result walk_st :=
  let MQ := m - Q in
  let endFirstQgram := pos - MQ in
  while (Datatypes.S (Z.to_nat m))
        (fun w => Ok (negb (failed w) && (wpos w >=? endFirstQgram + Q)))
        (walk_step y B) (mkWalk pos H V false).

Record scan_st := mkScan { pos : Z; count : Z }.

(** One iteration of [while (pos < n)]; [endFirstQgram + Q] is the bound
    that the [chain:] loop compares [pos] with. *)
Definition scan_step (x : bytes) (m : Z) (y : bytes) (B : list Z) (Hm : Z)
           (s : scan_st) : result scan_st :=
  let MQ := m - Q in
  let MQ1 := MQ + 1 in
  let* H := ANCHOR_HASH y (pos s) in
  let* V := rdi B (Z.land H TABLE_MASK) in
  if V =? 0 then
    let* pos' := int (pos s + MQ1) in
    Ok (mkScan pos' (count s))
  else
    let endFirstQgram := pos s - MQ in
    let* _ := int (endFirstQgram + Q) in
    let* w := walk y B m (pos s) H V in
    if failed w then
      let* pos' := int (wpos w + MQ1) in
      Ok (mkScan pos' (count s))
    else
      let* hit := (if wH w =? Hm
                   then memcmp_eq y (endFirstQgram - Q + 1) x m
                   else Ok false) in
      let* pos' := int (endFirstQgram + MQ1) in
      Ok (mkScan pos' (if hit then count s + 1 else count s)).

Definition scan (x : bytes) (m : Z) (y : bytes) (n : Z) (B : list Z) (Hm : Z)
  : result scan_st :=
  while (Datatypes.S (Z.to_nat n)) (fun s => Ok (pos s <? n))
        (scan_step x m y B Hm) (mkScan (m - 1) 0).

(** [search], for a given value of [LOG2(ASIZE)]. *)
Definition search (LOG2_ASIZE : Z) (x : bytes) (m : Z) (y : bytes) (n : Z) : result Z :=
  if m <? Q then Ok (-1)
  else
    let B := repeat 0 (Z.to_nat ASIZE) in
    let* (Hm, B) := preprocessing LOG2_ASIZE x m B in
    let* s := scan x m y n B Hm in
    Ok (count s).

End HC6.

(** Pure readings of the hc6 hashes. *)
Module HC6S.

Definition anchor (x : bytes) (p : Z) : Z :=
  Z.shiftl (Z.shiftl (Z.shiftl (Z.shiftl (Z.shiftl (bv x p) HC6.S1 + bv x (p - 1)) HC6.S1
                                          + bv x (p - 2)) HC6.S1
                                + bv x (p - 3)) HC6.S1
                      + bv x (p - 4)) HC6.S1
  + bv x (p - 5).

Definition chain (x : bytes) (p : Z) : Z :=
  Z.shiftl (Z.shiftl (Z.shiftl (Z.shiftl (Z.shiftl (bv x p) HC6.S3 + bv x (p - 1)) HC6.S3
                                          + bv x (p - 2)) HC6.S3
                                + bv x (p - 3)) HC6.S3
                      + bv x (p - 4)) HC6.S3
  + bv x (p - 5).

(** The rolling hash after [j] chain steps back from the anchor at [a]. *)
Fixpoint roll (x : bytes) (a : Z) (j : nat) : Z :=
  match j with
  | O => anchor x a
  | Datatypes.S j' =>
      u32 (Z.shiftl (roll x a j') HC6.S2 + chain x (a - HC6.Q * Z.of_nat j))
  end.

Definition linked (B : list Z) (h h' : Z) : Prop :=
  Z.testbit (word_at B (Z.land h HC6.TABLE_MASK)) (Z.land h' 31) = true.

End HC6S.

(** ** experiments/shc2-1.c: plain hash chain, Q = 2 *)
Module SHC2.

Definition ASIZE : Z := 2048.
Definition S3 : Z := 3.
Definition Q : Z := 2.

Definition HASH (x : bytes) (p s : Z) : result Z :=
  let* a := rd x p in
  let* b := rd x (p - 1) in
  Ok (Z.shiftl a s + b).

Definition CHAIN_HASH (x : bytes) (p : Z) : result Z := HASH x p S3.
Definition FINGERPRINT (H : Z) : Z := Z.shiftl 1 (Z.land H 31).
Definition TABLE_MASK : Z := ASIZE - 1.
Definition END_FIRST_QGRAM : Z := Q - 1.
Definition END_SECOND_QGRAM : Z := 2 * Q - 1.

Record chain_st := mkChain { chain_pos : Z; cH : Z; cB : list Z }.

Definition link_step (x : bytes) (s : chain_st) : result chain_st :=
  let H_last := cH s in
  let* H := CHAIN_HASH x (chain_pos s) in
  let* w := rdi (cB s) (Z.land H_last TABLE_MASK) in
  let* B' := wri (cB s) (Z.land H_last TABLE_MASK) (Z.lor w (FINGERPRINT H)) in
  Ok (mkChain (chain_pos s - Q) H B').

Record pre_st := mkPre { chain_no : Z; pH : Z; pB : list Z }.

Definition chain_step (x : bytes) (m : Z) (s : pre_st) : result pre_st :=
  let* H := CHAIN_HASH x (m - chain_no s) in
  let* c := while (Datatypes.S (Z.to_nat m))
                  (fun c => Ok (chain_pos c >=? END_FIRST_QGRAM))
                  (link_step x) (mkChain (m - chain_no s - Q) H (pB s)) in
  Ok (mkPre (chain_no s - 1) (cH c) (cB c)).

Record fill_st := mkFill { fill_pos : Z; fB : list Z }.

Definition fill_step (x : bytes) (s : fill_st) : result fill_st :=
  let* F := CHAIN_HASH x (fill_pos s) in
  let* w := rdi (fB s) (Z.land F TABLE_MASK) in
  let* B' := (if w =? 0
              then wri (fB s) (Z.land F TABLE_MASK) (FINGERPRINT (u32 (Z.lnot F)))
              else Ok (fB s)) in
  Ok (mkFill (fill_pos s + 1) B').

Definition preprocessing (x : bytes) (m : Z) (B : list Z) : result (Z * list Z) :=
  let B := map (fun _ => 0) B in
  let* s1 := while (Datatypes.S (Z.to_nat Q))
                   (fun s => Ok (chain_no s >=? 1))
                   (chain_step x m) (mkPre Q 0 B) in
  let stop := Z.min m END_SECOND_QGRAM in
  let* s2 := while (Datatypes.S (Z.to_nat Q))
                   (fun s => Ok (fill_pos s <? stop))
                   (fill_step x) (mkFill END_FIRST_QGRAM (pB s1)) in
  Ok (pH s1, fB s2).

Record walk_st := mkWalk { wpos : Z; wH : Z; wV : Z; failed : bool }.

(** [pos -= Q; H = CHAIN_HASH(y, pos); if (!(V & FINGERPRINT(H))) break;
     V = B[H & TABLE_MASK];] *)
Definition walk_step (y : bytes) (B : list Z) (s : walk_st) : result walk_st :=
  let pos := wpos s - Q in
  let* H := CHAIN_HASH y pos in
  if Z.land (wV s) (FINGERPRINT H) =? 0 then Ok (mkWalk pos H (wV s) true)
  else
    let* V := rdi B (Z.land H TABLE_MASK) in
    Ok (mkWalk pos H V false).

(** The [while (1)] loop: it steps back while [pos >= end_second_qgram_pos]
    and leaves either by the [break] of a missing fingerprint ([failed]) or
    through its [else] branch. *)
Definition walk (y : bytes) (B : list Z) (m pos H V : Z) : result walk_st :=
  let MQQ := m - Q - Q in
  let end_second_qgram_pos := pos - MQQ in
  while (Datatypes.S (Z.to_nat m))
        (fun w => Ok (negb (failed w) && (wpos w >=? end_second_qgram_pos)))
        (walk_step y B) (mkWalk pos H V false).

Record scan_st := mkScan { pos : Z; count : Z }.

Definition scan_step (x : bytes) (m : Z) (y : bytes) (B : list Z) (Hm : Z)
           (s : scan_st) : result scan_st :=
  let MQ := m - Q in
  let MQQ := MQ - Q in
  let MQ1 := MQ + 1 in
  let* H := CHAIN_HASH y (pos s) in
  let* V := rdi B (Z.land H TABLE_MASK) in
  if V =? 0 then
    let* pos' := int (pos s + MQ1) in
    Ok (mkScan pos' (count s))
  else
    let* end_second_qgram_pos := int (pos s - MQQ) in
    let* w := walk y B m (pos s) H V in
    if failed w then
      let* pos' := int (wpos w + MQ1) in
      Ok (mkScan pos' (count s))
    else
      let pos1 := end_second_qgram_pos - Q in
      let* hit := (if wH w =? Hm
                   then memcmp_eq y (pos1 - Q + 1) x m
                   else Ok false) in
      let* pos' := int (pos1 + MQ1) in
      Ok (mkScan pos' (if hit then count s + 1 else count s)).

Definition scan (x : bytes) (m : Z) (y : bytes) (n : Z) (B : list Z) (Hm : Z)
  : result scan_st :=
  while (Datatypes.S (Z.to_nat n)) (fun s => Ok (pos s <? n))
        (scan_step x m y B Hm) (mkScan (m - 1) 0).

Definition search (x : bytes) (m : Z) (y : bytes) (n : Z) : result Z :=
  if m <? Q then Ok (-1)
  else
    let B := repeat 0 (Z.to_nat ASIZE) in
    let* (Hm, B) := preprocessing x m B in
    let* s := scan x m y n B Hm in
    Ok (count s).

End SHC2.

(** [while] again, counting the executions of the body. *)
Fixpoint while_count {S : Type} (fuel : nat) (cond : S -> result bool)
         (body : S -> result S) (s : S) (k : nat) : result (S * nat) :=
  match fuel with
  | O => Timeout
  | Datatypes.S f =>
      let* b := cond s in
      if b then let* s' := body s in while_count f cond body s' (Datatypes.S k)
      else Ok (s, k)
  end.

(** The main loop of hc3 on a pattern of length [m] and a text of length
    [n]: every iteration moves [pos] forward by at least one, whatever the
    table holds, and the loop of [search] ends after at most [n]
    iterations. *)
Definition hc3_main_loop_advances (x : bytes) (m : Z) (y : bytes) (n : Z) : Prop :=
  (forall B Hm s,
     Z.of_nat (length B) = HC3.ASIZE -> m - 1 <= HC3.pos s < n ->
     exists s', HC3.scan_step x m y B Hm s = Ok s' /\ HC3.pos s + 1 <= HC3.pos s') /\
  exists Hm B s (k : nat),
    HC3.preprocessing x m (repeat 0 (Z.to_nat HC3.ASIZE)) = Ok (Hm, B) /\
    while_count (Datatypes.S (Z.to_nat n)) (fun s => Ok (HC3.pos s <? n))
                (HC3.scan_step x m y B Hm) (HC3.mkScan (m - 1) 0) 0 = Ok (s, k) /\
    Z.of_nat k <= n /\
    HC3.scan x m y n B Hm = Ok s /\ n <= HC3.pos s /\
    HC3.search x m y n = Ok (HC3.count s).

(** What the scanner of hc4-qverify relies on in the table. *)
Definition hc4q_table_ok (x : bytes) (m : Z) (B : list Z) : Prop :=
  Z.of_nat (length B) = 4096 /\
  (forall p, 3 <= p -> p + 4 <= m - 1 ->
     HC4QS.linked B (HC4QS.chain x (p + 4)) (HC4QS.chain x p)) /\
  (forall p, 3 <= p < m -> word_at B (Z.land (HC4QS.chain x p) HC4Q.TABLE_MASK) <> 0).

Definition hc4q_scan_inv (x : bytes) (m : Z) (y : bytes) (s : HC4Q.scan_st) : Prop :=
  m - 1 <= HC4Q.pos s /\
  HC4Q.count s = count_below x m y (Z.to_nat (HC4Q.pos s - m + 1)).

(** The same for hc4-qverify, whose successful walks end with the batch
    verification of Q alignments; the table is arbitrary here. *)
Definition hc4q_main_loop_advances (x : bytes) (m : Z) (y : bytes) (n : Z) : Prop :=
  forall B,
    Z.of_nat (length B) = HC4Q.ASIZE ->
    (forall s, m - 1 <= HC4Q.pos s < n ->
       exists s', HC4Q.scan_step x m y n B s = Ok s' /\ HC4Q.pos s + 1 <= HC4Q.pos s') /\
    exists s (k : nat),
      while_count (Datatypes.S (Z.to_nat n)) (fun s => Ok (HC4Q.pos s <? n))
                  (HC4Q.scan_step x m y n B) (HC4Q.mkScan (m - 1) 0) 0 = Ok (s, k) /\
      Z.of_nat k <= n /\
      HC4Q.scan x m y n B = Ok s /\ n <= HC4Q.pos s.

(** ** lhc3-kmp.c: linear hash chain, Q = 3.  Its macros, its
    [preprocessing] and its backward walk are, letter for letter, those of
    whc3.c; [search] calls [preKmp], which is [pre_kmp] of lhc4.c. *)
Module LHC3K.

Definition ALPHA : Z := 11.
Definition Q : Z := 3.
Definition CHAIN_HASH : bytes -> Z -> result Z := WHC3.CHAIN_HASH.
Definition TABLE_MASK : Z := WHC3.TABLE_MASK.
Definition ASIZE : Z := WHC3.ASIZE.
Definition Q2 : Z := Q + Q.

Definition preKmp : bytes -> Z -> list Z -> result (list Z) := KMP.pre_kmp.

Definition preprocessing : bytes -> Z -> list Z -> result (Z * list Z) :=
  WHC3.preprocessing.

Record scan_st := mkScan {
  pos : Z; count : Z; next_verify_pos : Z; pattern_pos : Z }.

Definition scan_step (x : bytes) (m : Z) (y : bytes) (n : Z) (B K : list Z)
           (s : scan_st) : result scan_st :=
  let MQ1 := m - Q + 1 in
  let* H := CHAIN_HASH y (pos s) in
  let* V := rdi B (Z.land H TABLE_MASK) in
  if V =? 0
  then
    let* pos' := int (pos s + MQ1) in
    Ok (mkScan pos' (count s) (next_verify_pos s) (pattern_pos s))
  else
    let* end_second_qgram_pos := int (pos s - m + Q2) in
    let* back := int (next_verify_pos s - 1 + Q) in
    let scan_back_limit := Z.max end_second_qgram_pos back in
    let* w := WHC3.walk y B m scan_back_limit (pos s) H V in
    if WHC3.failed w
    then
      let* pos' := int (WHC3.wpos w + MQ1) in
      Ok (mkScan pos' (count s) (next_verify_pos s) (pattern_pos s))
    else
      let window_start_pos := end_second_qgram_pos - Q2 + 1 in
      let k0 := KMP.restart window_start_pos
                  (KMP.mkKmp (pattern_pos s) (next_verify_pos s) (count s)) in
      let* k := KMP.verify x m y n K window_start_pos k0 in
      let* e := int (KMP.next_verify_pos k + m) in
      let* pos' := int (e - 1 - KMP.pattern_pos k) in
      Ok (mkScan pos' (KMP.kcount k)
                 (KMP.next_verify_pos k) (KMP.pattern_pos k)).

Definition scan (x : bytes) (m : Z) (y : bytes) (n : Z) (B K : list Z)
  : result scan_st :=
  while (Datatypes.S (Z.to_nat n)) (fun s => Ok (pos s <? n))
        (scan_step x m y n B K) (mkScan (m - 1) 0 0 0).

(** The states at the head of the main loop. *)
Inductive reached (x : bytes) (m : Z) (y : bytes) (n : Z) (B K : list Z)
  : scan_st -> Prop :=
| reached_init : reached x m y n B K (mkScan (m - 1) 0 0 0)
| reached_step s s' :
    reached x m y n B K s -> pos s < n ->
    scan_step x m y n B K s = Ok s' -> reached x m y n B K s'.

Definition search (x : bytes) (m : Z) (y : bytes) (n : Z) : result Z :=
  if m <? Q then Ok (-1)
  else
    let B := repeat 0 (Z.to_nat ASIZE) in
    let KMP := repeat 0 (Z.to_nat (m + 1)) in
    let* (Hm, B) := preprocessing x m B in
    let* K := preKmp x m KMP in
    let* s := scan x m y n B K in
    Ok (count s).

End LHC3K.

(** Pure readings of the whc3 chain hash (also that of lhc3-kmp). *)
Module WHC3S.

Definition chain (x : bytes) (p : Z) : Z :=
  Z.shiftl (Z.shiftl (bv x p) WHC3.S + bv x (p - 1)) WHC3.S + bv x (p - 2).

Definition linked (B : list Z) (h h' : Z) : Prop :=
  Z.testbit (word_at B (Z.land h WHC3.TABLE_MASK)) (Z.land h' 31) = true.

End WHC3S.

(** What the scanners of whc3 and lhc3-kmp rely on in the table. *)
Definition whc3_table_ok (x : bytes) (m : Z) (B : list Z) : Prop :=
  Z.of_nat (length B) = 2048 /\
  (forall p, 2 <= p -> p + 3 <= m - 1 ->
     WHC3S.linked B (WHC3S.chain x (p + 3)) (WHC3S.chain x p)) /\
  (forall p, 2 <= p < m -> word_at B (Z.land (WHC3S.chain x p) WHC3.TABLE_MASK) <> 0).

Definition whc3_scan_inv (x : bytes) (m : Z) (y : bytes) (s : WHC3.scan_st) : Prop :=
  WHC3.rightmost_match_pos s <= WHC3.pos s /\
  m - 1 <= WHC3.pos s /\
  WHC3.count s = count_below x m y (Z.to_nat (WHC3.pos s - m + 1)).

(** Entry [k] of the failure table is the longest of its kind: every longer
    proper border of [x[0..k)] is followed by the byte that follows the
    prefix (and there is none when [k = m]). *)
Definition kmp_maximal (x : bytes) (m : Z) (K : list Z) (k : Z) : Prop :=
  forall v u, rdi K k = Ok v -> v < u < k -> border x k u ->
              k < m /\ byte_at x u = byte_at x k.

Definition kmp_sinv (x : bytes) (m : Z) (s : KMP.st) : Prop :=
  kmp_inv x m s /\
  (forall u, KMP.t s < u < KMP.j s -> ~ border x (KMP.j s) u) /\
  forall k, 0 <= k <= KMP.j s -> kmp_maximal x m (KMP.tab s) k.

(** What the scanners use of the failure table. *)
Definition kmp_table_ok (x : bytes) (m : Z) (K : list Z) : Prop :=
  Z.of_nat (length K) = m + 1 /\
  forall k, 0 <= k <= m -> kmp_entry x m K k /\ kmp_maximal x m K k.

(** [y[c..c+k) == x[0..k)]. *)
Definition pref_match (x y : bytes) (c k : Z) : Prop :=
  forall i, 0 <= i < k -> byte_at y (c + i) = byte_at x i.

(** The state of the verification: the alignment under test is
    [next_verify_pos - pattern_pos], its first [pattern_pos] bytes are known
    to match, and the occurrences at the alignments to its left have been
    counted. *)
Definition kmp_vinv (x : bytes) (m : Z) (y : bytes) (s : KMP.kmp_st) : Prop :=
  0 <= KMP.pattern_pos s < m /\ KMP.pattern_pos s <= KMP.next_verify_pos s /\
  pref_match x y (KMP.next_verify_pos s - KMP.pattern_pos s) (KMP.pattern_pos s) /\
  KMP.kcount s = count_below x m y (Z.to_nat (KMP.next_verify_pos s - KMP.pattern_pos s)).

(** What the main loop of lhc3-kmp maintains: the occurrences whose window
    ends before [pos] are counted, and the state kept for the verification
    is an alignment at or before the window of [pos] with the occurrences to
    its left counted. *)
Definition lhc3k_count_inv (x : bytes) (m : Z) (y : bytes) (s : LHC3K.scan_st) : Prop :=
  m - 1 <= LHC3K.pos s /\
  LHC3K.count s = count_below x m y (Z.to_nat (LHC3K.pos s - m + 1)) /\
  LHC3K.next_verify_pos s - LHC3K.pattern_pos s <= LHC3K.pos s - m + 1 /\
  kmp_vinv x m y (KMP.mkKmp (LHC3K.pattern_pos s) (LHC3K.next_verify_pos s) (LHC3K.count s)).

(** Pure readings of the lhc4 chain hash. *)
Module LHC4S.

Definition chain (x : bytes) (p : Z) : Z :=
  Z.shiftl (Z.shiftl (Z.shiftl (bv x p) LHC4.S + bv x (p - 1)) LHC4.S + bv x (p - 2)) LHC4.S
  + bv x (p - 3).

Definition linked (B : list Z) (h h' : Z) : Prop :=
  Z.testbit (word_at B (Z.land h LHC4.TABLE_MASK)) (Z.land h' 31) = true.

End LHC4S.

(** What the scanner of lhc4 relies on in the table. *)
Definition lhc4_table_ok (x : bytes) (m : Z) (B : list Z) : Prop :=
  Z.of_nat (length B) = 4096 /\
  (forall p, 3 <= p -> p + 4 <= m - 1 ->
     LHC4S.linked B (LHC4S.chain x (p + 4)) (LHC4S.chain x p)) /\
  (forall p, 3 <= p < m -> word_at B (Z.land (LHC4S.chain x p) LHC4.TABLE_MASK) <> 0).

(** What the main loop of lhc4 maintains for the count. *)
Definition lhc4_count_inv (x : bytes) (m : Z) (y : bytes) (s : LHC4.scan_st) : Prop :=
  LHC4.rightmost_match_pos s <= LHC4.pos s /\
  m - 1 <= LHC4.pos s /\
  LHC4.count s = count_below x m y (Z.to_nat (LHC4.pos s - m + 1)) /\
  LHC4.kmp_next_verify_pos s - LHC4.kmp_pattern_pos s <= LHC4.pos s - m + 1 /\
  kmp_vinv x m y (KMP.mkKmp (LHC4.kmp_pattern_pos s) (LHC4.kmp_next_verify_pos s) (LHC4.count s)).

(** The main loop of lhc4 advances: from every state that the main loop
    reaches, an iteration -- also one that ends with the resume position
    [pos = next_verify_pos + m - 1 - pattern_pos] of the verification --
    returns with [pos] increased, and the loop ends within [n] iterations. *)
Definition lhc4_main_loop_advances (x : bytes) (m : Z) (y : bytes) (n : Z) : Prop :=
  exists Hm B K,
    LHC4.preprocessing x m (repeat 0 (Z.to_nat LHC4.ASIZE)) = Ok (Hm, B) /\
    LHC4.pre_kmp x m (repeat 0 (Z.to_nat (m + 1))) = Ok K /\
    (forall s,
       LHC4.reached x m y n B K s -> LHC4.pos s < n ->
       exists s', LHC4.scan_step x m y n B K s = Ok s' /\
                  LHC4.pos s + 1 <= LHC4.pos s') /\
    exists s (k : nat),
      while_count (Datatypes.S (Z.to_nat n)) (fun s => Ok (LHC4.pos s <? n))
                  (LHC4.scan_step x m y n B K) (LHC4.mkScan (m - 1) 0 0 0 0) 0 = Ok (s, k) /\
      Z.of_nat k <= n /\
      LHC4.scan x m y n B K = Ok s /\ n <= LHC4.pos s /\
      LHC4.search x m y n = Ok (LHC4.count s).

(** Pure readings of the shc2-1 chain hash. *)
Module SHC2S.

Definition chain (x : bytes) (p : Z) : Z :=
  Z.shiftl (bv x p) SHC2.S3 + bv x (p - 1).

Definition linked (B : list Z) (h h' : Z) : Prop :=
  Z.testbit (word_at B (Z.land h SHC2.TABLE_MASK)) (Z.land h' 31) = true.

End SHC2S.

(** What the scanner of shc2-1 relies on in the table and in the value
    [preprocessing] returns: the hash of the leftmost q-gram of the chain
    that ends at the last byte of the pattern. *)
Definition shc2_table_ok (x : bytes) (m : Z) (B : list Z) (Hm : Z) : Prop :=
  Z.of_nat (length B) = 2048 /\
  (forall p, 1 <= p -> p + 2 <= m - 1 ->
     SHC2S.linked B (SHC2S.chain x (p + 2)) (SHC2S.chain x p)) /\
  (forall p, 1 <= p < m -> word_at B (Z.land (SHC2S.chain x p) SHC2.TABLE_MASK) <> 0) /\
  (exists k : nat, Hm = SHC2S.chain x (m - 1 - 2 * Z.of_nat k) /\
                   1 <= m - 1 - 2 * Z.of_nat k < 3).

Definition shc2_scan_inv (x : bytes) (m : Z) (y : bytes) (s : SHC2.scan_st) : Prop :=
  m - 1 <= SHC2.pos s /\
  SHC2.count s = count_below x m y (Z.to_nat (SHC2.pos s - m + 1)).

(** ** shc6.c: plain hash chain, Q = 6 *)
Module SHC6.

Definition ASIZE : Z := 4096.
Definition S3 : Z := 2.
Definition Q : Z := 6.

Definition HASH (x : bytes) (p s : Z) : result Z :=
  let* a := rd x p in
  let* b := rd x (p - 1) in
  let* c := rd x (p - 2) in
  let* d := rd x (p - 3) in
  let* e := rd x (p - 4) in
  let* f := rd x (p - 5) in
  Ok (Z.shiftl (Z.shiftl (Z.shiftl (Z.shiftl (Z.shiftl a s + b) s + c) s + d) s + e) s + f).

Definition CHAIN_HASH (x : bytes) (p : Z) : result Z := HASH x p S3.
Definition FINGERPRINT (H : Z) : Z := Z.shiftl 1 (Z.land H 31).
Definition TABLE_MASK : Z := ASIZE - 1.
Definition Q2 : Z := Q + Q.
Definition END_FIRST_QGRAM : Z := Q - 1.
Definition END_SECOND_QGRAM : Z := Q2 - 1.

Record chain_st := mkChain { chain_pos : Z; cH : Z; cB : list Z }.

Definition link_step (x : bytes) (s : chain_st) : result chain_st :=
  let H_last := cH s in
  let* H := CHAIN_HASH x (chain_pos s) in
  let* w := rdi (cB s) (Z.land H_last TABLE_MASK) in
  let* B' := wri (cB s) (Z.land H_last TABLE_MASK) (Z.lor w (FINGERPRINT H)) in
  Ok (mkChain (chain_pos s - Q) H B').

Record pre_st := mkPre { chain_no : Z; pH : Z; pB : list Z }.

Definition chain_step (x : bytes) (m : Z) (s : pre_st) : result pre_st :=
  let* H := CHAIN_HASH x (m - chain_no s) in
  let* c := while (Datatypes.S (Z.to_nat m))
                  (fun c => Ok (chain_pos c >=? END_FIRST_QGRAM))
                  (link_step x) (mkChain (m - chain_no s - Q) H (pB s)) in
  Ok (mkPre (chain_no s - 1) (cH c) (cB c)).

Record fill_st := mkFill { fill_pos : Z; fB : list Z }.

Definition fill_step (x : bytes) (s : fill_st) : result fill_st :=
  let* F := CHAIN_HASH x (fill_pos s) in
  let* w := rdi (fB s) (Z.land F TABLE_MASK) in
  let* B' := (if w =? 0
              then wri (fB s) (Z.land F TABLE_MASK) (FINGERPRINT (u32 (Z.lnot F)))
              else Ok (fB s)) in
  Ok (mkFill (fill_pos s + 1) B').

(** The chains start at [chain_no = Q] whatever the length of the pattern. *)
Definition preprocessing (x : bytes) (m : Z) (B : list Z) : result (Z * list Z) :=
  let B := map (fun _ => 0) B in
  let* s1 := while (Datatypes.S (Z.to_nat Q))
                   (fun s => Ok (chain_no s >=? 1))
                   (chain_step x m) (mkPre Q 0 B) in
  let stop := Z.min m END_SECOND_QGRAM in
  let* s2 := while (Datatypes.S (Z.to_nat Q))
                   (fun s => Ok (fill_pos s <? stop))
                   (fill_step x) (mkFill END_FIRST_QGRAM (pB s1)) in
  Ok (pH s1, fB s2).

Record walk_st := mkWalk { wpos : Z; wH : Z; wV : Z; failed : bool }.

(** The body of the loop of [search_chain]; [failed] records its
    [return]. *)
Definition walk_step (y : bytes) (B : list Z) (s : walk_st) : result walk_st :=
  let pos := wpos s - Q in
  let* H := CHAIN_HASH y pos in
  if Z.land (wV s) (FINGERPRINT H) =? 0 then Ok (mkWalk pos H (wV s) true)
  else
    let* V := rdi B (Z.land H TABLE_MASK) in
    Ok (mkWalk pos H V false).

Definition walk (y : bytes) (B : list Z) (m pos H V : Z) : result walk_st :=
  let end_second_qgram_pos := pos - m + Q2 in
  while (Datatypes.S (Z.to_nat m))
        (fun w => Ok (negb (failed w) && (wpos w >=? end_second_qgram_pos)))
        (walk_step y B) (mkWalk pos H V false).

(** [search_chain(&pos, &count, H, V, B, x, m, y, Hm)]: the values of
    [*pos] and [*count] on return. *)
Definition search_chain (pos count H V : Z) (B : list Z) (x : bytes) (m : Z)
           (y : bytes) (Hm : Z) : result (Z * Z) :=
  let* end_second_qgram_pos := int (pos - m + Q2) in
  let* w := walk y B m pos H V in
  if failed w then Ok (wpos w, count)
  else
    let pos' := end_second_qgram_pos - Q in
    let* hit := (if wH w =? Hm
                 then memcmp_eq y (pos' - END_FIRST_QGRAM) x m
                 else Ok false) in
    Ok (pos', if hit then count + 1 else count).

Record scan_st := mkScan { pos : Z; count : Z }.

(** [H = CHAIN_HASH(y, pos); V = B[H & TABLE_MASK];
     if (V) search_chain(&pos, &count, H, V, B, x, m, y, Hm); pos += MQ1;] *)
Definition scan_step (x : bytes) (m : Z) (y : bytes) (B : list Z) (Hm : Z)
           (s : scan_st) : result scan_st :=
  let MQ1 := m - Q + 1 in
  let* H := CHAIN_HASH y (pos s) in
  let* V := rdi B (Z.land H TABLE_MASK) in
  let* (pos1, count') := (if V =? 0 then Ok (pos s, count s)
                          else search_chain (pos s) (count s) H V B x m y Hm) in
  let* pos' := int (pos1 + MQ1) in
  Ok (mkScan pos' count').

Definition scan (x : bytes) (m : Z) (y : bytes) (n : Z) (B : list Z) (Hm : Z)
  : result scan_st :=
  while (Datatypes.S (Z.to_nat n)) (fun s => Ok (pos s <? n))
        (scan_step x m y B Hm) (mkScan (m - 1) 0).

Definition search (x : bytes) (m : Z) (y : bytes) (n : Z) : result Z :=
  if m <? Q then Ok (-1)
  else
    let B := repeat 0 (Z.to_nat ASIZE) in
    let* (Hm, B) := preprocessing x m B in
    let* s := scan x m y n B Hm in
    Ok (count s).

End SHC6.

(** Pure readings of the shc6 chain hash. *)
Module SHC6S.

Definition chain (x : bytes) (p : Z) : Z :=
  Z.shiftl (Z.shiftl (Z.shiftl (Z.shiftl (Z.shiftl (bv x p) SHC6.S3 + bv x (p - 1)) SHC6.S3
                                          + bv x (p - 2)) SHC6.S3
                                + bv x (p - 3)) SHC6.S3
                      + bv x (p - 4)) SHC6.S3
  + bv x (p - 5).

Definition linked (B : list Z) (h h' : Z) : Prop :=
  Z.testbit (word_at B (Z.land h SHC6.TABLE_MASK)) (Z.land h' 31) = true.

End SHC6S.

(** What the scanner of shc6 relies on in the table and in the value
    [preprocessing] returns. *)
Definition shc6_table_ok (x : bytes) (m : Z) (B : list Z) (Hm : Z) : Prop :=
  Z.of_nat (length B) = 4096 /\
  (forall p, 5 <= p -> p + 6 <= m - 1 ->
     SHC6S.linked B (SHC6S.chain x (p + 6)) (SHC6S.chain x p)) /\
  (forall p, 5 <= p < m -> word_at B (Z.land (SHC6S.chain x p) SHC6.TABLE_MASK) <> 0) /\
  (exists k : nat, Hm = SHC6S.chain x (m - 1 - 6 * Z.of_nat k) /\
                   5 <= m - 1 - 6 * Z.of_nat k < 11).

Definition shc6_scan_inv (x : bytes) (m : Z) (y : bytes) (s : SHC6.scan_st) : Prop :=
  m - 1 <= SHC6.pos s /\
  SHC6.count s = count_below x m y (Z.to_nat (SHC6.pos s - m + 1)).

(** ** src/Experimental/FastHashChain/fhc1.c: plain hash chain, Q = 1, with
    a fast loop over the empty table words *)
Module FHC1.

Definition ALPHA : Z := 8.
Definition Q : Z := 1.
Definition S : Z := ALPHA / Q.

(** [(x[p])]: the shift is unused. *)
Definition HASH (x : bytes) (p s : Z) : result Z := rd x p.

Definition CHAIN_HASH (x : bytes) (p : Z) : result Z := HASH x p S.
Definition LINK_HASH (H : Z) : Z := Z.shiftl 1 (Z.land H 31).
Definition ASIZE : Z := Z.shiftl 1 ALPHA.
Definition TABLE_MASK : Z := ASIZE - 1.
Definition Q2 : Z := Q + Q.
Definition END_FIRST_QGRAM : Z := Q - 1.
Definition END_SECOND_QGRAM : Z := Q2 - 1.

Record chain_st := mkChain { chain_pos : Z; cH : Z; cB : list Z }.

Definition link_step (x : bytes) (s : chain_st) : result chain_st :=
  let H_last := cH s in
  let* H := CHAIN_HASH x (chain_pos s) in
  let* w := rdi (cB s) (Z.land H_last TABLE_MASK) in
  let* B' := wri (cB s) (Z.land H_last TABLE_MASK) (Z.lor w (LINK_HASH H)) in
  Ok (mkChain (chain_pos s - Q) H B').

Record pre_st := mkPre { chain_no : Z; pH : Z; pB : list Z }.

Definition chain_step (x : bytes) (m : Z) (s : pre_st) : result pre_st :=
  let* H := CHAIN_HASH x (m - chain_no s) in
  let* c := while (Datatypes.S (Z.to_nat m))
                  (fun c => Ok (chain_pos c >=? END_FIRST_QGRAM))
                  (link_step x) (mkChain (m - chain_no s - Q) H (pB s)) in
  Ok (mkPre (chain_no s - 1) (cH c) (cB c)).

Record fill_st := mkFill { fill_pos : Z; fB : list Z }.

Definition fill_step (x : bytes) (s : fill_st) : result fill_st :=
  let* F := CHAIN_HASH x (fill_pos s) in
  let* w := rdi (fB s) (Z.land F TABLE_MASK) in
  let* B' := (if w =? 0
              then wri (fB s) (Z.land F TABLE_MASK) (LINK_HASH (u32 (Z.lnot F)))
              else Ok (fB s)) in
  Ok (mkFill (fill_pos s + 1) B').

Definition preprocessing (x : bytes) (m : Z) (B : list Z) : result (Z * list Z) :=
  let B := map (fun _ => 0) B in
  let* s1 := while (Datatypes.S (Z.to_nat Q))
                   (fun s => Ok (chain_no s >=? 1))
                   (chain_step x m) (mkPre Q 0 B) in
  let stop := Z.min m END_SECOND_QGRAM in
  let* s2 := while (Datatypes.S (Z.to_nat Q))
                   (fun s => Ok (fill_pos s <? stop))
                   (fill_step x) (mkFill END_FIRST_QGRAM (pB s1)) in
  Ok (pH s1, fB s2).

(** [while (pos < n && !(V = B[(H = CHAIN_HASH(y, pos)) & TABLE_MASK]))
      pos += MQ1;]
    The text is read only when [pos < n].  [H] and [V] are read again after
    the loop from the same position. *)
Definition skip_cond (y : bytes) (B : list Z) (n pos : Z) : result bool :=
  if pos <? n then
    let* H := CHAIN_HASH y pos in
    let* V := rdi B (Z.land H TABLE_MASK) in
    Ok (V =? 0)
  else Ok false.

Definition skip (y : bytes) (B : list Z) (m n pos : Z) : result Z :=
  let MQ1 := m - Q + 1 in
  while (Datatypes.S (Z.to_nat n)) (skip_cond y B n)
        (fun pos => int (pos + MQ1)) pos.

Record walk_st := mkWalk { wpos : Z; wH : Z; wV : Z; failed : bool }.

Definition walk_step (y : bytes) (B : list Z) (s : walk_st) : result walk_st :=
  let pos := wpos s - Q in
  let* H := CHAIN_HASH y pos in
  if Z.land (wV s) (LINK_HASH H) =? 0 then Ok (mkWalk pos H (wV s) true)
  else
    let* V := rdi B (Z.land H TABLE_MASK) in
    Ok (mkWalk pos H V false).

Definition walk (y : bytes) (B : list Z) (m pos H V : Z) : result walk_st :=
  let end_second_qgram_pos := pos - m + Q2 in
  while (Datatypes.S (Z.to_nat m))
        (fun w => Ok (negb (failed w) && (wpos w >=? end_second_qgram_pos)))
        (walk_step y B) (mkWalk pos H V false).

Record scan_st := mkScan { pos : Z; count : Z }.

(** One iteration of the outer [while (pos < n)]. *)
Definition scan_step (x : bytes) (m : Z) (y : bytes) (n : Z) (B : list Z) (Hm : Z)
           (s : scan_st) : result scan_st :=
  let MQ1 := m - Q + 1 in
  let* pos1 := skip y B m n (pos s) in
  if pos1 <? n then
    let* H := CHAIN_HASH y pos1 in
    let* V := rdi B (Z.land H TABLE_MASK) in
    let* end_second_qgram_pos := int (pos1 - m + Q2) in
    let* w := walk y B m pos1 H V in
    if failed w then
      let* pos' := int (wpos w + MQ1) in
      Ok (mkScan pos' (count s))
    else
      let pos2 := end_second_qgram_pos - Q in
      let* hit := (if wH w =? Hm
                   then memcmp_eq y (pos2 - END_FIRST_QGRAM) x m
                   else Ok false) in
      let* pos' := int (pos2 + MQ1) in
      Ok (mkScan pos' (if hit then count s + 1 else count s))
  else
    let* pos' := int (pos1 + MQ1) in
    Ok (mkScan pos' (count s)).

Definition scan (x : bytes) (m : Z) (y : bytes) (n : Z) (B : list Z) (Hm : Z)
  : result scan_st :=
  while (Datatypes.S (Z.to_nat n)) (fun s => Ok (pos s <? n))
        (scan_step x m y n B Hm) (mkScan (m - 1) 0).

Definition search (x : bytes) (m : Z) (y : bytes) (n : Z) : result Z :=
  if m <? Q then Ok (-1)
  else
    let B := repeat 0 (Z.to_nat ASIZE) in
    let* (Hm, B) := preprocessing x m B in
    let* s := scan x m y n B Hm in
    Ok (count s).

End FHC1.

(** Pure readings of the fhc1 chain hash. *)
Module FHC1S.

Definition chain (x : bytes) (p : Z) : Z := bv x p.

Definition linked (B : list Z) (h h' : Z) : Prop :=
  Z.testbit (word_at B (Z.land h FHC1.TABLE_MASK)) (Z.land h' 31) = true.

End FHC1S.

(** What the scanner of fhc1 relies on in the table and in the value
    [preprocessing] returns. *)
Definition fhc1_table_ok (x : bytes) (m : Z) (B : list Z) (Hm : Z) : Prop :=
  Z.of_nat (length B) = 256 /\
  (forall p, 0 <= p -> p + 1 <= m - 1 ->
     FHC1S.linked B (FHC1S.chain x (p + 1)) (FHC1S.chain x p)) /\
  (forall p, 0 <= p < m -> word_at B (Z.land (FHC1S.chain x p) FHC1.TABLE_MASK) <> 0) /\
  (exists k : nat, Hm = FHC1S.chain x (m - 1 - 1 * Z.of_nat k) /\
                   0 <= m - 1 - 1 * Z.of_nat k < 1).

Definition fhc1_scan_inv (x : bytes) (m : Z) (y : bytes) (s : FHC1.scan_st) : Prop :=
  m - 1 <= FHC1.pos s /\
  FHC1.count s = count_below x m y (Z.to_nat (FHC1.pos s - m + 1)).

(** What the scanner of thc2-1 relies on in the table that [preprocessing]
    returns. *)
Definition thc2_table_ok (x : bytes) (m : Z) (B : list Z) (Hm : Z) : Prop :=
  Z.of_nat (length B) = 2048 /\
  (forall a (j : nat), 3 <= a < m -> 1 <= a - 2 * (Z.of_nat j + 1) ->
     THC2S.linked B (THC2S.roll x a j) (THC2S.roll x a (Datatypes.S j))) /\
  (forall p, 1 <= p < m -> word_at B (Z.land (THC2S.anchor x p) THC2.TABLE_MASK) <> 0) /\
  (exists i : nat, Hm = THC2S.roll x (m - 1) i /\ -1 <= m - 3 - 2 * Z.of_nat i < 1).

(** The main loop of thc2-1 has counted the occurrences in the text
    [y[0..n)] whose window ends before [pos]. *)
Definition thc2_scan_inv (x : bytes) (m : Z) (y : bytes) (n : Z) (s : THC2.scan_st) : Prop :=
  m - 1 <= THC2.pos s /\
  THC2.count s = count_below x m (slice y 0 n) (Z.to_nat (THC2.pos s - m + 1)).

(** What the scanner of hc6 relies on in the table that [preprocessing]
    returns. *)
Definition hc6_table_ok (x : bytes) (m : Z) (B : list Z) (Hm : Z) : Prop :=
  Z.of_nat (length B) = 4096 /\
  (forall a (j : nat), 11 <= a < m -> 5 <= a - 6 * (Z.of_nat j + 1) ->
     HC6S.linked B (HC6S.roll x a j) (HC6S.roll x a (Datatypes.S j))) /\
  (forall p, 5 <= p < m -> word_at B (Z.land (HC6S.anchor x p) HC6.TABLE_MASK) <> 0) /\
  (exists i : nat, Hm = HC6S.roll x (m - 1) i /\ -1 <= m - 7 - 6 * Z.of_nat i < 5).

Definition hc6_scan_inv (x : bytes) (m : Z) (y : bytes) (s : HC6.scan_st) : Prop :=
  m - 1 <= HC6.pos s /\
  HC6.count s = count_below x m y (Z.to_nat (HC6.pos s - m + 1)).

(** ** A text at the end of the [int] range *)

(** The text of [INT_MAX] bytes 'a': the longest text whose length [search]
    can be given. *)
Definition text_of_a : bytes := repeat "a"%byte (Z.to_nat INT_MAX).

(** * Properties *)

(** ** [int] expressions in range *)

Lemma int_ok z : INT_MIN <= z <= INT_MAX -> int z = Ok z.
Proof.
  intros Hz. unfold int.
  destruct (Z.leb_spec INT_MIN z); [|lia].
  destruct (Z.leb_spec z INT_MAX); [reflexivity|lia].
Qed.

Lemma int_overflow z : INT_MAX < z -> int z = Fault.
Proof.
  intros Hz. unfold int.
  destruct (Z.leb_spec z INT_MAX); [lia|]. now rewrite andb_false_r.
Qed.

Ltac int_in_range :=
  rewrite int_ok by (unfold INT_MIN, INT_MAX in *; lia); cbn [bind].

Ltac int_cases :=
  match goal with
  | |- context [int ?z] => destruct (int z) as [?| |]; cbn [bind]; try discriminate
  end.

(** In a goal [(exists s', run = Ok s' /\ _) \/ (run = Fault /\ far)]: the
    next [int] expression of [run] is representable, or it is beyond
    [INT_MAX] and [far] holds. *)
Ltac int_or_overflow :=
  match goal with
  | |- context [int ?z] =>
      let Hov := fresh "Hov" in
      destruct (Z_le_gt_dec z INT_MAX) as [Hov|Hov];
      [ rewrite (int_ok z) by (unfold INT_MIN, INT_MAX in *; lia); cbn [bind]
      | rewrite (int_overflow z) by lia; cbn [bind];
        right; split; [reflexivity|unfold INT_MAX in *; lia] ]
  end.

(** ** Loops *)

Lemma while_total {S : Type} (Inv : S -> Prop) (mu : S -> nat)
      (cond : S -> result bool) (body : S -> result S) :
  (forall s, Inv s ->
     exists b, cond s = Ok b /\
       (b = true -> exists s', body s = Ok s' /\ Inv s' /\ (mu s' < mu s)%nat)) ->
  forall fuel s, Inv s -> (mu s < fuel)%nat ->
    exists s', while fuel cond body s = Ok s' /\ Inv s' /\ cond s' = Ok false.
Proof.
  intros Hstep fuel.
  induction fuel as [|f IH]; intros s Hinv Hmu; [lia|].
  destruct (Hstep s Hinv) as (b & Hc & Hb).
  simpl. rewrite Hc. simpl.
  destruct b.
  - destruct (Hb eq_refl) as (s' & Hbody & Hinv' & Hlt).
    rewrite Hbody. simpl. apply IH; [assumption|lia].
  - exists s. auto.
Qed.

(** ** Memory *)

Lemma rd_Ok_iff x i v :
  rd x i = Ok v <-> 0 <= i /\ exists b, nth_error x (Z.to_nat i) = Some b /\ v = u8 b.
Proof.
  unfold rd. destruct (Z.ltb_spec i 0).
  - split; [discriminate|lia].
  - destruct (nth_error x (Z.to_nat i)) as [b|].
    + split.
      * intros [= <-]. split; [lia|]. eauto.
      * intros (_ & b' & [= <-] & ->). reflexivity.
    + split; [discriminate|]. intros (_ & b' & Hb & _). discriminate.
Qed.

Lemma rd_in_range x i :
  0 <= i < Z.of_nat (length x) -> exists b, nth_error x (Z.to_nat i) = Some b /\ rd x i = Ok (u8 b).
Proof.
  intros Hi. unfold rd.
  destruct (Z.ltb_spec i 0); [lia|].
  destruct (nth_error x (Z.to_nat i)) as [b|] eqn:E.
  - eauto.
  - apply nth_error_None in E. lia.
Qed.

Lemma rd_Ok_range x i v : rd x i = Ok v -> 0 <= i < Z.of_nat (length x).
Proof.
  intros H. apply rd_Ok_iff in H. destruct H as (H0 & b & Hb & _).
  split; [assumption|].
  assert (Z.to_nat i < length x)%nat by (apply nth_error_Some; congruence). lia.
Qed.

Lemma u8_range b : 0 <= u8 b < 256.
Proof.
  unfold u8. pose proof (Byte.to_N_bounded b). lia.
Qed.

Lemma u8_inj a b : u8 a = u8 b -> a = b.
Proof.
  unfold u8. intros H. apply N2Z.inj in H.
  assert (Some a = Some b) as E; [|now inversion E].
  rewrite <- (Byte.of_to_N a), <- (Byte.of_to_N b). now rewrite H.
Qed.

Lemma length_upd {A} (a : list A) i v : length (upd a i v) = length a.
Proof.
  revert i. induction a as [|h tl IH]; intros [|i]; simpl; auto.
Qed.

Lemma nth_error_upd_eq {A} (a : list A) i v :
  (i < length a)%nat -> nth_error (upd a i v) i = Some v.
Proof.
  revert i. induction a as [|h tl IH]; intros [|i]; simpl; intros; try lia; auto.
  apply IH. lia.
Qed.

Lemma nth_error_upd_ne {A} (a : list A) i k v :
  i <> k -> nth_error (upd a i v) k = nth_error a k.
Proof.
  revert i k. induction a as [|h tl IH]; intros [|i] [|k]; simpl; intros; try congruence; auto.
Qed.

Lemma byte_at_rd x i b : byte_at x i = Some b -> rd x i = Ok (u8 b).
Proof.
  unfold byte_at, rd. destruct (i <? 0); [discriminate|]. now intros ->.
Qed.

Lemma byte_at_in_range x i :
  0 <= i < Z.of_nat (length x) -> exists b, byte_at x i = Some b.
Proof.
  intros H. destruct (rd_in_range x i H) as (b & Hb & _).
  exists b. unfold byte_at. destruct (Z.ltb_spec i 0); [lia|assumption].
Qed.

Lemma byte_at_Some_range x i b :
  byte_at x i = Some b -> 0 <= i < Z.of_nat (length x).
Proof.
  intros H. apply byte_at_rd in H. eapply rd_Ok_range; eauto.
Qed.

Lemma byte_at_None x i :
  i < 0 \/ Z.of_nat (length x) <= i -> byte_at x i = None.
Proof.
  intros H. unfold byte_at. destruct (Z.ltb_spec i 0); [reflexivity|].
  apply nth_error_None. lia.
Qed.

Lemma rdi_in_range a i :
  0 <= i < Z.of_nat (length a) -> exists v, rdi a i = Ok v.
Proof.
  intros Hi. unfold rdi.
  destruct (Z.ltb_spec i 0); [lia|].
  destruct (nth_error a (Z.to_nat i)) as [v|] eqn:E; [eauto|].
  apply nth_error_None in E. lia.
Qed.

Lemma wri_Ok a i v :
  0 <= i < Z.of_nat (length a) -> wri a i v = Ok (upd a (Z.to_nat i) v).
Proof.
  intros Hi. unfold wri.
  destruct (Z.ltb_spec i 0); [lia|].
  destruct (Z.leb_spec (Z.of_nat (length a)) i); [lia|]. reflexivity.
Qed.

Lemma rdi_upd_eq a i v :
  0 <= i < Z.of_nat (length a) -> rdi (upd a (Z.to_nat i) v) i = Ok v.
Proof.
  intros Hi. unfold rdi. destruct (Z.ltb_spec i 0); [lia|].
  rewrite nth_error_upd_eq by lia. reflexivity.
Qed.

Lemma rdi_upd_ne a i k v :
  0 <= i -> 0 <= k -> i <> k -> rdi (upd a (Z.to_nat i) v) k = rdi a k.
Proof.
  intros Hi Hk Hne. unfold rdi. destruct (Z.ltb_spec k 0); [lia|].
  rewrite nth_error_upd_ne by lia. reflexivity.
Qed.

Lemma nth_error_slice x a b i :
  0 <= a -> nth_error (slice x a b) i =
            if (Z.of_nat i <? b - a) then nth_error x (Z.to_nat a + i) else None.
Proof.
  intros Ha. unfold slice.
  destruct (Z.ltb_spec (Z.of_nat i) (b - a)).
  - rewrite nth_error_firstn.
    destruct (Nat.ltb_spec i (Z.to_nat (b - a))); [|lia].
    apply nth_error_skipn.
  - rewrite nth_error_firstn.
    destruct (Nat.ltb_spec i (Z.to_nat (b - a))); [lia|reflexivity].
Qed.

Lemma list_eq_nth_error {A} (l1 l2 : list A) :
  (forall i, nth_error l1 i = nth_error l2 i) -> l1 = l2.
Proof.
  revert l2. induction l1 as [|a l1 IH]; intros [|b l2] H.
  - reflexivity.
  - specialize (H O). discriminate.
  - specialize (H O). discriminate.
  - pose proof (H O) as H0. simpl in H0. injection H0 as ->.
    f_equal. apply IH. intros i. exact (H (Datatypes.S i)).
Qed.

(** ** The failure table *)

Lemma border_trans x j t v :
  0 <= v <= t -> t <= j -> border x j t -> border x t v -> border x j v.
Proof.
  intros Hv Ht Hjt Htv i Hi.
  rewrite (Htv i Hi).
  rewrite (Hjt (t - v + i)) by lia.
  f_equal. lia.
Qed.

Lemma border_neg x k v : v <= 0 -> border x k v.
Proof. intros Hv i Hi. lia. Qed.

Lemma border_slice x k v :
  v <= k -> border x k v -> slice x 0 v = slice x (k - v) k.
Proof.
  intros Hvk Hb.
  destruct (Z.le_gt_cases v 0) as [Hv|Hv].
  - unfold slice. replace (Z.to_nat (v - 0)) with O by lia.
    replace (Z.to_nat (k - (k - v))) with O by lia. reflexivity.
  - apply list_eq_nth_error. intros i.
    rewrite !nth_error_slice by lia.
    replace (k - (k - v)) with (v - 0) by lia.
    destruct (Z.ltb_spec (Z.of_nat i) (v - 0)); [|reflexivity].
    specialize (Hb (Z.of_nat i) ltac:(lia)).
    unfold byte_at in Hb.
    destruct (Z.ltb_spec (Z.of_nat i) 0); [lia|].
    destruct (Z.ltb_spec (k - v + Z.of_nat i) 0); [lia|].
    rewrite Nat2Z.id in Hb.
    replace (Z.to_nat (k - v + Z.of_nat i)) with (Z.to_nat (k - v) + i)%nat in Hb by lia.
    simpl. exact Hb.
Qed.

Lemma kmp_inner_loop x m s :
  Z.of_nat (length x) = m -> kmp_inv x m s -> KMP.j s < m ->
  exists t1,
    while (Datatypes.S (Z.to_nat (KMP.t s + 1)))
          (KMP.inner_cond x (KMP.j s) (KMP.tab s)) (KMP.inner_body (KMP.tab s)) (KMP.t s)
    = Ok t1 /\
    -1 <= t1 < KMP.j s /\ border x (KMP.j s) t1 /\
    (0 <= t1 -> byte_at x (KMP.j s) = byte_at x t1).
Proof.
  intros Hlen (Hj & Ht & HK & Hb & Hent) Hjm.
  destruct (while_total
              (fun tt => -1 <= tt <= KMP.t s /\ border x (KMP.j s) tt)
              (fun tt => Z.to_nat (tt + 1))
              (KMP.inner_cond x (KMP.j s) (KMP.tab s)) (KMP.inner_body (KMP.tab s)))
    with (fuel := Datatypes.S (Z.to_nat (KMP.t s + 1))) (s := KMP.t s)
    as (t1 & Hrun & (Ht1 & Hb1) & Hexit).
  - intros tt (Htt & Hbt). unfold KMP.inner_cond, KMP.inner_body.
    destruct (Z.gtb_spec tt (-1)).
    + destruct (byte_at_in_range x (KMP.j s)) as (a & Ha); [lia|].
      destruct (byte_at_in_range x tt) as (b & Hbb); [lia|].
      rewrite (byte_at_rd _ _ _ Ha), (byte_at_rd _ _ _ Hbb). simpl.
      eexists. split; [reflexivity|]. intros _.
      destruct (Hent tt ltac:(lia)) as (v & Hv & Hvr & Hvb & _).
      exists v. split; [assumption|]. split; [|lia].
      split; [lia|].
      destruct (Z.le_gt_cases v 0); [now apply border_neg|].
      apply border_trans with (t := tt); auto; lia.
    + exists false. split; [reflexivity|discriminate].
  - split; [lia|assumption].
  - lia.
  - exists t1. split; [assumption|]. split; [lia|]. split; [assumption|].
    intros H0. unfold KMP.inner_cond in Hexit.
    destruct (Z.gtb_spec t1 (-1)); [|lia].
    destruct (byte_at_in_range x (KMP.j s)) as (a & Ha); [lia|].
    destruct (byte_at_in_range x t1) as (b & Hbb); [lia|].
    rewrite (byte_at_rd _ _ _ Ha), (byte_at_rd _ _ _ Hbb) in Hexit. simpl in Hexit.
    injection Hexit as Hexit. apply negb_false_iff, Z.eqb_eq, u8_inj in Hexit.
    congruence.
Qed.

Lemma kmp_entry_upd x m K k j v :
  0 <= k -> 0 <= j -> k <> j -> kmp_entry x m K k ->
  kmp_entry x m (upd K (Z.to_nat j) v) k.
Proof.
  intros Hk Hj Hne (w & Hw & Hrest). exists w.
  rewrite rdi_upd_ne by lia. auto.
Qed.

Lemma kmp_outer_step x m s :
  Z.of_nat (length x) = m -> kmp_inv x m s -> KMP.j s < m ->
  exists s', KMP.outer_body x m s = Ok s' /\ kmp_inv x m s' /\
             KMP.j s' = KMP.j s + 1.
Proof.
  intros Hlen Hinv Hjm.
  destruct (kmp_inner_loop x m s Hlen Hinv Hjm) as (t1 & Hrun & Ht1 & Hb1 & Heq).
  destruct Hinv as (Hj & Ht & HK & Hb & Hent).
  unfold KMP.outer_body. rewrite Hrun. simpl.
  set (j' := KMP.j s + 1). set (t' := t1 + 1).
  assert (Hb' : border x j' t').
  { intros i Hi. subst j' t'.
    destruct (Z.eq_dec i t1) as [->|Hne].
    - rewrite <- Heq by lia. f_equal. lia.
    - rewrite (Hb1 i) by lia. f_equal. lia. }
  assert (Hold : forall w k, 0 <= k <= KMP.j s ->
                             kmp_entry x m (upd (KMP.tab s) (Z.to_nat j') w) k).
  { intros w k Hk. apply kmp_entry_upd; subst j'; try lia. apply Hent. lia. }
  destruct (Z.ltb_spec j' m) as [Hlt|Hge].
  - destruct (byte_at_in_range x j') as (a & Ha); [lia|].
    destruct (byte_at_in_range x t') as (b & Hbb); [subst j' t'; lia|].
    rewrite (byte_at_rd _ _ _ Ha), (byte_at_rd _ _ _ Hbb). simpl.
    destruct (Z.eqb_spec (u8 a) (u8 b)) as [Hab|Hab].
    + apply u8_inj in Hab. subst b.
      destruct (Hent t' ltac:(subst t'; lia)) as (v & Hv & Hvr & Hvb & Hvne).
      rewrite Hv. simpl. rewrite wri_Ok by (subst j'; lia). simpl.
      eexists. split; [reflexivity|]. split; [|reflexivity].
      unfold kmp_inv. simpl. rewrite length_upd.
      repeat split; try (subst j' t'; lia); auto.
      intros k Hk. destruct (Z.eq_dec k j') as [->|Hne]; [|apply Hold; lia].
      exists v. rewrite rdi_upd_eq by (subst j'; lia).
      split; [reflexivity|]. split; [subst j' t'; lia|]. split.
      * destruct (Z.le_gt_cases v 0); [now apply border_neg|].
        apply border_trans with (t := t'); auto; subst j' t'; lia.
      * intros _ Hv0. rewrite Ha, <- Hbb. apply Hvne; [subst j' t'; lia|assumption].
    + rewrite wri_Ok by (subst j'; lia). simpl.
      eexists. split; [reflexivity|]. split; [|reflexivity].
      unfold kmp_inv. simpl. rewrite length_upd.
      repeat split; try (subst j' t'; lia); auto.
      intros k Hk. destruct (Z.eq_dec k j') as [->|Hne]; [|apply Hold; lia].
      exists t'. rewrite rdi_upd_eq by (subst j'; lia).
      split; [reflexivity|]. split; [subst j' t'; lia|]. split; [assumption|].
      intros _ _. rewrite Ha, Hbb. intros [= E]. apply Hab. now rewrite E.
  - simpl. rewrite wri_Ok by (subst j'; lia). simpl.
    eexists. split; [reflexivity|]. split; [|reflexivity].
    unfold kmp_inv. simpl. rewrite length_upd.
    repeat split; try (subst j' t'; lia); auto.
    intros k Hk. destruct (Z.eq_dec k j') as [->|Hne]; [|apply Hold; lia].
    exists t'. rewrite rdi_upd_eq by (subst j'; lia).
    split; [reflexivity|]. split; [subst j' t'; lia|]. split; [assumption|].
    intros Hlt. lia.
Qed.

(** ** Tables and fingerprints *)

Lemma rdi_word B i : 0 <= i < Z.of_nat (length B) -> rdi B i = Ok (word_at B i).
Proof.
  intros Hi. unfold rdi, word_at. destruct (Z.ltb_spec i 0); [lia|].
  destruct (nth_error B (Z.to_nat i)) eqn:E.
  - now rewrite (nth_error_nth _ _ _ E).
  - apply nth_error_None in E. lia.
Qed.

Lemma word_at_upd_eq B i v :
  0 <= i < Z.of_nat (length B) -> word_at (upd B (Z.to_nat i) v) i = v.
Proof.
  intros Hi. unfold word_at. apply nth_error_nth. apply nth_error_upd_eq. lia.
Qed.

Lemma word_at_upd_ne B i k v :
  0 <= i -> 0 <= k -> i <> k -> word_at (upd B (Z.to_nat i) v) k = word_at B k.
Proof.
  intros Hi Hk Hne. unfold word_at.
  assert (E : nth_error (upd B (Z.to_nat i) v) (Z.to_nat k) = nth_error B (Z.to_nat k))
    by (apply nth_error_upd_ne; lia).
  destruct (nth_error B (Z.to_nat k)) eqn:E1.
  - rewrite (nth_error_nth _ _ _ E), (nth_error_nth _ _ _ E1). reflexivity.
  - rewrite !nth_overflow; auto.
    + apply nth_error_None. exact E1.
    + apply nth_error_None. exact E.
Qed.

Lemma word_at_neg_index B i v k :
  word_at (upd B (Z.to_nat i) v) k = if (Z.to_nat k =? Z.to_nat i)%nat
                                      then (if (Z.to_nat i <? length B)%nat then v else 0)
                                      else word_at B k.
Proof.
  unfold word_at.
  destruct (Nat.eqb_spec (Z.to_nat k) (Z.to_nat i)) as [->|Hne].
  - destruct (Nat.ltb_spec (Z.to_nat i) (length B)).
    + apply nth_error_nth. now apply nth_error_upd_eq.
    + apply nth_overflow. rewrite length_upd. lia.
  - assert (E : nth_error (upd B (Z.to_nat i) v) (Z.to_nat k) = nth_error B (Z.to_nat k))
      by (apply nth_error_upd_ne; lia).
    destruct (nth_error B (Z.to_nat k)) eqn:E1.
    + rewrite (nth_error_nth _ _ _ E), (nth_error_nth _ _ _ E1). reflexivity.
    + rewrite !nth_overflow; auto.
      * apply nth_error_None. exact E1.
      * apply nth_error_None. exact E.
Qed.

Lemma land_lor_self a b : Z.land a (Z.lor a b) = a.
Proof.
  apply Z.bits_inj'. intros k _. rewrite Z.land_spec, Z.lor_spec.
  destruct (Z.testbit a k); reflexivity.
Qed.

Lemma tbl_le_refl B : tbl_le B B.
Proof. split; [reflexivity|]. intros i. apply Z.land_diag. Qed.

Lemma tbl_le_trans B1 B2 B3 : tbl_le B1 B2 -> tbl_le B2 B3 -> tbl_le B1 B3.
Proof.
  intros (L1 & H1) (L2 & H2). split; [congruence|]. intros i.
  rewrite <- (H1 i) at 1. rewrite <- Z.land_assoc, H2. apply H1.
Qed.

Lemma tbl_le_lor B i f :
  0 <= i < Z.of_nat (length B) ->
  tbl_le B (upd B (Z.to_nat i) (Z.lor (word_at B i) f)).
Proof.
  intros Hi. split; [apply length_upd|]. intros k.
  rewrite word_at_neg_index.
  destruct (Nat.eqb_spec (Z.to_nat k) (Z.to_nat i)) as [E|E].
  - destruct (Nat.ltb_spec (Z.to_nat i) (length B)); [|lia].
    unfold word_at. rewrite E. apply land_lor_self.
  - apply Z.land_diag.
Qed.

Lemma tbl_le_fill B i f :
  0 <= i < Z.of_nat (length B) -> word_at B i = 0 ->
  tbl_le B (upd B (Z.to_nat i) f).
Proof.
  intros Hi Hz. split; [apply length_upd|]. intros k.
  rewrite word_at_neg_index.
  destruct (Nat.eqb_spec (Z.to_nat k) (Z.to_nat i)) as [E|E].
  - destruct (Nat.ltb_spec (Z.to_nat i) (length B)); [|lia].
    unfold word_at in *. rewrite E, Hz. apply Z.land_0_l.
  - apply Z.land_diag.
Qed.

Lemma tbl_le_bit B B' i k :
  tbl_le B B' -> Z.testbit (word_at B i) k = true -> Z.testbit (word_at B' i) k = true.
Proof.
  intros (_ & H) Hb. rewrite <- (H i) in Hb. rewrite Z.land_spec in Hb.
  now apply andb_true_iff in Hb.
Qed.

Lemma tbl_le_nonzero B B' i :
  tbl_le B B' -> word_at B i <> 0 -> word_at B' i <> 0.
Proof.
  intros (_ & H) Hn E. apply Hn. rewrite <- (H i), E. apply Z.land_0_r.
Qed.

Lemma land_mask_range H k : 0 < k -> 0 <= Z.land H (2 ^ k - 1) < 2 ^ k.
Proof.
  intros Hk. replace (2 ^ k - 1) with (Z.ones k) by (rewrite Z.ones_equiv; lia).
  rewrite Z.land_ones by lia. apply Z.mod_pos_bound. lia.
Qed.

Lemma fp_testbit H k :
  0 <= k -> Z.testbit (Z.shiftl 1 (Z.land H 31)) k = (k =? Z.land H 31).
Proof.
  intros Hk. pose proof (land_mask_range H 5 ltac:(lia)) as Hr.
  change (2 ^ 5 - 1) with 31 in Hr. change (2^5) with 32 in Hr.
  rewrite Z.shiftl_1_l, Z.pow2_bits_eqb by lia. apply Z.eqb_sym.
Qed.

Lemma land_fp_zero V H :
  (Z.land V (Z.shiftl 1 (Z.land H 31)) =? 0) = negb (Z.testbit V (Z.land H 31)).
Proof.
  pose proof (land_mask_range H 5 ltac:(lia)) as Hr.
  change (2 ^ 5 - 1) with 31 in Hr. change (2^5) with 32 in Hr.
  destruct (Z.testbit V (Z.land H 31)) eqn:E; simpl.
  - apply Z.eqb_neq. intros E0.
    assert (Z.testbit (Z.land V (Z.shiftl 1 (Z.land H 31))) (Z.land H 31) = true).
    { rewrite Z.land_spec, E, fp_testbit by lia. now rewrite Z.eqb_refl. }
    rewrite E0 in H0. rewrite Z.testbit_0_l in H0. discriminate.
  - apply Z.eqb_eq. apply Z.bits_inj'. intros k Hk.
    rewrite Z.land_spec, fp_testbit, Z.testbit_0_l by lia.
    destruct (Z.eqb_spec k (Z.land H 31)) as [->|]; [now rewrite E|apply andb_false_r].
Qed.

(** ** hc3: preprocessing *)

Lemma rd_bv x i : 0 <= i < Z.of_nat (length x) -> rd x i = Ok (bv x i).
Proof.
  intros Hi. destruct (byte_at_in_range x i Hi) as (b & Hb).
  unfold bv. rewrite Hb. now apply byte_at_rd.
Qed.

Lemma bv_range x i : 0 <= bv x i < 256.
Proof.
  unfold bv. destruct (byte_at x i); [apply u8_range|lia].
Qed.

Lemma land31_range H : 0 <= Z.land H 31 < 32.
Proof. exact (land_mask_range H 5 ltac:(lia)). Qed.

Lemma hc3_HASH_val x p s :
  2 <= p < Z.of_nat (length x) -> HC3.HASH x p s = Ok (HC3S.hashv x p s).
Proof.
  intros Hp. unfold HC3.HASH, HC3S.hashv.
  rewrite !rd_bv by lia. reflexivity.
Qed.

Lemma hc3_mask_range H :
  0 <= Z.land H HC3.TABLE_MASK < 2048.
Proof. exact (land_mask_range H 11 ltac:(lia)). Qed.

Lemma hc3_linked_mono B B' h h' :
  tbl_le B B' -> HC3S.linked B h h' -> HC3S.linked B' h h'.
Proof. intros Hle Hl. unfold HC3S.linked in *. eapply tbl_le_bit; eauto. Qed.

Lemma hc3_link_step x s :
  2 <= HC3.chain_pos s < Z.of_nat (length x) ->
  Z.of_nat (length (HC3.cB s)) = 2048 ->
  let H' := u32 (Z.shiftl (HC3.cH s) HC3.S2 + HC3S.chain x (HC3.chain_pos s)) in
  exists B', HC3.link_step x s = Ok (HC3.mkChain (HC3.chain_pos s - 3) H' B') /\
             Z.of_nat (length B') = 2048 /\ tbl_le (HC3.cB s) B' /\
             HC3S.linked B' (HC3.cH s) H'.
Proof.
  intros Hp HB H'. unfold HC3.link_step, HC3.CHAIN_HASH.
  rewrite hc3_HASH_val by assumption. cbn [bind].
  pose proof (hc3_mask_range (HC3.cH s)) as Hr.
  rewrite rdi_word by lia. cbn [bind].
  rewrite wri_Ok by lia. cbn [bind].
  eexists. split; [reflexivity|].
  split; [rewrite length_upd; assumption|].
  split; [apply tbl_le_lor; lia|].
  unfold HC3S.linked. rewrite word_at_upd_eq by lia.
  rewrite Z.lor_spec. unfold HC3.LINK_HASH.
  rewrite fp_testbit.
  - fold HC3S.chain. fold H'. rewrite Z.eqb_refl. apply orb_true_r.
  - apply land31_range.
Qed.

(** The chain of one anchor: every step down to [stop_chain] is recorded. *)
Lemma hc3_chain_loop x a B0 :
  5 <= a < Z.of_nat (length x) -> Z.of_nat (length B0) = 2048 ->
  exists c,
    while (Z.to_nat (HC3.CHAIN_LENGTH + 5))
          (fun c => Ok (HC3.chain_pos c >=? Z.max HC3.END_FIRST_QGRAM (a - HC3.Q - HC3.CHAIN_LENGTH)))
          (HC3.link_step x) (HC3.mkChain (a - HC3.Q) (HC3S.anchor x a) B0) = Ok c /\
    Z.of_nat (length (HC3.cB c)) = 2048 /\ tbl_le B0 (HC3.cB c) /\
    forall j : nat, Z.max 2 (a - 15) <= a - 3 * (Z.of_nat j + 1) ->
                    HC3S.linked (HC3.cB c) (HC3S.roll x a j) (HC3S.roll x a (Datatypes.S j)).
Proof.
  intros Ha HB.
  change HC3.CHAIN_LENGTH with 12. change HC3.Q with 3. change HC3.END_FIRST_QGRAM with 2.
  set (stop := Z.max 2 (a - 3 - 12)).
  destruct (while_total
    (fun c => exists i : nat,
       HC3.chain_pos c = a - 3 - 3 * Z.of_nat i /\ HC3.cH c = HC3S.roll x a i /\
       Z.of_nat (length (HC3.cB c)) = 2048 /\ tbl_le B0 (HC3.cB c) /\
       stop - 3 <= HC3.chain_pos c /\
       forall j : nat, (j < i)%nat ->
          HC3S.linked (HC3.cB c) (HC3S.roll x a j) (HC3S.roll x a (Datatypes.S j)))
    (fun c => Z.to_nat (HC3.chain_pos c - stop + 4))
    (fun c => Ok (HC3.chain_pos c >=? stop)) (HC3.link_step x))
    with (fuel := Z.to_nat (12 + 5)) (s := HC3.mkChain (a - 3) (HC3S.anchor x a) B0)
    as (c & Hrun & (i & Hpos & HH & Hlen & Hle & Hlow & Hlinks) & Hexit).
  - intros c (i & Hpos & HH & Hlen & Hle & Hlow & Hlinks).
    eexists. split; [reflexivity|]. intros Hc. apply Z.geb_le in Hc.
    destruct (hc3_link_step x c) as (B' & Hstep & HlenB' & HleB' & Hlk); [subst stop; lia|assumption|].
    eexists. split; [exact Hstep|]. cbn [HC3.chain_pos HC3.cH HC3.cB]. split; [|lia].
    exists (Datatypes.S i). split; [lia|]. split.
    { cbn [HC3S.roll]. rewrite HH. change HC3.Q with 3. do 3 f_equal. lia. }
    split; [assumption|]. split; [eapply tbl_le_trans; eauto|]. split; [lia|].
    intros j Hj. destruct (Nat.eq_dec j i) as [->|Hne].
    + cbn [HC3S.roll]. rewrite HH in Hlk. change HC3.Q with 3.
      replace (a - 3 * Z.of_nat (Datatypes.S i)) with (HC3.chain_pos c) by lia. exact Hlk.
    + eapply hc3_linked_mono; [exact HleB'|]. apply Hlinks. lia.
  - exists O. cbn [HC3.chain_pos HC3.cH HC3.cB HC3S.roll].
    split; [lia|]. split; [reflexivity|]. split; [assumption|].
    split; [apply tbl_le_refl|]. split; [subst stop; lia|]. intros j Hj. lia.
  - cbn [HC3.chain_pos]. subst stop. lia.
  - exists c. split; [exact Hrun|]. split; [assumption|]. split; [assumption|].
    intros j Hj. apply Hlinks. injection Hexit as Hexit.
    assert (HC3.chain_pos c < stop) by (destruct (Z.geb_spec (HC3.chain_pos c) stop); [discriminate|lia]).
    subst stop. lia.
Qed.

Lemma hc3_anchor_step x s :
  5 <= HC3.anchor_pos s < Z.of_nat (length x) ->
  Z.of_nat (length (HC3.aB s)) = 2048 ->
  exists B', HC3.anchor_step x s = Ok (HC3.mkAnchor (HC3.anchor_pos s + 1) B') /\
    Z.of_nat (length B') = 2048 /\ tbl_le (HC3.aB s) B' /\
    forall j : nat,
      Z.max 2 (HC3.anchor_pos s - 15) <= HC3.anchor_pos s - 3 * (Z.of_nat j + 1) ->
      HC3S.linked B' (HC3S.roll x (HC3.anchor_pos s) j)
                  (HC3S.roll x (HC3.anchor_pos s) (Datatypes.S j)).
Proof.
  intros Ha HB. unfold HC3.anchor_step, HC3.ANCHOR_HASH.
  rewrite hc3_HASH_val by lia. cbn [bind]. cbv zeta.
  destruct (hc3_chain_loop x (HC3.anchor_pos s) (HC3.aB s) Ha HB)
    as (c & Hrun & Hlen & Hle & Hlinks).
  fold (HC3S.anchor x (HC3.anchor_pos s)). rewrite Hrun. cbn [bind].
  eauto.
Qed.

Lemma hc3_anchor_loop x m B0 :
  Z.of_nat (length x) = m -> Z.of_nat (length B0) = 2048 ->
  exists s,
    while (Datatypes.S (Z.to_nat m)) (fun s => Ok (HC3.anchor_pos s <? m))
          (HC3.anchor_step x) (HC3.mkAnchor HC3.END_SECOND_QGRAM B0) = Ok s /\
    Z.of_nat (length (HC3.aB s)) = 2048 /\ tbl_le B0 (HC3.aB s) /\
    forall a (j : nat), 5 <= a < m -> Z.max 2 (a - 15) <= a - 3 * (Z.of_nat j + 1) ->
      HC3S.linked (HC3.aB s) (HC3S.roll x a j) (HC3S.roll x a (Datatypes.S j)).
Proof.
  intros Hm HB. change HC3.END_SECOND_QGRAM with 5.
  destruct (while_total
    (fun s => 5 <= HC3.anchor_pos s /\ Z.of_nat (length (HC3.aB s)) = 2048 /\
              tbl_le B0 (HC3.aB s) /\
              forall a (j : nat), 5 <= a < HC3.anchor_pos s -> a < m ->
                Z.max 2 (a - 15) <= a - 3 * (Z.of_nat j + 1) ->
                HC3S.linked (HC3.aB s) (HC3S.roll x a j) (HC3S.roll x a (Datatypes.S j)))
    (fun s => Z.to_nat (m - HC3.anchor_pos s))
    (fun s => Ok (HC3.anchor_pos s <? m)) (HC3.anchor_step x))
    with (fuel := Datatypes.S (Z.to_nat m)) (s := HC3.mkAnchor 5 B0)
    as (s & Hrun & (Hpos & Hlen & Hle & Hlinks) & Hexit).
  - intros s (Hpos & Hlen & Hle & Hlinks).
    eexists. split; [reflexivity|]. intros Hc. apply Z.ltb_lt in Hc.
    destruct (hc3_anchor_step x s) as (B' & Hstep & HlenB' & HleB' & Hlk); [lia|assumption|].
    eexists. split; [exact Hstep|]. cbn [HC3.anchor_pos HC3.aB]. split; [|lia].
    split; [lia|]. split; [assumption|]. split; [eapply tbl_le_trans; eauto|].
    intros a j Ha Ham Hj.
    destruct (Z.eq_dec a (HC3.anchor_pos s)) as [->|Hne].
    + now apply Hlk.
    + eapply hc3_linked_mono; [exact HleB'|]. apply Hlinks; lia.
  - cbn [HC3.anchor_pos HC3.aB]. split; [lia|]. split; [assumption|].
    split; [apply tbl_le_refl|]. intros; lia.
  - cbn [HC3.anchor_pos]. lia.
  - exists s. split; [exact Hrun|]. split; [assumption|]. split; [assumption|].
    injection Hexit as Hexit. apply Z.ltb_ge in Hexit.
    intros a j Ha Hj. apply Hlinks; lia.
Qed.

Lemma LINK_HASH_pos H : 0 < HC3.LINK_HASH H.
Proof.
  unfold HC3.LINK_HASH. rewrite Z.shiftl_1_l.
  apply Z.pow_pos_nonneg; [lia|apply land31_range].
Qed.

Lemma hc3_first_step x s :
  2 <= HC3.anchor_pos s < Z.of_nat (length x) ->
  Z.of_nat (length (HC3.aB s)) = 2048 ->
  exists B', HC3.first_step x s = Ok (HC3.mkAnchor (HC3.anchor_pos s + 1) B') /\
    Z.of_nat (length B') = 2048 /\ tbl_le (HC3.aB s) B' /\
    word_at B' (Z.land (HC3S.anchor x (HC3.anchor_pos s)) HC3.TABLE_MASK) <> 0.
Proof.
  intros Ha HB. unfold HC3.first_step, HC3.ANCHOR_HASH.
  rewrite hc3_HASH_val by lia. cbn [bind].
  fold (HC3S.anchor x (HC3.anchor_pos s)).
  pose proof (hc3_mask_range (HC3S.anchor x (HC3.anchor_pos s))) as Hr.
  rewrite rdi_word by lia. cbn [bind].
  destruct (Z.eqb_spec (word_at (HC3.aB s) (Z.land (HC3S.anchor x (HC3.anchor_pos s)) HC3.TABLE_MASK)) 0)
    as [Hz|Hnz].
  - rewrite wri_Ok by lia. cbn [bind]. eexists. split; [reflexivity|].
    split; [rewrite length_upd; assumption|].
    split; [apply tbl_le_fill; [lia|assumption]|].
    rewrite word_at_upd_eq by lia.
    pose proof (LINK_HASH_pos (u32 (Z.lnot (HC3S.anchor x (HC3.anchor_pos s))))). lia.
  - cbn [bind]. eexists. split; [reflexivity|]. split; [assumption|].
    split; [apply tbl_le_refl|assumption].
Qed.

Lemma hc3_first_loop x m B0 :
  Z.of_nat (length x) = m -> 3 <= m -> Z.of_nat (length B0) = 2048 ->
  exists s,
    while (Datatypes.S (Z.to_nat HC3.Q)) (fun s => Ok (HC3.anchor_pos s <? Z.min m HC3.END_SECOND_QGRAM))
          (HC3.first_step x) (HC3.mkAnchor HC3.END_FIRST_QGRAM B0) = Ok s /\
    Z.of_nat (length (HC3.aB s)) = 2048 /\ tbl_le B0 (HC3.aB s) /\
    forall p, 2 <= p < Z.min m 5 ->
      word_at (HC3.aB s) (Z.land (HC3S.anchor x p) HC3.TABLE_MASK) <> 0.
Proof.
  intros Hm Hm3 HB. change HC3.END_SECOND_QGRAM with 5. change HC3.END_FIRST_QGRAM with 2.
  change HC3.Q with 3.
  destruct (while_total
    (fun s => 2 <= HC3.anchor_pos s /\ Z.of_nat (length (HC3.aB s)) = 2048 /\
              tbl_le B0 (HC3.aB s) /\
              forall p, 2 <= p < HC3.anchor_pos s ->
                word_at (HC3.aB s) (Z.land (HC3S.anchor x p) HC3.TABLE_MASK) <> 0)
    (fun s => Z.to_nat (5 - HC3.anchor_pos s))
    (fun s => Ok (HC3.anchor_pos s <? Z.min m 5)) (HC3.first_step x))
    with (fuel := Datatypes.S (Z.to_nat 3)) (s := HC3.mkAnchor 2 B0)
    as (s & Hrun & (Hpos & Hlen & Hle & Hnz) & Hexit).
  - intros s (Hpos & Hlen & Hle & Hnz).
    eexists. split; [reflexivity|]. intros Hc. apply Z.ltb_lt in Hc.
    destruct (hc3_first_step x s) as (B' & Hstep & HlenB' & HleB' & Hw); [lia|assumption|].
    eexists. split; [exact Hstep|]. cbn [HC3.anchor_pos HC3.aB]. split; [|lia].
    split; [lia|]. split; [assumption|]. split; [eapply tbl_le_trans; eauto|].
    intros p Hp. destruct (Z.eq_dec p (HC3.anchor_pos s)) as [->|Hne]; [assumption|].
    eapply tbl_le_nonzero; [exact HleB'|]. apply Hnz. lia.
  - cbn [HC3.anchor_pos HC3.aB]. split; [lia|]. split; [assumption|].
    split; [apply tbl_le_refl|]. intros; lia.
  - cbn [HC3.anchor_pos]. lia.
  - exists s. split; [exact Hrun|]. split; [assumption|]. split; [assumption|].
    injection Hexit as Hexit. apply Z.ltb_ge in Hexit.
    intros p Hp. apply Hnz. lia.
Qed.

Lemma hc3_roll_loop x a :
  2 <= a < Z.of_nat (length x) ->
  exists (r : Z * Z) (i : nat),
    while (Datatypes.S (Z.to_nat (Z.of_nat (length x))))
          (fun s => Ok (fst s >=? HC3.END_FIRST_QGRAM))
          (HC3.roll_step x) (a - HC3.Q, HC3S.anchor x a) = Ok r /\
    snd r = HC3S.roll x a i /\ -1 <= a - 3 - 3 * Z.of_nat i < 2.
Proof.
  intros Ha. change HC3.END_FIRST_QGRAM with 2. change HC3.Q with 3.
  destruct (while_total
    (fun s : Z * Z => exists i : nat, fst s = a - 3 - 3 * Z.of_nat i /\
                                      snd s = HC3S.roll x a i /\ -1 <= fst s)
    (fun s => Z.to_nat (fst s + 1))
    (fun s => Ok (fst s >=? 2)) (HC3.roll_step x))
    with (fuel := Datatypes.S (Z.to_nat (Z.of_nat (length x)))) (s := (a - 3, HC3S.anchor x a))
    as (r & Hrun & (i & Hpos & HH & Hlow) & Hexit).
  - intros s (i & Hpos & HH & Hlow).
    eexists. split; [reflexivity|]. intros Hc. apply Z.geb_le in Hc.
    unfold HC3.roll_step, HC3.CHAIN_HASH. rewrite hc3_HASH_val by lia. cbn [bind].
    eexists. split; [reflexivity|]. cbn [fst snd]. change HC3.Q with 3. split; [|lia].
    exists (Datatypes.S i). split; [lia|]. split; [|lia].
    cbn [HC3S.roll]. rewrite HH. unfold HC3S.chain. change HC3.Q with 3.
    do 3 f_equal. lia.
  - exists O. cbn [fst snd HC3S.roll]. split; [lia|]. split; [reflexivity|lia].
  - cbn [fst]. lia.
  - exists r, i. split; [exact Hrun|]. split; [assumption|].
    injection Hexit as Hexit.
    destruct (Z.geb_spec (fst r) 2); [discriminate|]. lia.
Qed.

(** What [preprocessing] leaves in the table, read directly off its loops. *)
Lemma hc3_preprocessing_loops x m B0 :
  Z.of_nat (length x) = m -> 3 <= m -> Z.of_nat (length B0) = 2048 ->
  exists Hm B,
    HC3.preprocessing x m B0 = Ok (Hm, B) /\
    Z.of_nat (length B) = 2048 /\
    (forall a (j : nat), 5 <= a < m -> Z.max 2 (a - 15) <= a - 3 * (Z.of_nat j + 1) ->
       HC3S.linked B (HC3S.roll x a j) (HC3S.roll x a (Datatypes.S j))) /\
    (forall p, 2 <= p < Z.min m 5 ->
       word_at B (Z.land (HC3S.anchor x p) HC3.TABLE_MASK) <> 0) /\
    (exists i : nat, Hm = HC3S.roll x (m - 1) i /\ -1 <= m - 4 - 3 * Z.of_nat i < 2).
Proof.
  intros Hm Hm3 HB. unfold HC3.preprocessing. cbv zeta.
  assert (HB' : Z.of_nat (length (map (fun _ : Z => 0) B0)) = 2048)
    by (rewrite length_map; assumption).
  destruct (hc3_anchor_loop x m _ Hm HB') as (s1 & Hrun1 & Hlen1 & Hle1 & Hlinks).
  rewrite Hrun1. cbn [bind].
  destruct (hc3_first_loop x m (HC3.aB s1) Hm Hm3 Hlen1) as (s2 & Hrun2 & Hlen2 & Hle2 & Hnz).
  rewrite Hrun2. cbn [bind].
  unfold HC3.ANCHOR_HASH. rewrite hc3_HASH_val by lia. cbn [bind].
  destruct (hc3_roll_loop x (m - 1)) as (r & i & Hrun3 & HH & Hi); [lia|].
  rewrite Hm in Hrun3. fold (HC3S.anchor x (m - 1)). rewrite Hrun3. cbn [bind].
  exists (snd r), (HC3.aB s2). split; [reflexivity|]. split; [assumption|].
  split; [|split].
  - intros a j Ha Hj. eapply hc3_linked_mono; [exact Hle2|]. now apply Hlinks.
  - assumption.
  - exists i. split; [assumption|lia].
Qed.

(** Two rolling values that agree on their low [t] bits agree on their low
    [t + 4] bits after one more chain step with the same q-gram. *)
Lemma hc3_roll_step_cong A A' c t :
  0 <= t -> t + 4 <= 32 -> A mod 2 ^ t = A' mod 2 ^ t ->
  u32 (Z.shiftl A HC3.S2 + c) mod 2 ^ (t + 4) = u32 (Z.shiftl A' HC3.S2 + c) mod 2 ^ (t + 4).
Proof.
  intros Ht Ht4 HA. unfold u32. change HC3.S2 with 4.
  assert (Hdiv : (2 ^ (t + 4) | 2 ^ 32)).
  { exists (2 ^ (32 - (t + 4))). rewrite <- Z.pow_add_r by lia. f_equal. lia. }
  rewrite !Z.mod_mod_divide by assumption.
  rewrite !Z.shiftl_mul_pow2 by lia.
  rewrite (Z.add_mod (A * 2 ^ 4)), (Z.add_mod (A' * 2 ^ 4)) by lia.
  rewrite Z.pow_add_r by lia.
  rewrite !Z.mul_mod_distr_r by (try apply Z.pow_nonzero; lia).
  now rewrite HA.
Qed.

Lemma hc3_roll_shift x a (k j : nat) :
  (j <= 8)%nat ->
  HC3S.roll x a (k + j) mod 2 ^ (4 * Z.of_nat j)
  = HC3S.roll x (a - 3 * Z.of_nat k) j mod 2 ^ (4 * Z.of_nat j).
Proof.
  induction j as [|j IH]; intros Hj.
  - change (2 ^ (4 * Z.of_nat 0)) with 1. now rewrite !Z.mod_1_r.
  - replace (k + Datatypes.S j)%nat with (Datatypes.S (k + j)) by lia.
    cbn [HC3S.roll]. change HC3.Q with 3.
    replace (4 * Z.of_nat (Datatypes.S j)) with (4 * Z.of_nat j + 4) by lia.
    replace (a - 3 * Z.of_nat k - 3 * Z.of_nat (Datatypes.S j))
      with (a - 3 * Z.of_nat (Datatypes.S (k + j))) by lia.
    apply hc3_roll_step_cong; [lia|lia|]. apply IH. lia.
Qed.

Lemma mod_pow2_le a b s t : 0 <= s <= t -> a mod 2 ^ t = b mod 2 ^ t -> a mod 2 ^ s = b mod 2 ^ s.
Proof.
  intros Hst H.
  assert (Hdiv : (2 ^ s | 2 ^ t)).
  { exists (2 ^ (t - s)). rewrite <- Z.pow_add_r by lia. f_equal. lia. }
  rewrite <- (Z.mod_mod_divide a _ _ Hdiv), <- (Z.mod_mod_divide b _ _ Hdiv).
  now rewrite H.
Qed.

Lemma land_pow2_mod a k : 0 <= k -> Z.land a (2 ^ k - 1) = a mod 2 ^ k.
Proof.
  intros Hk. replace (2 ^ k - 1) with (Z.ones k) by (rewrite Z.ones_equiv; lia).
  now apply Z.land_ones.
Qed.

(** Every chain step inside the pattern is recorded, also beyond the
    [CHAIN_LENGTH] steps that each anchor's loop writes: after three steps the
    table index no longer depends on the anchor, so a later anchor's chain
    wrote the same entry. *)
Lemma hc3_links_complete x m B :
  (forall a (j : nat), 5 <= a < m -> Z.max 2 (a - 15) <= a - 3 * (Z.of_nat j + 1) ->
     HC3S.linked B (HC3S.roll x a j) (HC3S.roll x a (Datatypes.S j))) ->
  forall a (j : nat), 5 <= a < m -> 2 <= a - 3 * (Z.of_nat j + 1) ->
    HC3S.linked B (HC3S.roll x a j) (HC3S.roll x a (Datatypes.S j)).
Proof.
  intros Hlinks a j Ha Hj.
  destruct (Z.le_gt_cases (a - 15) (a - 3 * (Z.of_nat j + 1))) as [Hshort|Hlong].
  - apply Hlinks; lia.
  - set (k := (j - 3)%nat).
    assert (Hk : j = (k + 3)%nat) by (subst k; lia).
    specialize (Hlinks (a - 3 * Z.of_nat k) 3%nat ltac:(lia) ltac:(lia)).
    unfold HC3S.linked in *. change HC3.TABLE_MASK with (2 ^ 11 - 1) in *.
    change 31 with (2 ^ 5 - 1) in *.
    rewrite !land_pow2_mod in * by lia.
    rewrite Hk.
    rewrite (mod_pow2_le _ _ 11 12 ltac:(lia) (hc3_roll_shift x a k 3 ltac:(lia))).
    replace (Datatypes.S (k + 3)) with (k + 4)%nat by lia.
    rewrite (mod_pow2_le _ _ 5 16 ltac:(lia) (hc3_roll_shift x a k 4 ltac:(lia))).
    exact Hlinks.
Qed.

(** ** Occurrences *)

Lemma bytes_eqb_eq a b : bytes_eqb a b = true <-> a = b.
Proof.
  revert b. induction a as [|c a IH]; intros [|d b]; simpl; split; try congruence; auto.
  - intros H. apply andb_true_iff in H. destruct H as (H1 & H2).
    apply Byte.byte_dec_bl in H1. apply IH in H2. congruence.
  - intros [= -> ->]. apply andb_true_iff. split; [now apply Byte.byte_dec_lb|now apply IH].
Qed.

Lemma slice_length x a b :
  0 <= a -> a <= b <= Z.of_nat (length x) -> Z.of_nat (length (slice x a b)) = b - a.
Proof.
  intros Ha Hb. unfold slice. rewrite length_firstn, length_skipn. lia.
Qed.

Lemma slice_length_le x a b : Z.of_nat (length (slice x a b)) <= Z.of_nat (length x) - a \/ length (slice x a b) = O.
Proof.
  unfold slice. rewrite length_firstn, length_skipn. lia.
Qed.

Lemma slice_all x m : Z.of_nat (length x) = m -> slice x 0 m = x.
Proof.
  intros Hm. unfold slice. simpl. rewrite Z.sub_0_r.
  apply firstn_all2. lia.
Qed.

Lemma byte_at_slice x a b k :
  0 <= a -> 0 <= k < b - a -> byte_at (slice x a b) k = byte_at x (a + k).
Proof.
  intros Ha Hk. unfold byte_at.
  destruct (Z.ltb_spec k 0); [lia|]. destruct (Z.ltb_spec (a + k) 0); [lia|].
  rewrite nth_error_slice by lia.
  destruct (Z.ltb_spec (Z.of_nat (Z.to_nat k)) (b - a)); [|lia].
  f_equal. lia.
Qed.

(** An occurrence lies inside the text and agrees with the pattern byte by
    byte. *)
Lemma occ_at_bytes x m y i :
  Z.of_nat (length x) = m -> 0 <= i -> 0 < m -> occ_at x m y i = true ->
  i + m <= Z.of_nat (length y) /\ forall k, 0 <= k < m -> byte_at y (i + k) = byte_at x k.
Proof.
  intros Hm Hi Hm0 Hocc. unfold occ_at in Hocc. apply bytes_eqb_eq in Hocc.
  rewrite (slice_all x m Hm) in Hocc.
  assert (Hlen : Z.of_nat (length (slice y i (i + m))) = m) by (rewrite Hocc; assumption).
  assert (Hin : i + m <= Z.of_nat (length y)).
  { unfold slice in Hlen. rewrite length_firstn, length_skipn in Hlen. lia. }
  split; [assumption|]. intros k Hk.
  rewrite <- Hocc. symmetry. apply byte_at_slice; lia.
Qed.

Lemma occ_at_out x m y i :
  Z.of_nat (length x) = m -> 0 <= i -> 0 < m -> Z.of_nat (length y) < i + m ->
  occ_at x m y i = false.
Proof.
  intros Hm Hi Hm0 Hout. destruct (occ_at x m y i) eqn:E; [|reflexivity].
  apply occ_at_bytes in E; try assumption. lia.
Qed.

Lemma count_below_none x m y (k k' : nat) :
  (k <= k')%nat ->
  (forall i, Z.of_nat k <= i < Z.of_nat k' -> occ_at x m y i = false) ->
  count_below x m y k' = count_below x m y k.
Proof.
  intros Hle. induction Hle as [|k' Hle IH]; intros Hnone; [reflexivity|].
  cbn [count_below]. rewrite (Hnone (Z.of_nat k')) by lia.
  rewrite IH; [lia|]. intros i Hi. apply Hnone. lia.
Qed.

Lemma count_below_nonneg x m y k : 0 <= count_below x m y k.
Proof.
  induction k as [|k IH]; cbn [count_below]; [lia|].
  destruct (occ_at x m y (Z.of_nat k)); lia.
Qed.

Lemma bv_byte_at x y i k : byte_at y i = byte_at x k -> bv y i = bv x k.
Proof. unfold bv. now intros ->. Qed.

(** ** hc3: the scanner *)

(** Inside an occurrence at [i] the text hashes are the pattern hashes. *)
Lemma hc3_hashv_occ x m y i p s :
  (forall k, 0 <= k < m -> byte_at y (i + k) = byte_at x k) ->
  2 <= p < m -> HC3S.hashv y (i + p) s = HC3S.hashv x p s.
Proof.
  intros Hb Hp. unfold HC3S.hashv.
  rewrite (bv_byte_at x y (i + p) p) by (apply Hb; lia).
  replace (i + p - 1) with (i + (p - 1)) by lia.
  replace (i + p - 2) with (i + (p - 2)) by lia.
  rewrite (bv_byte_at x y (i + (p - 1)) (p - 1)) by (apply Hb; lia).
  rewrite (bv_byte_at x y (i + (p - 2)) (p - 2)) by (apply Hb; lia).
  reflexivity.
Qed.

Lemma hc3_roll_occ x m y i p (j : nat) :
  (forall k, 0 <= k < m -> byte_at y (i + k) = byte_at x k) ->
  p < m -> 2 <= p - 3 * Z.of_nat j ->
  HC3S.roll y (i + p) j = HC3S.roll x p j.
Proof.
  intros Hb Hp. induction j as [|j IH]; intros Hj.
  - cbn [HC3S.roll]. unfold HC3S.anchor. apply (hc3_hashv_occ x m); [assumption|lia].
  - cbn [HC3S.roll]. rewrite IH by lia. unfold HC3S.chain. change HC3.Q with 3.
    replace (i + p - 3 * Z.of_nat (Datatypes.S j)) with (i + (p - 3 * Z.of_nat (Datatypes.S j))) by lia.
    rewrite (hc3_hashv_occ x m y i) by (try assumption; lia). reflexivity.
Qed.

(** The backward chain walk from an anchor at [pos0]: either it stops at a
    missing fingerprint, or it reads back to the first q-gram of the window
    that ends at [pos0]. *)
Lemma hc3_walk_loop y B m pos0 V0 :
  Z.of_nat (length B) = 2048 -> 3 <= m -> m - 1 <= pos0 < Z.of_nat (length y) ->
  exists w,
    HC3.walk y B m pos0 (HC3S.anchor y pos0) V0 = Ok w /\
    exists i : nat,
      HC3.wpos w = pos0 - 3 * Z.of_nat i /\ HC3.wH w = HC3S.roll y pos0 i /\
      pos0 - m + 3 <= HC3.wpos w /\
      (HC3.failed w = true ->
         (0 < i)%nat /\
         (i = 1%nat -> Z.testbit V0 (Z.land (HC3S.roll y pos0 1) 31) = false) /\
         ((1 < i)%nat -> ~ HC3S.linked B (HC3S.roll y pos0 (i - 1)) (HC3S.roll y pos0 i))) /\
      (HC3.failed w = false -> HC3.wpos w < pos0 - m + 6).
Proof.
  intros HB Hm Hpos. unfold HC3.walk. cbv zeta. change HC3.Q2 with 6.
  destruct (while_total
    (fun w => exists i : nat,
       HC3.wpos w = pos0 - 3 * Z.of_nat i /\ HC3.wH w = HC3S.roll y pos0 i /\
       pos0 - m + 3 <= HC3.wpos w /\
       (HC3.failed w = true ->
         (0 < i)%nat /\
         (i = 1%nat -> Z.testbit V0 (Z.land (HC3S.roll y pos0 1) 31) = false) /\
         ((1 < i)%nat -> ~ HC3S.linked B (HC3S.roll y pos0 (i - 1)) (HC3S.roll y pos0 i))) /\
       (HC3.failed w = false ->
          HC3.wV w = if (i =? 0)%nat then V0
                     else word_at B (Z.land (HC3.wH w) HC3.TABLE_MASK)))
    (fun w => Z.to_nat (HC3.wpos w - (pos0 - m)))
    (fun w => Ok (negb (HC3.failed w) && (HC3.wpos w >=? pos0 - m + 6)))
    (HC3.walk_step y B))
    with (fuel := Datatypes.S (Z.to_nat m)) (s := HC3.mkWalk pos0 (HC3S.anchor y pos0) V0 false)
    as (w & Hrun & (i & Hwp & HwH & Hlow & Hfail & Hok) & Hexit).
  - intros w (i & Hwp & HwH & Hlow & Hfail & Hok).
    eexists. split; [reflexivity|]. intros Hc.
    apply andb_true_iff in Hc. destruct Hc as (Hnf & Hge).
    apply negb_true_iff in Hnf. apply Z.geb_le in Hge.
    unfold HC3.walk_step. cbv zeta. unfold HC3.CHAIN_HASH. change HC3.Q with 3.
    rewrite hc3_HASH_val by lia. cbn [bind].
    set (H' := u32 (Z.shiftl (HC3.wH w) HC3.S2 + HC3S.hashv y (HC3.wpos w - 3) HC3.S3)).
    assert (HH' : H' = HC3S.roll y pos0 (Datatypes.S i)).
    { subst H'. cbn [HC3S.roll]. rewrite HwH. unfold HC3S.chain. change HC3.Q with 3.
      do 3 f_equal. lia. }
    unfold HC3.LINK_HASH. rewrite land_fp_zero.
    destruct (Z.testbit (HC3.wV w) (Z.land H' 31)) eqn:Ebit; cbn [negb].
    + pose proof (hc3_mask_range H') as Hr. rewrite rdi_word by lia. cbn [bind].
      eexists. split; [reflexivity|]. cbn [HC3.wpos HC3.wH HC3.wV HC3.failed].
      split; [|lia]. exists (Datatypes.S i).
      split; [lia|]. split; [assumption|]. split; [lia|].
      split; [discriminate|]. intros _. reflexivity.
    + eexists. split; [reflexivity|]. cbn [HC3.wpos HC3.wH HC3.wV HC3.failed].
      split; [|lia]. exists (Datatypes.S i).
      split; [lia|]. split; [assumption|]. split; [lia|].
      split; [|discriminate]. intros _. split; [lia|].
      specialize (Hok Hnf). split.
      * intros [= ->]. simpl in Hok. rewrite Hok in Ebit. rewrite HH' in Ebit. exact Ebit.
      * intros Hi. destruct (Nat.eqb_spec i 0) as [|_]; [lia|].
        unfold HC3S.linked. replace (Datatypes.S i - 1)%nat with i by lia.
        rewrite <- HwH, <- HH', <- Hok, Ebit. discriminate.
  - exists O. cbn [HC3.wpos HC3.wH HC3.wV HC3.failed HC3S.roll].
    split; [lia|]. split; [reflexivity|]. split; [lia|].
    split; [discriminate|]. intros _. reflexivity.
  - cbn [HC3.wpos]. lia.
  - exists w. split; [exact Hrun|]. exists i.
    split; [assumption|]. split; [assumption|]. split; [assumption|].
    split; [assumption|]. intros Hnf. injection Hexit as Hexit.
    rewrite Hnf in Hexit. cbn [negb andb] in Hexit.
    destruct (Z.geb_spec (HC3.wpos w) (pos0 - m + 6)); [discriminate|lia].
Qed.

Lemma memcmp_eq_occ y a x m :
  0 <= a -> a + m <= Z.of_nat (length y) -> m <= Z.of_nat (length x) ->
  memcmp_eq y a x m = Ok (occ_at x m y a).
Proof.
  intros Ha Hy Hx. unfold memcmp_eq, occ_at.
  destruct (Z.ltb_spec a 0); [lia|].
  destruct (Z.ltb_spec (Z.of_nat (length y)) (a + m)); [lia|].
  destruct (Z.ltb_spec (Z.of_nat (length x)) m); [lia|]. reflexivity.
Qed.

(** One iteration of the main loop, whatever the table holds: it reads inside
    the buffers, it moves [pos] forward, and it counts only a verified
    window. *)
Lemma hc3_scan_step x m y B Hm s :
  Z.of_nat (length x) = m -> 3 <= m -> Z.of_nat (length B) = 2048 ->
  m - 1 <= HC3.pos s < Z.of_nat (length y) ->
  Z.of_nat (length y) + m <= INT_MAX ->
  exists s', HC3.scan_step x m y B Hm s = Ok s' /\ HC3.pos s + 1 <= HC3.pos s' /\
    ((word_at B (Z.land (HC3S.anchor y (HC3.pos s)) HC3.TABLE_MASK) = 0 /\
      HC3.pos s' = HC3.pos s + m - 2 /\ HC3.count s' = HC3.count s)
     \/
     (exists j : nat,
        ~ HC3S.linked B (HC3S.roll y (HC3.pos s) j) (HC3S.roll y (HC3.pos s) (Datatypes.S j)) /\
        HC3.pos s - m + 3 <= HC3.pos s - 3 * (Z.of_nat j + 1) /\
        HC3.pos s' = HC3.pos s - 3 * (Z.of_nat j + 1) + m - 2 /\
        HC3.count s' = HC3.count s)
     \/
     (exists i : nat,
        -1 <= m - 4 - 3 * Z.of_nat i < 2 /\
        HC3.pos s' = HC3.pos s + 1 /\
        HC3.count s' = HC3.count s +
          (if (HC3S.roll y (HC3.pos s) i =? Hm) && occ_at x m y (HC3.pos s - m + 1)
           then 1 else 0))).
Proof.
  intros Hlen Hm3 HB Hpos Hint. unfold HC3.scan_step. cbv zeta.
  unfold HC3.ANCHOR_HASH. rewrite hc3_HASH_val by lia. cbn [bind].
  fold (HC3S.anchor y (HC3.pos s)).
  pose proof (hc3_mask_range (HC3S.anchor y (HC3.pos s))) as Hr.
  rewrite rdi_word by lia. cbn [bind].
  set (V0 := word_at B (Z.land (HC3S.anchor y (HC3.pos s)) HC3.TABLE_MASK)).
  change HC3.Q with 3. change HC3.END_FIRST_QGRAM with 2. change HC3.Q2 with 6.
  destruct (Z.eqb_spec V0 0) as [Hz|Hnz].
  - int_in_range.
    eexists. split; [reflexivity|]. cbn [HC3.pos HC3.count]. split; [lia|].
    left. split; [assumption|]. split; [lia|reflexivity].
  - int_in_range.
    destruct (hc3_walk_loop y B m (HC3.pos s) V0 HB Hm3 Hpos)
      as (w & Hrun & i & Hwp & HwH & Hlow & Hfail & Hok).
    rewrite Hrun. cbn [bind].
    destruct (HC3.failed w) eqn:Ef.
    + destruct (Hfail eq_refl) as (Hi & Hone & Hmore).
      int_in_range.
      eexists. split; [reflexivity|]. cbn [HC3.pos HC3.count].
      split; [lia|]. right. left. exists (i - 1)%nat.
      replace (Datatypes.S (i - 1)) with i by lia.
      split.
      * destruct (Nat.eq_dec i 1) as [->|Hne].
        -- cbn [Nat.sub]. unfold HC3S.linked. cbn [HC3S.roll] in *. fold V0.
           rewrite (Hone eq_refl). discriminate.
        -- apply Hmore. lia.
      * split; [lia|]. split; [lia|reflexivity].
    + specialize (Hok eq_refl).
      change HC3.Q2 with 6.
      assert (Hcmp : memcmp_eq y (HC3.pos s - m + 6 - 3 - 2) x m
                     = Ok (occ_at x m y (HC3.pos s - m + 1))).
      { replace (HC3.pos s - m + 6 - 3 - 2) with (HC3.pos s - m + 1) by lia.
        apply memcmp_eq_occ; lia. }
      rewrite Hcmp.
      destruct (HC3.wH w =? Hm) eqn:EH; cbn [bind]; int_in_range.
      * eexists. split; [reflexivity|]. cbn [HC3.pos HC3.count]. split; [lia|].
        right. right. exists i. split; [lia|]. split; [lia|].
        rewrite <- HwH, EH. cbn [andb].
        destruct (occ_at x m y (HC3.pos s - m + 1)); lia.
      * eexists. split; [reflexivity|]. cbn [HC3.pos HC3.count]. split; [lia|].
        right. right. exists i. split; [lia|]. split; [lia|].
        rewrite <- HwH, EH. cbn [andb]. lia.
Qed.

Lemma hc3_preprocessing_ok x m B0 :
  Z.of_nat (length x) = m -> 3 <= m -> Z.of_nat (length B0) = 2048 ->
  exists Hm B, HC3.preprocessing x m B0 = Ok (Hm, B) /\ hc3_table_ok x m B Hm.
Proof.
  intros Hlen Hm3 HB.
  destruct (hc3_preprocessing_loops x m B0 Hlen Hm3 HB)
    as (Hm & B & Hrun & HlenB & Hlinks & Hnz & HHm).
  exists Hm, B. split; [assumption|].
  pose proof (hc3_links_complete x m B Hlinks) as Hall.
  split; [assumption|]. split; [assumption|]. split; [|assumption].
  intros p Hp. destruct (Z.lt_ge_cases p 5) as [Hlt|Hge].
  - apply Hnz. lia.
  - specialize (Hall p O ltac:(lia) ltac:(lia)). unfold HC3S.linked in Hall.
    cbn [HC3S.roll] in Hall. intros E. rewrite E, Z.testbit_0_l in Hall. discriminate.
Qed.

(** The shift after a probe or a failed walk skips no occurrence, and the
    window that ends at [pos] is counted exactly when it is one. *)
Lemma hc3_scan_step_sound x m y B Hm s :
  Z.of_nat (length x) = m -> 3 <= m -> hc3_table_ok x m B Hm ->
  m - 1 <= HC3.pos s < Z.of_nat (length y) ->
  Z.of_nat (length y) + m <= INT_MAX ->
  exists s', HC3.scan_step x m y B Hm s = Ok s' /\ HC3.pos s + 1 <= HC3.pos s' /\
    (forall i, HC3.pos s - m + 1 < i < HC3.pos s' - m + 1 -> occ_at x m y i = false) /\
    HC3.count s' = HC3.count s + (if occ_at x m y (HC3.pos s - m + 1) then 1 else 0).
Proof.
  intros Hlen Hm3 (HB & Hlinks & Hnz & i0 & HHm & Hi0) Hpos Hint.
  destruct (hc3_scan_step x m y B Hm s Hlen Hm3 HB Hpos Hint) as (s' & Hrun & Hadv & Hcases).
  exists s'. split; [assumption|]. split; [assumption|].
  set (pos0 := HC3.pos s) in *.
  assert (Hprobe : forall i, pos0 - m + 1 <= i -> i + 2 <= pos0 -> occ_at x m y i = true ->
                             word_at B (Z.land (HC3S.anchor y pos0) HC3.TABLE_MASK) <> 0).
  { intros i Hi1 Hi2 Eocc.
    apply occ_at_bytes in Eocc; try lia. destruct Eocc as (_ & Hbytes).
    replace pos0 with (i + (pos0 - i)) by lia. unfold HC3S.anchor.
    rewrite (hc3_hashv_occ x m y i) by (try assumption; lia).
    apply Hnz. lia. }
  assert (Hlink : forall i (j : nat), pos0 - m + 1 <= i -> i + 2 <= pos0 - 3 * (Z.of_nat j + 1) ->
                    occ_at x m y i = true ->
                    HC3S.linked B (HC3S.roll y pos0 j) (HC3S.roll y pos0 (Datatypes.S j))).
  { intros i j Hi1 Hi2 Eocc.
    apply occ_at_bytes in Eocc; try lia. destruct Eocc as (_ & Hbytes).
    replace pos0 with (i + (pos0 - i)) by lia.
    rewrite !(hc3_roll_occ x m y i) by (try assumption; lia).
    apply Hlinks; lia. }
  destruct Hcases as [(Hz & Hp' & Hc') | [(j & Hnl & Hj & Hp' & Hc') | (i & Hi & Hp' & Hc')]].
  - assert (Hnone : forall i, pos0 - m + 1 <= i < HC3.pos s' - m + 1 -> occ_at x m y i = false).
    { intros i Hi. destruct (occ_at x m y i) eqn:Eocc; [|reflexivity]. exfalso.
      apply (Hprobe i); try lia; assumption. }
    split; [intros i Hi; apply Hnone; lia|].
    rewrite (Hnone (pos0 - m + 1)) by lia. lia.
  - assert (Hnone : forall i, pos0 - m + 1 <= i < HC3.pos s' - m + 1 -> occ_at x m y i = false).
    { intros i Hi. destruct (occ_at x m y i) eqn:Eocc; [|reflexivity]. exfalso.
      apply Hnl. apply (Hlink i); try lia; assumption. }
    split; [intros i Hi; apply Hnone; lia|].
    rewrite (Hnone (pos0 - m + 1)) by lia. lia.
  - split; [intros k Hk; lia|].
    rewrite Hc'. f_equal.
    destruct (occ_at x m y (pos0 - m + 1)) eqn:Eocc; [|now rewrite andb_false_r].
    apply occ_at_bytes in Eocc; try lia. destruct Eocc as (_ & Hbytes).
    assert (i = i0) as -> by lia.
    replace pos0 with ((pos0 - m + 1) + (m - 1)) at 1 by lia.
    rewrite (hc3_roll_occ x m y (pos0 - m + 1)) by (try assumption; lia).
    rewrite <- HHm, Z.eqb_refl. reflexivity.
Qed.

Lemma hc3_scan_step_count x m y B Hm s :
  Z.of_nat (length x) = m -> 3 <= m -> hc3_table_ok x m B Hm ->
  HC3.pos s < Z.of_nat (length y) -> Z.of_nat (length y) + m <= INT_MAX ->
  hc3_scan_inv x m y s ->
  exists s', HC3.scan_step x m y B Hm s = Ok s' /\ HC3.pos s + 1 <= HC3.pos s' /\
             hc3_scan_inv x m y s'.
Proof.
  intros Hlen Hm3 Hok Hn Hint (Hpos & Hcount).
  destruct (hc3_scan_step_sound x m y B Hm s Hlen Hm3 Hok ltac:(lia) Hint)
    as (s' & Hrun & Hadv & Hnone & Hc').
  exists s'. split; [assumption|]. split; [assumption|]. split; [lia|].
  rewrite Hc', Hcount.
  rewrite (count_below_none x m y (Datatypes.S (Z.to_nat (HC3.pos s - m + 1)))
                            (Z.to_nat (HC3.pos s' - m + 1))).
  - cbn [count_below]. rewrite Z2Nat.id by lia. reflexivity.
  - lia.
  - intros i Hi. apply Hnone. lia.
Qed.

(** [search] returns the number of occurrences. *)
Lemma hc3_search_count x m y n :
  Z.of_nat (length x) = m -> Z.of_nat (length y) = n -> 3 <= m ->
  n + m <= INT_MAX ->
  HC3.search x m y n = Ok (occurrences x m y n).
Proof.
  intros Hlen Hn Hm3 Hint. unfold HC3.search.
  destruct (Z.ltb_spec m HC3.Q) as [Hlt|_]; [change HC3.Q with 3 in Hlt; lia|].
  cbv zeta.
  destruct (hc3_preprocessing_ok x m (repeat 0 (Z.to_nat HC3.ASIZE)) Hlen Hm3)
    as (Hm & B & Hpre & Hok).
  { rewrite repeat_length. reflexivity. }
  rewrite Hpre. cbn [bind]. unfold HC3.scan.
  destruct (while_total (hc3_scan_inv x m y) (fun s => Z.to_nat (n - HC3.pos s))
                        (fun s => Ok (HC3.pos s <? n)) (HC3.scan_step x m y B Hm))
    with (fuel := Datatypes.S (Z.to_nat n)) (s := HC3.mkScan (m - 1) 0)
    as (s & Hrun & (Hpos & Hcount) & Hexit).
  - intros s Hinv. eexists. split; [reflexivity|]. intros Hc. apply Z.ltb_lt in Hc.
    destruct (hc3_scan_step_count x m y B Hm s Hlen Hm3 Hok ltac:(lia) ltac:(lia) Hinv)
      as (s' & Hs' & Hadv & Hinv').
    exists s'. split; [assumption|]. split; [assumption|]. lia.
  - split; cbn [HC3.pos HC3.count]; [lia|].
    replace (Z.to_nat (m - 1 - m + 1)) with O by lia. reflexivity.
  - cbn [HC3.pos]. lia.
  - rewrite Hrun. cbn [bind]. f_equal. rewrite Hcount. unfold occurrences.
    injection Hexit as Hexit. apply Z.ltb_ge in Hexit.
    apply count_below_none; [lia|].
    intros i Hi. apply occ_at_out; try assumption; lia.
Qed.

Lemma while_partial {S : Type} (Inv : S -> Prop)
      (cond : S -> result bool) (body : S -> result S) :
  (forall s s', Inv s -> cond s = Ok true -> body s = Ok s' -> Inv s') ->
  forall fuel s s', Inv s -> while fuel cond body s = Ok s' -> Inv s' /\ cond s' = Ok false.
Proof.
  intros Hstep fuel. induction fuel as [|f IH]; intros s s' Hinv Hrun; [discriminate|].
  simpl in Hrun. destruct (cond s) as [[|]| |] eqn:Hc; simpl in Hrun; try discriminate.
  - destruct (body s) as [s1| |] eqn:Hb; simpl in Hrun; try discriminate.
    eapply IH; [|exact Hrun]. eapply Hstep; eauto.
  - injection Hrun as <-. auto.
Qed.

(** The main loop tests its condition at the last position of every
    occurrence. *)
Lemma hc3_reaches_occurrence x m y n B Hm i :
  Z.of_nat (length x) = m -> Z.of_nat (length y) = n -> 3 <= m ->
  n + m <= INT_MAX ->
  hc3_table_ok x m B Hm -> 0 <= i -> occ_at x m y i = true ->
  exists s, HC3.reached x m y n B Hm s /\ HC3.pos s = i + m - 1.
Proof.
  intros Hlen Hn Hm3 Hint Hok Hi Hocc.
  assert (Hin : i + m <= n).
  { subst n. apply (occ_at_bytes x m y i); try assumption; lia. }
  assert (Hgen : forall (d : nat) s,
             HC3.reached x m y n B Hm s -> m - 1 <= HC3.pos s <= i + m - 1 ->
             i + m - 1 - HC3.pos s <= Z.of_nat d ->
             exists s', HC3.reached x m y n B Hm s' /\ HC3.pos s' = i + m - 1).
  { induction d as [|d IH]; intros s Hr Hpos Hd.
    - exists s. split; [assumption|lia].
    - destruct (Z.eq_dec (HC3.pos s) (i + m - 1)) as [E|Hne]; [exists s; auto|].
      destruct (hc3_scan_step_sound x m y B Hm s Hlen Hm3 Hok ltac:(lia) ltac:(lia))
        as (s' & Hrun & Hadv & Hnone & _).
      assert (HC3.pos s' <= i + m - 1).
      { destruct (Z.le_gt_cases (HC3.pos s') (i + m - 1)); [assumption|].
        rewrite Hnone in Hocc by lia. discriminate. }
      apply (IH s'); [|lia|lia].
      eapply HC3.reached_step; [exact Hr|lia|exact Hrun]. }
  apply (Hgen (Z.to_nat i) (HC3.mkScan (m - 1) 0)).
  - constructor.
  - cbn [HC3.pos]. lia.
  - cbn [HC3.pos]. lia.
Qed.

(** The walk over an occurrence finds every fingerprint and ends with the
    hash of the pattern. *)
Lemma hc3_walk_occurrence x m y B Hm i :
  Z.of_nat (length x) = m -> 3 <= m -> hc3_table_ok x m B Hm ->
  0 <= i -> occ_at x m y i = true ->
  word_at B (Z.land (HC3S.anchor y (i + m - 1)) HC3.TABLE_MASK) <> 0 /\
  (forall j : nat, 2 <= m - 1 - 3 * (Z.of_nat j + 1) ->
     HC3S.linked B (HC3S.roll y (i + m - 1) j) (HC3S.roll y (i + m - 1) (Datatypes.S j))) /\
  exists w,
    HC3.walk y B m (i + m - 1) (HC3S.anchor y (i + m - 1))
             (word_at B (Z.land (HC3S.anchor y (i + m - 1)) HC3.TABLE_MASK)) = Ok w /\
    HC3.failed w = false /\ HC3.wH w = Hm.
Proof.
  intros Hlen Hm3 (HB & Hlinks & Hnz & i0 & HHm & Hi0) Hi Hocc.
  pose proof (occ_at_bytes x m y i Hlen Hi ltac:(lia) Hocc) as (Hin & Hbytes).
  assert (Hroll : forall j : nat, 2 <= m - 1 - 3 * Z.of_nat j ->
                    HC3S.roll y (i + m - 1) j = HC3S.roll x (m - 1) j).
  { intros j Hj. replace (i + m - 1) with (i + (m - 1)) by lia.
    apply (hc3_roll_occ x m); try assumption; lia. }
  assert (Hl : forall j : nat, 2 <= m - 1 - 3 * (Z.of_nat j + 1) ->
     HC3S.linked B (HC3S.roll y (i + m - 1) j) (HC3S.roll y (i + m - 1) (Datatypes.S j))).
  { intros j Hj. rewrite !Hroll by lia. apply Hlinks; lia. }
  split; [|split; [exact Hl|]].
  - specialize (Hroll O ltac:(lia)). cbn [HC3S.roll] in Hroll. rewrite Hroll.
    apply Hnz. lia.
  - destruct (hc3_walk_loop y B m (i + m - 1)
                (word_at B (Z.land (HC3S.anchor y (i + m - 1)) HC3.TABLE_MASK)) HB Hm3 ltac:(lia))
      as (w & Hrun & k & Hwp & HwH & Hlow & Hfail & Hnf).
    exists w. split; [assumption|].
    destruct (HC3.failed w) eqn:Ef.
    + exfalso. destruct (Hfail eq_refl) as (Hk & Hone & Hmore).
      assert (Hlk : HC3S.linked B (HC3S.roll y (i + m - 1) (k - 1)) (HC3S.roll y (i + m - 1) k)).
      { replace k with (Datatypes.S (k - 1)) at 2 by lia. apply Hl. lia. }
      destruct (Nat.eq_dec k 1) as [->|Hne].
      * unfold HC3S.linked in Hlk. cbn [Nat.sub HC3S.roll] in Hlk.
        specialize (Hone eq_refl). cbn [HC3S.roll] in Hone. congruence.
      * apply Hmore; [lia|assumption].
    + split; [reflexivity|]. specialize (Hnf eq_refl).
      assert (k = i0) as -> by lia.
      rewrite HwH, HHm. apply Hroll. lia.
Qed.

(** ** hc3: the count is never negative *)

Lemma hc3_scan_step_count_mono x m y B Hm s s' :
  HC3.scan_step x m y B Hm s = Ok s' -> HC3.count s <= HC3.count s'.
Proof.
  unfold HC3.scan_step. cbv zeta.
  destruct (HC3.ANCHOR_HASH y (HC3.pos s)) as [H| |]; cbn [bind]; try discriminate.
  destruct (rdi B (Z.land H HC3.TABLE_MASK)) as [V| |]; cbn [bind]; try discriminate.
  destruct (V =? 0); [int_cases; intros [= <-]; cbn [HC3.count]; lia|].
  int_cases.
  destruct (HC3.walk y B m (HC3.pos s) H V) as [w| |]; cbn [bind]; try discriminate.
  destruct (HC3.failed w); [int_cases; intros [= <-]; cbn [HC3.count]; lia|].
  destruct (HC3.wH w =? Hm); cbn [bind].
  - destruct (memcmp_eq y _ x m) as [[|]| |]; cbn [bind]; try discriminate;
      int_cases; intros [= <-]; cbn [HC3.count]; lia.
  - int_cases. intros [= <-]; cbn [HC3.count]; lia.
Qed.

(** Whatever the buffers hold, a count returned by [search] for [m >= Q] is
    not negative. *)
Lemma hc3_search_nonneg x m y n c :
  HC3.Q <= m -> HC3.search x m y n = Ok c -> 0 <= c.
Proof.
  intros Hm. unfold HC3.search.
  destruct (Z.ltb_spec m HC3.Q); [lia|]. cbv zeta.
  destruct (HC3.preprocessing x m _) as [[Hm' B]| |]; cbn [bind]; try discriminate.
  destruct (HC3.scan x m y n B Hm') as [s| |] eqn:Hscan; cbn [bind]; try discriminate.
  intros [= <-]. unfold HC3.scan in Hscan.
  apply (while_partial (fun s => 0 <= HC3.count s)) in Hscan.
  - apply Hscan.
  - intros s1 s2 H1 _ Hstep. apply hc3_scan_step_count_mono in Hstep. lia.
  - cbn [HC3.count]. lia.
Qed.

(** ** hc4-qverify: preprocessing *)

Lemma hc4q_CHAIN_HASH_val x p :
  3 <= p < Z.of_nat (length x) -> HC4Q.CHAIN_HASH x p = Ok (HC4QS.chain x p).
Proof.
  intros Hp. unfold HC4Q.CHAIN_HASH, HC4Q.HASH, HC4QS.chain.
  rewrite !rd_bv by lia. reflexivity.
Qed.

Lemma hc4q_mask_range H : 0 <= Z.land H HC4Q.TABLE_MASK < 4096.
Proof. exact (land_mask_range H 12 ltac:(lia)). Qed.

Lemma hc4q_linked_mono B B' h h' :
  tbl_le B B' -> HC4QS.linked B h h' -> HC4QS.linked B' h h'.
Proof. intros Hle Hl. unfold HC4QS.linked in *. eapply tbl_le_bit; eauto. Qed.

Lemma hc4q_link_step x s :
  3 <= HC4Q.chain_pos s < Z.of_nat (length x) ->
  Z.of_nat (length (HC4Q.cB s)) = 4096 ->
  exists B', HC4Q.link_step x s
             = Ok (HC4Q.mkChain (HC4Q.chain_pos s - 4) (HC4QS.chain x (HC4Q.chain_pos s)) B') /\
             Z.of_nat (length B') = 4096 /\ tbl_le (HC4Q.cB s) B' /\
             HC4QS.linked B' (HC4Q.cH s) (HC4QS.chain x (HC4Q.chain_pos s)).
Proof.
  intros Hp HB. unfold HC4Q.link_step.
  rewrite hc4q_CHAIN_HASH_val by assumption. cbn [bind].
  pose proof (hc4q_mask_range (HC4Q.cH s)) as Hr.
  rewrite rdi_word by lia. cbn [bind].
  rewrite wri_Ok by lia. cbn [bind].
  eexists. split; [reflexivity|].
  split; [rewrite length_upd; assumption|].
  split; [apply tbl_le_lor; lia|].
  unfold HC4QS.linked. rewrite word_at_upd_eq by lia.
  rewrite Z.lor_spec. unfold HC4Q.LINK_HASH.
  rewrite fp_testbit by apply land31_range.
  rewrite Z.eqb_refl. apply orb_true_r.
Qed.

(** One chain: from the q-gram that ends at [e], every q-gram [Q] further
    left is recorded in the word of its right neighbour. *)
Lemma hc4q_chain_loop x m e B0 :
  Z.of_nat (length x) = m -> 3 <= e < m -> Z.of_nat (length B0) = 4096 ->
  exists c,
    while (Datatypes.S (Z.to_nat m))
          (fun c => Ok (HC4Q.chain_pos c >=? HC4Q.END_FIRST_QGRAM))
          (HC4Q.link_step x) (HC4Q.mkChain (e - HC4Q.Q) (HC4QS.chain x e) B0) = Ok c /\
    Z.of_nat (length (HC4Q.cB c)) = 4096 /\ tbl_le B0 (HC4Q.cB c) /\
    forall k : nat, 3 <= e - 4 * (Z.of_nat k + 1) ->
      HC4QS.linked (HC4Q.cB c) (HC4QS.chain x (e - 4 * Z.of_nat k))
                   (HC4QS.chain x (e - 4 * (Z.of_nat k + 1))).
Proof.
  intros Hlen He HB. change HC4Q.Q with 4. change HC4Q.END_FIRST_QGRAM with 3.
  destruct (while_total
    (fun c => exists i : nat,
       HC4Q.chain_pos c = e - 4 - 4 * Z.of_nat i /\
       HC4Q.cH c = HC4QS.chain x (e - 4 * Z.of_nat i) /\
       Z.of_nat (length (HC4Q.cB c)) = 4096 /\ tbl_le B0 (HC4Q.cB c) /\
       -1 <= HC4Q.chain_pos c /\
       forall k : nat, (k < i)%nat ->
         HC4QS.linked (HC4Q.cB c) (HC4QS.chain x (e - 4 * Z.of_nat k))
                      (HC4QS.chain x (e - 4 * (Z.of_nat k + 1))))
    (fun c => Z.to_nat (HC4Q.chain_pos c + 1))
    (fun c => Ok (HC4Q.chain_pos c >=? 3)) (HC4Q.link_step x))
    with (fuel := Datatypes.S (Z.to_nat m)) (s := HC4Q.mkChain (e - 4) (HC4QS.chain x e) B0)
    as (c & Hrun & (i & Hpos & HH & HlenB & Hle & Hlow & Hlinks) & Hexit).
  - intros c (i & Hpos & HH & HlenB & Hle & Hlow & Hlinks).
    eexists. split; [reflexivity|]. intros Hc. apply Z.geb_le in Hc.
    destruct (hc4q_link_step x c) as (B' & Hstep & HlenB' & HleB' & Hlk); [lia|assumption|].
    eexists. split; [exact Hstep|]. cbn [HC4Q.chain_pos HC4Q.cH HC4Q.cB]. split; [|lia].
    exists (Datatypes.S i). split; [lia|]. split; [f_equal; lia|].
    split; [assumption|]. split; [eapply tbl_le_trans; eauto|]. split; [lia|].
    intros k Hk. destruct (Nat.eq_dec k i) as [->|Hne].
    + rewrite HH in Hlk.
      replace (e - 4 * (Z.of_nat i + 1)) with (HC4Q.chain_pos c) by lia. exact Hlk.
    + eapply hc4q_linked_mono; [exact HleB'|]. apply Hlinks. lia.
  - exists O. cbn [HC4Q.chain_pos HC4Q.cH HC4Q.cB].
    split; [lia|]. split; [f_equal; lia|]. split; [assumption|].
    split; [apply tbl_le_refl|]. split; [lia|]. intros; lia.
  - cbn [HC4Q.chain_pos]. lia.
  - exists c. split; [exact Hrun|]. split; [assumption|]. split; [assumption|].
    intros k Hk. apply Hlinks. injection Hexit as Hexit.
    destruct (Z.geb_spec (HC4Q.chain_pos c) 3); [discriminate|]. lia.
Qed.

Lemma hc4q_chain_step x m s :
  Z.of_nat (length x) = m -> 3 <= m - HC4Q.chain_no s -> 1 <= HC4Q.chain_no s ->
  Z.of_nat (length (HC4Q.pB s)) = 4096 ->
  exists H' B', HC4Q.chain_step x m s = Ok (HC4Q.mkPre (HC4Q.chain_no s - 1) H' B') /\
    Z.of_nat (length B') = 4096 /\ tbl_le (HC4Q.pB s) B' /\
    forall k : nat, 3 <= m - HC4Q.chain_no s - 4 * (Z.of_nat k + 1) ->
      HC4QS.linked B' (HC4QS.chain x (m - HC4Q.chain_no s - 4 * Z.of_nat k))
                   (HC4QS.chain x (m - HC4Q.chain_no s - 4 * (Z.of_nat k + 1))).
Proof.
  intros Hlen He Hc HB. unfold HC4Q.chain_step.
  rewrite hc4q_CHAIN_HASH_val by lia. cbn [bind].
  destruct (hc4q_chain_loop x m (m - HC4Q.chain_no s) (HC4Q.pB s) Hlen ltac:(lia) HB)
    as (c & Hrun & HlenB & Hle & Hlinks).
  change HC4Q.Q with 4 in Hrun. change HC4Q.Q with 4.
  rewrite Hrun. cbn [bind].
  exists (HC4Q.cH c), (HC4Q.cB c). split; [reflexivity|]. auto.
Qed.

(** The Q chains together cover every pair of q-grams that are Q apart. *)
Lemma hc4q_chains x m B0 :
  Z.of_nat (length x) = m -> 7 <= m -> Z.of_nat (length B0) = 4096 ->
  exists s,
    while (Datatypes.S (Z.to_nat HC4Q.Q)) (fun s => Ok (HC4Q.chain_no s >=? 1))
          (HC4Q.chain_step x m) (HC4Q.mkPre HC4Q.Q 0 B0) = Ok s /\
    Z.of_nat (length (HC4Q.pB s)) = 4096 /\ tbl_le B0 (HC4Q.pB s) /\
    forall p, 3 <= p -> p + 4 <= m - 1 ->
      HC4QS.linked (HC4Q.pB s) (HC4QS.chain x (p + 4)) (HC4QS.chain x p).
Proof.
  intros Hlen Hm HB. change HC4Q.Q with 4.
  destruct (while_total
    (fun s => 0 <= HC4Q.chain_no s <= 4 /\ Z.of_nat (length (HC4Q.pB s)) = 4096 /\
              tbl_le B0 (HC4Q.pB s) /\
              forall c (k : nat), HC4Q.chain_no s < c <= 4 ->
                3 <= m - c - 4 * (Z.of_nat k + 1) ->
                HC4QS.linked (HC4Q.pB s) (HC4QS.chain x (m - c - 4 * Z.of_nat k))
                             (HC4QS.chain x (m - c - 4 * (Z.of_nat k + 1))))
    (fun s => Z.to_nat (HC4Q.chain_no s))
    (fun s => Ok (HC4Q.chain_no s >=? 1)) (HC4Q.chain_step x m))
    with (fuel := Datatypes.S (Z.to_nat 4)) (s := HC4Q.mkPre 4 0 B0)
    as (s & Hrun & (Hc & HlenB & Hle & Hlinks) & Hexit).
  - intros s (Hc & HlenB & Hle & Hlinks).
    eexists. split; [reflexivity|]. intros Hcond. apply Z.geb_le in Hcond.
    destruct (hc4q_chain_step x m s Hlen ltac:(lia) ltac:(lia) HlenB)
      as (H' & B' & Hstep & HlenB' & HleB' & Hlk).
    eexists. split; [exact Hstep|]. cbn [HC4Q.chain_no HC4Q.pB]. split; [|lia].
    split; [lia|]. split; [assumption|]. split; [eapply tbl_le_trans; eauto|].
    intros c k Hck Hk. destruct (Z.eq_dec c (HC4Q.chain_no s)) as [->|Hne].
    + now apply Hlk.
    + eapply hc4q_linked_mono; [exact HleB'|]. apply Hlinks; lia.
  - cbn [HC4Q.chain_no HC4Q.pB]. split; [lia|]. split; [assumption|].
    split; [apply tbl_le_refl|]. intros; lia.
  - cbn [HC4Q.chain_no]. lia.
  - exists s. split; [exact Hrun|]. split; [assumption|]. split; [assumption|].
    injection Hexit as Hexit.
    destruct (Z.geb_spec (HC4Q.chain_no s) 1); [discriminate|].
    intros p Hp Hp4.
    pose proof (Z.div_mod (m - p - 1) 4 ltac:(lia)) as Hdm.
    pose proof (Z.mod_pos_bound (m - p - 1) 4 ltac:(lia)) as Hmb.
    set (c := (m - p - 1) mod 4 + 1) in *.
    set (q := (m - p - 1) / 4) in *.
    assert (Hq : 1 <= q) by lia.
    specialize (Hlinks c (Z.to_nat (q - 1)) ltac:(lia) ltac:(lia)).
    replace (m - c - 4 * Z.of_nat (Z.to_nat (q - 1))) with (p + 4) in Hlinks by lia.
    replace (m - c - 4 * (Z.of_nat (Z.to_nat (q - 1)) + 1)) with p in Hlinks by lia.
    exact Hlinks.
Qed.

Lemma hc4q_LINK_HASH_pos H : 0 < HC4Q.LINK_HASH H.
Proof.
  unfold HC4Q.LINK_HASH. rewrite Z.shiftl_1_l.
  apply Z.pow_pos_nonneg; [lia|apply land31_range].
Qed.

Lemma hc4q_fill_step x s :
  3 <= HC4Q.fill_pos s < Z.of_nat (length x) ->
  Z.of_nat (length (HC4Q.fB s)) = 4096 ->
  exists B', HC4Q.fill_step x s = Ok (HC4Q.mkFill (HC4Q.fill_pos s + 1) B') /\
    Z.of_nat (length B') = 4096 /\ tbl_le (HC4Q.fB s) B' /\
    word_at B' (Z.land (HC4QS.chain x (HC4Q.fill_pos s)) HC4Q.TABLE_MASK) <> 0.
Proof.
  intros Ha HB. unfold HC4Q.fill_step.
  rewrite hc4q_CHAIN_HASH_val by lia. cbn [bind].
  pose proof (hc4q_mask_range (HC4QS.chain x (HC4Q.fill_pos s))) as Hr.
  rewrite rdi_word by lia. cbn [bind].
  destruct (Z.eqb_spec (word_at (HC4Q.fB s) (Z.land (HC4QS.chain x (HC4Q.fill_pos s)) HC4Q.TABLE_MASK)) 0)
    as [Hz|Hnz].
  - rewrite wri_Ok by lia. cbn [bind]. eexists. split; [reflexivity|].
    split; [rewrite length_upd; assumption|].
    split; [apply tbl_le_fill; [lia|assumption]|].
    rewrite word_at_upd_eq by lia.
    pose proof (hc4q_LINK_HASH_pos (u32 (Z.lnot (HC4QS.chain x (HC4Q.fill_pos s))))). lia.
  - cbn [bind]. eexists. split; [reflexivity|]. split; [assumption|].
    split; [apply tbl_le_refl|assumption].
Qed.

Lemma hc4q_fill_loop x m B0 :
  Z.of_nat (length x) = m -> 4 <= m -> Z.of_nat (length B0) = 4096 ->
  exists s,
    while (Datatypes.S (Z.to_nat HC4Q.Q))
          (fun s => Ok (HC4Q.fill_pos s <? Z.min m HC4Q.END_SECOND_QGRAM))
          (HC4Q.fill_step x) (HC4Q.mkFill HC4Q.END_FIRST_QGRAM B0) = Ok s /\
    Z.of_nat (length (HC4Q.fB s)) = 4096 /\ tbl_le B0 (HC4Q.fB s) /\
    forall p, 3 <= p < Z.min m 7 ->
      word_at (HC4Q.fB s) (Z.land (HC4QS.chain x p) HC4Q.TABLE_MASK) <> 0.
Proof.
  intros Hm Hm4 HB. change HC4Q.END_SECOND_QGRAM with 7. change HC4Q.END_FIRST_QGRAM with 3.
  change HC4Q.Q with 4.
  destruct (while_total
    (fun s => 3 <= HC4Q.fill_pos s /\ Z.of_nat (length (HC4Q.fB s)) = 4096 /\
              tbl_le B0 (HC4Q.fB s) /\
              forall p, 3 <= p < HC4Q.fill_pos s ->
                word_at (HC4Q.fB s) (Z.land (HC4QS.chain x p) HC4Q.TABLE_MASK) <> 0)
    (fun s => Z.to_nat (7 - HC4Q.fill_pos s))
    (fun s => Ok (HC4Q.fill_pos s <? Z.min m 7)) (HC4Q.fill_step x))
    with (fuel := Datatypes.S (Z.to_nat 4)) (s := HC4Q.mkFill 3 B0)
    as (s & Hrun & (Hpos & Hlen & Hle & Hnz) & Hexit).
  - intros s (Hpos & Hlen & Hle & Hnz).
    eexists. split; [reflexivity|]. intros Hc. apply Z.ltb_lt in Hc.
    destruct (hc4q_fill_step x s) as (B' & Hstep & HlenB' & HleB' & Hw); [lia|assumption|].
    eexists. split; [exact Hstep|]. cbn [HC4Q.fill_pos HC4Q.fB]. split; [|lia].
    split; [lia|]. split; [assumption|]. split; [eapply tbl_le_trans; eauto|].
    intros p Hp. destruct (Z.eq_dec p (HC4Q.fill_pos s)) as [->|Hne]; [assumption|].
    eapply tbl_le_nonzero; [exact HleB'|]. apply Hnz. lia.
  - cbn [HC4Q.fill_pos HC4Q.fB]. split; [lia|]. split; [assumption|].
    split; [apply tbl_le_refl|]. intros; lia.
  - cbn [HC4Q.fill_pos]. lia.
  - exists s. split; [exact Hrun|]. split; [assumption|]. split; [assumption|].
    injection Hexit as Hexit. apply Z.ltb_ge in Hexit.
    intros p Hp. apply Hnz. lia.
Qed.

(** For [m >= 2Q - 1] the preprocessing of hc4-qverify completes, and the
    table links every q-gram to the q-gram Q bytes to its left. *)
Lemma hc4q_preprocessing_links x m B0 :
  Z.of_nat (length x) = m -> 7 <= m -> Z.of_nat (length B0) = 4096 ->
  exists H B,
    HC4Q.preprocessing x m B0 = Ok (H, B) /\
    Z.of_nat (length B) = 4096 /\
    (forall p, 3 <= p -> p + 4 <= m - 1 ->
       HC4QS.linked B (HC4QS.chain x (p + 4)) (HC4QS.chain x p)) /\
    (forall p, 3 <= p < Z.min m 7 ->
       word_at B (Z.land (HC4QS.chain x p) HC4Q.TABLE_MASK) <> 0).
Proof.
  intros Hlen Hm HB. unfold HC4Q.preprocessing. cbv zeta.
  assert (HB' : Z.of_nat (length (map (fun _ : Z => 0) B0)) = 4096)
    by (rewrite length_map; assumption).
  destruct (hc4q_chains x m _ Hlen Hm HB') as (s1 & Hrun1 & Hlen1 & Hle1 & Hlinks).
  rewrite Hrun1. cbn [bind].
  destruct (hc4q_fill_loop x m (HC4Q.pB s1) Hlen ltac:(lia) Hlen1) as (s2 & Hrun2 & Hlen2 & Hle2 & Hnz).
  rewrite Hrun2. cbn [bind].
  exists (HC4Q.pH s1), (HC4Q.fB s2). split; [reflexivity|]. split; [assumption|].
  split; [|assumption].
  intros p Hp Hp4. eapply hc4q_linked_mono; [exact Hle2|]. now apply Hlinks.
Qed.

(** ** lhc4: preprocessing stays inside the pattern *)

Lemma lhc4_CHAIN_HASH_ok x p :
  3 <= p < Z.of_nat (length x) -> exists h, LHC4.CHAIN_HASH x p = Ok h.
Proof.
  intros Hp. unfold LHC4.CHAIN_HASH, LHC4.HASH.
  rewrite !rd_bv by lia. cbn [bind]. eauto.
Qed.

Lemma lhc4_mask_range H : 0 <= Z.land H LHC4.TABLE_MASK < 4096.
Proof. exact (land_mask_range H 12 ltac:(lia)). Qed.

Lemma lhc4_link_step x s :
  3 <= LHC4.chain_pos s < Z.of_nat (length x) ->
  Z.of_nat (length (LHC4.cB s)) = 4096 ->
  exists s', LHC4.link_step x s = Ok s' /\
             LHC4.chain_pos s' = LHC4.chain_pos s - 4 /\
             Z.of_nat (length (LHC4.cB s')) = 4096.
Proof.
  intros Hp HB. unfold LHC4.link_step.
  destruct (lhc4_CHAIN_HASH_ok x _ Hp) as (h & Hh). rewrite Hh. cbn [bind].
  pose proof (lhc4_mask_range (LHC4.cH s)) as Hr.
  rewrite rdi_word by lia. cbn [bind].
  rewrite wri_Ok by lia. cbn [bind].
  eexists. split; [reflexivity|]. cbn [LHC4.chain_pos LHC4.cB].
  split; [reflexivity|]. rewrite length_upd. assumption.
Qed.

Lemma lhc4_chain_loop x m p0 H0 B0 :
  Z.of_nat (length x) = m -> -1 <= p0 < m -> Z.of_nat (length B0) = 4096 ->
  exists c,
    while (Datatypes.S (Z.to_nat m))
          (fun c => Ok (LHC4.chain_pos c >=? LHC4.END_FIRST_QGRAM))
          (LHC4.link_step x) (LHC4.mkChain p0 H0 B0) = Ok c /\
    Z.of_nat (length (LHC4.cB c)) = 4096.
Proof.
  intros Hlen Hp HB. change LHC4.END_FIRST_QGRAM with 3.
  destruct (while_total
    (fun c => -1 <= LHC4.chain_pos c < m /\ Z.of_nat (length (LHC4.cB c)) = 4096)
    (fun c => Z.to_nat (LHC4.chain_pos c + 1))
    (fun c => Ok (LHC4.chain_pos c >=? 3)) (LHC4.link_step x))
    with (fuel := Datatypes.S (Z.to_nat m)) (s := LHC4.mkChain p0 H0 B0)
    as (c & Hrun & (Hpos & HlenB) & _).
  - intros c (Hpos & HlenB).
    eexists. split; [reflexivity|]. intros Hc. apply Z.geb_le in Hc.
    destruct (lhc4_link_step x c) as (c' & Hstep & Hpos' & HlenB'); [lia|assumption|].
    exists c'. split; [assumption|]. split; [split; [lia|assumption]|lia].
  - cbn [LHC4.chain_pos LHC4.cB]. split; [lia|assumption].
  - cbn [LHC4.chain_pos]. lia.
  - exists c. auto.
Qed.

Lemma lhc4_chain_step x m s :
  Z.of_nat (length x) = m -> 3 <= m - LHC4.chain_no s -> 1 <= LHC4.chain_no s ->
  Z.of_nat (length (LHC4.pB s)) = 4096 ->
  exists s', LHC4.chain_step x m s = Ok s' /\
             LHC4.chain_no s' = LHC4.chain_no s - 1 /\
             Z.of_nat (length (LHC4.pB s')) = 4096.
Proof.
  intros Hlen He Hc HB. unfold LHC4.chain_step.
  destruct (lhc4_CHAIN_HASH_ok x (m - LHC4.chain_no s) ltac:(lia)) as (h & Hh).
  rewrite Hh. cbn [bind]. change LHC4.Q with 4.
  destruct (lhc4_chain_loop x m (m - LHC4.chain_no s - 4) h (LHC4.pB s) Hlen ltac:(lia) HB)
    as (c & Hrun & HlenB).
  rewrite Hrun. cbn [bind]. eexists. split; [reflexivity|].
  cbn [LHC4.chain_no LHC4.pB]. auto.
Qed.

Lemma lhc4_fill_step x s :
  3 <= LHC4.fill_pos s < Z.of_nat (length x) ->
  Z.of_nat (length (LHC4.fB s)) = 4096 ->
  exists s', LHC4.fill_step x s = Ok s' /\
             LHC4.fill_pos s' = LHC4.fill_pos s + 1 /\
             Z.of_nat (length (LHC4.fB s')) = 4096.
Proof.
  intros Hp HB. unfold LHC4.fill_step.
  destruct (lhc4_CHAIN_HASH_ok x _ Hp) as (h & Hh). rewrite Hh. cbn [bind].
  pose proof (lhc4_mask_range h) as Hr.
  rewrite rdi_word by lia. cbn [bind].
  destruct (word_at (LHC4.fB s) (Z.land h LHC4.TABLE_MASK) =? 0).
  - rewrite wri_Ok by lia. cbn [bind]. eexists. split; [reflexivity|].
    cbn [LHC4.fill_pos LHC4.fB]. rewrite length_upd. auto.
  - cbn [bind]. eexists. split; [reflexivity|]. cbn [LHC4.fill_pos LHC4.fB]. auto.
Qed.

(** With the [start] guard the preprocessing of lhc4 reads the pattern only
    inside [[0, m)], for every [m >= Q]. *)
Lemma lhc4_preprocessing_total x m B0 :
  Z.of_nat (length x) = m -> 4 <= m -> Z.of_nat (length B0) = 4096 ->
  exists H B, LHC4.preprocessing x m B0 = Ok (H, B) /\ Z.of_nat (length B) = 4096.
Proof.
  intros Hlen Hm HB. unfold LHC4.preprocessing. cbv zeta.
  change LHC4.Q2 with 8. change LHC4.END_FIRST_QGRAM with 3. change LHC4.Q with 4.
  change LHC4.END_SECOND_QGRAM with 7.
  set (start := if m <? 8 then m - 3 else 4).
  assert (Hstart : 1 <= start <= 4 /\ 3 <= m - start).
  { subst start. destruct (Z.ltb_spec m 8); lia. }
  destruct (while_total
    (fun s => 0 <= LHC4.chain_no s <= start /\ Z.of_nat (length (LHC4.pB s)) = 4096)
    (fun s => Z.to_nat (LHC4.chain_no s))
    (fun s => Ok (LHC4.chain_no s >=? 1)) (LHC4.chain_step x m))
    with (fuel := Datatypes.S (Z.to_nat 4)) (s := LHC4.mkPre start 0 (map (fun _ : Z => 0) B0))
    as (s1 & Hrun1 & (_ & Hlen1) & _).
  - intros s (Hc & HlenB).
    eexists. split; [reflexivity|]. intros Hcond. apply Z.geb_le in Hcond.
    destruct (lhc4_chain_step x m s Hlen ltac:(lia) ltac:(lia) HlenB) as (s' & Hs' & Hno & HlenB').
    exists s'. split; [assumption|]. split; [split; [lia|assumption]|lia].
  - cbn [LHC4.chain_no LHC4.pB]. rewrite length_map. split; [lia|assumption].
  - cbn [LHC4.chain_no]. lia.
  - rewrite Hrun1. cbn [bind].
    destruct (while_total
      (fun s => 3 <= LHC4.fill_pos s /\ Z.of_nat (length (LHC4.fB s)) = 4096)
      (fun s => Z.to_nat (7 - LHC4.fill_pos s))
      (fun s => Ok (LHC4.fill_pos s <? Z.min m 7)) (LHC4.fill_step x))
      with (fuel := Datatypes.S (Z.to_nat 4)) (s := LHC4.mkFill 3 (LHC4.pB s1))
      as (s2 & Hrun2 & (_ & Hlen2) & _).
    + intros s (Hp & HlenB).
      eexists. split; [reflexivity|]. intros Hcond. apply Z.ltb_lt in Hcond.
      destruct (lhc4_fill_step x s ltac:(lia) HlenB) as (s' & Hs' & Hpos' & HlenB').
      exists s'. split; [assumption|]. split; [split; [lia|assumption]|lia].
    + cbn [LHC4.fill_pos LHC4.fB]. split; [lia|assumption].
    + cbn [LHC4.fill_pos]. lia.
    + rewrite Hrun2. cbn [bind]. eauto.
Qed.

(** ** lhc4: the scanner *)

(** ** whc3: [search] returns *)

Lemma whc3_CHAIN_HASH_ok x p :
  2 <= p < Z.of_nat (length x) -> exists h, WHC3.CHAIN_HASH x p = Ok h.
Proof.
  intros Hp. unfold WHC3.CHAIN_HASH, WHC3.HASH.
  rewrite !rd_bv by lia. cbn [bind]. eauto.
Qed.

Lemma whc3_mask_range H : 0 <= Z.land H WHC3.TABLE_MASK < 2048.
Proof. exact (land_mask_range H 11 ltac:(lia)). Qed.

Lemma whc3_link_step x s :
  2 <= WHC3.chain_pos s < Z.of_nat (length x) ->
  Z.of_nat (length (WHC3.cB s)) = 2048 ->
  exists s', WHC3.link_step x s = Ok s' /\
             WHC3.chain_pos s' = WHC3.chain_pos s - 3 /\
             Z.of_nat (length (WHC3.cB s')) = 2048.
Proof.
  intros Hp HB. unfold WHC3.link_step.
  destruct (whc3_CHAIN_HASH_ok x _ Hp) as (h & Hh). rewrite Hh. cbn [bind].
  pose proof (whc3_mask_range (WHC3.cH s)) as Hr.
  rewrite rdi_word by lia. cbn [bind].
  rewrite wri_Ok by lia. cbn [bind].
  eexists. split; [reflexivity|]. cbn [WHC3.chain_pos WHC3.cB].
  split; [reflexivity|]. rewrite length_upd. assumption.
Qed.

Lemma whc3_chain_loop x m p0 H0 B0 :
  Z.of_nat (length x) = m -> -1 <= p0 < m -> Z.of_nat (length B0) = 2048 ->
  exists c,
    while (Datatypes.S (Z.to_nat m))
          (fun c => Ok (WHC3.chain_pos c >=? WHC3.END_FIRST_QGRAM))
          (WHC3.link_step x) (WHC3.mkChain p0 H0 B0) = Ok c /\
    Z.of_nat (length (WHC3.cB c)) = 2048.
Proof.
  intros Hlen Hp HB. change WHC3.END_FIRST_QGRAM with 2.
  destruct (while_total
    (fun c => -1 <= WHC3.chain_pos c < m /\ Z.of_nat (length (WHC3.cB c)) = 2048)
    (fun c => Z.to_nat (WHC3.chain_pos c + 1))
    (fun c => Ok (WHC3.chain_pos c >=? 2)) (WHC3.link_step x))
    with (fuel := Datatypes.S (Z.to_nat m)) (s := WHC3.mkChain p0 H0 B0)
    as (c & Hrun & (Hpos & HlenB) & _).
  - intros c (Hpos & HlenB).
    eexists. split; [reflexivity|]. intros Hc. apply Z.geb_le in Hc.
    destruct (whc3_link_step x c) as (c' & Hstep & Hpos' & HlenB'); [lia|assumption|].
    exists c'. split; [assumption|]. split; [split; [lia|assumption]|lia].
  - cbn [WHC3.chain_pos WHC3.cB]. split; [lia|assumption].
  - cbn [WHC3.chain_pos]. lia.
  - exists c. auto.
Qed.

Lemma whc3_chain_step x m s :
  Z.of_nat (length x) = m -> 2 <= m - WHC3.chain_no s -> 1 <= WHC3.chain_no s ->
  Z.of_nat (length (WHC3.pB s)) = 2048 ->
  exists s', WHC3.chain_step x m s = Ok s' /\
             WHC3.chain_no s' = WHC3.chain_no s - 1 /\
             Z.of_nat (length (WHC3.pB s')) = 2048.
Proof.
  intros Hlen He Hc HB. unfold WHC3.chain_step.
  destruct (whc3_CHAIN_HASH_ok x (m - WHC3.chain_no s) ltac:(lia)) as (h & Hh).
  rewrite Hh. cbn [bind]. change WHC3.Q with 3.
  destruct (whc3_chain_loop x m (m - WHC3.chain_no s - 3) h (WHC3.pB s) Hlen ltac:(lia) HB)
    as (c & Hrun & HlenB).
  rewrite Hrun. cbn [bind]. eexists. split; [reflexivity|].
  cbn [WHC3.chain_no WHC3.pB]. auto.
Qed.

Lemma whc3_fill_step x s :
  2 <= WHC3.fill_pos s < Z.of_nat (length x) ->
  Z.of_nat (length (WHC3.fB s)) = 2048 ->
  exists s', WHC3.fill_step x s = Ok s' /\
             WHC3.fill_pos s' = WHC3.fill_pos s + 1 /\
             Z.of_nat (length (WHC3.fB s')) = 2048.
Proof.
  intros Hp HB. unfold WHC3.fill_step.
  destruct (whc3_CHAIN_HASH_ok x _ Hp) as (h & Hh). rewrite Hh. cbn [bind].
  pose proof (whc3_mask_range h) as Hr.
  rewrite rdi_word by lia. cbn [bind].
  destruct (word_at (WHC3.fB s) (Z.land h WHC3.TABLE_MASK) =? 0).
  - rewrite wri_Ok by lia. cbn [bind]. eexists. split; [reflexivity|].
    cbn [WHC3.fill_pos WHC3.fB]. rewrite length_upd. auto.
  - cbn [bind]. eexists. split; [reflexivity|]. cbn [WHC3.fill_pos WHC3.fB]. auto.
Qed.

Lemma whc3_scan_step_count_mono x m y B s s' :
  WHC3.scan_step x m y B s = Ok s' -> WHC3.count s <= WHC3.count s'.
Proof.
  unfold WHC3.scan_step. cbv zeta.
  destruct (WHC3.CHAIN_HASH y (WHC3.pos s)) as [H| |]; cbn [bind]; try discriminate.
  destruct (rdi B (Z.land H WHC3.TABLE_MASK)) as [V| |]; cbn [bind]; try discriminate.
  destruct (V =? 0); [int_cases; intros [= <-]; cbn [WHC3.count]; lia|].
  int_cases.
  destruct (WHC3.walk y B m _ (WHC3.pos s) H V) as [w| |]; cbn [bind]; try discriminate.
  destruct (WHC3.failed w); [int_cases; intros [= <-]; cbn [WHC3.count]; lia|].
  destruct (memcmp_eq y _ x m) as [[|]| |]; cbn [bind]; try discriminate;
    int_cases; intros [= <-]; cbn [WHC3.count]; lia.
Qed.

Lemma whc3_search_nonneg x m y n c :
  WHC3.Q <= m -> WHC3.search x m y n = Ok c -> 0 <= c.
Proof.
  intros Hm. unfold WHC3.search.
  destruct (Z.ltb_spec m WHC3.Q); [lia|]. cbv zeta.
  destruct (WHC3.preprocessing x m _) as [[Hm' B]| |]; cbn [bind]; try discriminate.
  destruct (WHC3.scan x m y n B) as [s| |] eqn:Hscan; cbn [bind]; try discriminate.
  intros [= <-]. unfold WHC3.scan in Hscan.
  apply (while_partial (fun s => 0 <= WHC3.count s)) in Hscan.
  - apply Hscan.
  - intros s1 s2 H1 _ Hstep. apply whc3_scan_step_count_mono in Hstep. lia.
  - cbn [WHC3.count]. lia.
Qed.

(** ** thc2-1: the sentinel copy and the scanner *)

Lemma byte_at_upd y i v k :
  0 <= i < Z.of_nat (length y) -> 0 <= k ->
  byte_at (upd y (Z.to_nat i) v) k = if k =? i then Some v else byte_at y k.
Proof.
  intros Hi Hk. unfold byte_at. destruct (Z.ltb_spec k 0); [lia|].
  destruct (Z.eqb_spec k i) as [->|Hne].
  - apply nth_error_upd_eq. lia.
  - apply nth_error_upd_ne. lia.
Qed.

Lemma rdb_byte_at x i b : byte_at x i = Some b -> rdb x i = Ok b.
Proof.
  unfold byte_at, rdb. destruct (i <? 0); [discriminate|]. now intros ->.
Qed.

Lemma byte_at_neg x k : k < 0 -> byte_at x k = None.
Proof. intros H. unfold byte_at. destruct (Z.ltb_spec k 0); [reflexivity|lia]. Qed.

Lemma thc2_copy_pattern (x : bytes) (m : Z) (y : bytes) (n : Z) :
  Z.of_nat (length x) = m -> 0 <= n -> n + m <= Z.of_nat (length y) ->
  exists y', THC2.copy_pattern x m y n = Ok y' /\ sentinel_copy x m y n y'.
Proof.
  intros Hlen Hn Hcap. unfold THC2.copy_pattern.
  destruct (while_total
    (fun s : Z * bytes =>
       0 <= fst s <= m /\ length (snd s) = length y /\
       (forall k, 0 <= k < n -> byte_at (snd s) k = byte_at y k) /\
       (forall i, 0 <= i < fst s -> byte_at (snd s) (n + i) = byte_at x i) /\
       (forall k, n + fst s <= k -> byte_at (snd s) k = byte_at y k))
    (fun s => Z.to_nat (m - fst s))
    (fun s => Ok (fst s <? m)) (THC2.copy_step x n))
    with (fuel := Datatypes.S (Z.to_nat m)) (s := (0, y))
    as (s & Hrun & (Hi & Hl & Hlow & Hmid & Hhigh) & Hexit).
  - intros [i yy] (Hi & Hl & Hlow & Hmid & Hhigh). cbn [fst snd] in *.
    eexists. split; [reflexivity|]. intros Hc. apply Z.ltb_lt in Hc.
    unfold THC2.copy_step. cbn [fst snd].
    destruct (byte_at_in_range x i ltac:(lia)) as (b & Hb).
    rewrite (rdb_byte_at _ _ _ Hb). cbn [bind].
    unfold wrb. destruct (Z.ltb_spec (n + i) 0); [lia|].
    destruct (Z.leb_spec (Z.of_nat (length yy)) (n + i)); [lia|]. cbn [orb bind].
    eexists. split; [reflexivity|]. cbn [fst snd]. split; [|lia].
    split; [lia|]. split; [rewrite length_upd; assumption|].
    split; [|split].
    + intros k Hk. rewrite byte_at_upd by lia.
      destruct (Z.eqb_spec k (n + i)); [lia|]. apply Hlow. lia.
    + intros i' Hi'. rewrite byte_at_upd by lia.
      destruct (Z.eqb_spec (n + i') (n + i)) as [E|Hne].
      * assert (i' = i) as -> by lia. now rewrite Hb.
      * apply Hmid. lia.
    + intros k Hk. rewrite byte_at_upd by lia.
      destruct (Z.eqb_spec k (n + i)); [lia|]. apply Hhigh. lia.
  - cbn [fst snd]. split; [lia|]. split; [reflexivity|].
    split; [reflexivity|]. split; [intros; lia|reflexivity].
  - cbn [fst]. lia.
  - rewrite Hrun. cbn [bind]. exists (snd s). split; [reflexivity|].
    injection Hexit as Hexit. apply Z.ltb_ge in Hexit.
    split; [assumption|]. split; [assumption|].
    split; [intros i Hi'; apply Hmid; lia|intros k Hk; apply Hhigh; lia].
Qed.

Lemma thc2_mask_range H : 0 <= Z.land H THC2.TABLE_MASK < 2048.
Proof. exact (land_mask_range H 11 ltac:(lia)). Qed.

Lemma thc2_ANCHOR_HASH_val x p :
  1 <= p < Z.of_nat (length x) -> THC2.ANCHOR_HASH x p = Ok (THC2S.anchor x p).
Proof.
  intros Hp. unfold THC2.ANCHOR_HASH, THC2.HASH, THC2S.anchor.
  rewrite !rd_bv by lia. reflexivity.
Qed.

Lemma thc2_CHAIN_HASH_ok x p :
  1 <= p < Z.of_nat (length x) -> exists h, THC2.CHAIN_HASH x p = Ok h.
Proof.
  intros Hp. unfold THC2.CHAIN_HASH, THC2.HASH.
  rewrite !rd_bv by lia. cbn [bind]. eauto.
Qed.

Lemma thc2_FINGERPRINT_pos H : 0 < THC2.FINGERPRINT H.
Proof.
  unfold THC2.FINGERPRINT. rewrite Z.shiftl_1_l.
  apply Z.pow_pos_nonneg; [lia|apply land31_range].
Qed.

Lemma lor_pos_nonzero w f : 0 < f -> Z.lor w f <> 0.
Proof.
  intros Hf E. apply Z.lor_eq_0_iff in E. lia.
Qed.

Lemma thc2_link_step x s :
  1 <= THC2.chain_pos s < Z.of_nat (length x) ->
  Z.of_nat (length (THC2.cB s)) = 2048 ->
  exists s', THC2.link_step x s = Ok s' /\
             THC2.chain_pos s' = THC2.chain_pos s - 2 /\
             Z.of_nat (length (THC2.cB s')) = 2048 /\ tbl_le (THC2.cB s) (THC2.cB s') /\
             word_at (THC2.cB s') (Z.land (THC2.cH s) THC2.TABLE_MASK) <> 0.
Proof.
  intros Hp HB. unfold THC2.link_step.
  destruct (thc2_CHAIN_HASH_ok x _ Hp) as (h & Hh). rewrite Hh. cbn [bind].
  pose proof (thc2_mask_range (THC2.cH s)) as Hr.
  rewrite rdi_word by lia. cbn [bind].
  rewrite wri_Ok by lia. cbn [bind].
  eexists. split; [reflexivity|]. cbn [THC2.chain_pos THC2.cB].
  split; [reflexivity|]. split; [rewrite length_upd; assumption|].
  split; [apply tbl_le_lor; lia|].
  rewrite word_at_upd_eq by lia. apply lor_pos_nonzero, thc2_FINGERPRINT_pos.
Qed.

Lemma thc2_chain_loop x a B0 :
  3 <= a < Z.of_nat (length x) -> Z.of_nat (length B0) = 2048 ->
  exists c,
    while (Z.to_nat (THC2.CHAIN_LENGTH + 5))
          (fun c => Ok (THC2.chain_pos c >=? Z.max THC2.END_FIRST_QGRAM (a - THC2.Q - THC2.CHAIN_LENGTH)))
          (THC2.link_step x) (THC2.mkChain (a - THC2.Q) (THC2S.anchor x a) B0) = Ok c /\
    Z.of_nat (length (THC2.cB c)) = 2048 /\ tbl_le B0 (THC2.cB c) /\
    word_at (THC2.cB c) (Z.land (THC2S.anchor x a) THC2.TABLE_MASK) <> 0.
Proof.
  intros Ha HB.
  change THC2.CHAIN_LENGTH with 8. change THC2.Q with 2. change THC2.END_FIRST_QGRAM with 1.
  set (stop := Z.max 1 (a - 2 - 8)).
  destruct (while_total
    (fun c => stop - 2 <= THC2.chain_pos c <= a - 2 /\
              Z.of_nat (length (THC2.cB c)) = 2048 /\ tbl_le B0 (THC2.cB c) /\
              (THC2.chain_pos c = a - 2 -> THC2.cH c = THC2S.anchor x a) /\
              (THC2.chain_pos c < a - 2 ->
               word_at (THC2.cB c) (Z.land (THC2S.anchor x a) THC2.TABLE_MASK) <> 0))
    (fun c => Z.to_nat (THC2.chain_pos c - stop + 3))
    (fun c => Ok (THC2.chain_pos c >=? stop)) (THC2.link_step x))
    with (fuel := Z.to_nat (8 + 5)) (s := THC2.mkChain (a - 2) (THC2S.anchor x a) B0)
    as (c & Hrun & (Hpos & Hlen & Hle & _ & Hnz) & Hexit).
  - intros c (Hpos & Hlen & Hle & Hfirst & Hnz).
    eexists. split; [reflexivity|]. intros Hc. apply Z.geb_le in Hc.
    destruct (thc2_link_step x c) as (c' & Hstep & Hp' & HlenB' & HleB' & Hw); [subst stop; lia|assumption|].
    exists c'. split; [assumption|]. split; [|lia].
    split; [lia|]. split; [assumption|]. split; [eapply tbl_le_trans; eauto|].
    split; [intros; lia|].
    intros _. destruct (Z.eq_dec (THC2.chain_pos c) (a - 2)) as [E|Hne].
    + rewrite <- (Hfirst E). exact Hw.
    + eapply tbl_le_nonzero; [exact HleB'|]. apply Hnz. lia.
  - cbn [THC2.chain_pos THC2.cB THC2.cH]. split; [subst stop; lia|]. split; [assumption|].
    split; [apply tbl_le_refl|]. split; [reflexivity|]. intros; lia.
  - cbn [THC2.chain_pos]. subst stop. lia.
  - exists c. split; [exact Hrun|]. split; [assumption|]. split; [assumption|].
    apply Hnz. injection Hexit as Hexit.
    destruct (Z.geb_spec (THC2.chain_pos c) stop); [discriminate|]. subst stop. lia.
Qed.

Lemma thc2_anchor_loop x m B0 :
  Z.of_nat (length x) = m -> Z.of_nat (length B0) = 2048 ->
  exists s,
    while (Datatypes.S (Z.to_nat m)) (fun s => Ok (THC2.anchor_pos s <? m))
          (THC2.anchor_step x) (THC2.mkAnchor THC2.END_SECOND_QGRAM B0) = Ok s /\
    Z.of_nat (length (THC2.aB s)) = 2048 /\
    forall a, 3 <= a < m ->
      word_at (THC2.aB s) (Z.land (THC2S.anchor x a) THC2.TABLE_MASK) <> 0.
Proof.
  intros Hm HB. change THC2.END_SECOND_QGRAM with 3.
  destruct (while_total
    (fun s => 3 <= THC2.anchor_pos s /\ Z.of_nat (length (THC2.aB s)) = 2048 /\
              forall a, 3 <= a < THC2.anchor_pos s -> a < m ->
                word_at (THC2.aB s) (Z.land (THC2S.anchor x a) THC2.TABLE_MASK) <> 0)
    (fun s => Z.to_nat (m - THC2.anchor_pos s))
    (fun s => Ok (THC2.anchor_pos s <? m)) (THC2.anchor_step x))
    with (fuel := Datatypes.S (Z.to_nat m)) (s := THC2.mkAnchor 3 B0)
    as (s & Hrun & (Hpos & Hlen & Hnz) & Hexit).
  - intros s (Hpos & Hlen & Hnz).
    eexists. split; [reflexivity|]. intros Hc. apply Z.ltb_lt in Hc.
    unfold THC2.anchor_step. rewrite thc2_ANCHOR_HASH_val by lia. cbn [bind]. cbv zeta.
    destruct (thc2_chain_loop x (THC2.anchor_pos s) (THC2.aB s) ltac:(lia) Hlen)
      as (c & Hrun & HlenB & Hle & Hw).
    rewrite Hrun. cbn [bind].
    eexists. split; [reflexivity|]. cbn [THC2.anchor_pos THC2.aB]. split; [|lia].
    split; [lia|]. split; [assumption|].
    intros a Ha Ham. destruct (Z.eq_dec a (THC2.anchor_pos s)) as [->|Hne]; [assumption|].
    eapply tbl_le_nonzero; [exact Hle|]. apply Hnz; lia.
  - cbn [THC2.anchor_pos THC2.aB]. split; [lia|]. split; [assumption|]. intros; lia.
  - cbn [THC2.anchor_pos]. lia.
  - exists s. split; [exact Hrun|]. split; [assumption|].
    injection Hexit as Hexit. apply Z.ltb_ge in Hexit.
    intros a Ha. apply Hnz; lia.
Qed.

Lemma thc2_first_step x s :
  1 <= THC2.anchor_pos s < Z.of_nat (length x) ->
  Z.of_nat (length (THC2.aB s)) = 2048 ->
  exists B', THC2.first_step x s = Ok (THC2.mkAnchor (THC2.anchor_pos s + 1) B') /\
    Z.of_nat (length B') = 2048 /\ tbl_le (THC2.aB s) B' /\
    word_at B' (Z.land (THC2S.anchor x (THC2.anchor_pos s)) THC2.TABLE_MASK) <> 0.
Proof.
  intros Ha HB. unfold THC2.first_step.
  rewrite thc2_ANCHOR_HASH_val by lia. cbn [bind].
  pose proof (thc2_mask_range (THC2S.anchor x (THC2.anchor_pos s))) as Hr.
  rewrite rdi_word by lia. cbn [bind].
  destruct (Z.eqb_spec (word_at (THC2.aB s) (Z.land (THC2S.anchor x (THC2.anchor_pos s)) THC2.TABLE_MASK)) 0)
    as [Hz|Hnz].
  - rewrite wri_Ok by lia. cbn [bind]. eexists. split; [reflexivity|].
    split; [rewrite length_upd; assumption|].
    split; [apply tbl_le_fill; [lia|assumption]|].
    rewrite word_at_upd_eq by lia.
    pose proof (thc2_FINGERPRINT_pos (u32 (Z.lnot (THC2S.anchor x (THC2.anchor_pos s))))). lia.
  - cbn [bind]. eexists. split; [reflexivity|]. split; [assumption|].
    split; [apply tbl_le_refl|assumption].
Qed.

Lemma thc2_first_loop x m B0 :
  Z.of_nat (length x) = m -> 2 <= m -> Z.of_nat (length B0) = 2048 ->
  exists s,
    while (Datatypes.S (Z.to_nat THC2.Q))
          (fun s => Ok (THC2.anchor_pos s <? Z.min m THC2.END_SECOND_QGRAM))
          (THC2.first_step x) (THC2.mkAnchor THC2.END_FIRST_QGRAM B0) = Ok s /\
    Z.of_nat (length (THC2.aB s)) = 2048 /\ tbl_le B0 (THC2.aB s) /\
    forall p, 1 <= p < Z.min m 3 ->
      word_at (THC2.aB s) (Z.land (THC2S.anchor x p) THC2.TABLE_MASK) <> 0.
Proof.
  intros Hm Hm2 HB. change THC2.END_SECOND_QGRAM with 3. change THC2.END_FIRST_QGRAM with 1.
  change THC2.Q with 2.
  destruct (while_total
    (fun s => 1 <= THC2.anchor_pos s /\ Z.of_nat (length (THC2.aB s)) = 2048 /\
              tbl_le B0 (THC2.aB s) /\
              forall p, 1 <= p < THC2.anchor_pos s ->
                word_at (THC2.aB s) (Z.land (THC2S.anchor x p) THC2.TABLE_MASK) <> 0)
    (fun s => Z.to_nat (3 - THC2.anchor_pos s))
    (fun s => Ok (THC2.anchor_pos s <? Z.min m 3)) (THC2.first_step x))
    with (fuel := Datatypes.S (Z.to_nat 2)) (s := THC2.mkAnchor 1 B0)
    as (s & Hrun & (Hpos & Hlen & Hle & Hnz) & Hexit).
  - intros s (Hpos & Hlen & Hle & Hnz).
    eexists. split; [reflexivity|]. intros Hc. apply Z.ltb_lt in Hc.
    destruct (thc2_first_step x s) as (B' & Hstep & HlenB' & HleB' & Hw); [lia|assumption|].
    eexists. split; [exact Hstep|]. cbn [THC2.anchor_pos THC2.aB]. split; [|lia].
    split; [lia|]. split; [assumption|]. split; [eapply tbl_le_trans; eauto|].
    intros p Hp. destruct (Z.eq_dec p (THC2.anchor_pos s)) as [->|Hne]; [assumption|].
    eapply tbl_le_nonzero; [exact HleB'|]. apply Hnz. lia.
  - cbn [THC2.anchor_pos THC2.aB]. split; [lia|]. split; [assumption|].
    split; [apply tbl_le_refl|]. intros; lia.
  - cbn [THC2.anchor_pos]. lia.
  - exists s. split; [exact Hrun|]. split; [assumption|]. split; [assumption|].
    injection Hexit as Hexit. apply Z.ltb_ge in Hexit.
    intros p Hp. apply Hnz. lia.
Qed.

Lemma thc2_roll_loop x m p0 H0 :
  Z.of_nat (length x) = m -> -1 <= p0 < m ->
  exists r,
    while (Datatypes.S (Z.to_nat m)) (fun s => Ok (fst s >=? THC2.END_FIRST_QGRAM))
          (THC2.roll_step x) (p0, H0) = Ok r.
Proof.
  intros Hlen Hp. change THC2.END_FIRST_QGRAM with 1.
  destruct (while_total
    (fun s : Z * Z => -1 <= fst s < m)
    (fun s => Z.to_nat (fst s + 1))
    (fun s => Ok (fst s >=? 1)) (THC2.roll_step x))
    with (fuel := Datatypes.S (Z.to_nat m)) (s := (p0, H0))
    as (r & Hrun & _ & _).
  - intros s Hs. eexists. split; [reflexivity|]. intros Hc. apply Z.geb_le in Hc.
    unfold THC2.roll_step.
    destruct (thc2_CHAIN_HASH_ok x (fst s) ltac:(lia)) as (h & Hh). rewrite Hh. cbn [bind].
    eexists. split; [reflexivity|]. cbn [fst]. change THC2.Q with 2. lia.
  - cbn [fst]. lia.
  - cbn [fst]. lia.
  - eauto.
Qed.

Lemma thc2_anchor_sentinel x m y n p :
  (forall i, 0 <= i < m -> byte_at y (n + i) = byte_at x i) ->
  1 <= p < m -> THC2S.anchor y (n + p) = THC2S.anchor x p.
Proof.
  intros Hs Hp. unfold THC2S.anchor.
  rewrite (bv_byte_at x y (n + p) p) by (apply Hs; lia).
  replace (n + p - 1) with (n + (p - 1)) by lia.
  rewrite (bv_byte_at x y (n + (p - 1)) (p - 1)) by (apply Hs; lia).
  reflexivity.
Qed.

(** ** hc6: the first q-grams get a non-empty entry *)

Lemma hc6_ANCHOR_HASH_val x p :
  5 <= p < Z.of_nat (length x) -> HC6.ANCHOR_HASH x p = Ok (HC6S.anchor x p).
Proof.
  intros Hp. unfold HC6.ANCHOR_HASH, HC6.HASH, HC6S.anchor.
  rewrite !rd_bv by lia. reflexivity.
Qed.

Lemma hc6_CHAIN_HASH_ok x p :
  5 <= p < Z.of_nat (length x) -> exists h, HC6.CHAIN_HASH x p = Ok h.
Proof.
  intros Hp. unfold HC6.CHAIN_HASH, HC6.HASH.
  rewrite !rd_bv by lia. cbn [bind]. eauto.
Qed.

Lemma hc6_mask_range H : 0 <= Z.land H HC6.TABLE_MASK < 4096.
Proof. exact (land_mask_range H 12 ltac:(lia)). Qed.

Lemma hc6_FINGERPRINT_pos H : 0 < HC6.FINGERPRINT H.
Proof.
  unfold HC6.FINGERPRINT. rewrite Z.shiftl_1_l.
  apply Z.pow_pos_nonneg; [lia|apply land31_range].
Qed.

Lemma hc6_link_step x s :
  5 <= HC6.chainPos s < Z.of_nat (length x) ->
  Z.of_nat (length (HC6.cB s)) = 4096 ->
  exists s', HC6.link_step x s = Ok s' /\
             HC6.chainPos s' = HC6.chainPos s - 6 /\
             Z.of_nat (length (HC6.cB s')) = 4096 /\ tbl_le (HC6.cB s) (HC6.cB s').
Proof.
  intros Hp HB. unfold HC6.link_step.
  destruct (hc6_CHAIN_HASH_ok x _ Hp) as (h & Hh). rewrite Hh. cbn [bind].
  pose proof (hc6_mask_range (HC6.cH s)) as Hr.
  rewrite rdi_word by lia. cbn [bind].
  rewrite wri_Ok by lia. cbn [bind].
  eexists. split; [reflexivity|]. cbn [HC6.chainPos HC6.cB].
  split; [reflexivity|]. split; [rewrite length_upd; assumption|].
  apply tbl_le_lor; lia.
Qed.

Lemma hc6_chain_loop x m stop p0 H0 B0 :
  Z.of_nat (length x) = m -> 5 <= stop -> -1 <= p0 < m -> Z.of_nat (length B0) = 4096 ->
  exists c,
    while (Datatypes.S (Z.to_nat m)) (fun c => Ok (HC6.chainPos c >=? stop))
          (HC6.link_step x) (HC6.mkChain p0 H0 B0) = Ok c /\
    Z.of_nat (length (HC6.cB c)) = 4096 /\ tbl_le B0 (HC6.cB c).
Proof.
  intros Hlen Hstop Hp HB.
  destruct (while_total
    (fun c => -1 <= HC6.chainPos c < m /\ Z.of_nat (length (HC6.cB c)) = 4096 /\
              tbl_le B0 (HC6.cB c))
    (fun c => Z.to_nat (HC6.chainPos c + 1))
    (fun c => Ok (HC6.chainPos c >=? stop)) (HC6.link_step x))
    with (fuel := Datatypes.S (Z.to_nat m)) (s := HC6.mkChain p0 H0 B0)
    as (c & Hrun & (Hpos & HlenB & Hle) & _).
  - intros c (Hpos & HlenB & Hle).
    eexists. split; [reflexivity|]. intros Hc. apply Z.geb_le in Hc.
    destruct (hc6_link_step x c) as (c' & Hstep & Hpos' & HlenB' & Hle'); [lia|assumption|].
    exists c'. split; [assumption|].
    split; [split; [lia|split; [assumption|eapply tbl_le_trans; eauto]]|lia].
  - cbn [HC6.chainPos HC6.cB]. split; [lia|]. split; [assumption|apply tbl_le_refl].
  - cbn [HC6.chainPos]. lia.
  - exists c. auto.
Qed.

Lemma hc6_first_step x s :
  5 <= HC6.anchor s < Z.of_nat (length x) ->
  Z.of_nat (length (HC6.aB s)) = 4096 ->
  exists B', HC6.first_step x s = Ok (HC6.mkAnchor (HC6.anchor s + 1) B') /\
    Z.of_nat (length B') = 4096 /\ tbl_le (HC6.aB s) B' /\
    word_at B' (Z.land (HC6S.anchor x (HC6.anchor s)) HC6.TABLE_MASK) <> 0.
Proof.
  intros Ha HB. unfold HC6.first_step.
  rewrite hc6_ANCHOR_HASH_val by lia. cbn [bind].
  pose proof (hc6_mask_range (HC6S.anchor x (HC6.anchor s))) as Hr.
  rewrite rdi_word by lia. cbn [bind].
  destruct (Z.eqb_spec (word_at (HC6.aB s) (Z.land (HC6S.anchor x (HC6.anchor s)) HC6.TABLE_MASK)) 0)
    as [Hz|Hnz].
  - destruct (hc6_CHAIN_HASH_ok x _ Ha) as (h & Hh). rewrite Hh. cbn [bind].
    rewrite wri_Ok by lia. cbn [bind]. eexists. split; [reflexivity|].
    split; [rewrite length_upd; assumption|].
    split; [apply tbl_le_fill; [lia|assumption]|].
    rewrite word_at_upd_eq by lia.
    pose proof (hc6_FINGERPRINT_pos (Z.lxor h 255)). lia.
  - cbn [bind]. eexists. split; [reflexivity|]. split; [assumption|].
    split; [apply tbl_le_refl|assumption].
Qed.

(** For every value of [LOG2(ASIZE)], [preprocessing] of hc6 completes for
    [m >= Q] and leaves a non-empty entry for every first q-gram. *)
Lemma hc6_preprocessing_first x m B0 log2_asize :
  Z.of_nat (length x) = m -> 6 <= m -> Z.of_nat (length B0) = 4096 ->
  exists H B,
    HC6.preprocessing log2_asize x m B0 = Ok (H, B) /\
    Z.of_nat (length B) = 4096 /\
    forall p, 5 <= p < Z.min m 11 ->
      word_at B (Z.land (HC6S.anchor x p) HC6.TABLE_MASK) <> 0.
Proof.
  intros Hlen Hm HB. unfold HC6.preprocessing. cbv zeta. change HC6.Q with 6.
  set (fact := if m <? _ then m else _).
  destruct (while_total
    (fun s => 11 <= HC6.anchor s /\ Z.of_nat (length (HC6.aB s)) = 4096)
    (fun s => Z.to_nat (m - HC6.anchor s))
    (fun s => Ok (HC6.anchor s <? m - 1)) (HC6.anchor_step x m fact))
    with (fuel := Datatypes.S (Z.to_nat m))
         (s := HC6.mkAnchor (2 * 6 - 1) (map (fun _ : Z => 0) B0))
    as (s1 & Hrun1 & (_ & Hlen1) & _).
  - intros s (Ha & HlenB). eexists. split; [reflexivity|]. intros Hc. apply Z.ltb_lt in Hc.
    unfold HC6.anchor_step. rewrite hc6_ANCHOR_HASH_val by lia. cbn [bind]. cbv zeta.
    change HC6.Q with 6.
    set (stop := if _ >? _ then _ else _).
    assert (Hstop : 5 <= stop) by (subst stop; destruct (Z.gtb_spec (HC6.anchor s - fact + 1) (6 - 1)); lia).
    destruct (hc6_chain_loop x m stop (HC6.anchor s - 6) (HC6S.anchor x (HC6.anchor s)) (HC6.aB s)
                Hlen Hstop ltac:(lia) HlenB) as (c & Hrun & HlenB' & _).
    rewrite Hrun. cbn [bind]. eexists. split; [reflexivity|].
    cbn [HC6.anchor HC6.aB]. split; [split; [lia|assumption]|lia].
  - cbn [HC6.anchor HC6.aB]. rewrite length_map. split; [lia|assumption].
  - cbn [HC6.anchor]. lia.
  - rewrite Hrun1. cbn [bind].
    rewrite hc6_ANCHOR_HASH_val by lia. cbn [bind].
    destruct (hc6_chain_loop x m (6 - 1) (m - 1 - 6) (HC6S.anchor x (m - 1)) (HC6.aB s1)
                Hlen ltac:(lia) ltac:(lia) Hlen1) as (c & Hrun2 & Hlen2 & _).
    rewrite Hrun2. cbn [bind].
    set (stop := if m <? 2 * 6 then m - 1 else 2 * 6 - 1).
    assert (Hstop : stop = Z.min m 12 - 1) by (subst stop; destruct (Z.ltb_spec m (2 * 6)); lia).
    destruct (while_total
      (fun s => 5 <= HC6.anchor s /\ Z.of_nat (length (HC6.aB s)) = 4096 /\
                forall p, 5 <= p < HC6.anchor s ->
                  word_at (HC6.aB s) (Z.land (HC6S.anchor x p) HC6.TABLE_MASK) <> 0)
      (fun s => Z.to_nat (12 - HC6.anchor s))
      (fun s => Ok (HC6.anchor s <=? stop)) (HC6.first_step x))
      with (fuel := Datatypes.S (Z.to_nat (6 + 1))) (s := HC6.mkAnchor (6 - 1) (HC6.cB c))
      as (s3 & Hrun3 & (_ & Hlen3 & Hnz) & Hexit).
    + intros s (Ha & HlenB & Hnz). eexists. split; [reflexivity|]. intros Hc.
      apply Z.leb_le in Hc.
      destruct (hc6_first_step x s ltac:(lia) HlenB) as (B' & Hstep & HlenB' & Hle' & Hw).
      eexists. split; [exact Hstep|]. cbn [HC6.anchor HC6.aB]. split; [|lia].
      split; [lia|]. split; [assumption|].
      intros p Hp. destruct (Z.eq_dec p (HC6.anchor s)) as [->|Hne]; [assumption|].
      eapply tbl_le_nonzero; [exact Hle'|]. apply Hnz. lia.
    + cbn [HC6.anchor HC6.aB]. split; [lia|]. split; [assumption|]. intros; lia.
    + cbn [HC6.anchor]. lia.
    + rewrite Hrun3. cbn [bind]. exists (HC6.cH c), (HC6.aB s3).
      split; [reflexivity|]. split; [assumption|].
      injection Hexit as Hexit. apply Z.leb_gt in Hexit.
      intros p Hp. apply Hnz. lia.
Qed.

(** ** The chain construction without the [start] guard *)

Lemma rd_neg x i : i < 0 -> rd x i = Fault.
Proof. intros Hi. unfold rd. destruct (Z.ltb_spec i 0); [reflexivity|lia]. Qed.

Lemma hc4q_CHAIN_HASH_fault x p :
  0 <= p < 3 -> p < Z.of_nat (length x) -> HC4Q.CHAIN_HASH x p = Fault.
Proof.
  intros Hp Hlen. unfold HC4Q.CHAIN_HASH, HC4Q.HASH.
  rewrite (rd_bv x p) by lia. cbn [bind].
  destruct (Z.eq_dec p 0) as [->|H0]; [reflexivity|].
  rewrite (rd_bv x (p - 1)) by lia. cbn [bind].
  destruct (Z.eq_dec p 1) as [->|H1]; [reflexivity|].
  rewrite (rd_bv x (p - 2)) by lia. cbn [bind].
  assert (p = 2) as -> by lia. reflexivity.
Qed.

(** For [Q <= m < 2Q - 1] the first chain of hc4-qverify starts at
    [m - Q < Q - 1]: its hash reads before the start of the pattern. *)
Lemma hc4q_preprocessing_fault x m B0 :
  Z.of_nat (length x) = m -> 4 <= m < 7 -> HC4Q.preprocessing x m B0 = Fault.
Proof.
  intros Hlen Hm. unfold HC4Q.preprocessing. cbv zeta.
  change (Z.to_nat HC4Q.Q) with 4%nat. cbn [while]. cbn [bind].
  change (HC4Q.chain_no (HC4Q.mkPre HC4Q.Q 0 (map (fun _ : Z => 0) B0)) >=? 1) with true.
  cbv iota. unfold HC4Q.chain_step at 1. cbn [HC4Q.chain_no]. change HC4Q.Q with 4.
  rewrite hc4q_CHAIN_HASH_fault by lia. reflexivity.
Qed.

Lemma shc2_preprocessing_fault x B0 :
  length x = 2%nat -> SHC2.preprocessing x 2 B0 = Fault.
Proof.
  intros Hlen. unfold SHC2.preprocessing. cbv zeta.
  change (Z.to_nat SHC2.Q) with 2%nat. cbn [while]. cbn [bind].
  change (SHC2.chain_no (SHC2.mkPre SHC2.Q 0 (map (fun _ : Z => 0) B0)) >=? 1) with true.
  cbv iota. unfold SHC2.chain_step at 1. cbn [SHC2.chain_no]. change (2 - SHC2.Q) with 0.
  unfold SHC2.CHAIN_HASH, SHC2.HASH. rewrite (rd_bv x 0) by lia. cbn [bind].
  reflexivity.
Qed.

(** ** hc4-qverify: the scanner, for patterns of length at least 2Q - 1 *)

Lemma hc4q_table x m :
  Z.of_nat (length x) = m -> 7 <= m ->
  exists H B, HC4Q.preprocessing x m (repeat 0 (Z.to_nat HC4Q.ASIZE)) = Ok (H, B) /\
              hc4q_table_ok x m B.
Proof.
  intros Hlen Hm.
  destruct (hc4q_preprocessing_links x m (repeat 0 (Z.to_nat HC4Q.ASIZE)) Hlen Hm)
    as (H & B & Hpre & HB & Hlinks & Hnz).
  { rewrite repeat_length. reflexivity. }
  exists H, B. split; [assumption|]. split; [assumption|]. split; [assumption|].
  intros p Hp. destruct (Z.lt_ge_cases p 7).
  - apply Hnz. lia.
  - specialize (Hlinks (p - 4) ltac:(lia) ltac:(lia)).
    replace (p - 4 + 4) with p in Hlinks by lia.
    unfold HC4QS.linked in Hlinks. intros E. rewrite E, Z.testbit_0_l in Hlinks. discriminate.
Qed.

Lemma hc4q_chain_occ x m y i p :
  (forall k, 0 <= k < m -> byte_at y (i + k) = byte_at x k) ->
  3 <= p < m -> HC4QS.chain y (i + p) = HC4QS.chain x p.
Proof.
  intros Hb Hp. unfold HC4QS.chain.
  rewrite (bv_byte_at x y (i + p) p) by (apply Hb; lia).
  replace (i + p - 1) with (i + (p - 1)) by lia.
  replace (i + p - 2) with (i + (p - 2)) by lia.
  replace (i + p - 3) with (i + (p - 3)) by lia.
  rewrite (bv_byte_at x y (i + (p - 1)) (p - 1)) by (apply Hb; lia).
  rewrite (bv_byte_at x y (i + (p - 2)) (p - 2)) by (apply Hb; lia).
  rewrite (bv_byte_at x y (i + (p - 3)) (p - 3)) by (apply Hb; lia).
  reflexivity.
Qed.

Lemma hc4q_walk_loop y B m pos0 :
  Z.of_nat (length B) = 4096 -> 4 <= m -> m - 1 <= pos0 < Z.of_nat (length y) ->
  exists w,
    HC4Q.walk y B m pos0 (HC4QS.chain y pos0)
              (word_at B (Z.land (HC4QS.chain y pos0) HC4Q.TABLE_MASK)) = Ok w /\
    pos0 - m + 4 <= HC4Q.wpos w <= pos0 /\
    (HC4Q.failed w = true ->
       HC4Q.wpos w + 4 <= pos0 /\
       ~ HC4QS.linked B (HC4QS.chain y (HC4Q.wpos w + 4)) (HC4QS.chain y (HC4Q.wpos w))) /\
    (HC4Q.failed w = false -> HC4Q.wpos w < pos0 - m + 8).
Proof.
  intros HB Hm Hpos. unfold HC4Q.walk. cbv zeta. change HC4Q.Q2 with 8.
  destruct (while_total
    (fun w => pos0 - m + 4 <= HC4Q.wpos w <= pos0 /\
       (HC4Q.failed w = true ->
          HC4Q.wpos w + 4 <= pos0 /\
          ~ HC4QS.linked B (HC4QS.chain y (HC4Q.wpos w + 4)) (HC4QS.chain y (HC4Q.wpos w))) /\
       (HC4Q.failed w = false ->
          HC4Q.wH w = HC4QS.chain y (HC4Q.wpos w) /\
          HC4Q.wV w = word_at B (Z.land (HC4Q.wH w) HC4Q.TABLE_MASK)))
    (fun w => Z.to_nat (HC4Q.wpos w - (pos0 - m)))
    (fun w => Ok (negb (HC4Q.failed w) && (HC4Q.wpos w >=? pos0 - m + 8)))
    (HC4Q.walk_step y B))
    with (fuel := Datatypes.S (Z.to_nat m))
         (s := HC4Q.mkWalk pos0 (HC4QS.chain y pos0)
                 (word_at B (Z.land (HC4QS.chain y pos0) HC4Q.TABLE_MASK)) false)
    as (w & Hrun & (Hwp & Hfail & Hok) & Hexit).
  - intros w (Hwp & Hfail & Hok).
    eexists. split; [reflexivity|]. intros Hc.
    apply andb_true_iff in Hc. destruct Hc as (Hnf & Hge).
    apply negb_true_iff in Hnf. apply Z.geb_le in Hge.
    destruct (Hok Hnf) as (HwH & HwV).
    unfold HC4Q.walk_step. cbv zeta. change HC4Q.Q with 4.
    rewrite hc4q_CHAIN_HASH_val by lia. cbn [bind].
    unfold HC4Q.LINK_HASH. rewrite land_fp_zero.
    destruct (Z.testbit (HC4Q.wV w) (Z.land (HC4QS.chain y (HC4Q.wpos w - 4)) 31)) eqn:Ebit;
      cbn [negb].
    + pose proof (hc4q_mask_range (HC4QS.chain y (HC4Q.wpos w - 4))) as Hr.
      rewrite rdi_word by lia. cbn [bind].
      eexists. split; [reflexivity|]. cbn [HC4Q.wpos HC4Q.wH HC4Q.wV HC4Q.failed].
      split; [|lia]. split; [lia|]. split; [discriminate|]. intros _. split; reflexivity.
    + eexists. split; [reflexivity|]. cbn [HC4Q.wpos HC4Q.wH HC4Q.wV HC4Q.failed].
      split; [|lia]. split; [lia|]. split; [|discriminate]. intros _. split; [lia|].
      unfold HC4QS.linked. replace (HC4Q.wpos w - 4 + 4) with (HC4Q.wpos w) by lia.
      rewrite <- HwH, <- HwV, Ebit. discriminate.
  - cbn [HC4Q.wpos HC4Q.wH HC4Q.wV HC4Q.failed]. split; [lia|].
    split; [discriminate|]. intros _. split; reflexivity.
  - cbn [HC4Q.wpos]. lia.
  - exists w. split; [exact Hrun|]. split; [assumption|]. split; [assumption|].
    intros Hnf. injection Hexit as Hexit. rewrite Hnf in Hexit. cbn [negb andb] in Hexit.
    destruct (Z.geb_spec (HC4Q.wpos w) (pos0 - m + 8)); [discriminate|lia].
Qed.

(** The batch verification counts the occurrences among the Q alignments
    [a, a + 1, ..., a + Q - 1]. *)
Lemma hc4q_verify_loop x m y n a c0 :
  Z.of_nat (length x) = m -> Z.of_nat (length y) = n -> 0 < m -> 0 <= a ->
  exists v,
    while (Datatypes.S (Z.to_nat HC4Q.Q)) (fun v => Ok (fst v <=? a + 3))
          (HC4Q.verify_step x m y n) (a, c0) = Ok v /\
    snd v = c0 + (count_below x m y (Z.to_nat (a + 4)) - count_below x m y (Z.to_nat a)).
Proof.
  intros Hlen Hn Hm Ha. change HC4Q.Q with 4.
  destruct (while_total
    (fun v : Z * Z => a <= fst v <= a + 4 /\
       snd v = c0 + (count_below x m y (Z.to_nat (fst v)) - count_below x m y (Z.to_nat a)))
    (fun v => Z.to_nat (a + 4 - fst v))
    (fun v => Ok (fst v <=? a + 3)) (HC4Q.verify_step x m y n))
    with (fuel := Datatypes.S (Z.to_nat 4)) (s := (a, c0))
    as (v & Hrun & (Hps & Hc) & Hexit).
  - intros [ps c] (Hps & Hc). cbn [fst snd] in *.
    eexists. split; [reflexivity|]. intros Hcond. apply Z.leb_le in Hcond.
    unfold HC4Q.verify_step. cbn [fst snd].
    assert (Hhit : (if ps <=? n - m then memcmp_eq y ps x m else Ok false)
                   = Ok (occ_at x m y ps)).
    { destruct (Z.leb_spec ps (n - m)).
      - apply memcmp_eq_occ; lia.
      - rewrite occ_at_out by (try assumption; lia). reflexivity. }
    rewrite Hhit. cbn [bind].
    eexists. split; [reflexivity|]. cbn [fst snd]. split; [|lia].
    split; [lia|].
    replace (Z.to_nat (ps + 1)) with (Datatypes.S (Z.to_nat ps)) by lia.
    cbn [count_below]. rewrite Z2Nat.id by lia.
    destruct (occ_at x m y ps); lia.
  - cbn [fst snd]. split; lia.
  - cbn [fst]. lia.
  - exists v. split; [exact Hrun|].
    injection Hexit as Hexit. apply Z.leb_gt in Hexit.
    assert (fst v = a + 4) as E by lia. rewrite E in Hc. exact Hc.
Qed.

Lemma hc4q_scan_step_count x m y n B s :
  Z.of_nat (length x) = m -> Z.of_nat (length y) = n -> 7 <= m ->
  n + m <= INT_MAX ->
  hc4q_table_ok x m B -> HC4Q.pos s < n -> hc4q_scan_inv x m y s ->
  exists s', HC4Q.scan_step x m y n B s = Ok s' /\ HC4Q.pos s + 1 <= HC4Q.pos s' /\
             hc4q_scan_inv x m y s'.
Proof.
  intros Hlen Hn Hm Hint (HB & Hlinks & Hnz) Hlt (Hpos & Hcount).
  set (pos0 := HC4Q.pos s) in *.
  assert (Hskip : forall newpos,
             pos0 + 1 <= newpos ->
             (forall i, pos0 - m + 1 <= i < newpos - m + 1 -> occ_at x m y i = false) ->
             HC4Q.count s = count_below x m y (Z.to_nat (newpos - m + 1))).
  { intros newpos Hnp Hnone. rewrite Hcount. symmetry. apply count_below_none; [lia|].
    intros i Hi. apply Hnone. lia. }
  unfold HC4Q.scan_step. cbv zeta. fold pos0. change HC4Q.Q with 4.
  change HC4Q.Q2 with 8. change HC4Q.END_FIRST_QGRAM with 3.
  rewrite hc4q_CHAIN_HASH_val by lia. cbn [bind].
  pose proof (hc4q_mask_range (HC4QS.chain y pos0)) as Hr.
  rewrite rdi_word by lia. cbn [bind].
  destruct (Z.eqb_spec (word_at B (Z.land (HC4QS.chain y pos0) HC4Q.TABLE_MASK)) 0) as [Hz|Hnz0].
  - int_in_range.
    eexists. split; [reflexivity|]. unfold hc4q_scan_inv. cbn [HC4Q.pos HC4Q.count]. split; [lia|].
    split; [lia|]. apply Hskip; [lia|].
    intros i Hi. destruct (occ_at x m y i) eqn:Eocc; [|reflexivity]. exfalso.
    apply occ_at_bytes in Eocc; try lia. destruct Eocc as (_ & Hbytes).
    apply (Hnz (pos0 - i)); [lia|].
    rewrite <- (hc4q_chain_occ x m y i) by (try assumption; lia).
    replace (i + (pos0 - i)) with pos0 by lia. exact Hz.
  - int_in_range.
    destruct (hc4q_walk_loop y B m pos0 HB ltac:(lia) ltac:(lia))
      as (w & Hwalk & Hwp & Hfail & Hok).
    rewrite Hwalk. cbn [bind].
    destruct (HC4Q.failed w) eqn:Ef.
    + int_in_range.
      eexists. split; [reflexivity|]. unfold hc4q_scan_inv. cbn [HC4Q.pos HC4Q.count]. split; [lia|].
      split; [lia|]. destruct (Hfail eq_refl) as (Hw4 & Hnl).
      apply Hskip; [lia|].
      intros i Hi. destruct (occ_at x m y i) eqn:Eocc; [|reflexivity]. exfalso.
      apply occ_at_bytes in Eocc; try lia. destruct Eocc as (_ & Hbytes).
      apply Hnl.
      replace (HC4Q.wpos w + 4) with (i + (HC4Q.wpos w - i + 4)) by lia.
      replace (HC4Q.wpos w) with (i + (HC4Q.wpos w - i)) at 2 by lia.
      rewrite !(hc4q_chain_occ x m y i) by (try assumption; lia).
      apply Hlinks; lia.
    + destruct (hc4q_verify_loop x m y n (pos0 - m + 8 - 4 - 3) (HC4Q.count s) Hlen Hn
                                 ltac:(lia) ltac:(lia)) as (v & Hver & Hv).
      replace (pos0 - m + 8 - 4 - 3 + 3) with (pos0 - m + 8 - 4) in Hver by lia.
      change HC4Q.Q with 4 in Hver.
      rewrite Hver. cbn [bind]. int_in_range.
      eexists. split; [reflexivity|]. unfold hc4q_scan_inv. cbn [HC4Q.pos HC4Q.count]. split; [lia|].
      split; [lia|]. rewrite Hv, Hcount. 
      replace (pos0 - m + 8 - 4 - 3) with (pos0 - m + 1) by lia.
      replace (pos0 - m + 8 - 1 + (m - 4 + 1) - m + 1) with (pos0 - m + 1 + 4) by lia.
      lia.
Qed.

(** For [m >= 2Q - 1], [search] of hc4-qverify returns the number of
    occurrences. *)
Lemma hc4q_search_count x m y n :
  Z.of_nat (length x) = m -> Z.of_nat (length y) = n -> 7 <= m ->
  n + m <= INT_MAX ->
  HC4Q.search x m y n = Ok (occurrences x m y n).
Proof.
  intros Hlen Hn Hm Hint. unfold HC4Q.search.
  destruct (Z.ltb_spec m HC4Q.Q) as [Hlt|_]; [change HC4Q.Q with 4 in Hlt; lia|].
  cbv zeta.
  destruct (hc4q_table x m Hlen Hm) as (H & B & Hpre & Hok).
  rewrite Hpre. cbn [bind]. unfold HC4Q.scan.
  destruct (while_total (hc4q_scan_inv x m y) (fun s => Z.to_nat (n - HC4Q.pos s))
                        (fun s => Ok (HC4Q.pos s <? n)) (HC4Q.scan_step x m y n B))
    with (fuel := Datatypes.S (Z.to_nat n)) (s := HC4Q.mkScan (m - 1) 0)
    as (s & Hrun & (Hpos & Hcount) & Hexit).
  - intros s Hinv. eexists. split; [reflexivity|]. intros Hc. apply Z.ltb_lt in Hc.
    destruct (hc4q_scan_step_count x m y n B s Hlen Hn Hm Hint Hok Hc Hinv)
      as (s' & Hs' & Hadv & Hinv').
    exists s'. split; [assumption|]. split; [assumption|]. lia.
  - split; cbn [HC4Q.pos HC4Q.count]; [lia|].
    replace (Z.to_nat (m - 1 - m + 1)) with O by lia. reflexivity.
  - cbn [HC4Q.pos]. lia.
  - rewrite Hrun. cbn [bind]. f_equal. rewrite Hcount. unfold occurrences.
    injection Hexit as Hexit. apply Z.ltb_ge in Hexit.
    apply count_below_none; [lia|].
    intros i Hi. apply occ_at_out; try assumption; lia.
Qed.

(** ** Counting iterations *)

Lemma while_count_total {S : Type} (Inv : S -> Prop) (mu : S -> nat)
      (cond : S -> result bool) (body : S -> result S) :
  (forall s, Inv s ->
     exists b, cond s = Ok b /\
       (b = true -> exists s', body s = Ok s' /\ Inv s' /\ (mu s' < mu s)%nat)) ->
  forall fuel s k, Inv s -> (mu s < fuel)%nat ->
    exists s' k', while_count fuel cond body s k = Ok (s', k') /\
                  while fuel cond body s = Ok s' /\
                  Inv s' /\ cond s' = Ok false /\ (k' + mu s' <= k + mu s)%nat.
Proof.
  intros Hstep fuel.
  induction fuel as [|f IH]; intros s k Hinv Hmu; [lia|].
  destruct (Hstep s Hinv) as (b & Hc & Hb).
  simpl. rewrite Hc. simpl.
  destruct b.
  - destruct (Hb eq_refl) as (s' & Hbody & Hinv' & Hlt).
    rewrite Hbody. simpl.
    destruct (IH s' (Datatypes.S k) Hinv' ltac:(lia)) as (s'' & k' & H1 & H2 & H3 & H4 & H5).
    exists s'', k'. repeat split; auto. lia.
  - exists s, k. repeat split; auto.
Qed.

Lemma hc4q_scan_step_advances x m y n B s :
  Z.of_nat (length x) = m -> Z.of_nat (length y) = n -> 4 <= m ->
  n + m <= INT_MAX ->
  Z.of_nat (length B) = 4096 -> m - 1 <= HC4Q.pos s < n ->
  exists s', HC4Q.scan_step x m y n B s = Ok s' /\ HC4Q.pos s + 1 <= HC4Q.pos s'.
Proof.
  intros Hlen Hn Hm Hint HB Hpos.
  unfold HC4Q.scan_step. cbv zeta. change HC4Q.Q with 4.
  change HC4Q.Q2 with 8. change HC4Q.END_FIRST_QGRAM with 3.
  rewrite hc4q_CHAIN_HASH_val by lia. cbn [bind].
  pose proof (hc4q_mask_range (HC4QS.chain y (HC4Q.pos s))) as Hr.
  rewrite rdi_word by lia. cbn [bind].
  destruct (word_at B (Z.land (HC4QS.chain y (HC4Q.pos s)) HC4Q.TABLE_MASK) =? 0).
  - int_in_range. eexists. split; [reflexivity|]. cbn [HC4Q.pos]. lia.
  - int_in_range.
    destruct (hc4q_walk_loop y B m (HC4Q.pos s) HB Hm ltac:(lia))
      as (w & Hwalk & Hwp & _ & _).
    rewrite Hwalk. cbn [bind].
    destruct (HC4Q.failed w).
    + int_in_range. eexists. split; [reflexivity|]. cbn [HC4Q.pos]. lia.
    + destruct (hc4q_verify_loop x m y n (HC4Q.pos s - m + 8 - 4 - 3) (HC4Q.count s) Hlen Hn
                                 ltac:(lia) ltac:(lia)) as (v & Hver & _).
      replace (HC4Q.pos s - m + 8 - 4 - 3 + 3) with (HC4Q.pos s - m + 8 - 4) in Hver by lia.
      change HC4Q.Q with 4 in Hver.
      rewrite Hver. cbn [bind]. int_in_range.
      eexists. split; [reflexivity|]. cbn [HC4Q.pos]. lia.
Qed.

Lemma hc4q_main_loop x m y n :
  Z.of_nat (length x) = m -> Z.of_nat (length y) = n -> 4 <= m ->
  n + m <= INT_MAX ->
  hc4q_main_loop_advances x m y n.
Proof.
  intros Hlen Hn Hm Hint B HB. change HC4Q.ASIZE with 4096 in HB. split.
  - intros s Hpos. apply hc4q_scan_step_advances; assumption.
  - destruct (while_count_total (fun s => m - 1 <= HC4Q.pos s)
                (fun s => Z.to_nat (n - HC4Q.pos s))
                (fun s => Ok (HC4Q.pos s <? n)) (HC4Q.scan_step x m y n B))
      with (fuel := Datatypes.S (Z.to_nat n)) (s := HC4Q.mkScan (m - 1) 0) (k := O)
      as (s & k & Hcnt & Hrun & Hinv & Hexit & Hk).
    + intros s Hinv. eexists. split; [reflexivity|]. intros Hc. apply Z.ltb_lt in Hc.
      destruct (hc4q_scan_step_advances x m y n B s Hlen Hn Hm Hint HB ltac:(lia)) as (s' & Hs' & Hadv).
      exists s'. split; [assumption|]. split; lia.
    + cbn [HC4Q.pos]. lia.
    + cbn [HC4Q.pos]. lia.
    + exists s, k. split; [assumption|]. cbn [HC4Q.pos] in Hk. split; [lia|].
      split; [exact Hrun|]. injection Hexit as Hexit. now apply Z.ltb_ge in Hexit.
Qed.

(** ** lhc3-kmp: the scanner *)

(** ** Fingerprints of inverted hashes *)

Lemma lnot_mod32 F : u32 (Z.lnot F) mod 32 = 31 - F mod 32.
Proof.
  unfold u32. rewrite Z.mod_mod_divide by (exists (2 ^ 27); reflexivity).
  unfold Z.lnot, Z.pred.
  pose proof (Z.div_mod F 32 ltac:(lia)) as Hdm.
  pose proof (Z.mod_pos_bound F 32 ltac:(lia)) as Hb.
  symmetry. apply (Z.mod_unique _ _ (- (F / 32) - 1)); lia.
Qed.

Lemma land31_mod H : Z.land H 31 = H mod 32.
Proof. exact (land_pow2_mod H 5 ltac:(lia)). Qed.

Lemma shiftl1_inj a b : 0 <= a -> 0 <= b -> Z.shiftl 1 a = Z.shiftl 1 b -> a = b.
Proof.
  intros Ha Hb. rewrite !Z.shiftl_1_l. apply Z.pow_inj_r; lia.
Qed.

Lemma fp_lnot_differs F :
  Z.shiftl 1 (Z.land (u32 (Z.lnot F)) 31) <> 0 /\
  Z.shiftl 1 (Z.land (u32 (Z.lnot F)) 31) <> Z.shiftl 1 (Z.land F 31).
Proof.
  split.
  - rewrite Z.shiftl_1_l.
    pose proof (Z.pow_pos_nonneg 2 (Z.land (u32 (Z.lnot F)) 31) ltac:(lia)
                                 (proj1 (land31_range _))). lia.
  - intros E. apply shiftl1_inj in E; try apply land31_range.
    rewrite !land31_mod, lnot_mod32 in E. lia.
Qed.

Lemma fp_xor_ff_differs F :
  Z.shiftl 1 (Z.land (Z.lxor F 255) 31) <> 0 /\
  Z.shiftl 1 (Z.land (Z.lxor F 255) 31) <> Z.shiftl 1 (Z.land F 31).
Proof.
  split.
  - rewrite Z.shiftl_1_l.
    pose proof (Z.pow_pos_nonneg 2 (Z.land (Z.lxor F 255) 31) ltac:(lia)
                                 (proj1 (land31_range _))). lia.
  - intros E. apply shiftl1_inj in E; try apply land31_range.
    assert (Hb : Z.testbit (Z.land (Z.lxor F 255) 31) 0 = Z.testbit (Z.land F 31) 0)
      by now rewrite E.
    rewrite !Z.land_spec, Z.lxor_spec in Hb.
    change (Z.testbit 255 0) with true in Hb. change (Z.testbit 31 0) with true in Hb.
    destruct (Z.testbit F 0); discriminate.
Qed.

(** ** whc3: the table and the count *)

Lemma whc3_CHAIN_HASH_val x p :
  2 <= p < Z.of_nat (length x) -> WHC3.CHAIN_HASH x p = Ok (WHC3S.chain x p).
Proof.
  intros Hp. unfold WHC3.CHAIN_HASH, WHC3.HASH, WHC3S.chain.
  rewrite !rd_bv by lia. reflexivity.
Qed.

Lemma whc3_linked_mono B B' h h' :
  tbl_le B B' -> WHC3S.linked B h h' -> WHC3S.linked B' h h'.
Proof. intros Hle Hl. unfold WHC3S.linked in *. eapply tbl_le_bit; eauto. Qed.

Lemma whc3_link_step_links x s :
  2 <= WHC3.chain_pos s < Z.of_nat (length x) ->
  Z.of_nat (length (WHC3.cB s)) = 2048 ->
  exists B', WHC3.link_step x s
             = Ok (WHC3.mkChain (WHC3.chain_pos s - 3) (WHC3S.chain x (WHC3.chain_pos s)) B') /\
             Z.of_nat (length B') = 2048 /\ tbl_le (WHC3.cB s) B' /\
             WHC3S.linked B' (WHC3.cH s) (WHC3S.chain x (WHC3.chain_pos s)).
Proof.
  intros Hp HB. unfold WHC3.link_step.
  rewrite whc3_CHAIN_HASH_val by assumption. cbn [bind].
  pose proof (whc3_mask_range (WHC3.cH s)) as Hr.
  rewrite rdi_word by lia. cbn [bind].
  rewrite wri_Ok by lia. cbn [bind].
  eexists. split; [reflexivity|].
  split; [rewrite length_upd; assumption|].
  split; [apply tbl_le_lor; lia|].
  unfold WHC3S.linked. rewrite word_at_upd_eq by lia.
  rewrite Z.lor_spec. unfold WHC3.LINK_HASH.
  rewrite fp_testbit by apply land31_range.
  rewrite Z.eqb_refl. apply orb_true_r.
Qed.

(** One chain: from the q-gram that ends at [e], every q-gram [Q] further
    left is recorded in the word of its right neighbour; the hash left in
    [H] is that of the leftmost q-gram of the chain. *)
Lemma whc3_chain_loop_links x m e B0 :
  Z.of_nat (length x) = m -> 2 <= e < m -> Z.of_nat (length B0) = 2048 ->
  exists c,
    while (Datatypes.S (Z.to_nat m))
          (fun c => Ok (WHC3.chain_pos c >=? WHC3.END_FIRST_QGRAM))
          (WHC3.link_step x) (WHC3.mkChain (e - WHC3.Q) (WHC3S.chain x e) B0) = Ok c /\
    Z.of_nat (length (WHC3.cB c)) = 2048 /\ tbl_le B0 (WHC3.cB c) /\
    forall k : nat, 2 <= e - 3 * (Z.of_nat k + 1) ->
      WHC3S.linked (WHC3.cB c) (WHC3S.chain x (e - 3 * Z.of_nat k))
                   (WHC3S.chain x (e - 3 * (Z.of_nat k + 1))).
Proof.
  intros Hlen He HB. change WHC3.Q with 3. change WHC3.END_FIRST_QGRAM with 2.
  destruct (while_total
    (fun c => exists i : nat,
       WHC3.chain_pos c = e - 3 - 3 * Z.of_nat i /\
       WHC3.cH c = WHC3S.chain x (e - 3 * Z.of_nat i) /\
       Z.of_nat (length (WHC3.cB c)) = 2048 /\ tbl_le B0 (WHC3.cB c) /\
       -1 <= WHC3.chain_pos c /\
       forall k : nat, (k < i)%nat ->
         WHC3S.linked (WHC3.cB c) (WHC3S.chain x (e - 3 * Z.of_nat k))
                      (WHC3S.chain x (e - 3 * (Z.of_nat k + 1))))
    (fun c => Z.to_nat (WHC3.chain_pos c + 1))
    (fun c => Ok (WHC3.chain_pos c >=? 2)) (WHC3.link_step x))
    with (fuel := Datatypes.S (Z.to_nat m)) (s := WHC3.mkChain (e - 3) (WHC3S.chain x e) B0)
    as (c & Hrun & (i & Hpos & HH & HlenB & Hle & Hlow & Hlinks) & Hexit).
  - intros c (i & Hpos & HH & HlenB & Hle & Hlow & Hlinks).
    eexists. split; [reflexivity|]. intros Hc. apply Z.geb_le in Hc.
    destruct (whc3_link_step_links x c) as (B' & Hstep & HlenB' & HleB' & Hlk); [lia|assumption|].
    eexists. split; [exact Hstep|]. cbn [WHC3.chain_pos WHC3.cH WHC3.cB]. split; [|lia].
    exists (Datatypes.S i). split; [lia|]. split; [f_equal; lia|].
    split; [assumption|]. split; [eapply tbl_le_trans; eauto|]. split; [lia|].
    intros k Hk. destruct (Nat.eq_dec k i) as [->|Hne].
    + rewrite HH in Hlk.
      replace (e - 3 * (Z.of_nat i + 1)) with (WHC3.chain_pos c) by lia. exact Hlk.
    + eapply whc3_linked_mono; [exact HleB'|]. apply Hlinks. lia.
  - exists O. cbn [WHC3.chain_pos WHC3.cH WHC3.cB].
    split; [lia|]. split; [f_equal; lia|]. split; [assumption|].
    split; [apply tbl_le_refl|]. split; [lia|]. intros; lia.
  - cbn [WHC3.chain_pos]. lia.
  - exists c. split; [exact Hrun|]. split; [assumption|]. split; [assumption|].
    intros k Hk. apply Hlinks. injection Hexit as Hexit.
    destruct (Z.geb_spec (WHC3.chain_pos c) 2); [discriminate|]. lia.
Qed.

Lemma whc3_chain_step_links x m s :
  Z.of_nat (length x) = m -> 2 <= m - WHC3.chain_no s -> 1 <= WHC3.chain_no s ->
  Z.of_nat (length (WHC3.pB s)) = 2048 ->
  exists H' B', WHC3.chain_step x m s = Ok (WHC3.mkPre (WHC3.chain_no s - 1) H' B') /\
    Z.of_nat (length B') = 2048 /\ tbl_le (WHC3.pB s) B' /\
    forall k : nat, 2 <= m - WHC3.chain_no s - 3 * (Z.of_nat k + 1) ->
      WHC3S.linked B' (WHC3S.chain x (m - WHC3.chain_no s - 3 * Z.of_nat k))
                   (WHC3S.chain x (m - WHC3.chain_no s - 3 * (Z.of_nat k + 1))).
Proof.
  intros Hlen He Hc HB. unfold WHC3.chain_step.
  rewrite whc3_CHAIN_HASH_val by lia. cbn [bind].
  destruct (whc3_chain_loop_links x m (m - WHC3.chain_no s) (WHC3.pB s) Hlen ltac:(lia) HB)
    as (c & Hrun & HlenB & Hle & Hlinks).
  change WHC3.Q with 3 in Hrun. change WHC3.Q with 3.
  rewrite Hrun. cbn [bind].
  exists (WHC3.cH c), (WHC3.cB c). split; [reflexivity|]. auto.
Qed.

(** The chains that the [start] guard leaves cover every pair of q-grams
    that are Q apart. *)
Lemma whc3_chains x m B0 :
  Z.of_nat (length x) = m -> 3 <= m -> Z.of_nat (length B0) = 2048 ->
  exists s,
    while (Datatypes.S (Z.to_nat WHC3.Q)) (fun s => Ok (WHC3.chain_no s >=? 1))
          (WHC3.chain_step x m)
          (WHC3.mkPre (if m <? WHC3.Q2 then m - WHC3.END_FIRST_QGRAM else WHC3.Q) 0 B0) = Ok s /\
    Z.of_nat (length (WHC3.pB s)) = 2048 /\ tbl_le B0 (WHC3.pB s) /\
    forall p, 2 <= p -> p + 3 <= m - 1 ->
      WHC3S.linked (WHC3.pB s) (WHC3S.chain x (p + 3)) (WHC3S.chain x p).
Proof.
  intros Hlen Hm HB. change WHC3.Q with 3. change WHC3.Q2 with 6.
  change WHC3.END_FIRST_QGRAM with 2.
  set (start := if m <? 6 then m - 2 else 3).
  assert (Hstart : 1 <= start <= 3 /\ 2 <= m - start /\ (6 <= m -> start = 3)).
  { subst start. destruct (Z.ltb_spec m 6); lia. }
  destruct (while_total
    (fun s => 0 <= WHC3.chain_no s <= start /\ Z.of_nat (length (WHC3.pB s)) = 2048 /\
              tbl_le B0 (WHC3.pB s) /\
              forall c (k : nat), WHC3.chain_no s < c <= start ->
                2 <= m - c - 3 * (Z.of_nat k + 1) ->
                WHC3S.linked (WHC3.pB s) (WHC3S.chain x (m - c - 3 * Z.of_nat k))
                             (WHC3S.chain x (m - c - 3 * (Z.of_nat k + 1))))
    (fun s => Z.to_nat (WHC3.chain_no s))
    (fun s => Ok (WHC3.chain_no s >=? 1)) (WHC3.chain_step x m))
    with (fuel := Datatypes.S (Z.to_nat 3)) (s := WHC3.mkPre start 0 B0)
    as (s & Hrun & (Hc & HlenB & Hle & Hlinks) & Hexit).
  - intros s (Hc & HlenB & Hle & Hlinks).
    eexists. split; [reflexivity|]. intros Hcond. apply Z.geb_le in Hcond.
    destruct (whc3_chain_step_links x m s Hlen ltac:(lia) ltac:(lia) HlenB)
      as (H' & B' & Hstep & HlenB' & HleB' & Hlk).
    eexists. split; [exact Hstep|]. cbn [WHC3.chain_no WHC3.pB]. split; [|lia].
    split; [lia|]. split; [assumption|]. split; [eapply tbl_le_trans; eauto|].
    intros c k Hck Hk. destruct (Z.eq_dec c (WHC3.chain_no s)) as [->|Hne].
    + now apply Hlk.
    + eapply whc3_linked_mono; [exact HleB'|]. apply Hlinks; lia.
  - cbn [WHC3.chain_no WHC3.pB]. split; [lia|]. split; [assumption|].
    split; [apply tbl_le_refl|]. intros; lia.
  - cbn [WHC3.chain_no]. lia.
  - exists s. split; [exact Hrun|]. split; [assumption|]. split; [assumption|].
    injection Hexit as Hexit.
    destruct (Z.geb_spec (WHC3.chain_no s) 1); [discriminate|].
    intros p Hp Hp3.
    pose proof (Z.div_mod (m - p - 1) 3 ltac:(lia)) as Hdm.
    pose proof (Z.mod_pos_bound (m - p - 1) 3 ltac:(lia)) as Hmb.
    set (c := (m - p - 1) mod 3 + 1) in *.
    set (q := (m - p - 1) / 3) in *.
    assert (Hq : 1 <= q) by lia.
    specialize (Hlinks c (Z.to_nat (q - 1)) ltac:(lia) ltac:(lia)).
    replace (m - c - 3 * Z.of_nat (Z.to_nat (q - 1))) with (p + 3) in Hlinks by lia.
    replace (m - c - 3 * (Z.of_nat (Z.to_nat (q - 1)) + 1)) with p in Hlinks by lia.
    exact Hlinks.
Qed.

Lemma whc3_LINK_HASH_pos H : 0 < WHC3.LINK_HASH H.
Proof.
  unfold WHC3.LINK_HASH. rewrite Z.shiftl_1_l.
  apply Z.pow_pos_nonneg; [lia|apply land31_range].
Qed.

Lemma whc3_fill_step_nz x s :
  2 <= WHC3.fill_pos s < Z.of_nat (length x) ->
  Z.of_nat (length (WHC3.fB s)) = 2048 ->
  exists B', WHC3.fill_step x s = Ok (WHC3.mkFill (WHC3.fill_pos s + 1) B') /\
    Z.of_nat (length B') = 2048 /\ tbl_le (WHC3.fB s) B' /\
    word_at B' (Z.land (WHC3S.chain x (WHC3.fill_pos s)) WHC3.TABLE_MASK) <> 0.
Proof.
  intros Ha HB. unfold WHC3.fill_step.
  rewrite whc3_CHAIN_HASH_val by lia. cbn [bind].
  pose proof (whc3_mask_range (WHC3S.chain x (WHC3.fill_pos s))) as Hr.
  rewrite rdi_word by lia. cbn [bind].
  destruct (Z.eqb_spec (word_at (WHC3.fB s) (Z.land (WHC3S.chain x (WHC3.fill_pos s)) WHC3.TABLE_MASK)) 0)
    as [Hz|Hnz].
  - rewrite wri_Ok by lia. cbn [bind]. eexists. split; [reflexivity|].
    split; [rewrite length_upd; assumption|].
    split; [apply tbl_le_fill; [lia|assumption]|].
    rewrite word_at_upd_eq by lia.
    pose proof (whc3_LINK_HASH_pos (u32 (Z.lnot (WHC3S.chain x (WHC3.fill_pos s))))). lia.
  - cbn [bind]. eexists. split; [reflexivity|]. split; [assumption|].
    split; [apply tbl_le_refl|assumption].
Qed.

Lemma whc3_fill_loop_nz x m B0 :
  Z.of_nat (length x) = m -> 3 <= m -> Z.of_nat (length B0) = 2048 ->
  exists s,
    while (Datatypes.S (Z.to_nat WHC3.Q))
          (fun s => Ok (WHC3.fill_pos s <? Z.min m WHC3.END_SECOND_QGRAM))
          (WHC3.fill_step x) (WHC3.mkFill WHC3.END_FIRST_QGRAM B0) = Ok s /\
    Z.of_nat (length (WHC3.fB s)) = 2048 /\ tbl_le B0 (WHC3.fB s) /\
    forall p, 2 <= p < Z.min m 5 ->
      word_at (WHC3.fB s) (Z.land (WHC3S.chain x p) WHC3.TABLE_MASK) <> 0.
Proof.
  intros Hm Hm3 HB. change WHC3.END_SECOND_QGRAM with 5. change WHC3.END_FIRST_QGRAM with 2.
  change WHC3.Q with 3.
  destruct (while_total
    (fun s => 2 <= WHC3.fill_pos s /\ Z.of_nat (length (WHC3.fB s)) = 2048 /\
              tbl_le B0 (WHC3.fB s) /\
              forall p, 2 <= p < WHC3.fill_pos s ->
                word_at (WHC3.fB s) (Z.land (WHC3S.chain x p) WHC3.TABLE_MASK) <> 0)
    (fun s => Z.to_nat (5 - WHC3.fill_pos s))
    (fun s => Ok (WHC3.fill_pos s <? Z.min m 5)) (WHC3.fill_step x))
    with (fuel := Datatypes.S (Z.to_nat 3)) (s := WHC3.mkFill 2 B0)
    as (s & Hrun & (Hpos & Hlen & Hle & Hnz) & Hexit).
  - intros s (Hpos & Hlen & Hle & Hnz).
    eexists. split; [reflexivity|]. intros Hc. apply Z.ltb_lt in Hc.
    destruct (whc3_fill_step_nz x s) as (B' & Hstep & HlenB' & HleB' & Hw); [lia|assumption|].
    eexists. split; [exact Hstep|]. cbn [WHC3.fill_pos WHC3.fB]. split; [|lia].
    split; [lia|]. split; [assumption|]. split; [eapply tbl_le_trans; eauto|].
    intros p Hp. destruct (Z.eq_dec p (WHC3.fill_pos s)) as [->|Hne]; [assumption|].
    eapply tbl_le_nonzero; [exact HleB'|]. apply Hnz. lia.
  - cbn [WHC3.fill_pos WHC3.fB]. split; [lia|]. split; [assumption|].
    split; [apply tbl_le_refl|]. intros; lia.
  - cbn [WHC3.fill_pos]. lia.
  - exists s. split; [exact Hrun|]. split; [assumption|]. split; [assumption|].
    injection Hexit as Hexit. apply Z.ltb_ge in Hexit.
    intros p Hp. apply Hnz. lia.
Qed.

(** For every [m >= Q] the preprocessing of whc3 completes, and the table
    links every q-gram to the q-gram Q bytes to its left and has a non-empty
    word for every q-gram of the pattern. *)
Lemma whc3_table x m B0 :
  Z.of_nat (length x) = m -> 3 <= m -> Z.of_nat (length B0) = 2048 ->
  exists H B, WHC3.preprocessing x m B0 = Ok (H, B) /\ whc3_table_ok x m B.
Proof.
  intros Hlen Hm HB. unfold WHC3.preprocessing. cbv zeta.
  assert (HB' : Z.of_nat (length (map (fun _ : Z => 0) B0)) = 2048)
    by (rewrite length_map; assumption).
  destruct (whc3_chains x m _ Hlen Hm HB') as (s1 & Hrun1 & Hlen1 & Hle1 & Hlinks).
  rewrite Hrun1. cbn [bind].
  destruct (whc3_fill_loop_nz x m (WHC3.pB s1) Hlen Hm Hlen1) as (s2 & Hrun2 & Hlen2 & Hle2 & Hnz).
  rewrite Hrun2. cbn [bind].
  exists (WHC3.pH s1), (WHC3.fB s2). split; [reflexivity|]. split; [assumption|].
  assert (Hl2 : forall p, 2 <= p -> p + 3 <= m - 1 ->
                  WHC3S.linked (WHC3.fB s2) (WHC3S.chain x (p + 3)) (WHC3S.chain x p)).
  { intros p Hp Hp3. eapply whc3_linked_mono; [exact Hle2|]. now apply Hlinks. }
  split; [exact Hl2|].
  intros p Hp. destruct (Z.lt_ge_cases p 5).
  - apply Hnz. lia.
  - specialize (Hl2 (p - 3) ltac:(lia) ltac:(lia)).
    replace (p - 3 + 3) with p in Hl2 by lia.
    unfold WHC3S.linked in Hl2. intros E. rewrite E, Z.testbit_0_l in Hl2. discriminate.
Qed.

Lemma whc3_chain_occ x m y i p :
  (forall k, 0 <= k < m -> byte_at y (i + k) = byte_at x k) ->
  2 <= p < m -> WHC3S.chain y (i + p) = WHC3S.chain x p.
Proof.
  intros Hb Hp. unfold WHC3S.chain.
  rewrite (bv_byte_at x y (i + p) p) by (apply Hb; lia).
  replace (i + p - 1) with (i + (p - 1)) by lia.
  replace (i + p - 2) with (i + (p - 2)) by lia.
  rewrite (bv_byte_at x y (i + (p - 1)) (p - 1)) by (apply Hb; lia).
  rewrite (bv_byte_at x y (i + (p - 2)) (p - 2)) by (apply Hb; lia).
  reflexivity.
Qed.

(** The backward walk, down to any limit [sbp] that keeps it inside the
    window: when it fails, two q-grams of the window are not linked. *)
Lemma whc3_walk_loop y B m sbp pos0 :
  Z.of_nat (length B) = 2048 -> 3 <= m -> m - 1 <= pos0 < Z.of_nat (length y) ->
  pos0 - m + 6 <= sbp ->
  exists w,
    WHC3.walk y B m sbp pos0 (WHC3S.chain y pos0)
              (word_at B (Z.land (WHC3S.chain y pos0) WHC3.TABLE_MASK)) = Ok w /\
    pos0 - m + 3 <= WHC3.wpos w <= pos0 /\
    (WHC3.failed w = true ->
       WHC3.wpos w + 3 <= pos0 /\
       ~ WHC3S.linked B (WHC3S.chain y (WHC3.wpos w + 3)) (WHC3S.chain y (WHC3.wpos w))).
Proof.
  intros HB Hm Hpos Hsbp. unfold WHC3.walk.
  destruct (while_total
    (fun w => pos0 - m + 3 <= WHC3.wpos w <= pos0 /\
       (WHC3.failed w = true ->
          WHC3.wpos w + 3 <= pos0 /\
          ~ WHC3S.linked B (WHC3S.chain y (WHC3.wpos w + 3)) (WHC3S.chain y (WHC3.wpos w))) /\
       (WHC3.failed w = false ->
          WHC3.wH w = WHC3S.chain y (WHC3.wpos w) /\
          WHC3.wV w = word_at B (Z.land (WHC3.wH w) WHC3.TABLE_MASK)))
    (fun w => Z.to_nat (WHC3.wpos w - (pos0 - m)))
    (fun w => Ok (negb (WHC3.failed w) && (WHC3.wpos w >=? sbp)))
    (WHC3.walk_step y B))
    with (fuel := Datatypes.S (Z.to_nat m))
         (s := WHC3.mkWalk pos0 (WHC3S.chain y pos0)
                 (word_at B (Z.land (WHC3S.chain y pos0) WHC3.TABLE_MASK)) false)
    as (w & Hrun & (Hwp & Hfail & Hok) & Hexit).
  - intros w (Hwp & Hfail & Hok).
    eexists. split; [reflexivity|]. intros Hc.
    apply andb_true_iff in Hc. destruct Hc as (Hnf & Hge).
    apply negb_true_iff in Hnf. apply Z.geb_le in Hge.
    destruct (Hok Hnf) as (HwH & HwV).
    unfold WHC3.walk_step. cbv zeta. change WHC3.Q with 3.
    rewrite whc3_CHAIN_HASH_val by lia. cbn [bind].
    unfold WHC3.LINK_HASH. rewrite land_fp_zero.
    destruct (Z.testbit (WHC3.wV w) (Z.land (WHC3S.chain y (WHC3.wpos w - 3)) 31)) eqn:Ebit;
      cbn [negb].
    + pose proof (whc3_mask_range (WHC3S.chain y (WHC3.wpos w - 3))) as Hr.
      rewrite rdi_word by lia. cbn [bind].
      eexists. split; [reflexivity|]. cbn [WHC3.wpos WHC3.wH WHC3.wV WHC3.failed].
      split; [|lia]. split; [lia|]. split; [discriminate|]. intros _. split; reflexivity.
    + eexists. split; [reflexivity|]. cbn [WHC3.wpos WHC3.wH WHC3.wV WHC3.failed].
      split; [|lia]. split; [lia|]. split; [|discriminate]. intros _. split; [lia|].
      unfold WHC3S.linked. replace (WHC3.wpos w - 3 + 3) with (WHC3.wpos w) by lia.
      rewrite <- HwH, <- HwV, Ebit. discriminate.
  - cbn [WHC3.wpos WHC3.wH WHC3.wV WHC3.failed]. split; [lia|].
    split; [discriminate|]. intros _. split; reflexivity.
  - cbn [WHC3.wpos]. lia.
  - exists w. split; [exact Hrun|]. split; [assumption|]. assumption.
Qed.

Lemma whc3_scan_step_count x m y B s :
  Z.of_nat (length x) = m -> 3 <= m -> Z.of_nat (length y) + m <= INT_MAX ->
  whc3_table_ok x m B -> WHC3.pos s < Z.of_nat (length y) -> whc3_scan_inv x m y s ->
  exists s', WHC3.scan_step x m y B s = Ok s' /\ WHC3.pos s + 1 <= WHC3.pos s' /\
             whc3_scan_inv x m y s'.
Proof.
  intros Hlen Hm Hint (HB & Hlinks & Hnz) Hlt (Hrm & Hpos & Hcount).
  set (pos0 := WHC3.pos s) in *.
  assert (Hskip : forall newpos,
             pos0 + 1 <= newpos ->
             (forall i, pos0 - m + 1 <= i < newpos - m + 1 -> occ_at x m y i = false) ->
             WHC3.count s = count_below x m y (Z.to_nat (newpos - m + 1))).
  { intros newpos Hnp Hnone. rewrite Hcount. symmetry. apply count_below_none; [lia|].
    intros i Hi. apply Hnone. lia. }
  unfold WHC3.scan_step. cbv zeta. fold pos0. change WHC3.Q with 3.
  change WHC3.END_FIRST_QGRAM with 2.
  rewrite whc3_CHAIN_HASH_val by lia. cbn [bind].
  pose proof (whc3_mask_range (WHC3S.chain y pos0)) as Hr.
  rewrite rdi_word by lia. cbn [bind].
  destruct (Z.eqb_spec (word_at B (Z.land (WHC3S.chain y pos0) WHC3.TABLE_MASK)) 0) as [Hz|Hnz0].
  - int_in_range.
    eexists. split; [reflexivity|]. unfold whc3_scan_inv.
    cbn [WHC3.pos WHC3.count WHC3.rightmost_match_pos]. split; [lia|].
    split; [lia|]. split; [lia|]. apply Hskip; [lia|].
    intros i Hi. destruct (occ_at x m y i) eqn:Eocc; [|reflexivity]. exfalso.
    apply occ_at_bytes in Eocc; try lia. destruct Eocc as (_ & Hbytes).
    apply (Hnz (pos0 - i)); [lia|].
    rewrite <- (whc3_chain_occ x m y i) by (try assumption; lia).
    replace (i + (pos0 - i)) with pos0 by lia. exact Hz.
  - int_in_range.
    destruct (whc3_walk_loop y B m
                (Z.max (pos0 - m + 3) (WHC3.rightmost_match_pos s) + 3) pos0
                HB ltac:(lia) ltac:(lia) ltac:(lia))
      as (w & Hwalk & Hwp & Hfail).
    rewrite Hwalk. cbn [bind].
    destruct (WHC3.failed w) eqn:Ef.
    + int_in_range.
      eexists. split; [reflexivity|]. unfold whc3_scan_inv.
      cbn [WHC3.pos WHC3.count WHC3.rightmost_match_pos]. split; [lia|].
      split; [lia|]. split; [lia|]. destruct (Hfail eq_refl) as (Hw3 & Hnl).
      apply Hskip; [lia|].
      intros i Hi. destruct (occ_at x m y i) eqn:Eocc; [|reflexivity]. exfalso.
      apply occ_at_bytes in Eocc; try lia. destruct Eocc as (_ & Hbytes).
      apply Hnl.
      replace (WHC3.wpos w + 3) with (i + (WHC3.wpos w - i + 3)) by lia.
      replace (WHC3.wpos w) with (i + (WHC3.wpos w - i)) at 2 by lia.
      rewrite !(whc3_chain_occ x m y i) by (try assumption; lia).
      apply Hlinks; lia.
    + rewrite memcmp_eq_occ by lia. cbn [bind]. int_in_range.
      eexists. split; [reflexivity|]. unfold whc3_scan_inv.
      cbn [WHC3.pos WHC3.count WHC3.rightmost_match_pos].
      split; [lia|]. split; [lia|]. split; [lia|].
      replace (Z.to_nat (pos0 - m + 3 + (m - 3 + 1) - m + 1))
        with (Datatypes.S (Z.to_nat (pos0 - m + 1))) by lia.
      cbn [count_below]. rewrite Z2Nat.id by lia. rewrite Hcount.
      replace (pos0 - m + 3 - 2) with (pos0 - m + 1) by lia.
      destruct (occ_at x m y (pos0 - m + 1)); lia.
Qed.

(** For every [m >= Q], [search] of whc3 returns the number of occurrences. *)
Lemma whc3_search_count x m y n :
  Z.of_nat (length x) = m -> Z.of_nat (length y) = n -> 3 <= m ->
  n + m <= INT_MAX ->
  WHC3.search x m y n = Ok (occurrences x m y n).
Proof.
  intros Hlen Hn Hm Hint. unfold WHC3.search.
  destruct (Z.ltb_spec m WHC3.Q) as [Hlt|_]; [change WHC3.Q with 3 in Hlt; lia|].
  cbv zeta.
  destruct (whc3_table x m (repeat 0 (Z.to_nat WHC3.ASIZE)) Hlen Hm) as (H & B & Hpre & Hok).
  { rewrite repeat_length. reflexivity. }
  rewrite Hpre. cbn [bind]. unfold WHC3.scan.
  destruct (while_total (whc3_scan_inv x m y) (fun s => Z.to_nat (n - WHC3.pos s))
                        (fun s => Ok (WHC3.pos s <? n)) (WHC3.scan_step x m y B))
    with (fuel := Datatypes.S (Z.to_nat n)) (s := WHC3.mkScan (m - 1) 0 0)
    as (s & Hrun & (Hrm & Hpos & Hcount) & Hexit).
  - intros s Hinv. eexists. split; [reflexivity|]. intros Hc. apply Z.ltb_lt in Hc.
    destruct (whc3_scan_step_count x m y B s Hlen Hm ltac:(lia) Hok ltac:(lia) Hinv)
      as (s' & Hs' & Hadv & Hinv').
    exists s'. split; [assumption|]. split; [assumption|]. lia.
  - split; [cbn [WHC3.pos WHC3.rightmost_match_pos]; lia|].
    split; cbn [WHC3.pos WHC3.count]; [lia|].
    replace (Z.to_nat (m - 1 - m + 1)) with O by lia. reflexivity.
  - cbn [WHC3.pos]. lia.
  - rewrite Hrun. cbn [bind]. f_equal. rewrite Hcount. unfold occurrences.
    injection Hexit as Hexit. apply Z.ltb_ge in Hexit.
    apply count_below_none; [lia|].
    intros i Hi. apply occ_at_out; try assumption; lia.
Qed.

(** ** The failure table holds the longest borders *)

Lemma border_border x j t u :
  0 <= u <= t -> t <= j -> border x j t -> border x j u -> border x t u.
Proof.
  intros Hu Ht Hjt Hju i Hi.
  rewrite (Hju i Hi). rewrite (Hjt (t - u + i)) by lia. f_equal. lia.
Qed.

Lemma border_pred x j u :
  1 <= u -> border x (j + 1) u -> border x j (u - 1) /\ byte_at x (u - 1) = byte_at x j.
Proof.
  intros Hu Hb. split.
  - intros i Hi. rewrite (Hb i) by lia. f_equal. lia.
  - rewrite (Hb (u - 1)) by lia. f_equal. lia.
Qed.

Lemma kmp_inner_loop_max x m s t1 :
  Z.of_nat (length x) = m -> kmp_sinv x m s -> KMP.j s < m ->
  while (Datatypes.S (Z.to_nat (KMP.t s + 1)))
        (KMP.inner_cond x (KMP.j s) (KMP.tab s)) (KMP.inner_body (KMP.tab s)) (KMP.t s)
  = Ok t1 ->
  forall u, t1 < u < KMP.j s -> border x (KMP.j s) u ->
            byte_at x u <> byte_at x (KMP.j s).
Proof.
  intros Hlen ((Hj & Ht & HK & Hb & Hent) & Hmax & Hstrong) Hjm Hrun.
  apply (while_partial
           (fun tt => -1 <= tt <= KMP.t s /\ border x (KMP.j s) tt /\
                      forall u, tt < u < KMP.j s -> border x (KMP.j s) u ->
                                byte_at x u <> byte_at x (KMP.j s))) in Hrun.
  - destruct Hrun as ((_ & _ & H) & _). exact H.
  - intros tt tt' (Htt & Hbt & Hno) Hcond Hbody.
    unfold KMP.inner_cond in Hcond. unfold KMP.inner_body in Hbody.
    destruct (Z.gtb_spec tt (-1)) as [Hgt|]; [|discriminate].
    destruct (byte_at_in_range x (KMP.j s)) as (a & Ha); [lia|].
    destruct (byte_at_in_range x tt) as (b & Hbb); [lia|].
    rewrite (byte_at_rd _ _ _ Ha), (byte_at_rd _ _ _ Hbb) in Hcond. cbn [bind] in Hcond.
    injection Hcond as Hcond. apply negb_true_iff, Z.eqb_neq in Hcond.
    destruct (Hent tt ltac:(lia)) as (v & Hv & Hvr & Hvb & _).
    rewrite Hv in Hbody. injection Hbody as <-.
    split; [lia|]. split.
    + destruct (Z.le_gt_cases v 0); [now apply border_neg|].
      apply border_trans with (t := tt); auto; lia.
    + intros u Hu Hbu.
      destruct (Z.lt_trichotomy u tt) as [Hlt|[->|Hgt']].
      * assert (Hbtu : border x tt u) by (apply (border_border x (KMP.j s)); auto; lia).
        destruct (Hstrong tt ltac:(lia) v u Hv ltac:(lia) Hbtu) as (_ & E).
        rewrite E, Ha, Hbb. intros [= E']. apply Hcond. now rewrite E'.
      * rewrite Ha, Hbb. intros [= E']. apply Hcond. now rewrite E'.
      * apply Hno; [lia|assumption].
  - split; [lia|]. split; [assumption|].
    intros u Hu Hbu. exfalso. exact (Hmax u Hu Hbu).
Qed.

Lemma kmp_maximal_upd x m K k j v :
  0 <= k -> 0 <= j -> k <> j -> kmp_maximal x m K k ->
  kmp_maximal x m (upd K (Z.to_nat j) v) k.
Proof.
  intros Hk Hj Hne Hm w u Hw. rewrite rdi_upd_ne in Hw by lia. now apply Hm.
Qed.

Lemma kmp_outer_step_max x m s :
  Z.of_nat (length x) = m -> kmp_sinv x m s -> KMP.j s < m ->
  exists s', KMP.outer_body x m s = Ok s' /\ kmp_sinv x m s' /\
             KMP.j s' = KMP.j s + 1.
Proof.
  intros Hlen Hs Hjm. pose proof Hs as (Hinv & Hmax & Hstrong).
  destruct (kmp_outer_step x m s Hlen Hinv Hjm) as (s' & Hbody & Hinv' & Hj').
  exists s'. split; [assumption|]. split; [|assumption].
  split; [assumption|].
  destruct (kmp_inner_loop x m s Hlen Hinv Hjm) as (t1 & Hrun & Ht1 & Hb1 & Heq).
  pose proof (kmp_inner_loop_max x m s t1 Hlen Hs Hjm Hrun) as Hno.
  destruct Hinv as (Hj & Ht & HK & Hb & Hent).
  unfold KMP.outer_body in Hbody. rewrite Hrun in Hbody. cbn [bind] in Hbody.
  set (j' := KMP.j s + 1) in *. set (t' := t1 + 1) in *.
  assert (Hlong : forall u, t' < u < j' -> ~ border x j' u).
  { intros u Hu Hbu. subst j' t'.
    destruct (border_pred x (KMP.j s) u ltac:(lia) Hbu) as (Hb' & E).
    exact (Hno (u - 1) ltac:(lia) Hb' E). }
  assert (Hbt' : border x j' t').
  { destruct Hinv' as (_ & _ & _ & _ & _).
    intros i Hi. subst j' t'.
    destruct (Z.eq_dec i t1) as [->|Hne].
    - rewrite <- Heq by lia. f_equal. lia.
    - rewrite (Hb1 i) by lia. f_equal. lia. }
  assert (Hold : forall w k, 0 <= k <= KMP.j s ->
                             kmp_maximal x m (upd (KMP.tab s) (Z.to_nat j') w) k).
  { intros w k Hk. apply kmp_maximal_upd; subst j'; try lia. apply Hstrong. lia. }
  destruct (Z.ltb_spec j' m) as [Hlt|Hge].
  - destruct (byte_at_in_range x j') as (a & Ha); [lia|].
    destruct (byte_at_in_range x t') as (b & Hbb); [subst j' t'; lia|].
    rewrite (byte_at_rd _ _ _ Ha), (byte_at_rd _ _ _ Hbb) in Hbody. cbn [bind] in Hbody.
    destruct (Z.eqb_spec (u8 a) (u8 b)) as [Hab|Hab].
    + apply u8_inj in Hab. subst b.
      destruct (Hent t' ltac:(subst t'; lia)) as (v & Hv & Hvr & Hvb & Hvne).
      rewrite Hv in Hbody. cbn [bind] in Hbody.
      rewrite wri_Ok in Hbody by (subst j'; lia). cbn [bind] in Hbody.
      injection Hbody as <-. cbn [KMP.j KMP.t KMP.tab].
      split; [exact Hlong|].
      intros k Hk. destruct (Z.eq_dec k j') as [->|Hne]; [|apply Hold; lia].
      intros w u Hw Hu Hbu. rewrite rdi_upd_eq in Hw by (subst j'; lia).
      injection Hw as <-. split; [assumption|].
      destruct (Z.lt_trichotomy u t') as [Hlt'|[->|Hgt']].
      * assert (Hbtu : border x t' u)
          by (apply (border_border x j'); auto; subst j' t'; lia).
        destruct (Hstrong t' ltac:(subst t'; lia) v u Hv ltac:(lia) Hbtu) as (_ & E).
        rewrite E. congruence.
      * congruence.
      * exfalso. exact (Hlong u ltac:(lia) Hbu).
    + rewrite wri_Ok in Hbody by (subst j'; lia). cbn [bind] in Hbody.
      injection Hbody as <-. cbn [KMP.j KMP.t KMP.tab].
      split; [exact Hlong|].
      intros k Hk. destruct (Z.eq_dec k j') as [->|Hne]; [|apply Hold; lia].
      intros w u Hw Hu Hbu. rewrite rdi_upd_eq in Hw by (subst j'; lia).
      injection Hw as <-. exfalso. exact (Hlong u ltac:(lia) Hbu).
  - cbn [bind] in Hbody. rewrite wri_Ok in Hbody by (subst j'; lia). cbn [bind] in Hbody.
    injection Hbody as <-. cbn [KMP.j KMP.t KMP.tab].
    split; [exact Hlong|].
    intros k Hk. destruct (Z.eq_dec k j') as [->|Hne]; [|apply Hold; lia].
    intros w u Hw Hu Hbu. rewrite rdi_upd_eq in Hw by (subst j'; lia).
    injection Hw as <-. exfalso. exact (Hlong u ltac:(lia) Hbu).
Qed.

(** [pre_kmp] returns, and entry [k] of its table is the longest proper
    border of [x[0..k)] that is not followed by [x[k]]. *)
Lemma kmp_table_strong x m K0 :
  Z.of_nat (length x) = m -> Z.of_nat (length K0) = m + 1 ->
  exists K, KMP.pre_kmp x m K0 = Ok K /\ kmp_table_ok x m K.
Proof.
  intros Hlen HK0. unfold KMP.pre_kmp.
  rewrite wri_Ok by lia. cbn [bind].
  destruct (while_total (kmp_sinv x m) (fun s => Z.to_nat (m - KMP.j s))
                        (KMP.outer_cond m) (KMP.outer_body x m))
    with (fuel := Datatypes.S (Z.to_nat m))
         (s := KMP.mk 0 (-1) (upd K0 0 (-1)))
    as (s' & Hrun & Hinv & Hexit).
  - intros s Hinv. unfold KMP.outer_cond. eexists. split; [reflexivity|].
    intros Hc. apply Z.ltb_lt in Hc.
    destruct (kmp_outer_step_max x m s Hlen Hinv Hc) as (s' & Hs' & Hinv' & Hj').
    exists s'. split; [assumption|]. split; [assumption|]. lia.
  - split; [|split].
    + unfold kmp_inv. cbn [KMP.j KMP.t KMP.tab]. rewrite length_upd.
      split; [lia|]. split; [lia|]. split; [assumption|].
      split; [apply border_neg; lia|].
      intros k Hk. assert (k = 0) as -> by lia.
      exists (-1). split; [apply (rdi_upd_eq K0 0); lia|].
      split; [lia|]. split; [apply border_neg; lia|]. intros; lia.
    + cbn [KMP.j KMP.t]. intros; lia.
    + cbn [KMP.j KMP.tab]. intros k Hk v u Hv Hu. assert (k = 0) as -> by lia.
      rewrite (rdi_upd_eq K0 0) in Hv by lia. injection Hv as <-. lia.
  - cbn [KMP.j]. lia.
  - change (Z.to_nat 0) with O. rewrite Hrun. cbn [bind].
    exists (KMP.tab s'). split; [reflexivity|].
    destruct Hinv as ((Hj & Ht & HK & Hb & Hent) & _ & Hstrong).
    unfold KMP.outer_cond in Hexit. injection Hexit as Hexit.
    apply Z.ltb_ge in Hexit.
    split; [assumption|]. intros k Hk. split; [apply Hent|apply Hstrong]; lia.
Qed.

(** The table is determined by the pattern. *)
Lemma kmp_table_ok_unique x m K K' :
  kmp_table_ok x m K -> kmp_table_ok x m K' -> K = K'.
Proof.
  intros (HL & H) (HL' & H').
  apply list_eq_nth_error. intros i.
  destruct (Z.le_gt_cases (Z.of_nat i) m) as [Hi|Hi].
  - destruct (H (Z.of_nat i) ltac:(lia)) as ((v & Hv & Hr & Hb & Hne) & Hmax).
    destruct (H' (Z.of_nat i) ltac:(lia)) as ((v' & Hv' & Hr' & Hb' & Hne') & Hmax').
    assert (E : v = v').
    { destruct (Z.lt_trichotomy v v') as [Hlt|[E|Hgt]]; [|exact E|].
      - exfalso. destruct (Hmax v v' Hv ltac:(lia) Hb') as (Hk & Hx).
        exact (Hne' Hk ltac:(lia) Hx).
      - exfalso. destruct (Hmax' v' v Hv' ltac:(lia) Hb) as (Hk & Hx).
        exact (Hne Hk ltac:(lia) Hx). }
    subst v'. unfold rdi in Hv, Hv'.
    destruct (Z.ltb_spec (Z.of_nat i) 0); [lia|]. rewrite Nat2Z.id in Hv, Hv'.
    destruct (nth_error K i); [|discriminate]. destruct (nth_error K' i); [|discriminate].
    congruence.
  - transitivity (@None Z); [|symmetry]; apply nth_error_None; lia.
Qed.

(** ** The verification by the failure table counts every occurrence *)

Lemma occ_at_of_bytes x m y i :
  Z.of_nat (length x) = m -> 0 <= i -> i + m <= Z.of_nat (length y) ->
  (forall k, 0 <= k < m -> byte_at y (i + k) = byte_at x k) ->
  occ_at x m y i = true.
Proof.
  intros Hlen Hi Hin Hb. unfold occ_at. apply bytes_eqb_eq.
  apply list_eq_nth_error. intros k.
  rewrite !nth_error_slice by lia.
  replace (i + m - i) with m by lia. replace (m - 0) with m by lia.
  destruct (Z.ltb_spec (Z.of_nat k) m); [|reflexivity].
  specialize (Hb (Z.of_nat k) ltac:(lia)). unfold byte_at in Hb.
  destruct (Z.ltb_spec (i + Z.of_nat k) 0); [lia|].
  destruct (Z.ltb_spec (Z.of_nat k) 0); [lia|].
  rewrite Nat2Z.id in Hb.
  replace (Z.to_nat (i + Z.of_nat k)) with (Z.to_nat i + k)%nat in Hb by lia.
  exact Hb.
Qed.

Lemma count_below_succ x m y c :
  0 <= c ->
  count_below x m y (Z.to_nat (c + 1))
  = count_below x m y (Z.to_nat c) + (if occ_at x m y c then 1 else 0).
Proof.
  intros Hc. replace (Z.to_nat (c + 1)) with (Datatypes.S (Z.to_nat c)) by lia.
  cbn [count_below]. rewrite Z2Nat.id by lia. reflexivity.
Qed.

(** The naive matching loop extends the matched prefix as far as it goes. *)
Lemma kmp_match_loop_spec x m y s :
  Z.of_nat (length x) = m ->
  0 <= KMP.pattern_pos s <= m -> KMP.pattern_pos s <= KMP.next_verify_pos s ->
  KMP.next_verify_pos s - KMP.pattern_pos s + m <= Z.of_nat (length y) ->
  pref_match x y (KMP.next_verify_pos s - KMP.pattern_pos s) (KMP.pattern_pos s) ->
  exists s1,
    while (Datatypes.S (Z.to_nat m)) (KMP.match_cond x m y) KMP.match_step s = Ok s1 /\
    KMP.pattern_pos s <= KMP.pattern_pos s1 <= m /\
    KMP.next_verify_pos s1 - KMP.pattern_pos s1
      = KMP.next_verify_pos s - KMP.pattern_pos s /\
    KMP.kcount s1 = KMP.kcount s /\
    pref_match x y (KMP.next_verify_pos s - KMP.pattern_pos s) (KMP.pattern_pos s1) /\
    (KMP.pattern_pos s1 < m ->
       byte_at y (KMP.next_verify_pos s1) <> byte_at x (KMP.pattern_pos s1)).
Proof.
  intros Hlen Hpp Hle Hroom Hpref.
  set (c := KMP.next_verify_pos s - KMP.pattern_pos s) in *.
  destruct (while_total
    (fun s1 => KMP.pattern_pos s <= KMP.pattern_pos s1 <= m /\
               KMP.next_verify_pos s1 - KMP.pattern_pos s1 = c /\
               KMP.kcount s1 = KMP.kcount s /\
               pref_match x y c (KMP.pattern_pos s1))
    (fun s1 => Z.to_nat (m - KMP.pattern_pos s1))
    (KMP.match_cond x m y) KMP.match_step)
    with (fuel := Datatypes.S (Z.to_nat m)) (s := s)
    as (s1 & Hrun & (Hp1 & Ha & Hc & Hpm) & Hexit).
  - intros s1 (Hp1 & Ha & Hc & Hpm). unfold KMP.match_cond, KMP.match_step.
    destruct (Z.ltb_spec (KMP.pattern_pos s1) m) as [Hlt|Hge].
    + destruct (byte_at_in_range x (KMP.pattern_pos s1)) as (a & Hxa); [lia|].
      destruct (byte_at_in_range y (KMP.next_verify_pos s1)) as (b & Hyb); [lia|].
      rewrite (byte_at_rd _ _ _ Hxa), (byte_at_rd _ _ _ Hyb). cbn [bind].
      eexists. split; [reflexivity|]. intros Heq. apply Z.eqb_eq, u8_inj in Heq. subst b.
      eexists. split; [reflexivity|].
      cbn [KMP.pattern_pos KMP.next_verify_pos KMP.kcount].
      split; [|lia]. split; [lia|]. split; [lia|]. split; [assumption|].
      intros i Hi. destruct (Z.eq_dec i (KMP.pattern_pos s1)) as [->|Hne].
      * replace (c + KMP.pattern_pos s1) with (KMP.next_verify_pos s1) by lia. congruence.
      * apply Hpm. lia.
    + exists false. split; [reflexivity|discriminate].
  - split; [lia|]. split; [reflexivity|]. split; [reflexivity|assumption].
  - lia.
  - exists s1. split; [assumption|]. split; [assumption|]. split; [assumption|].
    split; [assumption|]. split; [assumption|].
    intros Hlt. unfold KMP.match_cond in Hexit.
    destruct (Z.ltb_spec (KMP.pattern_pos s1) m); [|lia].
    destruct (byte_at_in_range x (KMP.pattern_pos s1)) as (a & Hxa); [lia|].
    destruct (byte_at_in_range y (KMP.next_verify_pos s1)) as (b & Hyb); [lia|].
    rewrite (byte_at_rd _ _ _ Hxa), (byte_at_rd _ _ _ Hyb) in Hexit. cbn [bind] in Hexit.
    injection Hexit as Hexit. apply Z.eqb_neq in Hexit.
    rewrite Hxa, Hyb. intros [= E]. apply Hexit. now rewrite E.
Qed.

(** One round of the verification: the alignment under test is settled and
    counted, the alignments up to the next one under test hold no
    occurrence. *)
Lemma kmp_verify_step_spec x m y K s :
  Z.of_nat (length x) = m -> kmp_table_ok x m K -> kmp_vinv x m y s ->
  KMP.next_verify_pos s - KMP.pattern_pos s + m <= Z.of_nat (length y) ->
  exists s',
    KMP.verify_step x m y K s = Ok s' /\ kmp_vinv x m y s' /\
    KMP.next_verify_pos s - KMP.pattern_pos s
      < KMP.next_verify_pos s' - KMP.pattern_pos s' /\
    KMP.next_verify_pos s' <= Z.of_nat (length y).
Proof.
  intros Hlen (HKlen & HK) (Hpp & Hle & Hpref & Hcnt) Hroom.
  set (c := KMP.next_verify_pos s - KMP.pattern_pos s) in *.
  unfold KMP.verify_step.
  destruct (kmp_match_loop_spec x m y s Hlen ltac:(lia) Hle Hroom Hpref)
    as (s1 & Hrun & Hp1 & Ha & Hc & Hpm & Hmis).
  fold c in Ha, Hpm.
  rewrite Hrun. cbn [bind]. cbv zeta.
  destruct (HK (KMP.pattern_pos s1) ltac:(lia)) as ((v & Hv & Hvr & Hvb & Hvne) & Hmax).
  rewrite Hv. cbn [bind].
  set (p1 := KMP.pattern_pos s1) in *.
  assert (Hnvp1 : KMP.next_verify_pos s1 = c + p1) by lia.
  (* the alignment under test *)
  assert (Hocc : occ_at x m y c = (p1 =? m)).
  { destruct (Z.eqb_spec p1 m) as [E|E].
    - apply occ_at_of_bytes; try assumption; try lia. rewrite <- E. exact Hpm.
    - destruct (occ_at x m y c) eqn:Eocc; [|reflexivity]. exfalso.
      apply occ_at_bytes in Eocc; try lia. destruct Eocc as (_ & Hb).
      apply Hmis; [lia|]. rewrite Hnvp1. apply Hb. lia. }
  (* the alignments that are skipped *)
  assert (Hskip : forall d, 0 < d -> p1 - d > v -> occ_at x m y (c + d) = false).
  { intros d Hd Hu. destruct (occ_at x m y (c + d)) eqn:Eocc; [|reflexivity]. exfalso.
    apply occ_at_bytes in Eocc; try lia. destruct Eocc as (_ & Hb).
    assert (Hbu : border x p1 (p1 - d)).
    { intros i Hi. rewrite <- (Hb i) by lia. rewrite <- (Hpm (p1 - (p1 - d) + i)) by lia.
      f_equal. lia. }
    destruct (Hmax v (p1 - d) Hv ltac:(lia) Hbu) as (Hlt & E).
    apply (Hmis Hlt). rewrite Hnvp1, <- E, <- (Hb (p1 - d)) by lia. f_equal. lia. }
  assert (Hcount : forall c', c < c' -> (forall d, 0 < d < c' - c -> p1 - d > v) ->
             (if p1 =? m then KMP.kcount s1 + 1 else KMP.kcount s1)
             = count_below x m y (Z.to_nat c')).
  { intros c' Hc' Hd.
    rewrite (count_below_none x m y (Z.to_nat (c + 1)) (Z.to_nat c')); [|lia|].
    2:{ intros i Hi. replace i with (c + (i - c)) by lia. apply Hskip; [lia|apply Hd; lia]. }
    rewrite count_below_succ by lia. rewrite Hocc, Hc, Hcnt.
    destruct (p1 =? m); lia. }
  assert (Hlast : p1 = m -> 0 <= v).
  { intros E. destruct (Z.le_gt_cases 0 v) as [|Hneg]; [assumption|]. exfalso.
    assert (Hb0 : border x p1 0) by (intros i Hi; lia).
    destruct (Hmax v 0 Hv ltac:(lia) Hb0) as (Hlt & _). lia. }
  destruct (Z.ltb_spec v 0).
  - eexists. split; [reflexivity|]. unfold kmp_vinv.
    cbn [KMP.pattern_pos KMP.next_verify_pos KMP.kcount].
    split; [|split; [lia|]].
    + split; [lia|]. split; [lia|]. split; [intros i Hi; lia|].
      apply Hcount; [lia|]. intros d Hd. lia.
    + destruct (Z.eq_dec p1 m) as [E|E]; [specialize (Hlast E); lia|lia].
  - eexists. split; [reflexivity|]. unfold kmp_vinv.
    cbn [KMP.pattern_pos KMP.next_verify_pos KMP.kcount].
    split; [|split; [lia|lia]]. split; [lia|]. split; [lia|]. split.
    + intros i Hi. rewrite (Hvb i Hi). rewrite <- (Hpm (p1 - v + i)) by lia. f_equal. lia.
    + apply Hcount; [lia|]. intros d Hd. lia.
Qed.

(** The verification loop, run for the window that starts at [ws]: it ends
    with an alignment to the right of [ws] under test and has counted every
    occurrence to the left of that alignment. *)
Lemma kmp_verify_spec x m y n K ws s :
  Z.of_nat (length x) = m -> Z.of_nat (length y) = n -> kmp_table_ok x m K ->
  0 <= ws -> ws + m <= n -> kmp_vinv x m y s ->
  exists s',
    KMP.verify x m y n K ws s = Ok s' /\ kmp_vinv x m y s' /\
    ws < KMP.next_verify_pos s' - KMP.pattern_pos s' /\
    (KMP.next_verify_pos s <= n -> KMP.next_verify_pos s' <= n).
Proof.
  intros Hlen Hn HK Hws Hroom Hinv. unfold KMP.verify.
  destruct (while_total
    (fun s' => kmp_vinv x m y s' /\
               (KMP.next_verify_pos s <= n -> KMP.next_verify_pos s' <= n))
    (fun s' => Z.to_nat (ws - (KMP.next_verify_pos s' - KMP.pattern_pos s') + 1))
    (fun s' => Ok (KMP.pattern_pos s' >=? KMP.next_verify_pos s' - ws))
    (KMP.verify_step x m y K))
    with (fuel := Datatypes.S (Z.to_nat n)) (s := s)
    as (s' & Hrun & (Hinv' & Hb') & Hexit).
  - intros s1 (Hinv1 & _). eexists. split; [reflexivity|]. intros Hc.
    apply Z.geb_le in Hc.
    destruct (kmp_verify_step_spec x m y K s1 Hlen HK Hinv1 ltac:(lia))
      as (s2 & Hstep & Hinv2 & Hadv & Hb2).
    exists s2. split; [assumption|]. split; [|lia]. split; [assumption|]. lia.
  - split; [assumption|]. auto.
  - destruct Hinv as (? & ? & _). lia.
  - exists s'. split; [assumption|]. split; [assumption|]. split; [|assumption].
    injection Hexit as Hexit.
    destruct (Z.geb_spec (KMP.pattern_pos s') (KMP.next_verify_pos s' - ws)); [discriminate|lia].
Qed.

(** ** lhc3-kmp: the count *)

(** A window that holds a q-gram with an empty table word, or two q-grams Q
    apart that are not linked, is not an occurrence. *)
Lemma whc3_empty_probe_no_occ x m y B p i :
  Z.of_nat (length x) = m -> 3 <= m -> whc3_table_ok x m B ->
  word_at B (Z.land (WHC3S.chain y p) WHC3.TABLE_MASK) = 0 ->
  0 <= i -> i + 2 <= p <= i + m - 1 -> occ_at x m y i = false.
Proof.
  intros Hlen Hm (HB & Hlinks & Hnz) Hz Hi Hp.
  destruct (occ_at x m y i) eqn:Eocc; [|reflexivity]. exfalso.
  apply occ_at_bytes in Eocc; try lia. destruct Eocc as (_ & Hbytes).
  apply (Hnz (p - i)); [lia|].
  rewrite <- (whc3_chain_occ x m y i) by (try assumption; lia).
  replace (i + (p - i)) with p by lia. exact Hz.
Qed.

Lemma whc3_unlinked_no_occ x m y B w i :
  Z.of_nat (length x) = m -> 3 <= m -> whc3_table_ok x m B ->
  ~ WHC3S.linked B (WHC3S.chain y (w + 3)) (WHC3S.chain y w) ->
  0 <= i -> i + 2 <= w -> w + 3 <= i + m - 1 -> occ_at x m y i = false.
Proof.
  intros Hlen Hm (HB & Hlinks & Hnz) Hnl Hi Hw Hw3.
  destruct (occ_at x m y i) eqn:Eocc; [|reflexivity]. exfalso.
  apply occ_at_bytes in Eocc; try lia. destruct Eocc as (_ & Hbytes).
  apply Hnl.
  replace (w + 3) with (i + (w - i + 3)) by lia.
  replace w with (i + (w - i)) at 2 by lia.
  rewrite !(whc3_chain_occ x m y i) by (try assumption; lia).
  apply Hlinks; lia.
Qed.

Lemma lhc3k_scan_step_cases x m y n B K s :
  Z.of_nat (length x) = m -> Z.of_nat (length y) = n -> 3 <= m ->
  whc3_table_ok x m B -> kmp_table_ok x m K ->
  lhc3k_count_inv x m y s -> LHC3K.pos s < n ->
  (exists s', LHC3K.scan_step x m y n B K s = Ok s' /\
              LHC3K.pos s + 1 <= LHC3K.pos s' /\ lhc3k_count_inv x m y s') \/
  (LHC3K.scan_step x m y n B K s = Fault /\ INT_MAX < n + m).
Proof.
  intros Hlen Hn Hm Hok HK (Hpos & Hcount & Hc & Hv) Hlt.
  pose proof Hv as (Hvpp & Hvle & _). cbn [KMP.pattern_pos KMP.next_verify_pos] in Hvpp, Hvle.
  pose proof Hok as (HB & _).
  set (pos0 := LHC3K.pos s) in *.
  assert (Hskip : forall newpos,
             pos0 + 1 <= newpos ->
             (forall i, pos0 - m + 1 <= i < newpos - m + 1 -> occ_at x m y i = false) ->
             LHC3K.count s = count_below x m y (Z.to_nat (newpos - m + 1))).
  { intros newpos Hnp Hnone. rewrite Hcount. symmetry. apply count_below_none; [lia|].
    intros i Hi. apply Hnone. lia. }
  unfold LHC3K.scan_step. cbv zeta. fold pos0. change LHC3K.Q with 3. change LHC3K.Q2 with 6.
  unfold LHC3K.CHAIN_HASH, LHC3K.TABLE_MASK.
  rewrite whc3_CHAIN_HASH_val by lia. cbn [bind].
  pose proof (whc3_mask_range (WHC3S.chain y pos0)) as Hr.
  rewrite rdi_word by lia. cbn [bind].
  destruct (Z.eqb_spec (word_at B (Z.land (WHC3S.chain y pos0) WHC3.TABLE_MASK)) 0) as [Hz|Hnz0].
  - int_or_overflow.
    left. eexists. split; [reflexivity|]. unfold lhc3k_count_inv.
    cbn [LHC3K.pos LHC3K.count LHC3K.pattern_pos LHC3K.next_verify_pos].
    split; [lia|]. split; [lia|]. split; [|split; [lia|assumption]].
    apply Hskip; [lia|]. intros i Hi.
    apply (whc3_empty_probe_no_occ x m y B pos0 i); auto; lia.
  - int_or_overflow. int_or_overflow.
    destruct (whc3_walk_loop y B m
                (Z.max (pos0 - m + 6) (LHC3K.next_verify_pos s - 1 + 3)) pos0
                HB Hm ltac:(lia) ltac:(lia))
      as (w & Hwalk & Hwp & Hfail).
    rewrite Hwalk. cbn [bind].
    destruct (WHC3.failed w) eqn:Ef.
    + destruct (Hfail eq_refl) as (Hw3 & Hnl).
      int_or_overflow.
      left. eexists. split; [reflexivity|]. unfold lhc3k_count_inv.
      cbn [LHC3K.pos LHC3K.count LHC3K.pattern_pos LHC3K.next_verify_pos].
      split; [lia|]. split; [lia|]. split; [|split; [lia|assumption]].
      apply Hskip; [lia|]. intros i Hi.
      apply (whc3_unlinked_no_occ x m y B (WHC3.wpos w) i); auto; lia.
    + set (ws := pos0 - m + 6 - 6 + 1).
      set (k0 := KMP.restart ws (KMP.mkKmp (LHC3K.pattern_pos s) (LHC3K.next_verify_pos s)
                                   (LHC3K.count s))).
      assert (Hk0 : kmp_vinv x m y k0).
      { subst k0. unfold KMP.restart. cbn [KMP.next_verify_pos KMP.kcount].
        destruct (ws >? LHC3K.next_verify_pos s); [|assumption].
        unfold kmp_vinv. cbn [KMP.pattern_pos KMP.next_verify_pos KMP.kcount].
        split; [lia|]. split; [subst ws; lia|]. split; [intros i Hi; lia|].
        rewrite Hcount. f_equal. subst ws. lia. }
      destruct (kmp_verify_spec x m y n K ws k0 Hlen Hn HK ltac:(subst ws; lia)
                                ltac:(subst ws; lia) Hk0)
        as (k & Hver & Hkinv & Hka & Hkn).
      assert (Hk0n : KMP.next_verify_pos k0 <= n).
      { subst k0. unfold KMP.restart. cbn [KMP.next_verify_pos KMP.kcount].
        destruct (ws >? LHC3K.next_verify_pos s);
          cbn [KMP.next_verify_pos]; subst ws; lia. }
      specialize (Hkn Hk0n).
      pose proof Hkinv as (Hk1 & Hk2 & Hk3 & Hk4).
      rewrite Hver. cbn [bind]. int_or_overflow. int_or_overflow.
      left. eexists. split; [reflexivity|]. unfold lhc3k_count_inv.
      cbn [LHC3K.pos LHC3K.count LHC3K.pattern_pos LHC3K.next_verify_pos].
      split; [subst ws; lia|]. split; [subst ws; lia|].
      split; [rewrite Hk4; f_equal; lia|]. split; [lia|].
      destruct k as [kp kn kc]. exact Hkinv.
Qed.

Lemma lhc3k_scan_step_count x m y n B K s :
  Z.of_nat (length x) = m -> Z.of_nat (length y) = n -> 3 <= m ->
  n + m <= INT_MAX ->
  whc3_table_ok x m B -> kmp_table_ok x m K ->
  lhc3k_count_inv x m y s -> LHC3K.pos s < n ->
  exists s', LHC3K.scan_step x m y n B K s = Ok s' /\
             LHC3K.pos s + 1 <= LHC3K.pos s' /\ lhc3k_count_inv x m y s'.
Proof.
  intros Hlen Hn Hm Hint Hok HK Hinv Hlt.
  destruct (lhc3k_scan_step_cases x m y n B K s Hlen Hn Hm Hok HK Hinv Hlt)
    as [Hs|(_ & Hfar)]; [exact Hs|lia].
Qed.

(** Without a bound on the input: an iteration that returns keeps the
    invariant of the main loop. *)
Lemma lhc3k_scan_step_inv x m y n B K s s' :
  Z.of_nat (length x) = m -> Z.of_nat (length y) = n -> 3 <= m ->
  whc3_table_ok x m B -> kmp_table_ok x m K ->
  lhc3k_count_inv x m y s -> LHC3K.pos s < n ->
  LHC3K.scan_step x m y n B K s = Ok s' ->
  LHC3K.pos s + 1 <= LHC3K.pos s' /\ lhc3k_count_inv x m y s'.
Proof.
  intros Hlen Hn Hm Hok HK Hinv Hlt Hrun.
  destruct (lhc3k_scan_step_cases x m y n B K s Hlen Hn Hm Hok HK Hinv Hlt)
    as [(s1 & Hs1 & Hadv & Hinv1)|(Hf & _)].
  - rewrite Hrun in Hs1. injection Hs1 as <-. auto.
  - rewrite Hrun in Hf. discriminate.
Qed.

(** For every [m >= Q], [search] of lhc3-kmp returns the number of
    occurrences. *)
Lemma lhc3k_search_count x m y n :
  Z.of_nat (length x) = m -> Z.of_nat (length y) = n -> 3 <= m ->
  n + m <= INT_MAX ->
  LHC3K.search x m y n = Ok (occurrences x m y n).
Proof.
  intros Hlen Hn Hm Hint. unfold LHC3K.search.
  destruct (Z.ltb_spec m LHC3K.Q) as [Hlt|_]; [change LHC3K.Q with 3 in Hlt; lia|].
  cbv zeta. unfold LHC3K.preprocessing, LHC3K.ASIZE.
  destruct (whc3_table x m (repeat 0 (Z.to_nat WHC3.ASIZE)) Hlen Hm) as (H & B & Hpre & Hok).
  { rewrite repeat_length. reflexivity. }
  rewrite Hpre. cbn [bind].
  destruct (kmp_table_strong x m (repeat 0 (Z.to_nat (m + 1))) Hlen) as (K & HK & HKok).
  { rewrite repeat_length. lia. }
  unfold LHC3K.preKmp. rewrite HK. cbn [bind]. unfold LHC3K.scan.
  destruct (while_total (lhc3k_count_inv x m y) (fun s => Z.to_nat (n - LHC3K.pos s))
                        (fun s => Ok (LHC3K.pos s <? n)) (LHC3K.scan_step x m y n B K))
    with (fuel := Datatypes.S (Z.to_nat n)) (s := LHC3K.mkScan (m - 1) 0 0 0)
    as (s & Hrun & (Hpos & Hcount & _) & Hexit).
  - intros s Hinv. eexists. split; [reflexivity|]. intros Hc. apply Z.ltb_lt in Hc.
    destruct (lhc3k_scan_step_count x m y n B K s Hlen Hn Hm Hint Hok HKok Hinv Hc)
      as (s' & Hs' & Hadv & Hinv').
    exists s'. split; [assumption|]. split; [assumption|]. lia.
  - unfold lhc3k_count_inv, kmp_vinv.
    cbn [LHC3K.pos LHC3K.count LHC3K.pattern_pos LHC3K.next_verify_pos
         KMP.pattern_pos KMP.next_verify_pos KMP.kcount].
    replace (Z.to_nat (m - 1 - m + 1)) with O by lia.
    split; [lia|]. split; [reflexivity|]. split; [lia|]. split; [lia|]. split; [lia|].
    split; [intros i Hi; lia|reflexivity].
  - cbn [LHC3K.pos]. lia.
  - rewrite Hrun. cbn [bind]. f_equal. rewrite Hcount. unfold occurrences.
    injection Hexit as Hexit. apply Z.ltb_ge in Hexit.
    apply count_below_none; [lia|].
    intros i Hi. apply occ_at_out; try assumption; lia.
Qed.

(** ** lhc4: the table and the count *)

Lemma lhc4_CHAIN_HASH_val x p :
  3 <= p < Z.of_nat (length x) -> LHC4.CHAIN_HASH x p = Ok (LHC4S.chain x p).
Proof.
  intros Hp. unfold LHC4.CHAIN_HASH, LHC4.HASH, LHC4S.chain.
  rewrite !rd_bv by lia. reflexivity.
Qed.

Lemma lhc4_linked_mono B B' h h' :
  tbl_le B B' -> LHC4S.linked B h h' -> LHC4S.linked B' h h'.
Proof. intros Hle Hl. unfold LHC4S.linked in *. eapply tbl_le_bit; eauto. Qed.

Lemma lhc4_link_step_links x s :
  3 <= LHC4.chain_pos s < Z.of_nat (length x) ->
  Z.of_nat (length (LHC4.cB s)) = 4096 ->
  exists B', LHC4.link_step x s
             = Ok (LHC4.mkChain (LHC4.chain_pos s - 4) (LHC4S.chain x (LHC4.chain_pos s)) B') /\
             Z.of_nat (length B') = 4096 /\ tbl_le (LHC4.cB s) B' /\
             LHC4S.linked B' (LHC4.cH s) (LHC4S.chain x (LHC4.chain_pos s)).
Proof.
  intros Hp HB. unfold LHC4.link_step.
  rewrite lhc4_CHAIN_HASH_val by assumption. cbn [bind].
  pose proof (lhc4_mask_range (LHC4.cH s)) as Hr.
  rewrite rdi_word by lia. cbn [bind].
  rewrite wri_Ok by lia. cbn [bind].
  eexists. split; [reflexivity|].
  split; [rewrite length_upd; assumption|].
  split; [apply tbl_le_lor; lia|].
  unfold LHC4S.linked. rewrite word_at_upd_eq by lia.
  rewrite Z.lor_spec. unfold LHC4.LINK_HASH.
  rewrite fp_testbit by apply land31_range.
  rewrite Z.eqb_refl. apply orb_true_r.
Qed.

(** One chain: from the q-gram that ends at [e], every q-gram [Q] further
    left is recorded in the word of its right neighbour; the hash left in
    [H] is that of the leftmost q-gram of the chain. *)
Lemma lhc4_chain_loop_links x m e B0 :
  Z.of_nat (length x) = m -> 3 <= e < m -> Z.of_nat (length B0) = 4096 ->
  exists c,
    while (Datatypes.S (Z.to_nat m))
          (fun c => Ok (LHC4.chain_pos c >=? LHC4.END_FIRST_QGRAM))
          (LHC4.link_step x) (LHC4.mkChain (e - LHC4.Q) (LHC4S.chain x e) B0) = Ok c /\
    Z.of_nat (length (LHC4.cB c)) = 4096 /\ tbl_le B0 (LHC4.cB c) /\
    forall k : nat, 3 <= e - 4 * (Z.of_nat k + 1) ->
      LHC4S.linked (LHC4.cB c) (LHC4S.chain x (e - 4 * Z.of_nat k))
                   (LHC4S.chain x (e - 4 * (Z.of_nat k + 1))).
Proof.
  intros Hlen He HB. change LHC4.Q with 4. change LHC4.END_FIRST_QGRAM with 3.
  destruct (while_total
    (fun c => exists i : nat,
       LHC4.chain_pos c = e - 4 - 4 * Z.of_nat i /\
       LHC4.cH c = LHC4S.chain x (e - 4 * Z.of_nat i) /\
       Z.of_nat (length (LHC4.cB c)) = 4096 /\ tbl_le B0 (LHC4.cB c) /\
       -1 <= LHC4.chain_pos c /\
       forall k : nat, (k < i)%nat ->
         LHC4S.linked (LHC4.cB c) (LHC4S.chain x (e - 4 * Z.of_nat k))
                      (LHC4S.chain x (e - 4 * (Z.of_nat k + 1))))
    (fun c => Z.to_nat (LHC4.chain_pos c + 1))
    (fun c => Ok (LHC4.chain_pos c >=? 3)) (LHC4.link_step x))
    with (fuel := Datatypes.S (Z.to_nat m)) (s := LHC4.mkChain (e - 4) (LHC4S.chain x e) B0)
    as (c & Hrun & (i & Hpos & HH & HlenB & Hle & Hlow & Hlinks) & Hexit).
  - intros c (i & Hpos & HH & HlenB & Hle & Hlow & Hlinks).
    eexists. split; [reflexivity|]. intros Hc. apply Z.geb_le in Hc.
    destruct (lhc4_link_step_links x c) as (B' & Hstep & HlenB' & HleB' & Hlk); [lia|assumption|].
    eexists. split; [exact Hstep|]. cbn [LHC4.chain_pos LHC4.cH LHC4.cB]. split; [|lia].
    exists (Datatypes.S i). split; [lia|]. split; [f_equal; lia|].
    split; [assumption|]. split; [eapply tbl_le_trans; eauto|]. split; [lia|].
    intros k Hk. destruct (Nat.eq_dec k i) as [->|Hne].
    + rewrite HH in Hlk.
      replace (e - 4 * (Z.of_nat i + 1)) with (LHC4.chain_pos c) by lia. exact Hlk.
    + eapply lhc4_linked_mono; [exact HleB'|]. apply Hlinks. lia.
  - exists O. cbn [LHC4.chain_pos LHC4.cH LHC4.cB].
    split; [lia|]. split; [f_equal; lia|]. split; [assumption|].
    split; [apply tbl_le_refl|]. split; [lia|]. intros; lia.
  - cbn [LHC4.chain_pos]. lia.
  - exists c. split; [exact Hrun|]. split; [assumption|]. split; [assumption|].
    intros k Hk. apply Hlinks. injection Hexit as Hexit.
    destruct (Z.geb_spec (LHC4.chain_pos c) 3); [discriminate|]. lia.
Qed.

Lemma lhc4_chain_step_links x m s :
  Z.of_nat (length x) = m -> 3 <= m - LHC4.chain_no s -> 1 <= LHC4.chain_no s ->
  Z.of_nat (length (LHC4.pB s)) = 4096 ->
  exists H' B', LHC4.chain_step x m s = Ok (LHC4.mkPre (LHC4.chain_no s - 1) H' B') /\
    Z.of_nat (length B') = 4096 /\ tbl_le (LHC4.pB s) B' /\
    forall k : nat, 3 <= m - LHC4.chain_no s - 4 * (Z.of_nat k + 1) ->
      LHC4S.linked B' (LHC4S.chain x (m - LHC4.chain_no s - 4 * Z.of_nat k))
                   (LHC4S.chain x (m - LHC4.chain_no s - 4 * (Z.of_nat k + 1))).
Proof.
  intros Hlen He Hc HB. unfold LHC4.chain_step.
  rewrite lhc4_CHAIN_HASH_val by lia. cbn [bind].
  destruct (lhc4_chain_loop_links x m (m - LHC4.chain_no s) (LHC4.pB s) Hlen ltac:(lia) HB)
    as (c & Hrun & HlenB & Hle & Hlinks).
  change LHC4.Q with 4 in Hrun. change LHC4.Q with 4.
  rewrite Hrun. cbn [bind].
  exists (LHC4.cH c), (LHC4.cB c). split; [reflexivity|]. auto.
Qed.

(** The chains that the [start] guard leaves cover every pair of q-grams
    that are Q apart. *)
Lemma lhc4_chains x m B0 :
  Z.of_nat (length x) = m -> 4 <= m -> Z.of_nat (length B0) = 4096 ->
  exists s,
    while (Datatypes.S (Z.to_nat LHC4.Q)) (fun s => Ok (LHC4.chain_no s >=? 1))
          (LHC4.chain_step x m)
          (LHC4.mkPre (if m <? LHC4.Q2 then m - LHC4.END_FIRST_QGRAM else LHC4.Q) 0 B0) = Ok s /\
    Z.of_nat (length (LHC4.pB s)) = 4096 /\ tbl_le B0 (LHC4.pB s) /\
    forall p, 3 <= p -> p + 4 <= m - 1 ->
      LHC4S.linked (LHC4.pB s) (LHC4S.chain x (p + 4)) (LHC4S.chain x p).
Proof.
  intros Hlen Hm HB. change LHC4.Q with 4. change LHC4.Q2 with 8.
  change LHC4.END_FIRST_QGRAM with 3.
  set (start := if m <? 8 then m - 3 else 4).
  assert (Hstart : 1 <= start <= 4 /\ 3 <= m - start /\ (8 <= m -> start = 4)).
  { subst start. destruct (Z.ltb_spec m 8); lia. }
  destruct (while_total
    (fun s => 0 <= LHC4.chain_no s <= start /\ Z.of_nat (length (LHC4.pB s)) = 4096 /\
              tbl_le B0 (LHC4.pB s) /\
              forall c (k : nat), LHC4.chain_no s < c <= start ->
                3 <= m - c - 4 * (Z.of_nat k + 1) ->
                LHC4S.linked (LHC4.pB s) (LHC4S.chain x (m - c - 4 * Z.of_nat k))
                             (LHC4S.chain x (m - c - 4 * (Z.of_nat k + 1))))
    (fun s => Z.to_nat (LHC4.chain_no s))
    (fun s => Ok (LHC4.chain_no s >=? 1)) (LHC4.chain_step x m))
    with (fuel := Datatypes.S (Z.to_nat 4)) (s := LHC4.mkPre start 0 B0)
    as (s & Hrun & (Hc & HlenB & Hle & Hlinks) & Hexit).
  - intros s (Hc & HlenB & Hle & Hlinks).
    eexists. split; [reflexivity|]. intros Hcond. apply Z.geb_le in Hcond.
    destruct (lhc4_chain_step_links x m s Hlen ltac:(lia) ltac:(lia) HlenB)
      as (H' & B' & Hstep & HlenB' & HleB' & Hlk).
    eexists. split; [exact Hstep|]. cbn [LHC4.chain_no LHC4.pB]. split; [|lia].
    split; [lia|]. split; [assumption|]. split; [eapply tbl_le_trans; eauto|].
    intros c k Hck Hk. destruct (Z.eq_dec c (LHC4.chain_no s)) as [->|Hne].
    + now apply Hlk.
    + eapply lhc4_linked_mono; [exact HleB'|]. apply Hlinks; lia.
  - cbn [LHC4.chain_no LHC4.pB]. split; [lia|]. split; [assumption|].
    split; [apply tbl_le_refl|]. intros; lia.
  - cbn [LHC4.chain_no]. lia.
  - exists s. split; [exact Hrun|]. split; [assumption|]. split; [assumption|].
    injection Hexit as Hexit.
    destruct (Z.geb_spec (LHC4.chain_no s) 1); [discriminate|].
    intros p Hp Hp4.
    pose proof (Z.div_mod (m - p - 1) 4 ltac:(lia)) as Hdm.
    pose proof (Z.mod_pos_bound (m - p - 1) 4 ltac:(lia)) as Hmb.
    set (c := (m - p - 1) mod 4 + 1) in *.
    set (q := (m - p - 1) / 4) in *.
    assert (Hq : 1 <= q) by lia.
    specialize (Hlinks c (Z.to_nat (q - 1)) ltac:(lia) ltac:(lia)).
    replace (m - c - 4 * Z.of_nat (Z.to_nat (q - 1))) with (p + 4) in Hlinks by lia.
    replace (m - c - 4 * (Z.of_nat (Z.to_nat (q - 1)) + 1)) with p in Hlinks by lia.
    exact Hlinks.
Qed.

Lemma lhc4_LINK_HASH_pos H : 0 < LHC4.LINK_HASH H.
Proof.
  unfold LHC4.LINK_HASH. rewrite Z.shiftl_1_l.
  apply Z.pow_pos_nonneg; [lia|apply land31_range].
Qed.

Lemma lhc4_fill_step_nz x s :
  3 <= LHC4.fill_pos s < Z.of_nat (length x) ->
  Z.of_nat (length (LHC4.fB s)) = 4096 ->
  exists B', LHC4.fill_step x s = Ok (LHC4.mkFill (LHC4.fill_pos s + 1) B') /\
    Z.of_nat (length B') = 4096 /\ tbl_le (LHC4.fB s) B' /\
    word_at B' (Z.land (LHC4S.chain x (LHC4.fill_pos s)) LHC4.TABLE_MASK) <> 0.
Proof.
  intros Ha HB. unfold LHC4.fill_step.
  rewrite lhc4_CHAIN_HASH_val by lia. cbn [bind].
  pose proof (lhc4_mask_range (LHC4S.chain x (LHC4.fill_pos s))) as Hr.
  rewrite rdi_word by lia. cbn [bind].
  destruct (Z.eqb_spec (word_at (LHC4.fB s) (Z.land (LHC4S.chain x (LHC4.fill_pos s)) LHC4.TABLE_MASK)) 0)
    as [Hz|Hnz].
  - rewrite wri_Ok by lia. cbn [bind]. eexists. split; [reflexivity|].
    split; [rewrite length_upd; assumption|].
    split; [apply tbl_le_fill; [lia|assumption]|].
    rewrite word_at_upd_eq by lia.
    pose proof (lhc4_LINK_HASH_pos (u32 (Z.lnot (LHC4S.chain x (LHC4.fill_pos s))))). lia.
  - cbn [bind]. eexists. split; [reflexivity|]. split; [assumption|].
    split; [apply tbl_le_refl|assumption].
Qed.

Lemma lhc4_fill_loop_nz x m B0 :
  Z.of_nat (length x) = m -> 4 <= m -> Z.of_nat (length B0) = 4096 ->
  exists s,
    while (Datatypes.S (Z.to_nat LHC4.Q))
          (fun s => Ok (LHC4.fill_pos s <? Z.min m LHC4.END_SECOND_QGRAM))
          (LHC4.fill_step x) (LHC4.mkFill LHC4.END_FIRST_QGRAM B0) = Ok s /\
    Z.of_nat (length (LHC4.fB s)) = 4096 /\ tbl_le B0 (LHC4.fB s) /\
    forall p, 3 <= p < Z.min m 7 ->
      word_at (LHC4.fB s) (Z.land (LHC4S.chain x p) LHC4.TABLE_MASK) <> 0.
Proof.
  intros Hm Hm3 HB. change LHC4.END_SECOND_QGRAM with 7. change LHC4.END_FIRST_QGRAM with 3.
  change LHC4.Q with 4.
  destruct (while_total
    (fun s => 3 <= LHC4.fill_pos s /\ Z.of_nat (length (LHC4.fB s)) = 4096 /\
              tbl_le B0 (LHC4.fB s) /\
              forall p, 3 <= p < LHC4.fill_pos s ->
                word_at (LHC4.fB s) (Z.land (LHC4S.chain x p) LHC4.TABLE_MASK) <> 0)
    (fun s => Z.to_nat (7 - LHC4.fill_pos s))
    (fun s => Ok (LHC4.fill_pos s <? Z.min m 7)) (LHC4.fill_step x))
    with (fuel := Datatypes.S (Z.to_nat 4)) (s := LHC4.mkFill 3 B0)
    as (s & Hrun & (Hpos & Hlen & Hle & Hnz) & Hexit).
  - intros s (Hpos & Hlen & Hle & Hnz).
    eexists. split; [reflexivity|]. intros Hc. apply Z.ltb_lt in Hc.
    destruct (lhc4_fill_step_nz x s) as (B' & Hstep & HlenB' & HleB' & Hw); [lia|assumption|].
    eexists. split; [exact Hstep|]. cbn [LHC4.fill_pos LHC4.fB]. split; [|lia].
    split; [lia|]. split; [assumption|]. split; [eapply tbl_le_trans; eauto|].
    intros p Hp. destruct (Z.eq_dec p (LHC4.fill_pos s)) as [->|Hne]; [assumption|].
    eapply tbl_le_nonzero; [exact HleB'|]. apply Hnz. lia.
  - cbn [LHC4.fill_pos LHC4.fB]. split; [lia|]. split; [assumption|].
    split; [apply tbl_le_refl|]. intros; lia.
  - cbn [LHC4.fill_pos]. lia.
  - exists s. split; [exact Hrun|]. split; [assumption|]. split; [assumption|].
    injection Hexit as Hexit. apply Z.ltb_ge in Hexit.
    intros p Hp. apply Hnz. lia.
Qed.

(** For every [m >= Q] the preprocessing of lhc4 completes, and the table
    links every q-gram to the q-gram Q bytes to its left and has a non-empty
    word for every q-gram of the pattern. *)
Lemma lhc4_table x m B0 :
  Z.of_nat (length x) = m -> 4 <= m -> Z.of_nat (length B0) = 4096 ->
  exists H B, LHC4.preprocessing x m B0 = Ok (H, B) /\ lhc4_table_ok x m B.
Proof.
  intros Hlen Hm HB. unfold LHC4.preprocessing. cbv zeta.
  assert (HB' : Z.of_nat (length (map (fun _ : Z => 0) B0)) = 4096)
    by (rewrite length_map; assumption).
  destruct (lhc4_chains x m _ Hlen Hm HB') as (s1 & Hrun1 & Hlen1 & Hle1 & Hlinks).
  rewrite Hrun1. cbn [bind].
  destruct (lhc4_fill_loop_nz x m (LHC4.pB s1) Hlen Hm Hlen1) as (s2 & Hrun2 & Hlen2 & Hle2 & Hnz).
  rewrite Hrun2. cbn [bind].
  exists (LHC4.pH s1), (LHC4.fB s2). split; [reflexivity|]. split; [assumption|].
  assert (Hl2 : forall p, 3 <= p -> p + 4 <= m - 1 ->
                  LHC4S.linked (LHC4.fB s2) (LHC4S.chain x (p + 4)) (LHC4S.chain x p)).
  { intros p Hp Hp4. eapply lhc4_linked_mono; [exact Hle2|]. now apply Hlinks. }
  split; [exact Hl2|].
  intros p Hp. destruct (Z.lt_ge_cases p 7).
  - apply Hnz. lia.
  - specialize (Hl2 (p - 4) ltac:(lia) ltac:(lia)).
    replace (p - 4 + 4) with p in Hl2 by lia.
    unfold LHC4S.linked in Hl2. intros E. rewrite E, Z.testbit_0_l in Hl2. discriminate.
Qed.

(** The backward walk, down to any limit [sbp] that keeps it inside the
    window: when it fails, two q-grams of the window are not linked. *)
Lemma lhc4_walk_loop y B m sbp pos0 :
  Z.of_nat (length B) = 4096 -> 4 <= m -> m - 1 <= pos0 < Z.of_nat (length y) ->
  pos0 - m + 8 <= sbp ->
  exists w,
    LHC4.walk y B m sbp pos0 (LHC4S.chain y pos0)
              (word_at B (Z.land (LHC4S.chain y pos0) LHC4.TABLE_MASK)) = Ok w /\
    pos0 - m + 4 <= LHC4.wpos w <= pos0 /\
    (LHC4.failed w = true ->
       LHC4.wpos w + 4 <= pos0 /\
       ~ LHC4S.linked B (LHC4S.chain y (LHC4.wpos w + 4)) (LHC4S.chain y (LHC4.wpos w))).
Proof.
  intros HB Hm Hpos Hsbp. unfold LHC4.walk.
  destruct (while_total
    (fun w => pos0 - m + 4 <= LHC4.wpos w <= pos0 /\
       (LHC4.failed w = true ->
          LHC4.wpos w + 4 <= pos0 /\
          ~ LHC4S.linked B (LHC4S.chain y (LHC4.wpos w + 4)) (LHC4S.chain y (LHC4.wpos w))) /\
       (LHC4.failed w = false ->
          LHC4.wH w = LHC4S.chain y (LHC4.wpos w) /\
          LHC4.wV w = word_at B (Z.land (LHC4.wH w) LHC4.TABLE_MASK)))
    (fun w => Z.to_nat (LHC4.wpos w - (pos0 - m)))
    (fun w => Ok (negb (LHC4.failed w) && (LHC4.wpos w >=? sbp)))
    (LHC4.walk_step y B))
    with (fuel := Datatypes.S (Z.to_nat m))
         (s := LHC4.mkWalk pos0 (LHC4S.chain y pos0)
                 (word_at B (Z.land (LHC4S.chain y pos0) LHC4.TABLE_MASK)) false)
    as (w & Hrun & (Hwp & Hfail & Hok) & Hexit).
  - intros w (Hwp & Hfail & Hok).
    eexists. split; [reflexivity|]. intros Hc.
    apply andb_true_iff in Hc. destruct Hc as (Hnf & Hge).
    apply negb_true_iff in Hnf. apply Z.geb_le in Hge.
    destruct (Hok Hnf) as (HwH & HwV).
    unfold LHC4.walk_step. cbv zeta. change LHC4.Q with 4.
    rewrite lhc4_CHAIN_HASH_val by lia. cbn [bind].
    unfold LHC4.LINK_HASH. rewrite land_fp_zero.
    destruct (Z.testbit (LHC4.wV w) (Z.land (LHC4S.chain y (LHC4.wpos w - 4)) 31)) eqn:Ebit;
      cbn [negb].
    + pose proof (lhc4_mask_range (LHC4S.chain y (LHC4.wpos w - 4))) as Hr.
      rewrite rdi_word by lia. cbn [bind].
      eexists. split; [reflexivity|]. cbn [LHC4.wpos LHC4.wH LHC4.wV LHC4.failed].
      split; [|lia]. split; [lia|]. split; [discriminate|]. intros _. split; reflexivity.
    + eexists. split; [reflexivity|]. cbn [LHC4.wpos LHC4.wH LHC4.wV LHC4.failed].
      split; [|lia]. split; [lia|]. split; [|discriminate]. intros _. split; [lia|].
      unfold LHC4S.linked. replace (LHC4.wpos w - 4 + 4) with (LHC4.wpos w) by lia.
      rewrite <- HwH, <- HwV, Ebit. discriminate.
  - cbn [LHC4.wpos LHC4.wH LHC4.wV LHC4.failed]. split; [lia|].
    split; [discriminate|]. intros _. split; reflexivity.
  - cbn [LHC4.wpos]. lia.
  - exists w. split; [exact Hrun|]. split; [assumption|]. assumption.
Qed.

Lemma lhc4_chain_occ x m y i p :
  (forall k, 0 <= k < m -> byte_at y (i + k) = byte_at x k) ->
  3 <= p < m -> LHC4S.chain y (i + p) = LHC4S.chain x p.
Proof.
  intros Hb Hp. unfold LHC4S.chain.
  rewrite (bv_byte_at x y (i + p) p) by (apply Hb; lia).
  replace (i + p - 1) with (i + (p - 1)) by lia.
  replace (i + p - 2) with (i + (p - 2)) by lia.
  replace (i + p - 3) with (i + (p - 3)) by lia.
  rewrite (bv_byte_at x y (i + (p - 1)) (p - 1)) by (apply Hb; lia).
  rewrite (bv_byte_at x y (i + (p - 2)) (p - 2)) by (apply Hb; lia).
  rewrite (bv_byte_at x y (i + (p - 3)) (p - 3)) by (apply Hb; lia).
  reflexivity.
Qed.

Lemma lhc4_empty_probe_no_occ x m y B p i :
  Z.of_nat (length x) = m -> 4 <= m -> lhc4_table_ok x m B ->
  word_at B (Z.land (LHC4S.chain y p) LHC4.TABLE_MASK) = 0 ->
  0 <= i -> i + 3 <= p <= i + m - 1 -> occ_at x m y i = false.
Proof.
  intros Hlen Hm (HB & Hlinks & Hnz) Hz Hi Hp.
  destruct (occ_at x m y i) eqn:Eocc; [|reflexivity]. exfalso.
  apply occ_at_bytes in Eocc; try lia. destruct Eocc as (_ & Hbytes).
  apply (Hnz (p - i)); [lia|].
  rewrite <- (lhc4_chain_occ x m y i) by (try assumption; lia).
  replace (i + (p - i)) with p by lia. exact Hz.
Qed.

Lemma lhc4_unlinked_no_occ x m y B w i :
  Z.of_nat (length x) = m -> 4 <= m -> lhc4_table_ok x m B ->
  ~ LHC4S.linked B (LHC4S.chain y (w + 4)) (LHC4S.chain y w) ->
  0 <= i -> i + 3 <= w -> w + 4 <= i + m - 1 -> occ_at x m y i = false.
Proof.
  intros Hlen Hm (HB & Hlinks & Hnz) Hnl Hi Hw Hw3.
  destruct (occ_at x m y i) eqn:Eocc; [|reflexivity]. exfalso.
  apply occ_at_bytes in Eocc; try lia. destruct Eocc as (_ & Hbytes).
  apply Hnl.
  replace (w + 4) with (i + (w - i + 4)) by lia.
  replace w with (i + (w - i)) at 2 by lia.
  rewrite !(lhc4_chain_occ x m y i) by (try assumption; lia).
  apply Hlinks; lia.
Qed.

Lemma lhc4_scan_step_cases x m y n B K s :
  Z.of_nat (length x) = m -> Z.of_nat (length y) = n -> 4 <= m ->
  lhc4_table_ok x m B -> kmp_table_ok x m K ->
  lhc4_count_inv x m y s -> LHC4.pos s < n ->
  (exists s', LHC4.scan_step x m y n B K s = Ok s' /\
              LHC4.pos s + 1 <= LHC4.pos s' /\ lhc4_count_inv x m y s') \/
  (LHC4.scan_step x m y n B K s = Fault /\ INT_MAX < n + m).
Proof.
  intros Hlen Hn Hm Hok HK (Hrm & Hpos & Hcount & Hc & Hv) Hlt.
  pose proof Hv as (Hvpp & Hvle & _). cbn [KMP.pattern_pos KMP.next_verify_pos] in Hvpp, Hvle.
  pose proof Hok as (HB & _).
  set (pos0 := LHC4.pos s) in *.
  assert (Hskip : forall newpos,
             pos0 + 1 <= newpos ->
             (forall i, pos0 - m + 1 <= i < newpos - m + 1 -> occ_at x m y i = false) ->
             LHC4.count s = count_below x m y (Z.to_nat (newpos - m + 1))).
  { intros newpos Hnp Hnone. rewrite Hcount. symmetry. apply count_below_none; [lia|].
    intros i Hi. apply Hnone. lia. }
  unfold LHC4.scan_step. cbv zeta. fold pos0. change LHC4.Q with 4.
  rewrite lhc4_CHAIN_HASH_val by lia. cbn [bind].
  pose proof (lhc4_mask_range (LHC4S.chain y pos0)) as Hr.
  rewrite rdi_word by lia. cbn [bind].
  destruct (Z.eqb_spec (word_at B (Z.land (LHC4S.chain y pos0) LHC4.TABLE_MASK)) 0) as [Hz|Hnz0].
  - int_or_overflow.
    left. eexists. split; [reflexivity|]. unfold lhc4_count_inv.
    cbn [LHC4.pos LHC4.count LHC4.kmp_pattern_pos LHC4.kmp_next_verify_pos
         LHC4.rightmost_match_pos].
    split; [lia|]. split; [lia|]. split; [lia|]. split; [|split; [lia|assumption]].
    apply Hskip; [lia|]. intros i Hi.
    apply (lhc4_empty_probe_no_occ x m y B pos0 i); auto; lia.
  - int_or_overflow.
    destruct (lhc4_walk_loop y B m
                (Z.max (pos0 - m + 4) (LHC4.rightmost_match_pos s) + 4) pos0
                HB Hm ltac:(lia) ltac:(lia))
      as (w & Hwalk & Hwp & Hfail).
    rewrite Hwalk. cbn [bind].
    destruct (LHC4.failed w) eqn:Ef.
    + destruct (Hfail eq_refl) as (Hw3 & Hnl).
      int_or_overflow.
      left. eexists. split; [reflexivity|]. unfold lhc4_count_inv.
      cbn [LHC4.pos LHC4.count LHC4.kmp_pattern_pos LHC4.kmp_next_verify_pos
           LHC4.rightmost_match_pos].
      split; [lia|]. split; [lia|]. split; [lia|]. split; [|split; [lia|assumption]].
      apply Hskip; [lia|]. intros i Hi.
      apply (lhc4_unlinked_no_occ x m y B (LHC4.wpos w) i); auto; lia.
    + set (ws := pos0 - m + 4 - 4 + 1).
      set (k0 := KMP.restart ws (KMP.mkKmp (LHC4.kmp_pattern_pos s) (LHC4.kmp_next_verify_pos s)
                                   (LHC4.count s))).
      assert (Hk0 : kmp_vinv x m y k0).
      { subst k0. unfold KMP.restart. cbn [KMP.next_verify_pos KMP.kcount].
        destruct (ws >? LHC4.kmp_next_verify_pos s); [|assumption].
        unfold kmp_vinv. cbn [KMP.pattern_pos KMP.next_verify_pos KMP.kcount].
        split; [lia|]. split; [subst ws; lia|]. split; [intros i Hi; lia|].
        rewrite Hcount. f_equal. subst ws. lia. }
      destruct (kmp_verify_spec x m y n K ws k0 Hlen Hn HK ltac:(subst ws; lia)
                                ltac:(subst ws; lia) Hk0)
        as (k & Hver & Hkinv & Hka & Hkn).
      assert (Hk0n : KMP.next_verify_pos k0 <= n).
      { subst k0. unfold KMP.restart. cbn [KMP.next_verify_pos KMP.kcount].
        destruct (ws >? LHC4.kmp_next_verify_pos s);
          cbn [KMP.next_verify_pos]; subst ws; lia. }
      specialize (Hkn Hk0n).
      pose proof Hkinv as (Hk1 & Hk2 & Hk3 & Hk4).
      rewrite Hver. cbn [bind]. int_or_overflow. int_or_overflow.
      left. eexists. split; [reflexivity|]. unfold lhc4_count_inv.
      cbn [LHC4.pos LHC4.count LHC4.kmp_pattern_pos LHC4.kmp_next_verify_pos
           LHC4.rightmost_match_pos].
      split; [subst ws; lia|]. split; [subst ws; lia|]. split; [subst ws; lia|].
      split; [rewrite Hk4; f_equal; lia|]. split; [lia|].
      destruct k as [kp kn kc]. exact Hkinv.
Qed.

Lemma lhc4_scan_step_count x m y n B K s :
  Z.of_nat (length x) = m -> Z.of_nat (length y) = n -> 4 <= m ->
  n + m <= INT_MAX ->
  lhc4_table_ok x m B -> kmp_table_ok x m K ->
  lhc4_count_inv x m y s -> LHC4.pos s < n ->
  exists s', LHC4.scan_step x m y n B K s = Ok s' /\
             LHC4.pos s + 1 <= LHC4.pos s' /\ lhc4_count_inv x m y s'.
Proof.
  intros Hlen Hn Hm Hint Hok HK Hinv Hlt.
  destruct (lhc4_scan_step_cases x m y n B K s Hlen Hn Hm Hok HK Hinv Hlt)
    as [Hs|(_ & Hfar)]; [exact Hs|lia].
Qed.

(** Without a bound on the input: an iteration that returns keeps the
    invariant of the main loop. *)
Lemma lhc4_scan_step_inv x m y n B K s s' :
  Z.of_nat (length x) = m -> Z.of_nat (length y) = n -> 4 <= m ->
  lhc4_table_ok x m B -> kmp_table_ok x m K ->
  lhc4_count_inv x m y s -> LHC4.pos s < n ->
  LHC4.scan_step x m y n B K s = Ok s' ->
  LHC4.pos s + 1 <= LHC4.pos s' /\ lhc4_count_inv x m y s'.
Proof.
  intros Hlen Hn Hm Hok HK Hinv Hlt Hrun.
  destruct (lhc4_scan_step_cases x m y n B K s Hlen Hn Hm Hok HK Hinv Hlt)
    as [(s1 & Hs1 & Hadv & Hinv1)|(Hf & _)].
  - rewrite Hrun in Hs1. injection Hs1 as <-. auto.
  - rewrite Hrun in Hf. discriminate.
Qed.

(** For every [m >= Q], [search] of lhc4 returns the number of occurrences. *)
Lemma lhc4_search_count x m y n :
  Z.of_nat (length x) = m -> Z.of_nat (length y) = n -> 4 <= m ->
  n + m <= INT_MAX ->
  LHC4.search x m y n = Ok (occurrences x m y n).
Proof.
  intros Hlen Hn Hm Hint. unfold LHC4.search.
  destruct (Z.ltb_spec m LHC4.Q) as [Hlt|_]; [change LHC4.Q with 4 in Hlt; lia|].
  cbv zeta.
  destruct (lhc4_table x m (repeat 0 (Z.to_nat LHC4.ASIZE)) Hlen Hm) as (H & B & Hpre & Hok).
  { rewrite repeat_length. reflexivity. }
  rewrite Hpre. cbn [bind].
  destruct (kmp_table_strong x m (repeat 0 (Z.to_nat (m + 1))) Hlen) as (K & HK & HKok).
  { rewrite repeat_length. lia. }
  unfold LHC4.pre_kmp. rewrite HK. cbn [bind]. unfold LHC4.scan.
  destruct (while_total (lhc4_count_inv x m y) (fun s => Z.to_nat (n - LHC4.pos s))
                        (fun s => Ok (LHC4.pos s <? n)) (LHC4.scan_step x m y n B K))
    with (fuel := Datatypes.S (Z.to_nat n)) (s := LHC4.mkScan (m - 1) 0 0 0 0)
    as (s & Hrun & (_ & Hpos & Hcount & _) & Hexit).
  - intros s Hinv. eexists. split; [reflexivity|]. intros Hc. apply Z.ltb_lt in Hc.
    destruct (lhc4_scan_step_count x m y n B K s Hlen Hn Hm Hint Hok HKok Hinv Hc)
      as (s' & Hs' & Hadv & Hinv').
    exists s'. split; [assumption|]. split; [assumption|]. lia.
  - unfold lhc4_count_inv, kmp_vinv.
    cbn [LHC4.pos LHC4.count LHC4.kmp_pattern_pos LHC4.kmp_next_verify_pos
         LHC4.rightmost_match_pos KMP.pattern_pos KMP.next_verify_pos KMP.kcount].
    replace (Z.to_nat (m - 1 - m + 1)) with O by lia.
    split; [lia|]. split; [lia|]. split; [reflexivity|]. split; [lia|]. split; [lia|]. split; [lia|].
    split; [intros i Hi; lia|reflexivity].
  - cbn [LHC4.pos]. lia.
  - rewrite Hrun. cbn [bind]. f_equal. rewrite Hcount. unfold occurrences.
    injection Hexit as Hexit. apply Z.ltb_ge in Hexit.
    apply count_below_none; [lia|].
    intros i Hi. apply occ_at_out; try assumption; lia.
Qed.

(** ** shc2-1: the table and the count, for patterns of length at least 2Q - 1 *)

Lemma shc2_CHAIN_HASH_val x p :
  1 <= p < Z.of_nat (length x) -> SHC2.CHAIN_HASH x p = Ok (SHC2S.chain x p).
Proof.
  intros Hp. unfold SHC2.CHAIN_HASH, SHC2.HASH, SHC2S.chain.
  rewrite !rd_bv by lia. reflexivity.
Qed.

Lemma shc2_mask_range H : 0 <= Z.land H SHC2.TABLE_MASK < 2048.
Proof. exact (land_mask_range H 11 ltac:(lia)). Qed.

Lemma shc2_linked_mono B B' h h' :
  tbl_le B B' -> SHC2S.linked B h h' -> SHC2S.linked B' h h'.
Proof. intros Hle Hl. unfold SHC2S.linked in *. eapply tbl_le_bit; eauto. Qed.

Lemma shc2_link_step x s :
  1 <= SHC2.chain_pos s < Z.of_nat (length x) ->
  Z.of_nat (length (SHC2.cB s)) = 2048 ->
  exists B', SHC2.link_step x s
             = Ok (SHC2.mkChain (SHC2.chain_pos s - 2) (SHC2S.chain x (SHC2.chain_pos s)) B') /\
             Z.of_nat (length B') = 2048 /\ tbl_le (SHC2.cB s) B' /\
             SHC2S.linked B' (SHC2.cH s) (SHC2S.chain x (SHC2.chain_pos s)).
Proof.
  intros Hp HB. unfold SHC2.link_step.
  rewrite shc2_CHAIN_HASH_val by assumption. cbn [bind].
  pose proof (shc2_mask_range (SHC2.cH s)) as Hr.
  rewrite rdi_word by lia. cbn [bind].
  rewrite wri_Ok by lia. cbn [bind].
  eexists. split; [reflexivity|].
  split; [rewrite length_upd; assumption|].
  split; [apply tbl_le_lor; lia|].
  unfold SHC2S.linked. rewrite word_at_upd_eq by lia.
  rewrite Z.lor_spec. unfold SHC2.FINGERPRINT.
  rewrite fp_testbit by apply land31_range.
  rewrite Z.eqb_refl. apply orb_true_r.
Qed.

(** One chain: from the q-gram that ends at [e], every q-gram [Q] further
    left is recorded in the word of its right neighbour; the hash left in
    [H] is that of the leftmost q-gram of the chain. *)
Lemma shc2_chain_loop x m e B0 :
  Z.of_nat (length x) = m -> 1 <= e < m -> Z.of_nat (length B0) = 2048 ->
  exists c (i : nat),
    while (Datatypes.S (Z.to_nat m))
          (fun c => Ok (SHC2.chain_pos c >=? SHC2.END_FIRST_QGRAM))
          (SHC2.link_step x) (SHC2.mkChain (e - SHC2.Q) (SHC2S.chain x e) B0) = Ok c /\
    Z.of_nat (length (SHC2.cB c)) = 2048 /\ tbl_le B0 (SHC2.cB c) /\
    SHC2.cH c = SHC2S.chain x (e - 2 * Z.of_nat i) /\ 1 <= e - 2 * Z.of_nat i < 3 /\
    forall k : nat, 1 <= e - 2 * (Z.of_nat k + 1) ->
      SHC2S.linked (SHC2.cB c) (SHC2S.chain x (e - 2 * Z.of_nat k))
                   (SHC2S.chain x (e - 2 * (Z.of_nat k + 1))).
Proof.
  intros Hlen He HB. change SHC2.Q with 2. change SHC2.END_FIRST_QGRAM with 1.
  destruct (while_total
    (fun c => exists i : nat,
       SHC2.chain_pos c = e - 2 - 2 * Z.of_nat i /\
       SHC2.cH c = SHC2S.chain x (e - 2 * Z.of_nat i) /\
       Z.of_nat (length (SHC2.cB c)) = 2048 /\ tbl_le B0 (SHC2.cB c) /\
       -1 <= SHC2.chain_pos c /\
       forall k : nat, (k < i)%nat ->
         SHC2S.linked (SHC2.cB c) (SHC2S.chain x (e - 2 * Z.of_nat k))
                      (SHC2S.chain x (e - 2 * (Z.of_nat k + 1))))
    (fun c => Z.to_nat (SHC2.chain_pos c + 1))
    (fun c => Ok (SHC2.chain_pos c >=? 1)) (SHC2.link_step x))
    with (fuel := Datatypes.S (Z.to_nat m)) (s := SHC2.mkChain (e - 2) (SHC2S.chain x e) B0)
    as (c & Hrun & (i & Hpos & HH & HlenB & Hle & Hlow & Hlinks) & Hexit).
  - intros c (i & Hpos & HH & HlenB & Hle & Hlow & Hlinks).
    eexists. split; [reflexivity|]. intros Hc. apply Z.geb_le in Hc.
    destruct (shc2_link_step x c) as (B' & Hstep & HlenB' & HleB' & Hlk); [lia|assumption|].
    eexists. split; [exact Hstep|]. cbn [SHC2.chain_pos SHC2.cH SHC2.cB]. split; [|lia].
    exists (Datatypes.S i). split; [lia|]. split; [f_equal; lia|].
    split; [assumption|]. split; [eapply tbl_le_trans; eauto|]. split; [lia|].
    intros k Hk. destruct (Nat.eq_dec k i) as [->|Hne].
    + rewrite HH in Hlk.
      replace (e - 2 * (Z.of_nat i + 1)) with (SHC2.chain_pos c) by lia. exact Hlk.
    + eapply shc2_linked_mono; [exact HleB'|]. apply Hlinks. lia.
  - exists O. cbn [SHC2.chain_pos SHC2.cH SHC2.cB].
    split; [lia|]. split; [f_equal; lia|]. split; [assumption|].
    split; [apply tbl_le_refl|]. split; [lia|]. intros; lia.
  - cbn [SHC2.chain_pos]. lia.
  - injection Hexit as Hexit.
    destruct (Z.geb_spec (SHC2.chain_pos c) 1); [discriminate|].
    exists c, i. split; [exact Hrun|]. split; [assumption|]. split; [assumption|].
    split; [assumption|]. split; [lia|].
    intros k Hk. apply Hlinks. lia.
Qed.

Lemma shc2_chain_step x m s :
  Z.of_nat (length x) = m -> 1 <= m - SHC2.chain_no s -> 1 <= SHC2.chain_no s ->
  Z.of_nat (length (SHC2.pB s)) = 2048 ->
  exists (i : nat) B',
    SHC2.chain_step x m s
    = Ok (SHC2.mkPre (SHC2.chain_no s - 1)
                     (SHC2S.chain x (m - SHC2.chain_no s - 2 * Z.of_nat i)) B') /\
    1 <= m - SHC2.chain_no s - 2 * Z.of_nat i < 3 /\
    Z.of_nat (length B') = 2048 /\ tbl_le (SHC2.pB s) B' /\
    forall k : nat, 1 <= m - SHC2.chain_no s - 2 * (Z.of_nat k + 1) ->
      SHC2S.linked B' (SHC2S.chain x (m - SHC2.chain_no s - 2 * Z.of_nat k))
                   (SHC2S.chain x (m - SHC2.chain_no s - 2 * (Z.of_nat k + 1))).
Proof.
  intros Hlen He Hc HB. unfold SHC2.chain_step.
  rewrite shc2_CHAIN_HASH_val by lia. cbn [bind].
  destruct (shc2_chain_loop x m (m - SHC2.chain_no s) (SHC2.pB s) Hlen ltac:(lia) HB)
    as (c & i & Hrun & HlenB & Hle & HH & Hi & Hlinks).
  change SHC2.Q with 2 in Hrun. change SHC2.Q with 2.
  rewrite Hrun. cbn [bind]. rewrite HH.
  exists i, (SHC2.cB c). split; [reflexivity|]. auto.
Qed.

(** The Q chains together cover every pair of q-grams that are Q apart. *)
Lemma shc2_chains x m B0 :
  Z.of_nat (length x) = m -> 3 <= m -> Z.of_nat (length B0) = 2048 ->
  exists s,
    while (Datatypes.S (Z.to_nat SHC2.Q)) (fun s => Ok (SHC2.chain_no s >=? 1))
          (SHC2.chain_step x m) (SHC2.mkPre SHC2.Q 0 B0) = Ok s /\
    Z.of_nat (length (SHC2.pB s)) = 2048 /\ tbl_le B0 (SHC2.pB s) /\
    (exists k : nat, SHC2.pH s = SHC2S.chain x (m - 1 - 2 * Z.of_nat k) /\
                     1 <= m - 1 - 2 * Z.of_nat k < 3) /\
    forall p, 1 <= p -> p + 2 <= m - 1 ->
      SHC2S.linked (SHC2.pB s) (SHC2S.chain x (p + 2)) (SHC2S.chain x p).
Proof.
  intros Hlen Hm HB. change SHC2.Q with 2.
  destruct (while_total
    (fun s => 0 <= SHC2.chain_no s <= 2 /\ Z.of_nat (length (SHC2.pB s)) = 2048 /\
              tbl_le B0 (SHC2.pB s) /\
              (SHC2.chain_no s < 2 ->
                 exists k : nat,
                   SHC2.pH s = SHC2S.chain x (m - (SHC2.chain_no s + 1) - 2 * Z.of_nat k) /\
                   1 <= m - (SHC2.chain_no s + 1) - 2 * Z.of_nat k < 3) /\
              forall c (k : nat), SHC2.chain_no s < c <= 2 ->
                1 <= m - c - 2 * (Z.of_nat k + 1) ->
                SHC2S.linked (SHC2.pB s) (SHC2S.chain x (m - c - 2 * Z.of_nat k))
                             (SHC2S.chain x (m - c - 2 * (Z.of_nat k + 1))))
    (fun s => Z.to_nat (SHC2.chain_no s))
    (fun s => Ok (SHC2.chain_no s >=? 1)) (SHC2.chain_step x m))
    with (fuel := Datatypes.S (Z.to_nat 2)) (s := SHC2.mkPre 2 0 B0)
    as (s & Hrun & (Hc & HlenB & Hle & HH & Hlinks) & Hexit).
  - intros s (Hc & HlenB & Hle & HH & Hlinks).
    eexists. split; [reflexivity|]. intros Hcond. apply Z.geb_le in Hcond.
    destruct (shc2_chain_step x m s Hlen ltac:(lia) ltac:(lia) HlenB)
      as (i & B' & Hstep & Hi & HlenB' & HleB' & Hlk).
    eexists. split; [exact Hstep|]. cbn [SHC2.chain_no SHC2.pB SHC2.pH]. split; [|lia].
    split; [lia|]. split; [assumption|]. split; [eapply tbl_le_trans; eauto|].
    split.
    + intros _. exists i.
      replace (m - (SHC2.chain_no s - 1 + 1) - 2 * Z.of_nat i)
        with (m - SHC2.chain_no s - 2 * Z.of_nat i) by lia.
      split; [reflexivity|assumption].
    + intros c k Hck Hk. destruct (Z.eq_dec c (SHC2.chain_no s)) as [->|Hne].
      * now apply Hlk.
      * eapply shc2_linked_mono; [exact HleB'|]. apply Hlinks; lia.
  - cbn [SHC2.chain_no SHC2.pB SHC2.pH]. split; [lia|]. split; [assumption|].
    split; [apply tbl_le_refl|]. split; intros; lia.
  - cbn [SHC2.chain_no]. lia.
  - injection Hexit as Hexit.
    destruct (Z.geb_spec (SHC2.chain_no s) 1); [discriminate|].
    exists s. split; [exact Hrun|]. split; [assumption|]. split; [assumption|].
    split.
    + destruct (HH ltac:(lia)) as (k & Hk & Hr). exists k.
      replace (SHC2.chain_no s) with 0 in * by lia.
      replace (m - 1 - 2 * Z.of_nat k) with (m - (0 + 1) - 2 * Z.of_nat k) by lia.
      split; assumption.
    + intros p Hp Hp2.
      pose proof (Z.div_mod (m - p - 1) 2 ltac:(lia)) as Hdm.
      pose proof (Z.mod_pos_bound (m - p - 1) 2 ltac:(lia)) as Hmb.
      set (c := (m - p - 1) mod 2 + 1) in *.
      set (q := (m - p - 1) / 2) in *.
      assert (Hq : 1 <= q) by lia.
      specialize (Hlinks c (Z.to_nat (q - 1)) ltac:(lia) ltac:(lia)).
      replace (m - c - 2 * Z.of_nat (Z.to_nat (q - 1))) with (p + 2) in Hlinks by lia.
      replace (m - c - 2 * (Z.of_nat (Z.to_nat (q - 1)) + 1)) with p in Hlinks by lia.
      exact Hlinks.
Qed.

Lemma shc2_FINGERPRINT_pos H : 0 < SHC2.FINGERPRINT H.
Proof.
  unfold SHC2.FINGERPRINT. rewrite Z.shiftl_1_l.
  apply Z.pow_pos_nonneg; [lia|apply land31_range].
Qed.

Lemma shc2_fill_step x s :
  1 <= SHC2.fill_pos s < Z.of_nat (length x) ->
  Z.of_nat (length (SHC2.fB s)) = 2048 ->
  exists B', SHC2.fill_step x s = Ok (SHC2.mkFill (SHC2.fill_pos s + 1) B') /\
    Z.of_nat (length B') = 2048 /\ tbl_le (SHC2.fB s) B' /\
    word_at B' (Z.land (SHC2S.chain x (SHC2.fill_pos s)) SHC2.TABLE_MASK) <> 0.
Proof.
  intros Ha HB. unfold SHC2.fill_step.
  rewrite shc2_CHAIN_HASH_val by lia. cbn [bind].
  pose proof (shc2_mask_range (SHC2S.chain x (SHC2.fill_pos s))) as Hr.
  rewrite rdi_word by lia. cbn [bind].
  destruct (Z.eqb_spec (word_at (SHC2.fB s) (Z.land (SHC2S.chain x (SHC2.fill_pos s)) SHC2.TABLE_MASK)) 0)
    as [Hz|Hnz].
  - rewrite wri_Ok by lia. cbn [bind]. eexists. split; [reflexivity|].
    split; [rewrite length_upd; assumption|].
    split; [apply tbl_le_fill; [lia|assumption]|].
    rewrite word_at_upd_eq by lia.
    pose proof (shc2_FINGERPRINT_pos (u32 (Z.lnot (SHC2S.chain x (SHC2.fill_pos s))))). lia.
  - cbn [bind]. eexists. split; [reflexivity|]. split; [assumption|].
    split; [apply tbl_le_refl|assumption].
Qed.

Lemma shc2_fill_loop x m B0 :
  Z.of_nat (length x) = m -> 2 <= m -> Z.of_nat (length B0) = 2048 ->
  exists s,
    while (Datatypes.S (Z.to_nat SHC2.Q))
          (fun s => Ok (SHC2.fill_pos s <? Z.min m SHC2.END_SECOND_QGRAM))
          (SHC2.fill_step x) (SHC2.mkFill SHC2.END_FIRST_QGRAM B0) = Ok s /\
    Z.of_nat (length (SHC2.fB s)) = 2048 /\ tbl_le B0 (SHC2.fB s) /\
    forall p, 1 <= p < Z.min m 3 ->
      word_at (SHC2.fB s) (Z.land (SHC2S.chain x p) SHC2.TABLE_MASK) <> 0.
Proof.
  intros Hm Hm2 HB. change SHC2.END_SECOND_QGRAM with 3. change SHC2.END_FIRST_QGRAM with 1.
  change SHC2.Q with 2.
  destruct (while_total
    (fun s => 1 <= SHC2.fill_pos s /\ Z.of_nat (length (SHC2.fB s)) = 2048 /\
              tbl_le B0 (SHC2.fB s) /\
              forall p, 1 <= p < SHC2.fill_pos s ->
                word_at (SHC2.fB s) (Z.land (SHC2S.chain x p) SHC2.TABLE_MASK) <> 0)
    (fun s => Z.to_nat (3 - SHC2.fill_pos s))
    (fun s => Ok (SHC2.fill_pos s <? Z.min m 3)) (SHC2.fill_step x))
    with (fuel := Datatypes.S (Z.to_nat 2)) (s := SHC2.mkFill 1 B0)
    as (s & Hrun & (Hpos & Hlen & Hle & Hnz) & Hexit).
  - intros s (Hpos & Hlen & Hle & Hnz).
    eexists. split; [reflexivity|]. intros Hc. apply Z.ltb_lt in Hc.
    destruct (shc2_fill_step x s) as (B' & Hstep & HlenB' & HleB' & Hw); [lia|assumption|].
    eexists. split; [exact Hstep|]. cbn [SHC2.fill_pos SHC2.fB]. split; [|lia].
    split; [lia|]. split; [assumption|]. split; [eapply tbl_le_trans; eauto|].
    intros p Hp. destruct (Z.eq_dec p (SHC2.fill_pos s)) as [->|Hne]; [assumption|].
    eapply tbl_le_nonzero; [exact HleB'|]. apply Hnz. lia.
  - cbn [SHC2.fill_pos SHC2.fB]. split; [lia|]. split; [assumption|].
    split; [apply tbl_le_refl|]. intros; lia.
  - cbn [SHC2.fill_pos]. lia.
  - exists s. split; [exact Hrun|]. split; [assumption|]. split; [assumption|].
    injection Hexit as Hexit. apply Z.ltb_ge in Hexit.
    intros p Hp. apply Hnz. lia.
Qed.

(** For [m >= 2Q - 1] the preprocessing of shc2-1 completes; the table links
    every q-gram to the q-gram Q bytes to its left, has a non-empty word for
    every q-gram of the pattern, and the value returned is the hash of the
    leftmost q-gram of the last chain. *)
Lemma shc2_table x m B0 :
  Z.of_nat (length x) = m -> 3 <= m -> Z.of_nat (length B0) = 2048 ->
  exists H B, SHC2.preprocessing x m B0 = Ok (H, B) /\ shc2_table_ok x m B H.
Proof.
  intros Hlen Hm HB. unfold SHC2.preprocessing. cbv zeta.
  assert (HB' : Z.of_nat (length (map (fun _ : Z => 0) B0)) = 2048)
    by (rewrite length_map; assumption).
  destruct (shc2_chains x m _ Hlen Hm HB') as (s1 & Hrun1 & Hlen1 & Hle1 & HH & Hlinks).
  rewrite Hrun1. cbn [bind].
  destruct (shc2_fill_loop x m (SHC2.pB s1) Hlen ltac:(lia) Hlen1)
    as (s2 & Hrun2 & Hlen2 & Hle2 & Hnz).
  rewrite Hrun2. cbn [bind].
  exists (SHC2.pH s1), (SHC2.fB s2). split; [reflexivity|]. split; [assumption|].
  assert (Hl2 : forall p, 1 <= p -> p + 2 <= m - 1 ->
                  SHC2S.linked (SHC2.fB s2) (SHC2S.chain x (p + 2)) (SHC2S.chain x p)).
  { intros p Hp Hp2. eapply shc2_linked_mono; [exact Hle2|]. now apply Hlinks. }
  split; [exact Hl2|]. split; [|exact HH].
  intros p Hp. destruct (Z.lt_ge_cases p 3).
  - apply Hnz. lia.
  - specialize (Hl2 (p - 2) ltac:(lia) ltac:(lia)).
    replace (p - 2 + 2) with p in Hl2 by lia.
    unfold SHC2S.linked in Hl2. intros E. rewrite E, Z.testbit_0_l in Hl2. discriminate.
Qed.

Lemma shc2_chain_occ x m y i p :
  (forall k, 0 <= k < m -> byte_at y (i + k) = byte_at x k) ->
  1 <= p < m -> SHC2S.chain y (i + p) = SHC2S.chain x p.
Proof.
  intros Hb Hp. unfold SHC2S.chain.
  rewrite (bv_byte_at x y (i + p) p) by (apply Hb; lia).
  replace (i + p - 1) with (i + (p - 1)) by lia.
  rewrite (bv_byte_at x y (i + (p - 1)) (p - 1)) by (apply Hb; lia).
  reflexivity.
Qed.

(** The backward walk: when it fails, two q-grams of the window are not
    linked; when it does not, it ends on the leftmost q-gram of its chain
    with the hash of that q-gram in [H]. *)
Lemma shc2_walk_loop y B m pos0 :
  Z.of_nat (length B) = 2048 -> 2 <= m -> m - 1 <= pos0 < Z.of_nat (length y) ->
  exists w,
    SHC2.walk y B m pos0 (SHC2S.chain y pos0)
              (word_at B (Z.land (SHC2S.chain y pos0) SHC2.TABLE_MASK)) = Ok w /\
    pos0 - m + 2 <= SHC2.wpos w <= pos0 /\
    (SHC2.failed w = true ->
       SHC2.wpos w + 2 <= pos0 /\
       ~ SHC2S.linked B (SHC2S.chain y (SHC2.wpos w + 2)) (SHC2S.chain y (SHC2.wpos w))) /\
    (SHC2.failed w = false ->
       SHC2.wpos w < pos0 - m + 4 /\ SHC2.wH w = SHC2S.chain y (SHC2.wpos w) /\
       exists k : nat, SHC2.wpos w = pos0 - 2 * Z.of_nat k).
Proof.
  intros HB Hm Hpos. unfold SHC2.walk. cbv zeta. change SHC2.Q with 2.
  replace (pos0 - (m - 2 - 2)) with (pos0 - m + 4) by lia.
  destruct (while_total
    (fun w => pos0 - m + 2 <= SHC2.wpos w <= pos0 /\
       (exists k : nat, SHC2.wpos w = pos0 - 2 * Z.of_nat k) /\
       (SHC2.failed w = true ->
          SHC2.wpos w + 2 <= pos0 /\
          ~ SHC2S.linked B (SHC2S.chain y (SHC2.wpos w + 2)) (SHC2S.chain y (SHC2.wpos w))) /\
       (SHC2.failed w = false ->
          SHC2.wH w = SHC2S.chain y (SHC2.wpos w) /\
          SHC2.wV w = word_at B (Z.land (SHC2.wH w) SHC2.TABLE_MASK)))
    (fun w => Z.to_nat (SHC2.wpos w - (pos0 - m)))
    (fun w => Ok (negb (SHC2.failed w) && (SHC2.wpos w >=? pos0 - m + 4)))
    (SHC2.walk_step y B))
    with (fuel := Datatypes.S (Z.to_nat m))
         (s := SHC2.mkWalk pos0 (SHC2S.chain y pos0)
                 (word_at B (Z.land (SHC2S.chain y pos0) SHC2.TABLE_MASK)) false)
    as (w & Hrun & (Hwp & Hk & Hfail & Hok) & Hexit).
  - intros w (Hwp & (k & Hk) & Hfail & Hok).
    eexists. split; [reflexivity|]. intros Hc.
    apply andb_true_iff in Hc. destruct Hc as (Hnf & Hge).
    apply negb_true_iff in Hnf. apply Z.geb_le in Hge.
    destruct (Hok Hnf) as (HwH & HwV).
    unfold SHC2.walk_step. cbv zeta. change SHC2.Q with 2.
    rewrite shc2_CHAIN_HASH_val by lia. cbn [bind].
    unfold SHC2.FINGERPRINT. rewrite land_fp_zero.
    destruct (Z.testbit (SHC2.wV w) (Z.land (SHC2S.chain y (SHC2.wpos w - 2)) 31)) eqn:Ebit;
      cbn [negb].
    + pose proof (shc2_mask_range (SHC2S.chain y (SHC2.wpos w - 2))) as Hr.
      rewrite rdi_word by lia. cbn [bind].
      eexists. split; [reflexivity|]. cbn [SHC2.wpos SHC2.wH SHC2.wV SHC2.failed].
      split; [|lia]. split; [lia|]. split; [exists (Datatypes.S k); lia|].
      split; [discriminate|]. intros _. split; reflexivity.
    + eexists. split; [reflexivity|]. cbn [SHC2.wpos SHC2.wH SHC2.wV SHC2.failed].
      split; [|lia]. split; [lia|]. split; [exists (Datatypes.S k); lia|].
      split; [|discriminate]. intros _. split; [lia|].
      unfold SHC2S.linked. replace (SHC2.wpos w - 2 + 2) with (SHC2.wpos w) by lia.
      rewrite <- HwH, <- HwV, Ebit. discriminate.
  - cbn [SHC2.wpos SHC2.wH SHC2.wV SHC2.failed]. split; [lia|].
    split; [exists O; lia|]. split; [discriminate|]. intros _. split; reflexivity.
  - cbn [SHC2.wpos]. lia.
  - exists w. split; [exact Hrun|]. split; [assumption|]. split; [assumption|].
    intros Hnf. injection Hexit as Hexit. rewrite Hnf in Hexit. cbn [negb andb] in Hexit.
    destruct (Z.geb_spec (SHC2.wpos w) (pos0 - m + 4)); [discriminate|].
    split; [lia|]. split; [apply (Hok Hnf)|assumption].
Qed.

Lemma shc2_scan_step_count x m y B Hm s :
  Z.of_nat (length x) = m -> 3 <= m -> Z.of_nat (length y) + m <= INT_MAX ->
  shc2_table_ok x m B Hm -> SHC2.pos s < Z.of_nat (length y) -> shc2_scan_inv x m y s ->
  exists s', SHC2.scan_step x m y B Hm s = Ok s' /\ SHC2.pos s + 1 <= SHC2.pos s' /\
             shc2_scan_inv x m y s'.
Proof.
  intros Hlen Hm3 Hint (HB & Hlinks & Hnz & (kH & HHm & HkH)) Hlt (Hpos & Hcount).
  set (pos0 := SHC2.pos s) in *.
  assert (Hskip : forall newpos,
             pos0 + 1 <= newpos ->
             (forall i, pos0 - m + 1 <= i < newpos - m + 1 -> occ_at x m y i = false) ->
             SHC2.count s = count_below x m y (Z.to_nat (newpos - m + 1))).
  { intros newpos Hnp Hnone. rewrite Hcount. symmetry. apply count_below_none; [lia|].
    intros i Hi. apply Hnone. lia. }
  unfold SHC2.scan_step. cbv zeta. fold pos0. change SHC2.Q with 2.
  rewrite shc2_CHAIN_HASH_val by lia. cbn [bind].
  pose proof (shc2_mask_range (SHC2S.chain y pos0)) as Hr.
  rewrite rdi_word by lia. cbn [bind].
  destruct (Z.eqb_spec (word_at B (Z.land (SHC2S.chain y pos0) SHC2.TABLE_MASK)) 0) as [Hz|Hnz0].
  - int_in_range.
    eexists. split; [reflexivity|]. unfold shc2_scan_inv. cbn [SHC2.pos SHC2.count]. split; [lia|].
    split; [lia|]. apply Hskip; [lia|].
    intros i Hi. destruct (occ_at x m y i) eqn:Eocc; [|reflexivity]. exfalso.
    apply occ_at_bytes in Eocc; try lia. destruct Eocc as (_ & Hbytes).
    apply (Hnz (pos0 - i)); [lia|].
    rewrite <- (shc2_chain_occ x m y i) by (try assumption; lia).
    replace (i + (pos0 - i)) with pos0 by lia. exact Hz.
  - int_in_range.
    destruct (shc2_walk_loop y B m pos0 HB ltac:(lia) ltac:(lia))
      as (w & Hwalk & Hwp & Hfail & Hok).
    rewrite Hwalk. cbn [bind].
    destruct (SHC2.failed w) eqn:Ef.
    + int_in_range.
      eexists. split; [reflexivity|]. unfold shc2_scan_inv. cbn [SHC2.pos SHC2.count]. split; [lia|].
      split; [lia|]. destruct (Hfail eq_refl) as (Hw2 & Hnl).
      apply Hskip; [lia|].
      intros i Hi. destruct (occ_at x m y i) eqn:Eocc; [|reflexivity]. exfalso.
      apply occ_at_bytes in Eocc; try lia. destruct Eocc as (_ & Hbytes).
      apply Hnl.
      replace (SHC2.wpos w + 2) with (i + (SHC2.wpos w - i + 2)) by lia.
      replace (SHC2.wpos w) with (i + (SHC2.wpos w - i)) at 2 by lia.
      rewrite !(shc2_chain_occ x m y i) by (try assumption; lia).
      apply Hlinks; lia.
    + destruct (Hok eq_refl) as (Hwlt & HwH & (kw & Hkw)).
      assert (Hhit : (if SHC2.wH w =? Hm
                      then memcmp_eq y (pos0 - (m - 2 - 2) - 2 - 2 + 1) x m
                      else Ok false) = Ok (occ_at x m y (pos0 - m + 1))).
      { replace (pos0 - (m - 2 - 2) - 2 - 2 + 1) with (pos0 - m + 1) by lia.
        destruct (Z.eqb_spec (SHC2.wH w) Hm) as [E|E]; [apply memcmp_eq_occ; lia|].
        destruct (occ_at x m y (pos0 - m + 1)) eqn:Eocc; [|reflexivity]. exfalso.
        apply occ_at_bytes in Eocc; try lia. destruct Eocc as (_ & Hbytes).
        apply E. rewrite HwH, HHm.
        replace (SHC2.wpos w) with (pos0 - m + 1 + (m - 1 - 2 * Z.of_nat kH)) by lia.
        apply (shc2_chain_occ x m y); [assumption|lia]. }
      rewrite Hhit. cbn [bind]. int_in_range.
      eexists. split; [reflexivity|]. unfold shc2_scan_inv. cbn [SHC2.pos SHC2.count].
      split; [lia|]. split; [lia|].
      replace (Z.to_nat (pos0 - (m - 2 - 2) - 2 + (m - 2 + 1) - m + 1))
        with (Z.to_nat (pos0 - m + 1 + 1)) by lia.
      rewrite count_below_succ by lia. rewrite Hcount.
      destruct (occ_at x m y (pos0 - m + 1)); lia.
Qed.

(** For [m >= 2Q - 1], [search] of shc2-1 returns the number of
    occurrences. *)
Lemma shc2_search_count x m y n :
  Z.of_nat (length x) = m -> Z.of_nat (length y) = n -> 3 <= m ->
  n + m <= INT_MAX ->
  SHC2.search x m y n = Ok (occurrences x m y n).
Proof.
  intros Hlen Hn Hm Hint. unfold SHC2.search.
  destruct (Z.ltb_spec m SHC2.Q) as [Hlt|_]; [change SHC2.Q with 2 in Hlt; lia|].
  cbv zeta.
  destruct (shc2_table x m (repeat 0 (Z.to_nat SHC2.ASIZE)) Hlen Hm) as (H & B & Hpre & Hok).
  { rewrite repeat_length. reflexivity. }
  rewrite Hpre. cbn [bind]. unfold SHC2.scan.
  destruct (while_total (shc2_scan_inv x m y) (fun s => Z.to_nat (n - SHC2.pos s))
                        (fun s => Ok (SHC2.pos s <? n)) (SHC2.scan_step x m y B H))
    with (fuel := Datatypes.S (Z.to_nat n)) (s := SHC2.mkScan (m - 1) 0)
    as (s & Hrun & (Hpos & Hcount) & Hexit).
  - intros s Hinv. eexists. split; [reflexivity|]. intros Hc. apply Z.ltb_lt in Hc.
    destruct (shc2_scan_step_count x m y B H s Hlen Hm ltac:(lia) Hok ltac:(lia) Hinv)
      as (s' & Hs' & Hadv & Hinv').
    exists s'. split; [assumption|]. split; [assumption|]. lia.
  - split; cbn [SHC2.pos SHC2.count]; [lia|].
    replace (Z.to_nat (m - 1 - m + 1)) with O by lia. reflexivity.
  - cbn [SHC2.pos]. lia.
  - rewrite Hrun. cbn [bind]. f_equal. rewrite Hcount. unfold occurrences.
    injection Hexit as Hexit. apply Z.ltb_ge in Hexit.
    apply count_below_none; [lia|].
    intros i Hi. apply occ_at_out; try assumption; lia.
Qed.

(** ** shc6: the table and the count, for patterns of length at least 2Q - 1 *)

Lemma shc6_CHAIN_HASH_val x p :
  5 <= p < Z.of_nat (length x) -> SHC6.CHAIN_HASH x p = Ok (SHC6S.chain x p).
Proof.
  intros Hp. unfold SHC6.CHAIN_HASH, SHC6.HASH, SHC6S.chain.
  rewrite !rd_bv by lia. reflexivity.
Qed.

Lemma shc6_mask_range H : 0 <= Z.land H SHC6.TABLE_MASK < 4096.
Proof. exact (land_mask_range H 12 ltac:(lia)). Qed.

Lemma shc6_linked_mono B B' h h' :
  tbl_le B B' -> SHC6S.linked B h h' -> SHC6S.linked B' h h'.
Proof. intros Hle Hl. unfold SHC6S.linked in *. eapply tbl_le_bit; eauto. Qed.

Lemma shc6_link_step x s :
  5 <= SHC6.chain_pos s < Z.of_nat (length x) ->
  Z.of_nat (length (SHC6.cB s)) = 4096 ->
  exists B', SHC6.link_step x s
             = Ok (SHC6.mkChain (SHC6.chain_pos s - 6) (SHC6S.chain x (SHC6.chain_pos s)) B') /\
             Z.of_nat (length B') = 4096 /\ tbl_le (SHC6.cB s) B' /\
             SHC6S.linked B' (SHC6.cH s) (SHC6S.chain x (SHC6.chain_pos s)).
Proof.
  intros Hp HB. unfold SHC6.link_step.
  rewrite shc6_CHAIN_HASH_val by assumption. cbn [bind].
  pose proof (shc6_mask_range (SHC6.cH s)) as Hr.
  rewrite rdi_word by lia. cbn [bind].
  rewrite wri_Ok by lia. cbn [bind].
  eexists. split; [reflexivity|].
  split; [rewrite length_upd; assumption|].
  split; [apply tbl_le_lor; lia|].
  unfold SHC6S.linked. rewrite word_at_upd_eq by lia.
  rewrite Z.lor_spec. unfold SHC6.FINGERPRINT.
  rewrite fp_testbit by apply land31_range.
  rewrite Z.eqb_refl. apply orb_true_r.
Qed.

(** One chain: from the q-gram that ends at [e], every q-gram [Q] further
    left is recorded in the word of its right neighbour; the hash left in
    [H] is that of the leftmost q-gram of the chain. *)
Lemma shc6_chain_loop x m e B0 :
  Z.of_nat (length x) = m -> 5 <= e < m -> Z.of_nat (length B0) = 4096 ->
  exists c (i : nat),
    while (Datatypes.S (Z.to_nat m))
          (fun c => Ok (SHC6.chain_pos c >=? SHC6.END_FIRST_QGRAM))
          (SHC6.link_step x) (SHC6.mkChain (e - SHC6.Q) (SHC6S.chain x e) B0) = Ok c /\
    Z.of_nat (length (SHC6.cB c)) = 4096 /\ tbl_le B0 (SHC6.cB c) /\
    SHC6.cH c = SHC6S.chain x (e - 6 * Z.of_nat i) /\ 5 <= e - 6 * Z.of_nat i < 11 /\
    forall k : nat, 5 <= e - 6 * (Z.of_nat k + 1) ->
      SHC6S.linked (SHC6.cB c) (SHC6S.chain x (e - 6 * Z.of_nat k))
                   (SHC6S.chain x (e - 6 * (Z.of_nat k + 1))).
Proof.
  intros Hlen He HB. change SHC6.Q with 6. change SHC6.END_FIRST_QGRAM with 5.
  destruct (while_total
    (fun c => exists i : nat,
       SHC6.chain_pos c = e - 6 - 6 * Z.of_nat i /\
       SHC6.cH c = SHC6S.chain x (e - 6 * Z.of_nat i) /\
       Z.of_nat (length (SHC6.cB c)) = 4096 /\ tbl_le B0 (SHC6.cB c) /\
       -1 <= SHC6.chain_pos c /\
       forall k : nat, (k < i)%nat ->
         SHC6S.linked (SHC6.cB c) (SHC6S.chain x (e - 6 * Z.of_nat k))
                      (SHC6S.chain x (e - 6 * (Z.of_nat k + 1))))
    (fun c => Z.to_nat (SHC6.chain_pos c + 1))
    (fun c => Ok (SHC6.chain_pos c >=? 5)) (SHC6.link_step x))
    with (fuel := Datatypes.S (Z.to_nat m)) (s := SHC6.mkChain (e - 6) (SHC6S.chain x e) B0)
    as (c & Hrun & (i & Hpos & HH & HlenB & Hle & Hlow & Hlinks) & Hexit).
  - intros c (i & Hpos & HH & HlenB & Hle & Hlow & Hlinks).
    eexists. split; [reflexivity|]. intros Hc. apply Z.geb_le in Hc.
    destruct (shc6_link_step x c) as (B' & Hstep & HlenB' & HleB' & Hlk); [lia|assumption|].
    eexists. split; [exact Hstep|]. cbn [SHC6.chain_pos SHC6.cH SHC6.cB]. split; [|lia].
    exists (Datatypes.S i). split; [lia|]. split; [f_equal; lia|].
    split; [assumption|]. split; [eapply tbl_le_trans; eauto|]. split; [lia|].
    intros k Hk. destruct (Nat.eq_dec k i) as [->|Hne].
    + rewrite HH in Hlk.
      replace (e - 6 * (Z.of_nat i + 1)) with (SHC6.chain_pos c) by lia. exact Hlk.
    + eapply shc6_linked_mono; [exact HleB'|]. apply Hlinks. lia.
  - exists O. cbn [SHC6.chain_pos SHC6.cH SHC6.cB].
    split; [lia|]. split; [f_equal; lia|]. split; [assumption|].
    split; [apply tbl_le_refl|]. split; [lia|]. intros; lia.
  - cbn [SHC6.chain_pos]. lia.
  - injection Hexit as Hexit.
    destruct (Z.geb_spec (SHC6.chain_pos c) 5); [discriminate|].
    exists c, i. split; [exact Hrun|]. split; [assumption|]. split; [assumption|].
    split; [assumption|]. split; [lia|].
    intros k Hk. apply Hlinks. lia.
Qed.

Lemma shc6_chain_step x m s :
  Z.of_nat (length x) = m -> 5 <= m - SHC6.chain_no s -> 1 <= SHC6.chain_no s ->
  Z.of_nat (length (SHC6.pB s)) = 4096 ->
  exists (i : nat) B',
    SHC6.chain_step x m s
    = Ok (SHC6.mkPre (SHC6.chain_no s - 1)
                     (SHC6S.chain x (m - SHC6.chain_no s - 6 * Z.of_nat i)) B') /\
    5 <= m - SHC6.chain_no s - 6 * Z.of_nat i < 11 /\
    Z.of_nat (length B') = 4096 /\ tbl_le (SHC6.pB s) B' /\
    forall k : nat, 5 <= m - SHC6.chain_no s - 6 * (Z.of_nat k + 1) ->
      SHC6S.linked B' (SHC6S.chain x (m - SHC6.chain_no s - 6 * Z.of_nat k))
                   (SHC6S.chain x (m - SHC6.chain_no s - 6 * (Z.of_nat k + 1))).
Proof.
  intros Hlen He Hc HB. unfold SHC6.chain_step.
  rewrite shc6_CHAIN_HASH_val by lia. cbn [bind].
  destruct (shc6_chain_loop x m (m - SHC6.chain_no s) (SHC6.pB s) Hlen ltac:(lia) HB)
    as (c & i & Hrun & HlenB & Hle & HH & Hi & Hlinks).
  change SHC6.Q with 6 in Hrun. change SHC6.Q with 6.
  rewrite Hrun. cbn [bind]. rewrite HH.
  exists i, (SHC6.cB c). split; [reflexivity|]. auto.
Qed.

(** The Q chains together cover every pair of q-grams that are Q apart. *)
Lemma shc6_chains x m B0 :
  Z.of_nat (length x) = m -> 11 <= m -> Z.of_nat (length B0) = 4096 ->
  exists s,
    while (Datatypes.S (Z.to_nat SHC6.Q)) (fun s => Ok (SHC6.chain_no s >=? 1))
          (SHC6.chain_step x m) (SHC6.mkPre SHC6.Q 0 B0) = Ok s /\
    Z.of_nat (length (SHC6.pB s)) = 4096 /\ tbl_le B0 (SHC6.pB s) /\
    (exists k : nat, SHC6.pH s = SHC6S.chain x (m - 1 - 6 * Z.of_nat k) /\
                     5 <= m - 1 - 6 * Z.of_nat k < 11) /\
    forall p, 5 <= p -> p + 6 <= m - 1 ->
      SHC6S.linked (SHC6.pB s) (SHC6S.chain x (p + 6)) (SHC6S.chain x p).
Proof.
  intros Hlen Hm HB. change SHC6.Q with 6.
  destruct (while_total
    (fun s => 0 <= SHC6.chain_no s <= 6 /\ Z.of_nat (length (SHC6.pB s)) = 4096 /\
              tbl_le B0 (SHC6.pB s) /\
              (SHC6.chain_no s < 6 ->
                 exists k : nat,
                   SHC6.pH s = SHC6S.chain x (m - (SHC6.chain_no s + 1) - 6 * Z.of_nat k) /\
                   5 <= m - (SHC6.chain_no s + 1) - 6 * Z.of_nat k < 11) /\
              forall c (k : nat), SHC6.chain_no s < c <= 6 ->
                5 <= m - c - 6 * (Z.of_nat k + 1) ->
                SHC6S.linked (SHC6.pB s) (SHC6S.chain x (m - c - 6 * Z.of_nat k))
                             (SHC6S.chain x (m - c - 6 * (Z.of_nat k + 1))))
    (fun s => Z.to_nat (SHC6.chain_no s))
    (fun s => Ok (SHC6.chain_no s >=? 1)) (SHC6.chain_step x m))
    with (fuel := Datatypes.S (Z.to_nat 6)) (s := SHC6.mkPre 6 0 B0)
    as (s & Hrun & (Hc & HlenB & Hle & HH & Hlinks) & Hexit).
  - intros s (Hc & HlenB & Hle & HH & Hlinks).
    eexists. split; [reflexivity|]. intros Hcond. apply Z.geb_le in Hcond.
    destruct (shc6_chain_step x m s Hlen ltac:(lia) ltac:(lia) HlenB)
      as (i & B' & Hstep & Hi & HlenB' & HleB' & Hlk).
    eexists. split; [exact Hstep|]. cbn [SHC6.chain_no SHC6.pB SHC6.pH]. split; [|lia].
    split; [lia|]. split; [assumption|]. split; [eapply tbl_le_trans; eauto|].
    split.
    + intros _. exists i.
      replace (m - (SHC6.chain_no s - 1 + 1) - 6 * Z.of_nat i)
        with (m - SHC6.chain_no s - 6 * Z.of_nat i) by lia.
      split; [reflexivity|assumption].
    + intros c k Hck Hk. destruct (Z.eq_dec c (SHC6.chain_no s)) as [->|Hne].
      * now apply Hlk.
      * eapply shc6_linked_mono; [exact HleB'|]. apply Hlinks; lia.
  - cbn [SHC6.chain_no SHC6.pB SHC6.pH]. split; [lia|]. split; [assumption|].
    split; [apply tbl_le_refl|]. split; intros; lia.
  - cbn [SHC6.chain_no]. lia.
  - injection Hexit as Hexit.
    destruct (Z.geb_spec (SHC6.chain_no s) 1); [discriminate|].
    exists s. split; [exact Hrun|]. split; [assumption|]. split; [assumption|].
    split.
    + destruct (HH ltac:(lia)) as (k & Hk & Hr). exists k.
      replace (SHC6.chain_no s) with 0 in * by lia.
      replace (m - 1 - 6 * Z.of_nat k) with (m - (0 + 1) - 6 * Z.of_nat k) by lia.
      split; assumption.
    + intros p Hp HpQ.
      pose proof (Z.div_mod (m - p - 1) 6 ltac:(lia)) as Hdm.
      pose proof (Z.mod_pos_bound (m - p - 1) 6 ltac:(lia)) as Hmb.
      set (c := (m - p - 1) mod 6 + 1) in *.
      set (q := (m - p - 1) / 6) in *.
      assert (Hq : 1 <= q) by lia.
      specialize (Hlinks c (Z.to_nat (q - 1)) ltac:(lia) ltac:(lia)).
      replace (m - c - 6 * Z.of_nat (Z.to_nat (q - 1))) with (p + 6) in Hlinks by lia.
      replace (m - c - 6 * (Z.of_nat (Z.to_nat (q - 1)) + 1)) with p in Hlinks by lia.
      exact Hlinks.
Qed.

Lemma shc6_FINGERPRINT_pos H : 0 < SHC6.FINGERPRINT H.
Proof.
  unfold SHC6.FINGERPRINT. rewrite Z.shiftl_1_l.
  apply Z.pow_pos_nonneg; [lia|apply land31_range].
Qed.

Lemma shc6_fill_step x s :
  5 <= SHC6.fill_pos s < Z.of_nat (length x) ->
  Z.of_nat (length (SHC6.fB s)) = 4096 ->
  exists B', SHC6.fill_step x s = Ok (SHC6.mkFill (SHC6.fill_pos s + 1) B') /\
    Z.of_nat (length B') = 4096 /\ tbl_le (SHC6.fB s) B' /\
    word_at B' (Z.land (SHC6S.chain x (SHC6.fill_pos s)) SHC6.TABLE_MASK) <> 0.
Proof.
  intros Ha HB. unfold SHC6.fill_step.
  rewrite shc6_CHAIN_HASH_val by lia. cbn [bind].
  pose proof (shc6_mask_range (SHC6S.chain x (SHC6.fill_pos s))) as Hr.
  rewrite rdi_word by lia. cbn [bind].
  destruct (Z.eqb_spec (word_at (SHC6.fB s) (Z.land (SHC6S.chain x (SHC6.fill_pos s)) SHC6.TABLE_MASK)) 0)
    as [Hz|Hnz].
  - rewrite wri_Ok by lia. cbn [bind]. eexists. split; [reflexivity|].
    split; [rewrite length_upd; assumption|].
    split; [apply tbl_le_fill; [lia|assumption]|].
    rewrite word_at_upd_eq by lia.
    pose proof (shc6_FINGERPRINT_pos (u32 (Z.lnot (SHC6S.chain x (SHC6.fill_pos s))))). lia.
  - cbn [bind]. eexists. split; [reflexivity|]. split; [assumption|].
    split; [apply tbl_le_refl|assumption].
Qed.

Lemma shc6_fill_loop x m B0 :
  Z.of_nat (length x) = m -> 6 <= m -> Z.of_nat (length B0) = 4096 ->
  exists s,
    while (Datatypes.S (Z.to_nat SHC6.Q))
          (fun s => Ok (SHC6.fill_pos s <? Z.min m SHC6.END_SECOND_QGRAM))
          (SHC6.fill_step x) (SHC6.mkFill SHC6.END_FIRST_QGRAM B0) = Ok s /\
    Z.of_nat (length (SHC6.fB s)) = 4096 /\ tbl_le B0 (SHC6.fB s) /\
    forall p, 5 <= p < Z.min m 11 ->
      word_at (SHC6.fB s) (Z.land (SHC6S.chain x p) SHC6.TABLE_MASK) <> 0.
Proof.
  intros Hm Hm2 HB. change SHC6.END_SECOND_QGRAM with 11. change SHC6.END_FIRST_QGRAM with 5.
  change SHC6.Q with 6.
  destruct (while_total
    (fun s => 5 <= SHC6.fill_pos s /\ Z.of_nat (length (SHC6.fB s)) = 4096 /\
              tbl_le B0 (SHC6.fB s) /\
              forall p, 5 <= p < SHC6.fill_pos s ->
                word_at (SHC6.fB s) (Z.land (SHC6S.chain x p) SHC6.TABLE_MASK) <> 0)
    (fun s => Z.to_nat (11 - SHC6.fill_pos s))
    (fun s => Ok (SHC6.fill_pos s <? Z.min m 11)) (SHC6.fill_step x))
    with (fuel := Datatypes.S (Z.to_nat 6)) (s := SHC6.mkFill 5 B0)
    as (s & Hrun & (Hpos & Hlen & Hle & Hnz) & Hexit).
  - intros s (Hpos & Hlen & Hle & Hnz).
    eexists. split; [reflexivity|]. intros Hc. apply Z.ltb_lt in Hc.
    destruct (shc6_fill_step x s) as (B' & Hstep & HlenB' & HleB' & Hw); [lia|assumption|].
    eexists. split; [exact Hstep|]. cbn [SHC6.fill_pos SHC6.fB]. split; [|lia].
    split; [lia|]. split; [assumption|]. split; [eapply tbl_le_trans; eauto|].
    intros p Hp. destruct (Z.eq_dec p (SHC6.fill_pos s)) as [->|Hne]; [assumption|].
    eapply tbl_le_nonzero; [exact HleB'|]. apply Hnz. lia.
  - cbn [SHC6.fill_pos SHC6.fB]. split; [lia|]. split; [assumption|].
    split; [apply tbl_le_refl|]. intros; lia.
  - cbn [SHC6.fill_pos]. lia.
  - exists s. split; [exact Hrun|]. split; [assumption|]. split; [assumption|].
    injection Hexit as Hexit. apply Z.ltb_ge in Hexit.
    intros p Hp. apply Hnz. lia.
Qed.

(** For [m >= 2Q - 1] the preprocessing of shc6 completes; the table links
    every q-gram to the q-gram Q bytes to its left, has a non-empty word for
    every q-gram of the pattern, and the value returned is the hash of the
    leftmost q-gram of the last chain. *)
Lemma shc6_table x m B0 :
  Z.of_nat (length x) = m -> 11 <= m -> Z.of_nat (length B0) = 4096 ->
  exists H B, SHC6.preprocessing x m B0 = Ok (H, B) /\ shc6_table_ok x m B H.
Proof.
  intros Hlen Hm HB. unfold SHC6.preprocessing. cbv zeta.
  assert (HB' : Z.of_nat (length (map (fun _ : Z => 0) B0)) = 4096)
    by (rewrite length_map; assumption).
  destruct (shc6_chains x m _ Hlen Hm HB') as (s1 & Hrun1 & Hlen1 & Hle1 & HH & Hlinks).
  rewrite Hrun1. cbn [bind].
  destruct (shc6_fill_loop x m (SHC6.pB s1) Hlen ltac:(lia) Hlen1)
    as (s2 & Hrun2 & Hlen2 & Hle2 & Hnz).
  rewrite Hrun2. cbn [bind].
  exists (SHC6.pH s1), (SHC6.fB s2). split; [reflexivity|]. split; [assumption|].
  assert (Hl2 : forall p, 5 <= p -> p + 6 <= m - 1 ->
                  SHC6S.linked (SHC6.fB s2) (SHC6S.chain x (p + 6)) (SHC6S.chain x p)).
  { intros p Hp HpQ. eapply shc6_linked_mono; [exact Hle2|]. now apply Hlinks. }
  split; [exact Hl2|]. split; [|exact HH].
  intros p Hp. destruct (Z.lt_ge_cases p 11).
  - apply Hnz. lia.
  - specialize (Hl2 (p - 6) ltac:(lia) ltac:(lia)).
    replace (p - 6 + 6) with p in Hl2 by lia.
    unfold SHC6S.linked in Hl2. intros E. rewrite E, Z.testbit_0_l in Hl2. discriminate.
Qed.

Lemma shc6_chain_occ x m y i p :
  (forall k, 0 <= k < m -> byte_at y (i + k) = byte_at x k) ->
  5 <= p < m -> SHC6S.chain y (i + p) = SHC6S.chain x p.
Proof.
  intros Hb Hp. unfold SHC6S.chain.
  rewrite (bv_byte_at x y (i + p) p) by (apply Hb; lia).
  replace (i + p - 1) with (i + (p - 1)) by lia.
  replace (i + p - 2) with (i + (p - 2)) by lia.
  replace (i + p - 3) with (i + (p - 3)) by lia.
  replace (i + p - 4) with (i + (p - 4)) by lia.
  replace (i + p - 5) with (i + (p - 5)) by lia.
  rewrite (bv_byte_at x y (i + (p - 1)) (p - 1)) by (apply Hb; lia).
  rewrite (bv_byte_at x y (i + (p - 2)) (p - 2)) by (apply Hb; lia).
  rewrite (bv_byte_at x y (i + (p - 3)) (p - 3)) by (apply Hb; lia).
  rewrite (bv_byte_at x y (i + (p - 4)) (p - 4)) by (apply Hb; lia).
  rewrite (bv_byte_at x y (i + (p - 5)) (p - 5)) by (apply Hb; lia).
  reflexivity.
Qed.

(** The loop of [search_chain]: when it fails, two q-grams of the window are
    not linked; when it does not, it ends on the leftmost q-gram of its chain
    with the hash of that q-gram in [H]. *)
Lemma shc6_walk_loop y B m pos0 :
  Z.of_nat (length B) = 4096 -> 6 <= m -> m - 1 <= pos0 < Z.of_nat (length y) ->
  exists w,
    SHC6.walk y B m pos0 (SHC6S.chain y pos0)
              (word_at B (Z.land (SHC6S.chain y pos0) SHC6.TABLE_MASK)) = Ok w /\
    pos0 - m + 6 <= SHC6.wpos w <= pos0 /\
    (SHC6.failed w = true ->
       SHC6.wpos w + 6 <= pos0 /\
       ~ SHC6S.linked B (SHC6S.chain y (SHC6.wpos w + 6)) (SHC6S.chain y (SHC6.wpos w))) /\
    (SHC6.failed w = false ->
       SHC6.wpos w < pos0 - m + 12 /\ SHC6.wH w = SHC6S.chain y (SHC6.wpos w) /\
       exists k : nat, SHC6.wpos w = pos0 - 6 * Z.of_nat k).
Proof.
  intros HB Hm Hpos. unfold SHC6.walk. cbv zeta. change SHC6.Q2 with 12.
  destruct (while_total
    (fun w => pos0 - m + 6 <= SHC6.wpos w <= pos0 /\
       (exists k : nat, SHC6.wpos w = pos0 - 6 * Z.of_nat k) /\
       (SHC6.failed w = true ->
          SHC6.wpos w + 6 <= pos0 /\
          ~ SHC6S.linked B (SHC6S.chain y (SHC6.wpos w + 6)) (SHC6S.chain y (SHC6.wpos w))) /\
       (SHC6.failed w = false ->
          SHC6.wH w = SHC6S.chain y (SHC6.wpos w) /\
          SHC6.wV w = word_at B (Z.land (SHC6.wH w) SHC6.TABLE_MASK)))
    (fun w => Z.to_nat (SHC6.wpos w - (pos0 - m)))
    (fun w => Ok (negb (SHC6.failed w) && (SHC6.wpos w >=? pos0 - m + 12)))
    (SHC6.walk_step y B))
    with (fuel := Datatypes.S (Z.to_nat m))
         (s := SHC6.mkWalk pos0 (SHC6S.chain y pos0)
                 (word_at B (Z.land (SHC6S.chain y pos0) SHC6.TABLE_MASK)) false)
    as (w & Hrun & (Hwp & Hk & Hfail & Hok) & Hexit).
  - intros w (Hwp & (k & Hk) & Hfail & Hok).
    eexists. split; [reflexivity|]. intros Hc.
    apply andb_true_iff in Hc. destruct Hc as (Hnf & Hge).
    apply negb_true_iff in Hnf. apply Z.geb_le in Hge.
    destruct (Hok Hnf) as (HwH & HwV).
    unfold SHC6.walk_step. cbv zeta. change SHC6.Q with 6.
    rewrite shc6_CHAIN_HASH_val by lia. cbn [bind].
    unfold SHC6.FINGERPRINT. rewrite land_fp_zero.
    destruct (Z.testbit (SHC6.wV w) (Z.land (SHC6S.chain y (SHC6.wpos w - 6)) 31)) eqn:Ebit;
      cbn [negb].
    + pose proof (shc6_mask_range (SHC6S.chain y (SHC6.wpos w - 6))) as Hr.
      rewrite rdi_word by lia. cbn [bind].
      eexists. split; [reflexivity|]. cbn [SHC6.wpos SHC6.wH SHC6.wV SHC6.failed].
      split; [|lia]. split; [lia|]. split; [exists (Datatypes.S k); lia|].
      split; [discriminate|]. intros _. split; reflexivity.
    + eexists. split; [reflexivity|]. cbn [SHC6.wpos SHC6.wH SHC6.wV SHC6.failed].
      split; [|lia]. split; [lia|]. split; [exists (Datatypes.S k); lia|].
      split; [|discriminate]. intros _. split; [lia|].
      unfold SHC6S.linked. replace (SHC6.wpos w - 6 + 6) with (SHC6.wpos w) by lia.
      rewrite <- HwH, <- HwV, Ebit. discriminate.
  - cbn [SHC6.wpos SHC6.wH SHC6.wV SHC6.failed]. split; [lia|].
    split; [exists O; lia|]. split; [discriminate|]. intros _. split; reflexivity.
  - cbn [SHC6.wpos]. lia.
  - exists w. split; [exact Hrun|]. split; [assumption|]. split; [assumption|].
    intros Hnf. injection Hexit as Hexit. rewrite Hnf in Hexit. cbn [negb andb] in Hexit.
    destruct (Z.geb_spec (SHC6.wpos w) (pos0 - m + 12)); [discriminate|].
    split; [lia|]. split; [apply (Hok Hnf)|assumption].
Qed.

Lemma shc6_scan_step_count x m y B Hm s :
  Z.of_nat (length x) = m -> 11 <= m -> Z.of_nat (length y) + m <= INT_MAX ->
  shc6_table_ok x m B Hm -> SHC6.pos s < Z.of_nat (length y) -> shc6_scan_inv x m y s ->
  exists s', SHC6.scan_step x m y B Hm s = Ok s' /\ SHC6.pos s + 1 <= SHC6.pos s' /\
             shc6_scan_inv x m y s'.
Proof.
  intros Hlen Hm3 Hint (HB & Hlinks & Hnz & (kH & HHm & HkH)) Hlt (Hpos & Hcount).
  set (pos0 := SHC6.pos s) in *.
  assert (Hskip : forall newpos,
             pos0 + 1 <= newpos ->
             (forall i, pos0 - m + 1 <= i < newpos - m + 1 -> occ_at x m y i = false) ->
             SHC6.count s = count_below x m y (Z.to_nat (newpos - m + 1))).
  { intros newpos Hnp Hnone. rewrite Hcount. symmetry. apply count_below_none; [lia|].
    intros i Hi. apply Hnone. lia. }
  unfold SHC6.scan_step. cbv zeta. fold pos0. change SHC6.Q with 6.
  rewrite shc6_CHAIN_HASH_val by lia. cbn [bind].
  pose proof (shc6_mask_range (SHC6S.chain y pos0)) as Hr.
  rewrite rdi_word by lia. cbn [bind].
  destruct (Z.eqb_spec (word_at B (Z.land (SHC6S.chain y pos0) SHC6.TABLE_MASK)) 0) as [Hz|Hnz0].
  - cbn [bind]. int_in_range.
    eexists. split; [reflexivity|]. unfold shc6_scan_inv.
    cbn [SHC6.pos SHC6.count]. split; [lia|].
    split; [lia|]. apply Hskip; [lia|].
    intros i Hi. destruct (occ_at x m y i) eqn:Eocc; [|reflexivity]. exfalso.
    apply occ_at_bytes in Eocc; try lia. destruct Eocc as (_ & Hbytes).
    apply (Hnz (pos0 - i)); [lia|].
    rewrite <- (shc6_chain_occ x m y i) by (try assumption; lia).
    replace (i + (pos0 - i)) with pos0 by lia. exact Hz.
  - unfold SHC6.search_chain. cbv zeta.
    change SHC6.Q with 6. change SHC6.Q2 with 12. change SHC6.END_FIRST_QGRAM with 5.
    int_in_range.
    destruct (shc6_walk_loop y B m pos0 HB ltac:(lia) ltac:(lia))
      as (w & Hwalk & Hwp & Hfail & Hok).
    rewrite Hwalk. cbn [bind].
    destruct (SHC6.failed w) eqn:Ef.
    + cbn [bind]. int_in_range.
      eexists. split; [reflexivity|]. unfold shc6_scan_inv.
      cbn [SHC6.pos SHC6.count]. split; [lia|].
      split; [lia|]. destruct (Hfail eq_refl) as (Hw2 & Hnl).
      apply Hskip; [lia|].
      intros i Hi. destruct (occ_at x m y i) eqn:Eocc; [|reflexivity]. exfalso.
      apply occ_at_bytes in Eocc; try lia. destruct Eocc as (_ & Hbytes).
      apply Hnl.
      replace (SHC6.wpos w + 6) with (i + (SHC6.wpos w - i + 6)) by lia.
      replace (SHC6.wpos w) with (i + (SHC6.wpos w - i)) at 2 by lia.
      rewrite !(shc6_chain_occ x m y i) by (try assumption; lia).
      apply Hlinks; lia.
    + destruct (Hok eq_refl) as (Hwlt & HwH & (kw & Hkw)).
      assert (Hhit : (if SHC6.wH w =? Hm
                      then memcmp_eq y (pos0 - m + 12 - 6 - 5) x m
                      else Ok false) = Ok (occ_at x m y (pos0 - m + 1))).
      { replace (pos0 - m + 12 - 6 - 5) with (pos0 - m + 1) by lia.
        destruct (Z.eqb_spec (SHC6.wH w) Hm) as [E|E]; [apply memcmp_eq_occ; lia|].
        destruct (occ_at x m y (pos0 - m + 1)) eqn:Eocc; [|reflexivity]. exfalso.
        apply occ_at_bytes in Eocc; try lia. destruct Eocc as (_ & Hbytes).
        apply E. rewrite HwH, HHm.
        replace (SHC6.wpos w) with (pos0 - m + 1 + (m - 1 - 6 * Z.of_nat kH)) by lia.
        apply (shc6_chain_occ x m y); [assumption|lia]. }
      rewrite Hhit. cbn [bind]. int_in_range.
      eexists. split; [reflexivity|]. unfold shc6_scan_inv. cbn [SHC6.pos SHC6.count].
      split; [lia|]. split; [lia|].
      replace (Z.to_nat (pos0 - m + 12 - 6 + (m - 6 + 1) - m + 1))
        with (Z.to_nat (pos0 - m + 1 + 1)) by lia.
      rewrite count_below_succ by lia. rewrite Hcount.
      destruct (occ_at x m y (pos0 - m + 1)); lia.
Qed.

(** For [m >= 2Q - 1], [search] of shc6 returns the number of occurrences. *)
Lemma shc6_search_count x m y n :
  Z.of_nat (length x) = m -> Z.of_nat (length y) = n -> 11 <= m ->
  n + m <= INT_MAX ->
  SHC6.search x m y n = Ok (occurrences x m y n).
Proof.
  intros Hlen Hn Hm Hint. unfold SHC6.search.
  destruct (Z.ltb_spec m SHC6.Q) as [Hlt|_]; [change SHC6.Q with 6 in Hlt; lia|].
  cbv zeta.
  destruct (shc6_table x m (repeat 0 (Z.to_nat SHC6.ASIZE)) Hlen Hm) as (H & B & Hpre & Hok).
  { rewrite repeat_length. reflexivity. }
  rewrite Hpre. cbn [bind]. unfold SHC6.scan.
  destruct (while_total (shc6_scan_inv x m y) (fun s => Z.to_nat (n - SHC6.pos s))
                        (fun s => Ok (SHC6.pos s <? n)) (SHC6.scan_step x m y B H))
    with (fuel := Datatypes.S (Z.to_nat n)) (s := SHC6.mkScan (m - 1) 0)
    as (s & Hrun & (Hpos & Hcount) & Hexit).
  - intros s Hinv. eexists. split; [reflexivity|]. intros Hc. apply Z.ltb_lt in Hc.
    destruct (shc6_scan_step_count x m y B H s Hlen Hm ltac:(lia) Hok ltac:(lia) Hinv)
      as (s' & Hs' & Hadv & Hinv').
    exists s'. split; [assumption|]. split; [assumption|]. lia.
  - split; cbn [SHC6.pos SHC6.count]; [lia|].
    replace (Z.to_nat (m - 1 - m + 1)) with O by lia. reflexivity.
  - cbn [SHC6.pos]. lia.
  - rewrite Hrun. cbn [bind]. f_equal. rewrite Hcount. unfold occurrences.
    injection Hexit as Hexit. apply Z.ltb_ge in Hexit.
    apply count_below_none; [lia|].
    intros i Hi. apply occ_at_out; try assumption; lia.
Qed.

(** The hash of a q-gram that would start before the buffer leaves the
    buffer. *)
Lemma shc6_CHAIN_HASH_fault x p :
  0 <= p < 5 -> p < Z.of_nat (length x) -> SHC6.CHAIN_HASH x p = Fault.
Proof.
  intros Hp Hlen. unfold SHC6.CHAIN_HASH, SHC6.HASH.
  rewrite (rd_bv x p) by lia. cbn [bind].
  destruct (Z.eq_dec p 0) as [->|H0]; [reflexivity|].
  rewrite (rd_bv x (p - 1)) by lia. cbn [bind].
  destruct (Z.eq_dec p 1) as [->|H1]; [reflexivity|].
  rewrite (rd_bv x (p - 2)) by lia. cbn [bind].
  destruct (Z.eq_dec p 2) as [->|H2]; [reflexivity|].
  rewrite (rd_bv x (p - 3)) by lia. cbn [bind].
  destruct (Z.eq_dec p 3) as [->|H3]; [reflexivity|].
  rewrite (rd_bv x (p - 4)) by lia. cbn [bind].
  assert (p = 4) as -> by lia. reflexivity.
Qed.

(** ** fhc1: the table and the count *)

Lemma fhc1_CHAIN_HASH_val x p :
  0 <= p < Z.of_nat (length x) -> FHC1.CHAIN_HASH x p = Ok (FHC1S.chain x p).
Proof.
  intros Hp. unfold FHC1.CHAIN_HASH, FHC1.HASH, FHC1S.chain.
  rewrite !rd_bv by lia. reflexivity.
Qed.

Lemma fhc1_mask_range H : 0 <= Z.land H FHC1.TABLE_MASK < 256.
Proof. exact (land_mask_range H 8 ltac:(lia)). Qed.

Lemma fhc1_linked_mono B B' h h' :
  tbl_le B B' -> FHC1S.linked B h h' -> FHC1S.linked B' h h'.
Proof. intros Hle Hl. unfold FHC1S.linked in *. eapply tbl_le_bit; eauto. Qed.

Lemma fhc1_link_step x s :
  0 <= FHC1.chain_pos s < Z.of_nat (length x) ->
  Z.of_nat (length (FHC1.cB s)) = 256 ->
  exists B', FHC1.link_step x s
             = Ok (FHC1.mkChain (FHC1.chain_pos s - 1) (FHC1S.chain x (FHC1.chain_pos s)) B') /\
             Z.of_nat (length B') = 256 /\ tbl_le (FHC1.cB s) B' /\
             FHC1S.linked B' (FHC1.cH s) (FHC1S.chain x (FHC1.chain_pos s)).
Proof.
  intros Hp HB. unfold FHC1.link_step.
  rewrite fhc1_CHAIN_HASH_val by assumption. cbn [bind].
  pose proof (fhc1_mask_range (FHC1.cH s)) as Hr.
  rewrite rdi_word by lia. cbn [bind].
  rewrite wri_Ok by lia. cbn [bind].
  eexists. split; [reflexivity|].
  split; [rewrite length_upd; assumption|].
  split; [apply tbl_le_lor; lia|].
  unfold FHC1S.linked. rewrite word_at_upd_eq by lia.
  rewrite Z.lor_spec. unfold FHC1.LINK_HASH.
  rewrite fp_testbit by apply land31_range.
  rewrite Z.eqb_refl. apply orb_true_r.
Qed.

(** One chain: from the q-gram that ends at [e], every q-gram [Q] further
    left is recorded in the word of its right neighbour; the hash left in
    [H] is that of the leftmost q-gram of the chain. *)
Lemma fhc1_chain_loop x m e B0 :
  Z.of_nat (length x) = m -> 0 <= e < m -> Z.of_nat (length B0) = 256 ->
  exists c (i : nat),
    while (Datatypes.S (Z.to_nat m))
          (fun c => Ok (FHC1.chain_pos c >=? FHC1.END_FIRST_QGRAM))
          (FHC1.link_step x) (FHC1.mkChain (e - FHC1.Q) (FHC1S.chain x e) B0) = Ok c /\
    Z.of_nat (length (FHC1.cB c)) = 256 /\ tbl_le B0 (FHC1.cB c) /\
    FHC1.cH c = FHC1S.chain x (e - 1 * Z.of_nat i) /\ 0 <= e - 1 * Z.of_nat i < 1 /\
    forall k : nat, 0 <= e - 1 * (Z.of_nat k + 1) ->
      FHC1S.linked (FHC1.cB c) (FHC1S.chain x (e - 1 * Z.of_nat k))
                   (FHC1S.chain x (e - 1 * (Z.of_nat k + 1))).
Proof.
  intros Hlen He HB. change FHC1.Q with 1. change FHC1.END_FIRST_QGRAM with 0.
  destruct (while_total
    (fun c => exists i : nat,
       FHC1.chain_pos c = e - 1 - 1 * Z.of_nat i /\
       FHC1.cH c = FHC1S.chain x (e - 1 * Z.of_nat i) /\
       Z.of_nat (length (FHC1.cB c)) = 256 /\ tbl_le B0 (FHC1.cB c) /\
       -1 <= FHC1.chain_pos c /\
       forall k : nat, (k < i)%nat ->
         FHC1S.linked (FHC1.cB c) (FHC1S.chain x (e - 1 * Z.of_nat k))
                      (FHC1S.chain x (e - 1 * (Z.of_nat k + 1))))
    (fun c => Z.to_nat (FHC1.chain_pos c + 1))
    (fun c => Ok (FHC1.chain_pos c >=? 0)) (FHC1.link_step x))
    with (fuel := Datatypes.S (Z.to_nat m)) (s := FHC1.mkChain (e - 1) (FHC1S.chain x e) B0)
    as (c & Hrun & (i & Hpos & HH & HlenB & Hle & Hlow & Hlinks) & Hexit).
  - intros c (i & Hpos & HH & HlenB & Hle & Hlow & Hlinks).
    eexists. split; [reflexivity|]. intros Hc. apply Z.geb_le in Hc.
    destruct (fhc1_link_step x c) as (B' & Hstep & HlenB' & HleB' & Hlk); [lia|assumption|].
    eexists. split; [exact Hstep|]. cbn [FHC1.chain_pos FHC1.cH FHC1.cB]. split; [|lia].
    exists (Datatypes.S i). split; [lia|]. split; [f_equal; lia|].
    split; [assumption|]. split; [eapply tbl_le_trans; eauto|]. split; [lia|].
    intros k Hk. destruct (Nat.eq_dec k i) as [->|Hne].
    + rewrite HH in Hlk.
      replace (e - 1 * (Z.of_nat i + 1)) with (FHC1.chain_pos c) by lia. exact Hlk.
    + eapply fhc1_linked_mono; [exact HleB'|]. apply Hlinks. lia.
  - exists O. cbn [FHC1.chain_pos FHC1.cH FHC1.cB].
    split; [lia|]. split; [f_equal; lia|]. split; [assumption|].
    split; [apply tbl_le_refl|]. split; [lia|]. intros; lia.
  - cbn [FHC1.chain_pos]. lia.
  - injection Hexit as Hexit.
    destruct (Z.geb_spec (FHC1.chain_pos c) 0); [discriminate|].
    exists c, i. split; [exact Hrun|]. split; [assumption|]. split; [assumption|].
    split; [assumption|]. split; [lia|].
    intros k Hk. apply Hlinks. lia.
Qed.

Lemma fhc1_chain_step x m s :
  Z.of_nat (length x) = m -> 0 <= m - FHC1.chain_no s -> 1 <= FHC1.chain_no s ->
  Z.of_nat (length (FHC1.pB s)) = 256 ->
  exists (i : nat) B',
    FHC1.chain_step x m s
    = Ok (FHC1.mkPre (FHC1.chain_no s - 1)
                     (FHC1S.chain x (m - FHC1.chain_no s - 1 * Z.of_nat i)) B') /\
    0 <= m - FHC1.chain_no s - 1 * Z.of_nat i < 1 /\
    Z.of_nat (length B') = 256 /\ tbl_le (FHC1.pB s) B' /\
    forall k : nat, 0 <= m - FHC1.chain_no s - 1 * (Z.of_nat k + 1) ->
      FHC1S.linked B' (FHC1S.chain x (m - FHC1.chain_no s - 1 * Z.of_nat k))
                   (FHC1S.chain x (m - FHC1.chain_no s - 1 * (Z.of_nat k + 1))).
Proof.
  intros Hlen He Hc HB. unfold FHC1.chain_step.
  rewrite fhc1_CHAIN_HASH_val by lia. cbn [bind].
  destruct (fhc1_chain_loop x m (m - FHC1.chain_no s) (FHC1.pB s) Hlen ltac:(lia) HB)
    as (c & i & Hrun & HlenB & Hle & HH & Hi & Hlinks).
  change FHC1.Q with 1 in Hrun. change FHC1.Q with 1.
  rewrite Hrun. cbn [bind]. rewrite HH.
  exists i, (FHC1.cB c). split; [reflexivity|]. auto.
Qed.

(** The Q chains together cover every pair of q-grams that are Q apart. *)
Lemma fhc1_chains x m B0 :
  Z.of_nat (length x) = m -> 1 <= m -> Z.of_nat (length B0) = 256 ->
  exists s,
    while (Datatypes.S (Z.to_nat FHC1.Q)) (fun s => Ok (FHC1.chain_no s >=? 1))
          (FHC1.chain_step x m) (FHC1.mkPre FHC1.Q 0 B0) = Ok s /\
    Z.of_nat (length (FHC1.pB s)) = 256 /\ tbl_le B0 (FHC1.pB s) /\
    (exists k : nat, FHC1.pH s = FHC1S.chain x (m - 1 - 1 * Z.of_nat k) /\
                     0 <= m - 1 - 1 * Z.of_nat k < 1) /\
    forall p, 0 <= p -> p + 1 <= m - 1 ->
      FHC1S.linked (FHC1.pB s) (FHC1S.chain x (p + 1)) (FHC1S.chain x p).
Proof.
  intros Hlen Hm HB. change FHC1.Q with 1.
  destruct (while_total
    (fun s => 0 <= FHC1.chain_no s <= 1 /\ Z.of_nat (length (FHC1.pB s)) = 256 /\
              tbl_le B0 (FHC1.pB s) /\
              (FHC1.chain_no s < 1 ->
                 exists k : nat,
                   FHC1.pH s = FHC1S.chain x (m - (FHC1.chain_no s + 1) - 1 * Z.of_nat k) /\
                   0 <= m - (FHC1.chain_no s + 1) - 1 * Z.of_nat k < 1) /\
              forall c (k : nat), FHC1.chain_no s < c <= 1 ->
                0 <= m - c - 1 * (Z.of_nat k + 1) ->
                FHC1S.linked (FHC1.pB s) (FHC1S.chain x (m - c - 1 * Z.of_nat k))
                             (FHC1S.chain x (m - c - 1 * (Z.of_nat k + 1))))
    (fun s => Z.to_nat (FHC1.chain_no s))
    (fun s => Ok (FHC1.chain_no s >=? 1)) (FHC1.chain_step x m))
    with (fuel := Datatypes.S (Z.to_nat 1)) (s := FHC1.mkPre 1 0 B0)
    as (s & Hrun & (Hc & HlenB & Hle & HH & Hlinks) & Hexit).
  - intros s (Hc & HlenB & Hle & HH & Hlinks).
    eexists. split; [reflexivity|]. intros Hcond. apply Z.geb_le in Hcond.
    destruct (fhc1_chain_step x m s Hlen ltac:(lia) ltac:(lia) HlenB)
      as (i & B' & Hstep & Hi & HlenB' & HleB' & Hlk).
    eexists. split; [exact Hstep|]. cbn [FHC1.chain_no FHC1.pB FHC1.pH]. split; [|lia].
    split; [lia|]. split; [assumption|]. split; [eapply tbl_le_trans; eauto|].
    split.
    + intros _. exists i.
      replace (m - (FHC1.chain_no s - 1 + 1) - 1 * Z.of_nat i)
        with (m - FHC1.chain_no s - 1 * Z.of_nat i) by lia.
      split; [reflexivity|assumption].
    + intros c k Hck Hk. destruct (Z.eq_dec c (FHC1.chain_no s)) as [->|Hne].
      * now apply Hlk.
      * eapply fhc1_linked_mono; [exact HleB'|]. apply Hlinks; lia.
  - cbn [FHC1.chain_no FHC1.pB FHC1.pH]. split; [lia|]. split; [assumption|].
    split; [apply tbl_le_refl|]. split; intros; lia.
  - cbn [FHC1.chain_no]. lia.
  - injection Hexit as Hexit.
    destruct (Z.geb_spec (FHC1.chain_no s) 1); [discriminate|].
    exists s. split; [exact Hrun|]. split; [assumption|]. split; [assumption|].
    split.
    + destruct (HH ltac:(lia)) as (k & Hk & Hr). exists k.
      replace (FHC1.chain_no s) with 0 in * by lia.
      replace (m - 1 - 1 * Z.of_nat k) with (m - (0 + 1) - 1 * Z.of_nat k) by lia.
      split; assumption.
    + intros p Hp HpQ.
      pose proof (Z.div_mod (m - p - 1) 1 ltac:(lia)) as Hdm.
      pose proof (Z.mod_pos_bound (m - p - 1) 1 ltac:(lia)) as Hmb.
      set (c := (m - p - 1) mod 1 + 1) in *.
      set (q := (m - p - 1) / 1) in *.
      assert (Hq : 1 <= q) by lia.
      specialize (Hlinks c (Z.to_nat (q - 1)) ltac:(lia) ltac:(lia)).
      replace (m - c - 1 * Z.of_nat (Z.to_nat (q - 1))) with (p + 1) in Hlinks by lia.
      replace (m - c - 1 * (Z.of_nat (Z.to_nat (q - 1)) + 1)) with p in Hlinks by lia.
      exact Hlinks.
Qed.

Lemma fhc1_LINK_HASH_pos H : 0 < FHC1.LINK_HASH H.
Proof.
  unfold FHC1.LINK_HASH. rewrite Z.shiftl_1_l.
  apply Z.pow_pos_nonneg; [lia|apply land31_range].
Qed.

Lemma fhc1_fill_step x s :
  0 <= FHC1.fill_pos s < Z.of_nat (length x) ->
  Z.of_nat (length (FHC1.fB s)) = 256 ->
  exists B', FHC1.fill_step x s = Ok (FHC1.mkFill (FHC1.fill_pos s + 1) B') /\
    Z.of_nat (length B') = 256 /\ tbl_le (FHC1.fB s) B' /\
    word_at B' (Z.land (FHC1S.chain x (FHC1.fill_pos s)) FHC1.TABLE_MASK) <> 0.
Proof.
  intros Ha HB. unfold FHC1.fill_step.
  rewrite fhc1_CHAIN_HASH_val by lia. cbn [bind].
  pose proof (fhc1_mask_range (FHC1S.chain x (FHC1.fill_pos s))) as Hr.
  rewrite rdi_word by lia. cbn [bind].
  destruct (Z.eqb_spec (word_at (FHC1.fB s) (Z.land (FHC1S.chain x (FHC1.fill_pos s)) FHC1.TABLE_MASK)) 0)
    as [Hz|Hnz].
  - rewrite wri_Ok by lia. cbn [bind]. eexists. split; [reflexivity|].
    split; [rewrite length_upd; assumption|].
    split; [apply tbl_le_fill; [lia|assumption]|].
    rewrite word_at_upd_eq by lia.
    pose proof (fhc1_LINK_HASH_pos (u32 (Z.lnot (FHC1S.chain x (FHC1.fill_pos s))))). lia.
  - cbn [bind]. eexists. split; [reflexivity|]. split; [assumption|].
    split; [apply tbl_le_refl|assumption].
Qed.

Lemma fhc1_fill_loop x m B0 :
  Z.of_nat (length x) = m -> 1 <= m -> Z.of_nat (length B0) = 256 ->
  exists s,
    while (Datatypes.S (Z.to_nat FHC1.Q))
          (fun s => Ok (FHC1.fill_pos s <? Z.min m FHC1.END_SECOND_QGRAM))
          (FHC1.fill_step x) (FHC1.mkFill FHC1.END_FIRST_QGRAM B0) = Ok s /\
    Z.of_nat (length (FHC1.fB s)) = 256 /\ tbl_le B0 (FHC1.fB s) /\
    forall p, 0 <= p < Z.min m 1 ->
      word_at (FHC1.fB s) (Z.land (FHC1S.chain x p) FHC1.TABLE_MASK) <> 0.
Proof.
  intros Hm Hm2 HB. change FHC1.END_SECOND_QGRAM with 1. change FHC1.END_FIRST_QGRAM with 0.
  change FHC1.Q with 1.
  destruct (while_total
    (fun s => 0 <= FHC1.fill_pos s /\ Z.of_nat (length (FHC1.fB s)) = 256 /\
              tbl_le B0 (FHC1.fB s) /\
              forall p, 0 <= p < FHC1.fill_pos s ->
                word_at (FHC1.fB s) (Z.land (FHC1S.chain x p) FHC1.TABLE_MASK) <> 0)
    (fun s => Z.to_nat (1 - FHC1.fill_pos s))
    (fun s => Ok (FHC1.fill_pos s <? Z.min m 1)) (FHC1.fill_step x))
    with (fuel := Datatypes.S (Z.to_nat 1)) (s := FHC1.mkFill 0 B0)
    as (s & Hrun & (Hpos & Hlen & Hle & Hnz) & Hexit).
  - intros s (Hpos & Hlen & Hle & Hnz).
    eexists. split; [reflexivity|]. intros Hc. apply Z.ltb_lt in Hc.
    destruct (fhc1_fill_step x s) as (B' & Hstep & HlenB' & HleB' & Hw); [lia|assumption|].
    eexists. split; [exact Hstep|]. cbn [FHC1.fill_pos FHC1.fB]. split; [|lia].
    split; [lia|]. split; [assumption|]. split; [eapply tbl_le_trans; eauto|].
    intros p Hp. destruct (Z.eq_dec p (FHC1.fill_pos s)) as [->|Hne]; [assumption|].
    eapply tbl_le_nonzero; [exact HleB'|]. apply Hnz. lia.
  - cbn [FHC1.fill_pos FHC1.fB]. split; [lia|]. split; [assumption|].
    split; [apply tbl_le_refl|]. intros; lia.
  - cbn [FHC1.fill_pos]. lia.
  - exists s. split; [exact Hrun|]. split; [assumption|]. split; [assumption|].
    injection Hexit as Hexit. apply Z.ltb_ge in Hexit.
    intros p Hp. apply Hnz. lia.
Qed.

(** For every [m >= Q] the preprocessing of fhc1 completes; the table links
    every q-gram to the q-gram Q bytes to its left, has a non-empty word for
    every q-gram of the pattern, and the value returned is the hash of the
    leftmost q-gram of the last chain. *)
Lemma fhc1_table x m B0 :
  Z.of_nat (length x) = m -> 1 <= m -> Z.of_nat (length B0) = 256 ->
  exists H B, FHC1.preprocessing x m B0 = Ok (H, B) /\ fhc1_table_ok x m B H.
Proof.
  intros Hlen Hm HB. unfold FHC1.preprocessing. cbv zeta.
  assert (HB' : Z.of_nat (length (map (fun _ : Z => 0) B0)) = 256)
    by (rewrite length_map; assumption).
  destruct (fhc1_chains x m _ Hlen Hm HB') as (s1 & Hrun1 & Hlen1 & Hle1 & HH & Hlinks).
  rewrite Hrun1. cbn [bind].
  destruct (fhc1_fill_loop x m (FHC1.pB s1) Hlen ltac:(lia) Hlen1)
    as (s2 & Hrun2 & Hlen2 & Hle2 & Hnz).
  rewrite Hrun2. cbn [bind].
  exists (FHC1.pH s1), (FHC1.fB s2). split; [reflexivity|]. split; [assumption|].
  assert (Hl2 : forall p, 0 <= p -> p + 1 <= m - 1 ->
                  FHC1S.linked (FHC1.fB s2) (FHC1S.chain x (p + 1)) (FHC1S.chain x p)).
  { intros p Hp HpQ. eapply fhc1_linked_mono; [exact Hle2|]. now apply Hlinks. }
  split; [exact Hl2|]. split; [|exact HH].
  intros p Hp. destruct (Z.lt_ge_cases p 1).
  - apply Hnz. lia.
  - specialize (Hl2 (p - 1) ltac:(lia) ltac:(lia)).
    replace (p - 1 + 1) with p in Hl2 by lia.
    unfold FHC1S.linked in Hl2. intros E. rewrite E, Z.testbit_0_l in Hl2. discriminate.
Qed.

Lemma fhc1_chain_occ x m y i p :
  (forall k, 0 <= k < m -> byte_at y (i + k) = byte_at x k) ->
  0 <= p < m -> FHC1S.chain y (i + p) = FHC1S.chain x p.
Proof.
  intros Hb Hp. unfold FHC1S.chain. apply bv_byte_at. apply Hb. lia.
Qed.

(** The fast loop stops inside the text on a non-empty table word, or at the
    end of the text; the windows it passes hold no occurrence. *)
Lemma fhc1_skip_loop x m y n B Hm pos0 :
  Z.of_nat (length x) = m -> Z.of_nat (length y) = n -> 1 <= m ->
  n + m <= INT_MAX ->
  fhc1_table_ok x m B Hm -> m - 1 <= pos0 < n ->
  exists pos1,
    FHC1.skip y B m n pos0 = Ok pos1 /\ pos0 <= pos1 < n + m /\
    (pos1 < n -> word_at B (Z.land (FHC1S.chain y pos1) FHC1.TABLE_MASK) <> 0) /\
    (forall i, pos0 - m + 1 <= i < pos1 - m + 1 -> occ_at x m y i = false).
Proof.
  intros Hlen Hn Hm1 Hint (HB & Hlinks & Hnz & _) Hpos. unfold FHC1.skip. cbv zeta.
  change FHC1.Q with 1.
  destruct (while_total
    (fun p => pos0 <= p < n + m /\
              forall i, pos0 - m + 1 <= i < p - m + 1 -> occ_at x m y i = false)
    (fun p => Z.to_nat (n - p))
    (FHC1.skip_cond y B n) (fun p => int (p + (m - 1 + 1))))
    with (fuel := Datatypes.S (Z.to_nat n)) (s := pos0)
    as (pos1 & Hrun & (Hge & Hnone) & Hexit).
  - intros p (Hge & Hnone). unfold FHC1.skip_cond.
    destruct (Z.ltb_spec p n) as [Hlt|Hnlt].
    + rewrite fhc1_CHAIN_HASH_val by lia. cbn [bind].
      pose proof (fhc1_mask_range (FHC1S.chain y p)) as Hr.
      rewrite rdi_word by lia. cbn [bind].
      eexists. split; [reflexivity|]. intros Hz. apply Z.eqb_eq in Hz.
      int_in_range.
      eexists. split; [reflexivity|]. split; [|lia]. split; [lia|].
      intros i Hi. destruct (Z.lt_ge_cases i (p - m + 1)); [apply Hnone; lia|].
      destruct (occ_at x m y i) eqn:Eocc; [|reflexivity]. exfalso.
      apply occ_at_bytes in Eocc; try lia. destruct Eocc as (_ & Hbytes).
      apply (Hnz (p - i)); [lia|].
      rewrite <- (fhc1_chain_occ x m y i) by (try assumption; lia).
      replace (i + (p - i)) with p by lia. exact Hz.
    + exists false. split; [reflexivity|discriminate].
  - split; [lia|]. intros; lia.
  - lia.
  - exists pos1. split; [exact Hrun|]. split; [assumption|]. split; [|assumption].
    intros Hlt. unfold FHC1.skip_cond in Hexit.
    destruct (Z.ltb_spec pos1 n); [|lia].
    rewrite fhc1_CHAIN_HASH_val in Hexit by lia. cbn [bind] in Hexit.
    pose proof (fhc1_mask_range (FHC1S.chain y pos1)) as Hr.
    rewrite rdi_word in Hexit by lia. cbn [bind] in Hexit.
    injection Hexit as Hexit. now apply Z.eqb_neq in Hexit.
Qed.

Lemma fhc1_walk_loop y B m pos0 :
  Z.of_nat (length B) = 256 -> 1 <= m -> m - 1 <= pos0 < Z.of_nat (length y) ->
  exists w,
    FHC1.walk y B m pos0 (FHC1S.chain y pos0)
              (word_at B (Z.land (FHC1S.chain y pos0) FHC1.TABLE_MASK)) = Ok w /\
    pos0 - m + 1 <= FHC1.wpos w <= pos0 /\
    (FHC1.failed w = true ->
       FHC1.wpos w + 1 <= pos0 /\
       ~ FHC1S.linked B (FHC1S.chain y (FHC1.wpos w + 1)) (FHC1S.chain y (FHC1.wpos w))) /\
    (FHC1.failed w = false ->
       FHC1.wpos w < pos0 - m + 2 /\ FHC1.wH w = FHC1S.chain y (FHC1.wpos w)).
Proof.
  intros HB Hm Hpos. unfold FHC1.walk. cbv zeta. change FHC1.Q2 with 2.
  destruct (while_total
    (fun w => pos0 - m + 1 <= FHC1.wpos w <= pos0 /\
       (FHC1.failed w = true ->
          FHC1.wpos w + 1 <= pos0 /\
          ~ FHC1S.linked B (FHC1S.chain y (FHC1.wpos w + 1)) (FHC1S.chain y (FHC1.wpos w))) /\
       (FHC1.failed w = false ->
          FHC1.wH w = FHC1S.chain y (FHC1.wpos w) /\
          FHC1.wV w = word_at B (Z.land (FHC1.wH w) FHC1.TABLE_MASK)))
    (fun w => Z.to_nat (FHC1.wpos w - (pos0 - m)))
    (fun w => Ok (negb (FHC1.failed w) && (FHC1.wpos w >=? pos0 - m + 2)))
    (FHC1.walk_step y B))
    with (fuel := Datatypes.S (Z.to_nat m))
         (s := FHC1.mkWalk pos0 (FHC1S.chain y pos0)
                 (word_at B (Z.land (FHC1S.chain y pos0) FHC1.TABLE_MASK)) false)
    as (w & Hrun & (Hwp & Hfail & Hok) & Hexit).
  - intros w (Hwp & Hfail & Hok).
    eexists. split; [reflexivity|]. intros Hc.
    apply andb_true_iff in Hc. destruct Hc as (Hnf & Hge).
    apply negb_true_iff in Hnf. apply Z.geb_le in Hge.
    destruct (Hok Hnf) as (HwH & HwV).
    unfold FHC1.walk_step. cbv zeta. change FHC1.Q with 1.
    rewrite fhc1_CHAIN_HASH_val by lia. cbn [bind].
    unfold FHC1.LINK_HASH. rewrite land_fp_zero.
    destruct (Z.testbit (FHC1.wV w) (Z.land (FHC1S.chain y (FHC1.wpos w - 1)) 31)) eqn:Ebit;
      cbn [negb].
    + pose proof (fhc1_mask_range (FHC1S.chain y (FHC1.wpos w - 1))) as Hr.
      rewrite rdi_word by lia. cbn [bind].
      eexists. split; [reflexivity|]. cbn [FHC1.wpos FHC1.wH FHC1.wV FHC1.failed].
      split; [|lia]. split; [lia|]. split; [discriminate|]. intros _. split; reflexivity.
    + eexists. split; [reflexivity|]. cbn [FHC1.wpos FHC1.wH FHC1.wV FHC1.failed].
      split; [|lia]. split; [lia|]. split; [|discriminate]. intros _. split; [lia|].
      unfold FHC1S.linked. replace (FHC1.wpos w - 1 + 1) with (FHC1.wpos w) by lia.
      rewrite <- HwH, <- HwV, Ebit. discriminate.
  - cbn [FHC1.wpos FHC1.wH FHC1.wV FHC1.failed]. split; [lia|].
    split; [discriminate|]. intros _. split; reflexivity.
  - cbn [FHC1.wpos]. lia.
  - exists w. split; [exact Hrun|]. split; [assumption|]. split; [assumption|].
    intros Hnf. injection Hexit as Hexit. rewrite Hnf in Hexit. cbn [negb andb] in Hexit.
    destruct (Z.geb_spec (FHC1.wpos w) (pos0 - m + 2)); [discriminate|].
    split; [lia|]. apply (Hok Hnf).
Qed.

Lemma fhc1_scan_step_count x m y n B Hm s :
  Z.of_nat (length x) = m -> Z.of_nat (length y) = n -> 1 <= m ->
  n + 2 * m <= INT_MAX ->
  fhc1_table_ok x m B Hm -> FHC1.pos s < n -> fhc1_scan_inv x m y s ->
  exists s', FHC1.scan_step x m y n B Hm s = Ok s' /\ FHC1.pos s + 1 <= FHC1.pos s' /\
             fhc1_scan_inv x m y s'.
Proof.
  intros Hlen Hn Hm1 Hint Hok Hlt (Hpos & Hcount).
  destruct (fhc1_skip_loop x m y n B Hm (FHC1.pos s) Hlen Hn Hm1 ltac:(lia) Hok ltac:(lia))
    as (pos1 & Hskiprun & Hge & Hnz1 & Hnone1).
  destruct Hok as (HB & Hlinks & Hnz & (kH & HHm & HkH)).
  assert (Hcount1 : FHC1.count s = count_below x m y (Z.to_nat (pos1 - m + 1))).
  { rewrite Hcount. symmetry. apply count_below_none; [lia|].
    intros i Hi. apply Hnone1. lia. }
  assert (Hskip : forall newpos,
             pos1 + 1 <= newpos ->
             (forall i, pos1 - m + 1 <= i < newpos - m + 1 -> occ_at x m y i = false) ->
             FHC1.count s = count_below x m y (Z.to_nat (newpos - m + 1))).
  { intros newpos Hnp Hnone. rewrite Hcount1. symmetry. apply count_below_none; [lia|].
    intros i Hi. apply Hnone. lia. }
  unfold FHC1.scan_step. cbv zeta. rewrite Hskiprun. cbn [bind].
  change FHC1.Q with 1. change FHC1.Q2 with 2. change FHC1.END_FIRST_QGRAM with 0.
  destruct (Z.ltb_spec pos1 n) as [Hlt1|Hge1].
  - rewrite fhc1_CHAIN_HASH_val by lia. cbn [bind].
    pose proof (fhc1_mask_range (FHC1S.chain y pos1)) as Hr.
    rewrite rdi_word by lia. cbn [bind]. int_in_range.
    destruct (fhc1_walk_loop y B m pos1 HB ltac:(lia) ltac:(lia))
      as (w & Hwalk & Hwp & Hfail & Hokw).
    rewrite Hwalk. cbn [bind].
    destruct (FHC1.failed w) eqn:Ef.
    + int_in_range.
      eexists. split; [reflexivity|]. unfold fhc1_scan_inv. cbn [FHC1.pos FHC1.count].
      split; [lia|]. split; [lia|]. destruct (Hfail eq_refl) as (Hw2 & Hnl).
      apply Hskip; [lia|].
      intros i Hi. destruct (occ_at x m y i) eqn:Eocc; [|reflexivity]. exfalso.
      apply occ_at_bytes in Eocc; try lia. destruct Eocc as (_ & Hbytes).
      apply Hnl.
      replace (FHC1.wpos w + 1) with (i + (FHC1.wpos w - i + 1)) by lia.
      replace (FHC1.wpos w) with (i + (FHC1.wpos w - i)) at 2 by lia.
      rewrite !(fhc1_chain_occ x m y i) by (try assumption; lia).
      apply Hlinks; lia.
    + destruct (Hokw eq_refl) as (Hwlt & HwH).
      assert (Hhit : (if FHC1.wH w =? Hm
                      then memcmp_eq y (pos1 - m + 2 - 1 - 0) x m
                      else Ok false) = Ok (occ_at x m y (pos1 - m + 1))).
      { replace (pos1 - m + 2 - 1 - 0) with (pos1 - m + 1) by lia.
        destruct (Z.eqb_spec (FHC1.wH w) Hm) as [E|E]; [apply memcmp_eq_occ; lia|].
        destruct (occ_at x m y (pos1 - m + 1)) eqn:Eocc; [|reflexivity]. exfalso.
        apply occ_at_bytes in Eocc; try lia. destruct Eocc as (_ & Hbytes).
        apply E. rewrite HwH, HHm.
        replace (FHC1.wpos w) with (pos1 - m + 1 + (m - 1 - 1 * Z.of_nat kH)) by lia.
        apply (fhc1_chain_occ x m y); [assumption|lia]. }
      rewrite Hhit. cbn [bind]. int_in_range.
      eexists. split; [reflexivity|]. unfold fhc1_scan_inv. cbn [FHC1.pos FHC1.count].
      split; [lia|]. split; [lia|].
      replace (Z.to_nat (pos1 - m + 2 - 1 + (m - 1 + 1) - m + 1))
        with (Z.to_nat (pos1 - m + 1 + 1)) by lia.
      rewrite count_below_succ by lia. rewrite Hcount1.
      destruct (occ_at x m y (pos1 - m + 1)); lia.
  - int_in_range.
    eexists. split; [reflexivity|]. unfold fhc1_scan_inv. cbn [FHC1.pos FHC1.count].
    split; [lia|]. split; [lia|]. apply Hskip; [lia|].
    intros i Hi. apply occ_at_out; try assumption; lia.
Qed.

(** For every [m >= Q], that is for every non-empty pattern, [search] of
    fhc1 returns the number of occurrences. *)
Lemma fhc1_search_count x m y n :
  Z.of_nat (length x) = m -> Z.of_nat (length y) = n -> 1 <= m ->
  n + 2 * m <= INT_MAX ->
  FHC1.search x m y n = Ok (occurrences x m y n).
Proof.
  intros Hlen Hn Hm Hint. unfold FHC1.search.
  destruct (Z.ltb_spec m FHC1.Q) as [Hlt|_]; [change FHC1.Q with 1 in Hlt; lia|].
  cbv zeta.
  destruct (fhc1_table x m (repeat 0 (Z.to_nat FHC1.ASIZE)) Hlen Hm) as (H & B & Hpre & Hok).
  { rewrite repeat_length. reflexivity. }
  rewrite Hpre. cbn [bind]. unfold FHC1.scan.
  destruct (while_total (fhc1_scan_inv x m y) (fun s => Z.to_nat (n - FHC1.pos s))
                        (fun s => Ok (FHC1.pos s <? n)) (FHC1.scan_step x m y n B H))
    with (fuel := Datatypes.S (Z.to_nat n)) (s := FHC1.mkScan (m - 1) 0)
    as (s & Hrun & (Hpos & Hcount) & Hexit).
  - intros s Hinv. eexists. split; [reflexivity|]. intros Hc. apply Z.ltb_lt in Hc.
    destruct (fhc1_scan_step_count x m y n B H s Hlen Hn Hm Hint Hok Hc Hinv)
      as (s' & Hs' & Hadv & Hinv').
    exists s'. split; [assumption|]. split; [assumption|]. lia.
  - split; cbn [FHC1.pos FHC1.count]; [lia|].
    replace (Z.to_nat (m - 1 - m + 1)) with O by lia. reflexivity.
  - cbn [FHC1.pos]. lia.
  - rewrite Hrun. cbn [bind]. f_equal. rewrite Hcount. unfold occurrences.
    injection Hexit as Hexit. apply Z.ltb_ge in Hexit.
    apply count_below_none; [lia|].
    intros i Hi. apply occ_at_out; try assumption; lia.
Qed.

(** ** Occurrences in the first [n] bytes of a longer buffer *)

Lemma occ_text_eq x m y n i :
  0 <= i -> i + m <= n -> n <= Z.of_nat (length y) ->
  occ_at x m (slice y 0 n) i = occ_at x m y i.
Proof.
  intros Hi Him Hn. unfold occ_at. f_equal.
  apply list_eq_nth_error. intros k.
  rewrite !nth_error_slice by lia.
  destruct (Z.ltb_spec (Z.of_nat k) (i + m - i)); [|reflexivity].
  destruct (Z.ltb_spec (Z.of_nat (Z.to_nat i + k)) (n - 0)); [|lia].
  reflexivity.
Qed.

Lemma occ_text_bytes x m y n i :
  Z.of_nat (length x) = m -> 0 < m -> 0 <= i -> 0 <= n <= Z.of_nat (length y) ->
  occ_at x m (slice y 0 n) i = true ->
  i + m <= n /\ forall k, 0 <= k < m -> byte_at y (i + k) = byte_at x k.
Proof.
  intros Hlen Hm Hi Hn Hocc.
  apply occ_at_bytes in Hocc; try assumption. destruct Hocc as (Hin & Hb).
  rewrite slice_length in Hin by lia.
  split; [lia|]. intros k Hk. rewrite <- (Hb k Hk).
  rewrite byte_at_slice by lia. reflexivity.
Qed.

Lemma count_below_ext x m y y' (k : nat) :
  (forall i, 0 <= i < Z.of_nat k -> occ_at x m y i = occ_at x m y' i) ->
  count_below x m y k = count_below x m y' k.
Proof.
  induction k as [|k IH]; intros H; [reflexivity|].
  cbn [count_below]. rewrite IH by (intros i Hi; apply H; lia).
  rewrite (H (Z.of_nat k)) by lia. reflexivity.
Qed.

Lemma occurrences_text x m y n :
  0 <= n <= Z.of_nat (length y) ->
  occurrences x m (slice y 0 n) n = occurrences x m y n.
Proof.
  intros Hn. unfold occurrences. apply count_below_ext.
  intros i Hi. apply occ_text_eq; lia.
Qed.

(** ** thc2-1: the table and the count *)

Lemma thc2_CHAIN_HASH_val x p :
  1 <= p < Z.of_nat (length x) -> THC2.CHAIN_HASH x p = Ok (THC2S.chain x p).
Proof.
  intros Hp. unfold THC2.CHAIN_HASH, THC2.HASH, THC2S.chain.
  rewrite !rd_bv by lia. reflexivity.
Qed.

Lemma thc2_linked_mono B B' h h' :
  tbl_le B B' -> THC2S.linked B h h' -> THC2S.linked B' h h'.
Proof. intros Hle Hl. unfold THC2S.linked in *. eapply tbl_le_bit; eauto. Qed.

Lemma thc2_link_step_links x s :
  1 <= THC2.chain_pos s < Z.of_nat (length x) ->
  Z.of_nat (length (THC2.cB s)) = 2048 ->
  let H' := u32 (Z.shiftl (THC2.cH s) THC2.S2 + THC2S.chain x (THC2.chain_pos s)) in
  exists B', THC2.link_step x s = Ok (THC2.mkChain (THC2.chain_pos s - 2) H' B') /\
             Z.of_nat (length B') = 2048 /\ tbl_le (THC2.cB s) B' /\
             THC2S.linked B' (THC2.cH s) H'.
Proof.
  intros Hp HB H'. unfold THC2.link_step.
  rewrite thc2_CHAIN_HASH_val by assumption. cbn [bind].
  pose proof (thc2_mask_range (THC2.cH s)) as Hr.
  rewrite rdi_word by lia. cbn [bind].
  rewrite wri_Ok by lia. cbn [bind].
  eexists. split; [reflexivity|].
  split; [rewrite length_upd; assumption|].
  split; [apply tbl_le_lor; lia|].
  unfold THC2S.linked. rewrite word_at_upd_eq by lia.
  rewrite Z.lor_spec. unfold THC2.FINGERPRINT.
  rewrite fp_testbit.
  - fold H'. rewrite Z.eqb_refl. apply orb_true_r.
  - apply land31_range.
Qed.

(** The chain of one anchor: every step down to [stop_chain] is recorded. *)
Lemma thc2_chain_loop_links x a B0 :
  3 <= a < Z.of_nat (length x) -> Z.of_nat (length B0) = 2048 ->
  exists c,
    while (Z.to_nat (THC2.CHAIN_LENGTH + 5))
          (fun c => Ok (THC2.chain_pos c >=? Z.max THC2.END_FIRST_QGRAM (a - THC2.Q - THC2.CHAIN_LENGTH)))
          (THC2.link_step x) (THC2.mkChain (a - THC2.Q) (THC2S.anchor x a) B0) = Ok c /\
    Z.of_nat (length (THC2.cB c)) = 2048 /\ tbl_le B0 (THC2.cB c) /\
    forall j : nat, Z.max 1 (a - 10) <= a - 2 * (Z.of_nat j + 1) ->
                    THC2S.linked (THC2.cB c) (THC2S.roll x a j) (THC2S.roll x a (Datatypes.S j)).
Proof.
  intros Ha HB.
  change THC2.CHAIN_LENGTH with 8. change THC2.Q with 2. change THC2.END_FIRST_QGRAM with 1.
  set (stop := Z.max 1 (a - 2 - 8)).
  destruct (while_total
    (fun c => exists i : nat,
       THC2.chain_pos c = a - 2 - 2 * Z.of_nat i /\ THC2.cH c = THC2S.roll x a i /\
       Z.of_nat (length (THC2.cB c)) = 2048 /\ tbl_le B0 (THC2.cB c) /\
       stop - 2 <= THC2.chain_pos c /\
       forall j : nat, (j < i)%nat ->
          THC2S.linked (THC2.cB c) (THC2S.roll x a j) (THC2S.roll x a (Datatypes.S j)))
    (fun c => Z.to_nat (THC2.chain_pos c - stop + 3))
    (fun c => Ok (THC2.chain_pos c >=? stop)) (THC2.link_step x))
    with (fuel := Z.to_nat (8 + 5)) (s := THC2.mkChain (a - 2) (THC2S.anchor x a) B0)
    as (c & Hrun & (i & Hpos & HH & Hlen & Hle & Hlow & Hlinks) & Hexit).
  - intros c (i & Hpos & HH & Hlen & Hle & Hlow & Hlinks).
    eexists. split; [reflexivity|]. intros Hc. apply Z.geb_le in Hc.
    destruct (thc2_link_step_links x c) as (B' & Hstep & HlenB' & HleB' & Hlk);
      [subst stop; lia|assumption|].
    eexists. split; [exact Hstep|]. cbn [THC2.chain_pos THC2.cH THC2.cB]. split; [|lia].
    exists (Datatypes.S i). split; [lia|]. split.
    { cbn [THC2S.roll]. rewrite HH. change THC2.Q with 2. do 3 f_equal. lia. }
    split; [assumption|]. split; [eapply tbl_le_trans; eauto|]. split; [lia|].
    intros j Hj. destruct (Nat.eq_dec j i) as [->|Hne].
    + cbn [THC2S.roll]. rewrite HH in Hlk. change THC2.Q with 2.
      replace (a - 2 * Z.of_nat (Datatypes.S i)) with (THC2.chain_pos c) by lia. exact Hlk.
    + eapply thc2_linked_mono; [exact HleB'|]. apply Hlinks. lia.
  - exists O. cbn [THC2.chain_pos THC2.cH THC2.cB THC2S.roll].
    split; [lia|]. split; [reflexivity|]. split; [assumption|].
    split; [apply tbl_le_refl|]. split; [subst stop; lia|]. intros j Hj. lia.
  - cbn [THC2.chain_pos]. subst stop. lia.
  - exists c. split; [exact Hrun|]. split; [assumption|]. split; [assumption|].
    intros j Hj. apply Hlinks. injection Hexit as Hexit.
    assert (THC2.chain_pos c < stop)
      by (destruct (Z.geb_spec (THC2.chain_pos c) stop); [discriminate|lia]).
    subst stop. lia.
Qed.

Lemma thc2_anchor_step_links x s :
  3 <= THC2.anchor_pos s < Z.of_nat (length x) ->
  Z.of_nat (length (THC2.aB s)) = 2048 ->
  exists B', THC2.anchor_step x s = Ok (THC2.mkAnchor (THC2.anchor_pos s + 1) B') /\
    Z.of_nat (length B') = 2048 /\ tbl_le (THC2.aB s) B' /\
    forall j : nat,
      Z.max 1 (THC2.anchor_pos s - 10) <= THC2.anchor_pos s - 2 * (Z.of_nat j + 1) ->
      THC2S.linked B' (THC2S.roll x (THC2.anchor_pos s) j)
                  (THC2S.roll x (THC2.anchor_pos s) (Datatypes.S j)).
Proof.
  intros Ha HB. unfold THC2.anchor_step.
  rewrite thc2_ANCHOR_HASH_val by lia. cbn [bind]. cbv zeta.
  destruct (thc2_chain_loop_links x (THC2.anchor_pos s) (THC2.aB s) Ha HB)
    as (c & Hrun & Hlen & Hle & Hlinks).
  rewrite Hrun. cbn [bind].
  eauto.
Qed.

Lemma thc2_anchor_loop_links x m B0 :
  Z.of_nat (length x) = m -> Z.of_nat (length B0) = 2048 ->
  exists s,
    while (Datatypes.S (Z.to_nat m)) (fun s => Ok (THC2.anchor_pos s <? m))
          (THC2.anchor_step x) (THC2.mkAnchor THC2.END_SECOND_QGRAM B0) = Ok s /\
    Z.of_nat (length (THC2.aB s)) = 2048 /\ tbl_le B0 (THC2.aB s) /\
    forall a (j : nat), 3 <= a < m -> Z.max 1 (a - 10) <= a - 2 * (Z.of_nat j + 1) ->
      THC2S.linked (THC2.aB s) (THC2S.roll x a j) (THC2S.roll x a (Datatypes.S j)).
Proof.
  intros Hm HB. change THC2.END_SECOND_QGRAM with 3.
  destruct (while_total
    (fun s => 3 <= THC2.anchor_pos s /\ Z.of_nat (length (THC2.aB s)) = 2048 /\
              tbl_le B0 (THC2.aB s) /\
              forall a (j : nat), 3 <= a < THC2.anchor_pos s -> a < m ->
                Z.max 1 (a - 10) <= a - 2 * (Z.of_nat j + 1) ->
                THC2S.linked (THC2.aB s) (THC2S.roll x a j) (THC2S.roll x a (Datatypes.S j)))
    (fun s => Z.to_nat (m - THC2.anchor_pos s))
    (fun s => Ok (THC2.anchor_pos s <? m)) (THC2.anchor_step x))
    with (fuel := Datatypes.S (Z.to_nat m)) (s := THC2.mkAnchor 3 B0)
    as (s & Hrun & (Hpos & Hlen & Hle & Hlinks) & Hexit).
  - intros s (Hpos & Hlen & Hle & Hlinks).
    eexists. split; [reflexivity|]. intros Hc. apply Z.ltb_lt in Hc.
    destruct (thc2_anchor_step_links x s) as (B' & Hstep & HlenB' & HleB' & Hlk);
      [lia|assumption|].
    eexists. split; [exact Hstep|]. cbn [THC2.anchor_pos THC2.aB]. split; [|lia].
    split; [lia|]. split; [assumption|]. split; [eapply tbl_le_trans; eauto|].
    intros a j Ha Ham Hj.
    destruct (Z.eq_dec a (THC2.anchor_pos s)) as [->|Hne].
    + now apply Hlk.
    + eapply thc2_linked_mono; [exact HleB'|]. apply Hlinks; lia.
  - cbn [THC2.anchor_pos THC2.aB]. split; [lia|]. split; [assumption|].
    split; [apply tbl_le_refl|]. intros; lia.
  - cbn [THC2.anchor_pos]. lia.
  - exists s. split; [exact Hrun|]. split; [assumption|]. split; [assumption|].
    injection Hexit as Hexit. apply Z.ltb_ge in Hexit.
    intros a j Ha Hj. apply Hlinks; lia.
Qed.

Lemma thc2_roll_loop_val x a :
  1 <= a < Z.of_nat (length x) ->
  exists (r : Z * Z) (i : nat),
    while (Datatypes.S (Z.to_nat (Z.of_nat (length x))))
          (fun s => Ok (fst s >=? THC2.END_FIRST_QGRAM))
          (THC2.roll_step x) (a - THC2.Q, THC2S.anchor x a) = Ok r /\
    snd r = THC2S.roll x a i /\ -1 <= a - 2 - 2 * Z.of_nat i < 1.
Proof.
  intros Ha. change THC2.END_FIRST_QGRAM with 1. change THC2.Q with 2.
  destruct (while_total
    (fun s : Z * Z => exists i : nat, fst s = a - 2 - 2 * Z.of_nat i /\
                                      snd s = THC2S.roll x a i /\ -1 <= fst s)
    (fun s => Z.to_nat (fst s + 1))
    (fun s => Ok (fst s >=? 1)) (THC2.roll_step x))
    with (fuel := Datatypes.S (Z.to_nat (Z.of_nat (length x)))) (s := (a - 2, THC2S.anchor x a))
    as (r & Hrun & (i & Hpos & HH & Hlow) & Hexit).
  - intros s (i & Hpos & HH & Hlow).
    eexists. split; [reflexivity|]. intros Hc. apply Z.geb_le in Hc.
    unfold THC2.roll_step. rewrite thc2_CHAIN_HASH_val by lia. cbn [bind].
    eexists. split; [reflexivity|]. cbn [fst snd]. change THC2.Q with 2. split; [|lia].
    exists (Datatypes.S i). split; [lia|]. split; [|lia].
    cbn [THC2S.roll]. rewrite HH. change THC2.Q with 2.
    do 3 f_equal. lia.
  - exists O. cbn [fst snd THC2S.roll]. split; [lia|]. split; [reflexivity|lia].
  - cbn [fst]. lia.
  - exists r, i. split; [exact Hrun|]. split; [assumption|].
    injection Hexit as Hexit.
    destruct (Z.geb_spec (fst r) 1); [discriminate|]. lia.
Qed.

(** What [preprocessing] leaves in the table, read directly off its loops. *)
Lemma thc2_preprocessing_loops x m B0 :
  Z.of_nat (length x) = m -> 2 <= m -> Z.of_nat (length B0) = 2048 ->
  exists Hm B,
    THC2.preprocessing x m B0 = Ok (Hm, B) /\
    Z.of_nat (length B) = 2048 /\
    (forall a (j : nat), 3 <= a < m -> Z.max 1 (a - 10) <= a - 2 * (Z.of_nat j + 1) ->
       THC2S.linked B (THC2S.roll x a j) (THC2S.roll x a (Datatypes.S j))) /\
    (forall p, 1 <= p < Z.min m 3 ->
       word_at B (Z.land (THC2S.anchor x p) THC2.TABLE_MASK) <> 0) /\
    (exists i : nat, Hm = THC2S.roll x (m - 1) i /\ -1 <= m - 3 - 2 * Z.of_nat i < 1).
Proof.
  intros Hm Hm2 HB. unfold THC2.preprocessing. cbv zeta.
  assert (HB' : Z.of_nat (length (map (fun _ : Z => 0) B0)) = 2048)
    by (rewrite length_map; assumption).
  destruct (thc2_anchor_loop_links x m _ Hm HB') as (s1 & Hrun1 & Hlen1 & Hle1 & Hlinks).
  rewrite Hrun1. cbn [bind].
  destruct (thc2_first_loop x m (THC2.aB s1) Hm Hm2 Hlen1) as (s2 & Hrun2 & Hlen2 & Hle2 & Hnz).
  rewrite Hrun2. cbn [bind].
  rewrite thc2_ANCHOR_HASH_val by lia. cbn [bind].
  destruct (thc2_roll_loop_val x (m - 1)) as (r & i & Hrun3 & HH & Hi); [lia|].
  rewrite Hm in Hrun3. rewrite Hrun3. cbn [bind].
  exists (snd r), (THC2.aB s2). split; [reflexivity|]. split; [assumption|].
  split; [|split].
  - intros a j Ha Hj. eapply thc2_linked_mono; [exact Hle2|]. now apply Hlinks.
  - assumption.
  - exists i. split; [assumption|lia].
Qed.

Lemma thc2_roll_shift x a (k j : nat) :
  (j <= 8)%nat ->
  THC2S.roll x a (k + j) mod 2 ^ (4 * Z.of_nat j)
  = THC2S.roll x (a - 2 * Z.of_nat k) j mod 2 ^ (4 * Z.of_nat j).
Proof.
  induction j as [|j IH]; intros Hj.
  - change (2 ^ (4 * Z.of_nat 0)) with 1. now rewrite !Z.mod_1_r.
  - replace (k + Datatypes.S j)%nat with (Datatypes.S (k + j)) by lia.
    cbn [THC2S.roll]. change THC2.Q with 2. change THC2.S2 with HC3.S2.
    replace (4 * Z.of_nat (Datatypes.S j)) with (4 * Z.of_nat j + 4) by lia.
    replace (a - 2 * Z.of_nat k - 2 * Z.of_nat (Datatypes.S j))
      with (a - 2 * Z.of_nat (Datatypes.S (k + j))) by lia.
    apply hc3_roll_step_cong; [lia|lia|]. apply IH. lia.
Qed.

(** Every chain step inside the pattern is recorded, also beyond the
    [CHAIN_LENGTH] steps that each anchor's loop writes: after three steps the
    table index no longer depends on the anchor, so a later anchor's chain
    wrote the same entry. *)
Lemma thc2_links_complete x m B :
  (forall a (j : nat), 3 <= a < m -> Z.max 1 (a - 10) <= a - 2 * (Z.of_nat j + 1) ->
     THC2S.linked B (THC2S.roll x a j) (THC2S.roll x a (Datatypes.S j))) ->
  forall a (j : nat), 3 <= a < m -> 1 <= a - 2 * (Z.of_nat j + 1) ->
    THC2S.linked B (THC2S.roll x a j) (THC2S.roll x a (Datatypes.S j)).
Proof.
  intros Hlinks a j Ha Hj.
  destruct (Z.le_gt_cases (a - 10) (a - 2 * (Z.of_nat j + 1))) as [Hshort|Hlong].
  - apply Hlinks; lia.
  - set (k := (j - 3)%nat).
    assert (Hk : j = (k + 3)%nat) by (subst k; lia).
    specialize (Hlinks (a - 2 * Z.of_nat k) 3%nat ltac:(lia) ltac:(lia)).
    unfold THC2S.linked in *. change THC2.TABLE_MASK with (2 ^ 11 - 1) in *.
    change 31 with (2 ^ 5 - 1) in *.
    rewrite !land_pow2_mod in * by lia.
    rewrite Hk.
    rewrite (mod_pow2_le _ _ 11 12 ltac:(lia) (thc2_roll_shift x a k 3 ltac:(lia))).
    replace (Datatypes.S (k + 3)) with (k + 4)%nat by lia.
    rewrite (mod_pow2_le _ _ 5 16 ltac:(lia) (thc2_roll_shift x a k 4 ltac:(lia))).
    exact Hlinks.
Qed.

Lemma thc2_table x m B0 :
  Z.of_nat (length x) = m -> 2 <= m -> Z.of_nat (length B0) = 2048 ->
  exists Hm B, THC2.preprocessing x m B0 = Ok (Hm, B) /\ thc2_table_ok x m B Hm.
Proof.
  intros Hlen Hm2 HB.
  destruct (thc2_preprocessing_loops x m B0 Hlen Hm2 HB)
    as (Hm & B & Hrun & HlenB & Hlinks & Hnz & HHm).
  exists Hm, B. split; [assumption|].
  pose proof (thc2_links_complete x m B Hlinks) as Hall.
  split; [assumption|]. split; [assumption|]. split; [|assumption].
  intros p Hp. destruct (Z.lt_ge_cases p 3) as [Hlt|Hge].
  - apply Hnz. lia.
  - specialize (Hall p O ltac:(lia) ltac:(lia)). unfold THC2S.linked in Hall.
    cbn [THC2S.roll] in Hall. intros E. rewrite E, Z.testbit_0_l in Hall. discriminate.
Qed.

(** Inside an occurrence at [i] the text hashes are the pattern hashes. *)
Lemma thc2_anchor_occ x m y i p :
  (forall k, 0 <= k < m -> byte_at y (i + k) = byte_at x k) ->
  1 <= p < m -> THC2S.anchor y (i + p) = THC2S.anchor x p.
Proof. exact (thc2_anchor_sentinel x m y i p). Qed.

Lemma thc2_chain_occ x m y i p :
  (forall k, 0 <= k < m -> byte_at y (i + k) = byte_at x k) ->
  1 <= p < m -> THC2S.chain y (i + p) = THC2S.chain x p.
Proof.
  intros Hs Hp. unfold THC2S.chain.
  rewrite (bv_byte_at x y (i + p) p) by (apply Hs; lia).
  replace (i + p - 1) with (i + (p - 1)) by lia.
  rewrite (bv_byte_at x y (i + (p - 1)) (p - 1)) by (apply Hs; lia).
  reflexivity.
Qed.

Lemma thc2_roll_occ x m y i p (j : nat) :
  (forall k, 0 <= k < m -> byte_at y (i + k) = byte_at x k) ->
  p < m -> 1 <= p - 2 * Z.of_nat j ->
  THC2S.roll y (i + p) j = THC2S.roll x p j.
Proof.
  intros Hb Hp. induction j as [|j IH]; intros Hj.
  - cbn [THC2S.roll]. apply (thc2_anchor_occ x m); [assumption|lia].
  - cbn [THC2S.roll]. rewrite IH by lia. change THC2.Q with 2.
    replace (i + p - 2 * Z.of_nat (Datatypes.S j)) with (i + (p - 2 * Z.of_nat (Datatypes.S j))) by lia.
    rewrite (thc2_chain_occ x m y i) by (try assumption; lia). reflexivity.
Qed.

(** The backward chain walk from an anchor at [pos0]: either it stops at a
    missing fingerprint, or it reads back to the first q-gram of the window
    that ends at [pos0]. *)
Lemma thc2_walk_loop y B m pos0 :
  Z.of_nat (length B) = 2048 -> 2 <= m -> m - 1 <= pos0 < Z.of_nat (length y) ->
  exists w,
    THC2.walk y B m pos0 (THC2S.anchor y pos0)
              (word_at B (Z.land (THC2S.anchor y pos0) THC2.TABLE_MASK)) = Ok w /\
    exists i : nat,
      THC2.wpos w = pos0 - 2 * Z.of_nat i /\ THC2.wH w = THC2S.roll y pos0 i /\
      pos0 - m + 2 <= THC2.wpos w /\
      (THC2.failed w = true ->
         (0 < i)%nat /\
         ~ THC2S.linked B (THC2S.roll y pos0 (i - 1)) (THC2S.roll y pos0 i)) /\
      (THC2.failed w = false -> THC2.wpos w < pos0 - m + 4).
Proof.
  intros HB Hm Hpos. unfold THC2.walk. cbv zeta. change THC2.Q with 2.
  replace (pos0 - (m - 2 - 2)) with (pos0 - m + 4) by lia.
  destruct (while_total
    (fun w => exists i : nat,
       THC2.wpos w = pos0 - 2 * Z.of_nat i /\ THC2.wH w = THC2S.roll y pos0 i /\
       pos0 - m + 2 <= THC2.wpos w /\
       (THC2.failed w = true ->
         (0 < i)%nat /\
         ~ THC2S.linked B (THC2S.roll y pos0 (i - 1)) (THC2S.roll y pos0 i)) /\
       (THC2.failed w = false ->
          THC2.wV w = word_at B (Z.land (THC2.wH w) THC2.TABLE_MASK)))
    (fun w => Z.to_nat (THC2.wpos w - (pos0 - m)))
    (fun w => Ok (negb (THC2.failed w) && (THC2.wpos w >=? pos0 - m + 4)))
    (THC2.walk_step y B))
    with (fuel := Datatypes.S (Z.to_nat m))
         (s := THC2.mkWalk pos0 (THC2S.anchor y pos0)
                 (word_at B (Z.land (THC2S.anchor y pos0) THC2.TABLE_MASK)) false)
    as (w & Hrun & (i & Hwp & HwH & Hlow & Hfail & Hok) & Hexit).
  - intros w (i & Hwp & HwH & Hlow & Hfail & Hok).
    eexists. split; [reflexivity|]. intros Hc.
    apply andb_true_iff in Hc. destruct Hc as (Hnf & Hge).
    apply negb_true_iff in Hnf. apply Z.geb_le in Hge.
    unfold THC2.walk_step. cbv zeta. change THC2.Q with 2.
    rewrite thc2_CHAIN_HASH_val by lia. cbn [bind].
    set (H' := u32 (Z.shiftl (THC2.wH w) THC2.S2 + THC2S.chain y (THC2.wpos w - 2))).
    assert (HH' : H' = THC2S.roll y pos0 (Datatypes.S i)).
    { subst H'. cbn [THC2S.roll]. rewrite HwH. change THC2.Q with 2.
      do 3 f_equal. lia. }
    unfold THC2.FINGERPRINT. rewrite land_fp_zero.
    destruct (Z.testbit (THC2.wV w) (Z.land H' 31)) eqn:Ebit; cbn [negb].
    + pose proof (thc2_mask_range H') as Hr. rewrite rdi_word by lia. cbn [bind].
      eexists. split; [reflexivity|]. cbn [THC2.wpos THC2.wH THC2.wV THC2.failed].
      split; [|lia]. exists (Datatypes.S i).
      split; [lia|]. split; [assumption|]. split; [lia|].
      split; [discriminate|]. intros _. reflexivity.
    + eexists. split; [reflexivity|]. cbn [THC2.wpos THC2.wH THC2.wV THC2.failed].
      split; [|lia]. exists (Datatypes.S i).
      split; [lia|]. split; [assumption|]. split; [lia|].
      split; [|discriminate]. intros _. split; [lia|].
      specialize (Hok Hnf).
      unfold THC2S.linked. replace (Datatypes.S i - 1)%nat with i by lia.
      rewrite <- HwH, <- HH', <- Hok, Ebit. discriminate.
  - exists O. cbn [THC2.wpos THC2.wH THC2.wV THC2.failed THC2S.roll].
    split; [lia|]. split; [reflexivity|]. split; [lia|].
    split; [discriminate|]. intros _. reflexivity.
  - cbn [THC2.wpos]. lia.
  - exists w. split; [exact Hrun|]. exists i.
    split; [assumption|]. split; [assumption|]. split; [assumption|].
    split; [assumption|]. intros Hnf. injection Hexit as Hexit.
    rewrite Hnf in Hexit. cbn [negb andb] in Hexit.
    destruct (Z.geb_spec (THC2.wpos w) (pos0 - m + 4)); [discriminate|lia].
Qed.

(** The skip loop stops on a non-empty table word, at the latest on the last
    q-gram of the sentinel; the windows it passes hold no occurrence inside
    the text. *)
Lemma thc2_skip_loop x m y n B Hm pos0 :
  Z.of_nat (length x) = m -> 2 <= m -> 0 <= n -> n + m <= Z.of_nat (length y) ->
  n + m <= INT_MAX ->
  (forall i, 0 <= i < m -> byte_at y (n + i) = byte_at x i) ->
  thc2_table_ok x m B Hm -> m - 1 <= pos0 <= n ->
  exists pos1,
    THC2.skip y B m n pos0 = Ok pos1 /\ pos0 <= pos1 <= n + m - 1 /\
    (forall i, pos0 - m + 1 <= i < pos1 - m + 1 -> occ_at x m (slice y 0 n) i = false).
Proof.
  intros Hlen Hm2 Hn Hcap Hint Hsent (HB & _ & Hnz & _) Hpos.
  unfold THC2.skip. cbv zeta. change THC2.Q with 2.
  destruct (while_total
    (fun pos => pos0 <= pos <= n + m - 1 /\
       forall i, pos0 - m + 1 <= i < pos - m + 1 -> occ_at x m (slice y 0 n) i = false)
    (fun pos => Z.to_nat (n + m - pos))
    (THC2.skip_cond y B) (fun pos => int (pos + (m - 2 + 1))))
    with (fuel := Datatypes.S (Z.to_nat (n + m))) (s := pos0)
    as (pos1 & Hrun & (Hp1 & Hnone) & _).
  - intros pos (Hp & Hnone). unfold THC2.skip_cond.
    rewrite thc2_ANCHOR_HASH_val by lia. cbn [bind].
    pose proof (thc2_mask_range (THC2S.anchor y pos)) as Hr.
    rewrite rdi_word by lia. cbn [bind].
    eexists. split; [reflexivity|]. intros Hz. apply Z.eqb_eq in Hz.
    assert (pos <= n).
    { destruct (Z.le_gt_cases pos n); [assumption|]. exfalso.
      apply (Hnz (pos - n)); [lia|].
      rewrite <- (thc2_anchor_sentinel x m y n) by (try assumption; lia).
      replace (n + (pos - n)) with pos by lia. exact Hz. }
    int_in_range.
    eexists. split; [reflexivity|].
    split; [|lia]. split; [lia|].
    intros i Hi. destruct (Z.lt_ge_cases i (pos - m + 1)); [apply Hnone; lia|].
    destruct (occ_at x m (slice y 0 n) i) eqn:Eocc; [|reflexivity]. exfalso.
    apply occ_text_bytes in Eocc; try lia. destruct Eocc as (_ & Hbytes).
    apply (Hnz (pos - i)); [lia|].
    rewrite <- (thc2_anchor_occ x m y i) by (try assumption; lia).
    replace (i + (pos - i)) with pos by lia. exact Hz.
  - split; [lia|]. intros; lia.
  - lia.
  - exists pos1. auto.
Qed.

Lemma thc2_scan_step_count x m y n B Hm s :
  Z.of_nat (length x) = m -> 2 <= m -> 0 <= n -> n + m <= Z.of_nat (length y) ->
  n + 2 * m <= INT_MAX ->
  (forall i, 0 <= i < m -> byte_at y (n + i) = byte_at x i) ->
  thc2_table_ok x m B Hm -> THC2.pos s < n -> thc2_scan_inv x m y n s ->
  exists s', THC2.scan_step x m y n B Hm s = Ok s' /\ THC2.pos s + 1 <= THC2.pos s' /\
             thc2_scan_inv x m y n s'.
Proof.
  intros Hlen Hm2 Hn Hcap Hint Hsent Hok Hlt (Hpos & Hcount).
  destruct (thc2_skip_loop x m y n B Hm (THC2.pos s) Hlen Hm2 Hn Hcap ltac:(lia) Hsent Hok ltac:(lia))
    as (pos1 & Hskiprun & Hp1 & Hnone1).
  destruct Hok as (HB & Hlinks & Hnz & (iH & HHm & HiH)).
  assert (Hcount1 : THC2.count s
                    = count_below x m (slice y 0 n) (Z.to_nat (pos1 - m + 1))).
  { rewrite Hcount. symmetry. apply count_below_none; [lia|].
    intros i Hi. apply Hnone1. lia. }
  assert (Hskip : forall newpos,
             pos1 + 1 <= newpos ->
             (forall i, pos1 - m + 1 <= i < newpos - m + 1 ->
                        occ_at x m (slice y 0 n) i = false) ->
             THC2.count s = count_below x m (slice y 0 n) (Z.to_nat (newpos - m + 1))).
  { intros newpos Hnp Hnone. rewrite Hcount1. symmetry. apply count_below_none; [lia|].
    intros i Hi. apply Hnone. lia. }
  unfold THC2.scan_step. cbv zeta. rewrite Hskiprun. cbn [bind]. change THC2.Q with 2.
  destruct (Z.ltb_spec pos1 n) as [Hlt1|Hge1].
  - rewrite thc2_ANCHOR_HASH_val by lia. cbn [bind].
    pose proof (thc2_mask_range (THC2S.anchor y pos1)) as Hr.
    rewrite rdi_word by lia. cbn [bind]. int_in_range.
    destruct (thc2_walk_loop y B m pos1 HB Hm2 ltac:(lia))
      as (w & Hwalk & i & Hwp & HwH & Hlow & Hfail & Hokw).
    rewrite Hwalk. cbn [bind].
    destruct (THC2.failed w) eqn:Ef.
    + destruct (Hfail eq_refl) as (Hi & Hnl).
      int_in_range.
      eexists. split; [reflexivity|]. unfold thc2_scan_inv. cbn [THC2.pos THC2.count].
      split; [lia|]. split; [lia|]. apply Hskip; [lia|].
      intros k Hk. destruct (occ_at x m (slice y 0 n) k) eqn:Eocc; [|reflexivity]. exfalso.
      apply occ_text_bytes in Eocc; try lia. destruct Eocc as (_ & Hbytes).
      apply Hnl.
      replace pos1 with (k + (pos1 - k)) by lia.
      rewrite !(thc2_roll_occ x m y k) by (try assumption; lia).
      replace i with (Datatypes.S (i - 1)) at 2 by lia.
      apply Hlinks; lia.
    + specialize (Hokw eq_refl).
      assert (Hhit : (if THC2.wH w =? Hm
                      then memcmp_eq y (pos1 - (m - 2 - 2) - 2 - 2 + 1) x m
                      else Ok false) = Ok (occ_at x m (slice y 0 n) (pos1 - m + 1))).
      { replace (pos1 - (m - 2 - 2) - 2 - 2 + 1) with (pos1 - m + 1) by lia.
        rewrite occ_text_eq by lia.
        destruct (Z.eqb_spec (THC2.wH w) Hm) as [E|E]; [apply memcmp_eq_occ; lia|].
        destruct (occ_at x m y (pos1 - m + 1)) eqn:Eocc; [|reflexivity]. exfalso.
        apply occ_at_bytes in Eocc; try lia. destruct Eocc as (_ & Hbytes).
        apply E. rewrite HwH, HHm.
        assert (i = iH) as -> by lia.
        replace pos1 with ((pos1 - m + 1) + (m - 1)) at 1 by lia.
        apply (thc2_roll_occ x m y); [assumption|lia|lia]. }
      rewrite Hhit. cbn [bind]. int_in_range.
      eexists. split; [reflexivity|]. unfold thc2_scan_inv. cbn [THC2.pos THC2.count].
      split; [lia|]. split; [lia|].
      replace (Z.to_nat (pos1 - (m - 2 - 2) - 2 + (m - 2 + 1) - m + 1))
        with (Z.to_nat (pos1 - m + 1 + 1)) by lia.
      rewrite count_below_succ by lia. rewrite Hcount1.
      destruct (occ_at x m (slice y 0 n) (pos1 - m + 1)); lia.
  - int_in_range.
    eexists. split; [reflexivity|]. unfold thc2_scan_inv. cbn [THC2.pos THC2.count].
    split; [lia|]. split; [lia|]. apply Hskip; [lia|].
    intros i Hi. apply occ_at_out; try assumption; try lia.
    rewrite slice_length by lia. lia.
Qed.

Lemma sentinel_copy_text x m y n y' :
  0 <= n -> n + m <= Z.of_nat (length y) -> sentinel_copy x m y n y' ->
  slice y' 0 n = slice y 0 n.
Proof.
  intros Hn Hcap (Hl & Htext & _).
  apply list_eq_nth_error. intros k. rewrite !nth_error_slice by lia.
  destruct (Z.ltb_spec (Z.of_nat k) (n - 0)); [|reflexivity].
  specialize (Htext (Z.of_nat k) ltac:(lia)). unfold byte_at in Htext.
  destruct (Z.ltb_spec (Z.of_nat k) 0); [lia|]. rewrite Nat2Z.id in Htext.
  exact Htext.
Qed.

(** For every [m >= Q] and every buffer with room for the sentinel behind
    the [n] bytes of text, [search] of thc2-1 returns the number of
    occurrences in the text (the copy of the pattern behind the text is not
    counted), and the buffer with the sentinel written. *)
Lemma thc2_search_count (x : bytes) (m : Z) (y : bytes) (n : Z) :
  Z.of_nat (length x) = m -> 2 <= m -> 0 <= n -> n + m <= Z.of_nat (length y) ->
  n + 2 * m <= INT_MAX ->
  exists y', THC2.search x m y n = Ok (occurrences x m y n, y') /\
             sentinel_copy x m y n y'.
Proof.
  intros Hlen Hm2 Hn Hcap Hint. unfold THC2.search.
  destruct (Z.ltb_spec m THC2.Q) as [Hlt|_]; [change THC2.Q with 2 in Hlt; lia|].
  cbv zeta.
  destruct (thc2_table x m (repeat 0 (Z.to_nat THC2.ASIZE)) Hlen Hm2)
    as (Hm & B & Hpre & Hok).
  { rewrite repeat_length. reflexivity. }
  rewrite Hpre. cbn [bind].
  destruct (thc2_copy_pattern x m y n Hlen Hn Hcap) as (y' & Hcopy & Hsc).
  rewrite Hcopy. cbn [bind]. unfold THC2.scan.
  pose proof Hsc as (Hl' & _ & Hsent & _).
  assert (Hcap' : n + m <= Z.of_nat (length y')) by (rewrite Hl'; assumption).
  destruct (while_total (thc2_scan_inv x m y' n)
                        (fun s => Z.to_nat (n - THC2.pos s))
                        (fun s => Ok (THC2.pos s <? n)) (THC2.scan_step x m y' n B Hm))
    with (fuel := Datatypes.S (Z.to_nat n)) (s := THC2.mkScan (m - 1) 0)
    as (s & Hrun & (Hpos & Hcount) & Hexit).
  - intros s Hinv. eexists. split; [reflexivity|]. intros Hcond. apply Z.ltb_lt in Hcond.
    destruct (thc2_scan_step_count x m y' n B Hm s Hlen Hm2 Hn Hcap' Hint Hsent Hok Hcond Hinv)
      as (s' & Hs' & Hadv & Hinv').
    exists s'. split; [assumption|]. split; [assumption|]. lia.
  - split; cbn [THC2.pos THC2.count]; [lia|].
    replace (Z.to_nat (m - 1 - m + 1)) with O by lia. reflexivity.
  - cbn [THC2.pos]. lia.
  - rewrite Hrun. cbn [bind]. exists y'. split; [|assumption]. do 2 f_equal.
    rewrite Hcount. rewrite <- (occurrences_text x m y n) by lia.
    rewrite <- (sentinel_copy_text x m y n y' Hn Hcap Hsc).
    unfold occurrences.
    injection Hexit as Hexit. apply Z.ltb_ge in Hexit.
    apply count_below_none; [lia|].
    intros i Hi. apply occ_at_out; try assumption; try lia.
    rewrite slice_length by lia. lia.
Qed.

(** ** thc2-1: a buffer without room for the sentinel *)

(** A loop whose condition holds and whose body, unless it leaves its
    array, makes progress under an invariant, ends by leaving the array. *)
Lemma while_fault {S : Type} (Inv : S -> Prop) (mu : S -> nat)
      (cond : S -> result bool) (body : S -> result S) :
  (forall s, Inv s ->
     cond s = Ok true /\
     (body s = Fault \/ exists s', body s = Ok s' /\ Inv s' /\ (mu s' < mu s)%nat)) ->
  forall fuel s, Inv s -> (mu s < fuel)%nat -> while fuel cond body s = Fault.
Proof.
  intros Hstep fuel.
  induction fuel as [|f IH]; intros s Hinv Hmu; [lia|].
  destruct (Hstep s Hinv) as (Hc & [Hb|(s' & Hb & Hinv' & Hlt)]).
  - cbn [while]. rewrite Hc. cbn [bind]. rewrite Hb. reflexivity.
  - cbn [while]. rewrite Hc. cbn [bind]. rewrite Hb. cbn [bind].
    apply IH; [assumption|lia].
Qed.

Lemma thc2_copy_pattern_fault (x : bytes) (m : Z) (y : bytes) (n : Z) :
  Z.of_nat (length x) = m -> 0 < m -> 0 <= n -> Z.of_nat (length y) < n + m ->
  THC2.copy_pattern x m y n = Fault.
Proof.
  intros Hlen Hm Hn Hcap. unfold THC2.copy_pattern.
  rewrite (while_fault
    (fun s : Z * bytes => 0 <= fst s < m /\ length (snd s) = length y)
    (fun s => Z.to_nat (m - fst s))
    (fun s => Ok (fst s <? m)) (THC2.copy_step x n)); [reflexivity| |cbn [fst snd]; auto with zarith|cbn [fst]; lia].
  intros [i y1] (Hi & Hl). cbn [fst snd] in *. split.
  - f_equal. apply Z.ltb_lt. lia.
  - unfold THC2.copy_step. cbn [fst snd].
    destruct (byte_at_in_range x i ltac:(lia)) as (b & Hb).
    rewrite (rdb_byte_at _ _ _ Hb). cbn [bind].
    unfold wrb. destruct (Z.ltb_spec (n + i) 0); [lia|]. cbn [orb].
    destruct (Z.leb_spec (Z.of_nat (length y1)) (n + i)) as [Hout|Hin].
    + left. reflexivity.
    + right. cbn [bind]. eexists. split; [reflexivity|]. cbn [fst snd].
      rewrite length_upd. split; [split; [lia|assumption]|lia].
Qed.

(** ** hc6: the table and the count *)

Lemma hc6_CHAIN_HASH_val x p :
  5 <= p < Z.of_nat (length x) -> HC6.CHAIN_HASH x p = Ok (HC6S.chain x p).
Proof.
  intros Hp. unfold HC6.CHAIN_HASH, HC6.HASH, HC6S.chain.
  rewrite !rd_bv by lia. reflexivity.
Qed.

Lemma hc6_linked_mono B B' h h' :
  tbl_le B B' -> HC6S.linked B h h' -> HC6S.linked B' h h'.
Proof. intros Hle Hl. unfold HC6S.linked in *. eapply tbl_le_bit; eauto. Qed.

Lemma hc6_link_step_links x s :
  5 <= HC6.chainPos s < Z.of_nat (length x) ->
  Z.of_nat (length (HC6.cB s)) = 4096 ->
  let H' := u32 (Z.shiftl (HC6.cH s) HC6.S2 + HC6S.chain x (HC6.chainPos s)) in
  exists B', HC6.link_step x s = Ok (HC6.mkChain (HC6.chainPos s - 6) H' B') /\
             Z.of_nat (length B') = 4096 /\ tbl_le (HC6.cB s) B' /\
             HC6S.linked B' (HC6.cH s) H'.
Proof.
  intros Hp HB H'. unfold HC6.link_step.
  rewrite hc6_CHAIN_HASH_val by assumption. cbn [bind].
  pose proof (hc6_mask_range (HC6.cH s)) as Hr.
  rewrite rdi_word by lia. cbn [bind].
  rewrite wri_Ok by lia. cbn [bind].
  eexists. split; [reflexivity|].
  split; [rewrite length_upd; assumption|].
  split; [apply tbl_le_lor; lia|].
  unfold HC6S.linked. rewrite word_at_upd_eq by lia.
  rewrite Z.lor_spec. unfold HC6.FINGERPRINT.
  rewrite fp_testbit.
  - fold H'. rewrite Z.eqb_refl. apply orb_true_r.
  - apply land31_range.
Qed.

(** The chain of the anchor at [a], down to [stop]: every step is recorded,
    and the rolling hash of the last step is left in [H]. *)
Lemma hc6_chain_loop_links x m a stop B0 :
  Z.of_nat (length x) = m -> 5 <= a < m -> 5 <= stop ->
  Z.of_nat (length B0) = 4096 ->
  exists c (i : nat),
    while (Datatypes.S (Z.to_nat m)) (fun c => Ok (HC6.chainPos c >=? stop))
          (HC6.link_step x) (HC6.mkChain (a - 6) (HC6S.anchor x a) B0) = Ok c /\
    Z.of_nat (length (HC6.cB c)) = 4096 /\ tbl_le B0 (HC6.cB c) /\
    HC6.cH c = HC6S.roll x a i /\ a - 6 - 6 * Z.of_nat i < stop /\
    -1 <= a - 6 - 6 * Z.of_nat i /\
    forall j : nat, stop <= a - 6 * (Z.of_nat j + 1) ->
                    HC6S.linked (HC6.cB c) (HC6S.roll x a j) (HC6S.roll x a (Datatypes.S j)).
Proof.
  intros Hlen Ha Hstop HB.
  destruct (while_total
    (fun c => exists i : nat,
       HC6.chainPos c = a - 6 - 6 * Z.of_nat i /\ HC6.cH c = HC6S.roll x a i /\
       Z.of_nat (length (HC6.cB c)) = 4096 /\ tbl_le B0 (HC6.cB c) /\
       -1 <= HC6.chainPos c /\
       forall j : nat, (j < i)%nat ->
          HC6S.linked (HC6.cB c) (HC6S.roll x a j) (HC6S.roll x a (Datatypes.S j)))
    (fun c => Z.to_nat (HC6.chainPos c + 1))
    (fun c => Ok (HC6.chainPos c >=? stop)) (HC6.link_step x))
    with (fuel := Datatypes.S (Z.to_nat m)) (s := HC6.mkChain (a - 6) (HC6S.anchor x a) B0)
    as (c & Hrun & (i & Hpos & HH & HlenB & Hle & Hlow & Hlinks) & Hexit).
  - intros c (i & Hpos & HH & HlenB & Hle & Hlow & Hlinks).
    eexists. split; [reflexivity|]. intros Hc. apply Z.geb_le in Hc.
    destruct (hc6_link_step_links x c) as (B' & Hstep & HlenB' & HleB' & Hlk);
      [lia|assumption|].
    eexists. split; [exact Hstep|]. cbn [HC6.chainPos HC6.cH HC6.cB]. split; [|lia].
    exists (Datatypes.S i). split; [lia|]. split.
    { cbn [HC6S.roll]. rewrite HH. change HC6.Q with 6. do 3 f_equal. lia. }
    split; [assumption|]. split; [eapply tbl_le_trans; eauto|]. split; [lia|].
    intros j Hj. destruct (Nat.eq_dec j i) as [->|Hne].
    + cbn [HC6S.roll]. rewrite HH in Hlk. change HC6.Q with 6.
      replace (a - 6 * Z.of_nat (Datatypes.S i)) with (HC6.chainPos c) by lia. exact Hlk.
    + eapply hc6_linked_mono; [exact HleB'|]. apply Hlinks. lia.
  - exists O. cbn [HC6.chainPos HC6.cH HC6.cB HC6S.roll].
    split; [lia|]. split; [reflexivity|]. split; [assumption|].
    split; [apply tbl_le_refl|]. split; [lia|]. intros j Hj. lia.
  - cbn [HC6.chainPos]. lia.
  - injection Hexit as Hexit.
    assert (HC6.chainPos c < stop)
      by (destruct (Z.geb_spec (HC6.chainPos c) stop); [discriminate|lia]).
    exists c, i. split; [exact Hrun|]. split; [assumption|]. split; [assumption|].
    split; [assumption|]. split; [lia|]. split; [lia|].
    intros j Hj. apply Hlinks. lia.
Qed.

Lemma hc6_anchor_step_links x m fact s :
  Z.of_nat (length x) = m -> 11 <= HC6.anchor s < m ->
  Z.of_nat (length (HC6.aB s)) = 4096 ->
  exists B', HC6.anchor_step x m fact s = Ok (HC6.mkAnchor (HC6.anchor s + 1) B') /\
    Z.of_nat (length B') = 4096 /\ tbl_le (HC6.aB s) B' /\
    forall j : nat,
      Z.max (HC6.anchor s - fact + 1) 5 <= HC6.anchor s - 6 * (Z.of_nat j + 1) ->
      HC6S.linked B' (HC6S.roll x (HC6.anchor s) j)
                  (HC6S.roll x (HC6.anchor s) (Datatypes.S j)).
Proof.
  intros Hlen Ha HB. unfold HC6.anchor_step.
  rewrite hc6_ANCHOR_HASH_val by lia. cbn [bind]. cbv zeta. change HC6.Q with 6.
  set (stop := if _ >? _ then _ else _).
  assert (Hstop : stop = Z.max (HC6.anchor s - fact + 1) 5)
    by (subst stop; destruct (Z.gtb_spec (HC6.anchor s - fact + 1) (6 - 1)); lia).
  destruct (hc6_chain_loop_links x m (HC6.anchor s) stop (HC6.aB s) Hlen ltac:(lia)
              ltac:(lia) HB)
    as (c & i & Hrun & HlenB & Hle & _ & _ & _ & Hlinks).
  rewrite Hrun. cbn [bind].
  eexists. split; [reflexivity|]. split; [assumption|]. split; [assumption|].
  intros j Hj. apply Hlinks. lia.
Qed.

Lemma hc6_anchor_loop_links x m fact B0 :
  Z.of_nat (length x) = m -> Z.of_nat (length B0) = 4096 ->
  exists s,
    while (Datatypes.S (Z.to_nat m)) (fun s => Ok (HC6.anchor s <? m - 1))
          (HC6.anchor_step x m fact) (HC6.mkAnchor (2 * HC6.Q - 1) B0) = Ok s /\
    Z.of_nat (length (HC6.aB s)) = 4096 /\ tbl_le B0 (HC6.aB s) /\
    forall a (j : nat), 11 <= a < m - 1 ->
      Z.max (a - fact + 1) 5 <= a - 6 * (Z.of_nat j + 1) ->
      HC6S.linked (HC6.aB s) (HC6S.roll x a j) (HC6S.roll x a (Datatypes.S j)).
Proof.
  intros Hm HB. change (2 * HC6.Q - 1) with 11.
  destruct (while_total
    (fun s => 11 <= HC6.anchor s /\ Z.of_nat (length (HC6.aB s)) = 4096 /\
              tbl_le B0 (HC6.aB s) /\
              forall a (j : nat), 11 <= a < HC6.anchor s -> a < m - 1 ->
                Z.max (a - fact + 1) 5 <= a - 6 * (Z.of_nat j + 1) ->
                HC6S.linked (HC6.aB s) (HC6S.roll x a j) (HC6S.roll x a (Datatypes.S j)))
    (fun s => Z.to_nat (m - HC6.anchor s))
    (fun s => Ok (HC6.anchor s <? m - 1)) (HC6.anchor_step x m fact))
    with (fuel := Datatypes.S (Z.to_nat m)) (s := HC6.mkAnchor 11 B0)
    as (s & Hrun & (Hpos & Hlen & Hle & Hlinks) & Hexit).
  - intros s (Hpos & Hlen & Hle & Hlinks).
    eexists. split; [reflexivity|]. intros Hc. apply Z.ltb_lt in Hc.
    destruct (hc6_anchor_step_links x m fact s Hm ltac:(lia) Hlen)
      as (B' & Hstep & HlenB' & HleB' & Hlk).
    eexists. split; [exact Hstep|]. cbn [HC6.anchor HC6.aB]. split; [|lia].
    split; [lia|]. split; [assumption|]. split; [eapply tbl_le_trans; eauto|].
    intros a j Ha Ham Hj.
    destruct (Z.eq_dec a (HC6.anchor s)) as [->|Hne].
    + now apply Hlk.
    + eapply hc6_linked_mono; [exact HleB'|]. apply Hlinks; lia.
  - cbn [HC6.anchor HC6.aB]. split; [lia|]. split; [assumption|].
    split; [apply tbl_le_refl|]. intros; lia.
  - cbn [HC6.anchor]. lia.
  - exists s. split; [exact Hrun|]. split; [assumption|]. split; [assumption|].
    injection Hexit as Hexit. apply Z.ltb_ge in Hexit.
    intros a j Ha Hj. apply Hlinks; lia.
Qed.

Lemma hc6_first_loop x m B0 :
  Z.of_nat (length x) = m -> 6 <= m -> Z.of_nat (length B0) = 4096 ->
  exists s,
    while (Datatypes.S (Z.to_nat (HC6.Q + 1)))
          (fun s => Ok (HC6.anchor s <=? (if m <? 2 * HC6.Q then m - 1 else 2 * HC6.Q - 1)))
          (HC6.first_step x) (HC6.mkAnchor (HC6.Q - 1) B0) = Ok s /\
    Z.of_nat (length (HC6.aB s)) = 4096 /\ tbl_le B0 (HC6.aB s) /\
    forall p, 5 <= p < Z.min m 12 ->
      word_at (HC6.aB s) (Z.land (HC6S.anchor x p) HC6.TABLE_MASK) <> 0.
Proof.
  intros Hlen Hm HB. change HC6.Q with 6.
  set (stop := if m <? 2 * 6 then m - 1 else 2 * 6 - 1).
  assert (Hstop : stop = Z.min m 12 - 1) by (subst stop; destruct (Z.ltb_spec m (2 * 6)); lia).
  destruct (while_total
    (fun s => 5 <= HC6.anchor s /\ Z.of_nat (length (HC6.aB s)) = 4096 /\
              tbl_le B0 (HC6.aB s) /\
              forall p, 5 <= p < HC6.anchor s ->
                word_at (HC6.aB s) (Z.land (HC6S.anchor x p) HC6.TABLE_MASK) <> 0)
    (fun s => Z.to_nat (12 - HC6.anchor s))
    (fun s => Ok (HC6.anchor s <=? stop)) (HC6.first_step x))
    with (fuel := Datatypes.S (Z.to_nat (6 + 1))) (s := HC6.mkAnchor (6 - 1) B0)
    as (s3 & Hrun3 & (_ & Hlen3 & Hle3 & Hnz) & Hexit).
  - intros s (Ha & HlenB & Hle & Hnz). eexists. split; [reflexivity|]. intros Hc.
    apply Z.leb_le in Hc.
    destruct (hc6_first_step x s ltac:(lia) HlenB) as (B' & Hstep & HlenB' & Hle' & Hw).
    eexists. split; [exact Hstep|]. cbn [HC6.anchor HC6.aB]. split; [|lia].
    split; [lia|]. split; [assumption|]. split; [eapply tbl_le_trans; eauto|].
    intros p Hp. destruct (Z.eq_dec p (HC6.anchor s)) as [->|Hne]; [assumption|].
    eapply tbl_le_nonzero; [exact Hle'|]. apply Hnz. lia.
  - cbn [HC6.anchor HC6.aB]. split; [lia|]. split; [assumption|].
    split; [apply tbl_le_refl|]. intros; lia.
  - cbn [HC6.anchor]. lia.
  - exists s3. split; [exact Hrun3|]. split; [assumption|]. split; [assumption|].
    injection Hexit as Hexit. apply Z.leb_gt in Hexit.
    intros p Hp. apply Hnz. lia.
Qed.

(** What [preprocessing] leaves in the table, read directly off its loops;
    [fact] is the bound on the chains of step 1. *)
Lemma hc6_preprocessing_loops x m B0 log2_asize :
  Z.of_nat (length x) = m -> 6 <= m -> Z.of_nat (length B0) = 4096 ->
  exists Hm B,
    HC6.preprocessing log2_asize x m B0 = Ok (Hm, B) /\
    Z.of_nat (length B) = 4096 /\
    (forall a (j : nat), 11 <= a < m ->
       Z.max (a - Z.min m (log2_asize * 6 / 4 + 12) + 1) 5 <= a - 6 * (Z.of_nat j + 1) ->
       HC6S.linked B (HC6S.roll x a j) (HC6S.roll x a (Datatypes.S j))) /\
    (forall p, 5 <= p < Z.min m 12 ->
       word_at B (Z.land (HC6S.anchor x p) HC6.TABLE_MASK) <> 0) /\
    (exists i : nat, Hm = HC6S.roll x (m - 1) i /\ -1 <= m - 7 - 6 * Z.of_nat i < 5).
Proof.
  intros Hlen Hm HB. unfold HC6.preprocessing. cbv zeta.
  set (fact := if m <? _ then m else _).
  assert (Hfact : fact = Z.min m (log2_asize * 6 / 4 + 12)).
  { subst fact. change HC6.Q with 6. change HC6.S2 with 4.
    destruct (Z.ltb_spec m (log2_asize * 6 / 4 + 6 * 2)); lia. }
  assert (HB' : Z.of_nat (length (map (fun _ : Z => 0) B0)) = 4096)
    by (rewrite length_map; assumption).
  destruct (hc6_anchor_loop_links x m fact _ Hlen HB') as (s1 & Hrun1 & Hlen1 & Hle1 & Hlinks1).
  rewrite Hrun1. cbn [bind].
  rewrite hc6_ANCHOR_HASH_val by lia. cbn [bind]. change HC6.Q with 6.
  destruct (hc6_chain_loop_links x m (m - 1) (6 - 1) (HC6.aB s1) Hlen ltac:(lia) ltac:(lia) Hlen1)
    as (c & i & Hrun2 & Hlen2 & Hle2 & HH & Hi1 & Hi2 & Hlinks2).
  rewrite Hrun2. cbn [bind].
  destruct (hc6_first_loop x m (HC6.cB c) Hlen Hm Hlen2) as (s3 & Hrun3 & Hlen3 & Hle3 & Hnz).
  change HC6.Q with 6 in Hrun3. rewrite Hrun3. cbn [bind].
  exists (HC6.cH c), (HC6.aB s3). split; [reflexivity|]. split; [assumption|].
  split; [|split].
  - intros a j Ha Hj. eapply hc6_linked_mono; [exact Hle3|].
    destruct (Z.eq_dec a (m - 1)) as [->|Hne].
    + apply Hlinks2. lia.
    + eapply hc6_linked_mono; [exact Hle2|]. apply Hlinks1; [lia|]. rewrite Hfact. exact Hj.
  - assumption.
  - exists i. split; [assumption|lia].
Qed.

Lemma hc6_roll_shift x a (k j : nat) :
  (j <= 8)%nat ->
  HC6S.roll x a (k + j) mod 2 ^ (4 * Z.of_nat j)
  = HC6S.roll x (a - 6 * Z.of_nat k) j mod 2 ^ (4 * Z.of_nat j).
Proof.
  induction j as [|j IH]; intros Hj.
  - change (2 ^ (4 * Z.of_nat 0)) with 1. now rewrite !Z.mod_1_r.
  - replace (k + Datatypes.S j)%nat with (Datatypes.S (k + j)) by lia.
    cbn [HC6S.roll]. change HC6.Q with 6. change HC6.S2 with HC3.S2.
    replace (4 * Z.of_nat (Datatypes.S j)) with (4 * Z.of_nat j + 4) by lia.
    replace (a - 6 * Z.of_nat k - 6 * Z.of_nat (Datatypes.S j))
      with (a - 6 * Z.of_nat (Datatypes.S (k + j))) by lia.
    apply hc3_roll_step_cong; [lia|lia|]. apply IH. lia.
Qed.

(** Every chain step inside the pattern is recorded, also beyond the bound
    [fact] on the chains of step 1, as soon as that bound leaves four steps
    to each chain: after three steps the table index no longer depends on
    the anchor, so a later anchor's chain wrote the same entry. *)
Lemma hc6_links_complete x m B fact :
  25 <= fact \/ m <= fact ->
  (forall a (j : nat), 11 <= a < m ->
     Z.max (a - fact + 1) 5 <= a - 6 * (Z.of_nat j + 1) ->
     HC6S.linked B (HC6S.roll x a j) (HC6S.roll x a (Datatypes.S j))) ->
  forall a (j : nat), 11 <= a < m -> 5 <= a - 6 * (Z.of_nat j + 1) ->
    HC6S.linked B (HC6S.roll x a j) (HC6S.roll x a (Datatypes.S j)).
Proof.
  intros Hfact Hlinks a j Ha Hj.
  destruct (Z.le_gt_cases (a - fact + 1) (a - 6 * (Z.of_nat j + 1))) as [Hshort|Hlong].
  - apply Hlinks; lia.
  - assert (H25 : 25 <= fact) by lia.
    set (k := (j - 3)%nat).
    assert (Hk : j = (k + 3)%nat) by (subst k; lia).
    specialize (Hlinks (a - 6 * Z.of_nat k) 3%nat ltac:(lia) ltac:(lia)).
    unfold HC6S.linked in *. change HC6.TABLE_MASK with (2 ^ 12 - 1) in *.
    change 31 with (2 ^ 5 - 1) in *.
    rewrite !land_pow2_mod in * by lia.
    rewrite Hk.
    rewrite (mod_pow2_le _ _ 12 12 ltac:(lia) (hc6_roll_shift x a k 3 ltac:(lia))).
    replace (Datatypes.S (k + 3)) with (k + 4)%nat by lia.
    rewrite (mod_pow2_le _ _ 5 16 ltac:(lia) (hc6_roll_shift x a k 4 ltac:(lia))).
    exact Hlinks.
Qed.

(** For [m >= Q] and [LOG2(ASIZE)] at least 9, the preprocessing of hc6
    completes with a table that the scanner can rely on. *)
Lemma hc6_table x m B0 log2_asize :
  Z.of_nat (length x) = m -> 6 <= m -> Z.of_nat (length B0) = 4096 ->
  9 <= log2_asize ->
  exists Hm B, HC6.preprocessing log2_asize x m B0 = Ok (Hm, B) /\ hc6_table_ok x m B Hm.
Proof.
  intros Hlen Hm6 HB HL.
  destruct (hc6_preprocessing_loops x m B0 log2_asize Hlen Hm6 HB)
    as (Hm & B & Hrun & HlenB & Hlinks & Hnz & HHm).
  exists Hm, B. split; [assumption|].
  assert (Hdiv : 13 <= log2_asize * 6 / 4) by (apply Z.div_le_lower_bound; lia).
  pose proof (hc6_links_complete x m B (Z.min m (log2_asize * 6 / 4 + 12))
                ltac:(lia) Hlinks) as Hall.
  split; [assumption|]. split; [assumption|]. split; [|assumption].
  intros p Hp. destruct (Z.lt_ge_cases p 12) as [Hlt|Hge].
  - apply Hnz. lia.
  - specialize (Hall p O ltac:(lia) ltac:(lia)). unfold HC6S.linked in Hall.
    cbn [HC6S.roll] in Hall. intros E. rewrite E, Z.testbit_0_l in Hall. discriminate.
Qed.

(** Inside an occurrence at [i] the text hashes are the pattern hashes. *)
Lemma hc6_anchor_occ x m y i p :
  (forall k, 0 <= k < m -> byte_at y (i + k) = byte_at x k) ->
  5 <= p < m -> HC6S.anchor y (i + p) = HC6S.anchor x p.
Proof.
  intros Hb Hp. unfold HC6S.anchor.
  rewrite (bv_byte_at x y (i + p) p) by (apply Hb; lia).
  replace (i + p - 1) with (i + (p - 1)) by lia.
  replace (i + p - 2) with (i + (p - 2)) by lia.
  replace (i + p - 3) with (i + (p - 3)) by lia.
  replace (i + p - 4) with (i + (p - 4)) by lia.
  replace (i + p - 5) with (i + (p - 5)) by lia.
  rewrite (bv_byte_at x y (i + (p - 1)) (p - 1)) by (apply Hb; lia).
  rewrite (bv_byte_at x y (i + (p - 2)) (p - 2)) by (apply Hb; lia).
  rewrite (bv_byte_at x y (i + (p - 3)) (p - 3)) by (apply Hb; lia).
  rewrite (bv_byte_at x y (i + (p - 4)) (p - 4)) by (apply Hb; lia).
  rewrite (bv_byte_at x y (i + (p - 5)) (p - 5)) by (apply Hb; lia).
  reflexivity.
Qed.

Lemma hc6_chain_occ x m y i p :
  (forall k, 0 <= k < m -> byte_at y (i + k) = byte_at x k) ->
  5 <= p < m -> HC6S.chain y (i + p) = HC6S.chain x p.
Proof.
  intros Hb Hp. unfold HC6S.chain.
  rewrite (bv_byte_at x y (i + p) p) by (apply Hb; lia).
  replace (i + p - 1) with (i + (p - 1)) by lia.
  replace (i + p - 2) with (i + (p - 2)) by lia.
  replace (i + p - 3) with (i + (p - 3)) by lia.
  replace (i + p - 4) with (i + (p - 4)) by lia.
  replace (i + p - 5) with (i + (p - 5)) by lia.
  rewrite (bv_byte_at x y (i + (p - 1)) (p - 1)) by (apply Hb; lia).
  rewrite (bv_byte_at x y (i + (p - 2)) (p - 2)) by (apply Hb; lia).
  rewrite (bv_byte_at x y (i + (p - 3)) (p - 3)) by (apply Hb; lia).
  rewrite (bv_byte_at x y (i + (p - 4)) (p - 4)) by (apply Hb; lia).
  rewrite (bv_byte_at x y (i + (p - 5)) (p - 5)) by (apply Hb; lia).
  reflexivity.
Qed.

Lemma hc6_roll_occ x m y i p (j : nat) :
  (forall k, 0 <= k < m -> byte_at y (i + k) = byte_at x k) ->
  p < m -> 5 <= p - 6 * Z.of_nat j ->
  HC6S.roll y (i + p) j = HC6S.roll x p j.
Proof.
  intros Hb Hp. induction j as [|j IH]; intros Hj.
  - cbn [HC6S.roll]. apply (hc6_anchor_occ x m); [assumption|lia].
  - cbn [HC6S.roll]. rewrite IH by lia. change HC6.Q with 6.
    replace (i + p - 6 * Z.of_nat (Datatypes.S j)) with (i + (p - 6 * Z.of_nat (Datatypes.S j))) by lia.
    rewrite (hc6_chain_occ x m y i) by (try assumption; lia). reflexivity.
Qed.

(** The backward chain walk from an anchor at [pos0]: either it stops at a
    missing fingerprint, or it reads back to the first q-gram of the window
    that ends at [pos0]. *)
Lemma hc6_walk_loop y B m pos0 :
  Z.of_nat (length B) = 4096 -> 6 <= m -> m - 1 <= pos0 < Z.of_nat (length y) ->
  exists w,
    HC6.walk y B m pos0 (HC6S.anchor y pos0)
              (word_at B (Z.land (HC6S.anchor y pos0) HC6.TABLE_MASK)) = Ok w /\
    exists i : nat,
      HC6.wpos w = pos0 - 6 * Z.of_nat i /\ HC6.wH w = HC6S.roll y pos0 i /\
      pos0 - m + 6 <= HC6.wpos w /\
      (HC6.failed w = true ->
         (0 < i)%nat /\
         ~ HC6S.linked B (HC6S.roll y pos0 (i - 1)) (HC6S.roll y pos0 i)) /\
      (HC6.failed w = false -> HC6.wpos w < pos0 - m + 12).
Proof.
  intros HB Hm Hpos. unfold HC6.walk. cbv zeta. change HC6.Q with 6.
  replace (pos0 - (m - 6) + 6) with (pos0 - m + 12) by lia.
  destruct (while_total
    (fun w => exists i : nat,
       HC6.wpos w = pos0 - 6 * Z.of_nat i /\ HC6.wH w = HC6S.roll y pos0 i /\
       pos0 - m + 6 <= HC6.wpos w /\
       (HC6.failed w = true ->
         (0 < i)%nat /\
         ~ HC6S.linked B (HC6S.roll y pos0 (i - 1)) (HC6S.roll y pos0 i)) /\
       (HC6.failed w = false ->
          HC6.wV w = word_at B (Z.land (HC6.wH w) HC6.TABLE_MASK)))
    (fun w => Z.to_nat (HC6.wpos w - (pos0 - m)))
    (fun w => Ok (negb (HC6.failed w) && (HC6.wpos w >=? pos0 - m + 12)))
    (HC6.walk_step y B))
    with (fuel := Datatypes.S (Z.to_nat m))
         (s := HC6.mkWalk pos0 (HC6S.anchor y pos0)
                 (word_at B (Z.land (HC6S.anchor y pos0) HC6.TABLE_MASK)) false)
    as (w & Hrun & (i & Hwp & HwH & Hlow & Hfail & Hok) & Hexit).
  - intros w (i & Hwp & HwH & Hlow & Hfail & Hok).
    eexists. split; [reflexivity|]. intros Hc.
    apply andb_true_iff in Hc. destruct Hc as (Hnf & Hge).
    apply negb_true_iff in Hnf. apply Z.geb_le in Hge.
    unfold HC6.walk_step. cbv zeta. change HC6.Q with 6.
    rewrite hc6_CHAIN_HASH_val by lia. cbn [bind].
    set (H' := u32 (Z.shiftl (HC6.wH w) HC6.S2 + HC6S.chain y (HC6.wpos w - 6))).
    assert (HH' : H' = HC6S.roll y pos0 (Datatypes.S i)).
    { subst H'. cbn [HC6S.roll]. rewrite HwH. change HC6.Q with 6.
      do 3 f_equal. lia. }
    unfold HC6.FINGERPRINT. rewrite land_fp_zero.
    destruct (Z.testbit (HC6.wV w) (Z.land H' 31)) eqn:Ebit; cbn [negb].
    + pose proof (hc6_mask_range H') as Hr. rewrite rdi_word by lia. cbn [bind].
      eexists. split; [reflexivity|]. cbn [HC6.wpos HC6.wH HC6.wV HC6.failed].
      split; [|lia]. exists (Datatypes.S i).
      split; [lia|]. split; [assumption|]. split; [lia|].
      split; [discriminate|]. intros _. reflexivity.
    + eexists. split; [reflexivity|]. cbn [HC6.wpos HC6.wH HC6.wV HC6.failed].
      split; [|lia]. exists (Datatypes.S i).
      split; [lia|]. split; [assumption|]. split; [lia|].
      split; [|discriminate]. intros _. split; [lia|].
      specialize (Hok Hnf).
      unfold HC6S.linked. replace (Datatypes.S i - 1)%nat with i by lia.
      rewrite <- HwH, <- HH', <- Hok, Ebit. discriminate.
  - exists O. cbn [HC6.wpos HC6.wH HC6.wV HC6.failed HC6S.roll].
    split; [lia|]. split; [reflexivity|]. split; [lia|].
    split; [discriminate|]. intros _. reflexivity.
  - cbn [HC6.wpos]. lia.
  - exists w. split; [exact Hrun|]. exists i.
    split; [assumption|]. split; [assumption|]. split; [assumption|].
    split; [assumption|]. intros Hnf. injection Hexit as Hexit.
    rewrite Hnf in Hexit. cbn [negb andb] in Hexit.
    destruct (Z.geb_spec (HC6.wpos w) (pos0 - m + 12)); [discriminate|lia].
Qed.

Lemma hc6_scan_step_count x m y B Hm s :
  Z.of_nat (length x) = m -> 6 <= m -> Z.of_nat (length y) + m <= INT_MAX ->
  hc6_table_ok x m B Hm -> HC6.pos s < Z.of_nat (length y) -> hc6_scan_inv x m y s ->
  exists s', HC6.scan_step x m y B Hm s = Ok s' /\ HC6.pos s + 1 <= HC6.pos s' /\
             hc6_scan_inv x m y s'.
Proof.
  intros Hlen Hm6 Hint (HB & Hlinks & Hnz & (iH & HHm & HiH)) Hlt (Hpos & Hcount).
  set (pos0 := HC6.pos s) in *.
  assert (Hskip : forall newpos,
             pos0 + 1 <= newpos ->
             (forall i, pos0 - m + 1 <= i < newpos - m + 1 -> occ_at x m y i = false) ->
             HC6.count s = count_below x m y (Z.to_nat (newpos - m + 1))).
  { intros newpos Hnp Hnone. rewrite Hcount. symmetry. apply count_below_none; [lia|].
    intros i Hi. apply Hnone. lia. }
  unfold HC6.scan_step. cbv zeta. fold pos0. change HC6.Q with 6.
  rewrite hc6_ANCHOR_HASH_val by lia. cbn [bind].
  pose proof (hc6_mask_range (HC6S.anchor y pos0)) as Hr.
  rewrite rdi_word by lia. cbn [bind].
  destruct (Z.eqb_spec (word_at B (Z.land (HC6S.anchor y pos0) HC6.TABLE_MASK)) 0) as [Hz|Hnz0].
  - int_in_range.
    eexists. split; [reflexivity|]. unfold hc6_scan_inv. cbn [HC6.pos HC6.count]. split; [lia|].
    split; [lia|]. apply Hskip; [lia|].
    intros i Hi. destruct (occ_at x m y i) eqn:Eocc; [|reflexivity]. exfalso.
    apply occ_at_bytes in Eocc; try lia. destruct Eocc as (_ & Hbytes).
    apply (Hnz (pos0 - i)); [lia|].
    rewrite <- (hc6_anchor_occ x m y i) by (try assumption; lia).
    replace (i + (pos0 - i)) with pos0 by lia. exact Hz.
  - int_in_range.
    destruct (hc6_walk_loop y B m pos0 HB Hm6 ltac:(lia))
      as (w & Hwalk & i & Hwp & HwH & Hlow & Hfail & Hokw).
    rewrite Hwalk. cbn [bind].
    destruct (HC6.failed w) eqn:Ef.
    + destruct (Hfail eq_refl) as (Hi & Hnl).
      int_in_range.
      eexists. split; [reflexivity|]. unfold hc6_scan_inv. cbn [HC6.pos HC6.count].
      split; [lia|]. split; [lia|]. apply Hskip; [lia|].
      intros k Hk. destruct (occ_at x m y k) eqn:Eocc; [|reflexivity]. exfalso.
      apply occ_at_bytes in Eocc; try lia. destruct Eocc as (_ & Hbytes).
      apply Hnl.
      replace pos0 with (k + (pos0 - k)) by lia.
      rewrite !(hc6_roll_occ x m y k) by (try assumption; lia).
      replace i with (Datatypes.S (i - 1)) at 2 by lia.
      apply Hlinks; lia.
    + specialize (Hokw eq_refl).
      assert (Hhit : (if HC6.wH w =? Hm
                      then memcmp_eq y (pos0 - (m - 6) - 6 + 1) x m
                      else Ok false) = Ok (occ_at x m y (pos0 - m + 1))).
      { replace (pos0 - (m - 6) - 6 + 1) with (pos0 - m + 1) by lia.
        destruct (Z.eqb_spec (HC6.wH w) Hm) as [E|E]; [apply memcmp_eq_occ; lia|].
        destruct (occ_at x m y (pos0 - m + 1)) eqn:Eocc; [|reflexivity]. exfalso.
        apply occ_at_bytes in Eocc; try lia. destruct Eocc as (_ & Hbytes).
        apply E. rewrite HwH, HHm.
        assert (i = iH) as -> by lia.
        replace pos0 with ((pos0 - m + 1) + (m - 1)) at 1 by lia.
        apply (hc6_roll_occ x m y); [assumption|lia|lia]. }
      rewrite Hhit. cbn [bind]. int_in_range.
      eexists. split; [reflexivity|]. unfold hc6_scan_inv. cbn [HC6.pos HC6.count].
      split; [lia|]. split; [lia|].
      replace (Z.to_nat (pos0 - (m - 6) + (m - 6 + 1) - m + 1))
        with (Z.to_nat (pos0 - m + 1 + 1)) by lia.
      rewrite count_below_succ by lia. rewrite Hcount.
      destruct (occ_at x m y (pos0 - m + 1)); lia.
Qed.

(** For every [m >= Q], and [LOG2(ASIZE)] at least 9 (it is 12 for the table
    of 4096 words), [search] of hc6 returns the number of occurrences. *)
Lemma hc6_search_count log2_asize x m y n :
  Z.of_nat (length x) = m -> Z.of_nat (length y) = n -> 6 <= m -> 9 <= log2_asize ->
  n + m <= INT_MAX ->
  HC6.search log2_asize x m y n = Ok (occurrences x m y n).
Proof.
  intros Hlen Hn Hm HL Hint. unfold HC6.search.
  destruct (Z.ltb_spec m HC6.Q) as [Hlt|_]; [change HC6.Q with 6 in Hlt; lia|].
  cbv zeta.
  destruct (hc6_table x m (repeat 0 (Z.to_nat HC6.ASIZE)) log2_asize Hlen Hm)
    as (H & B & Hpre & Hok); [rewrite repeat_length; reflexivity|assumption|].
  rewrite Hpre. cbn [bind]. unfold HC6.scan.
  destruct (while_total (hc6_scan_inv x m y) (fun s => Z.to_nat (n - HC6.pos s))
                        (fun s => Ok (HC6.pos s <? n)) (HC6.scan_step x m y B H))
    with (fuel := Datatypes.S (Z.to_nat n)) (s := HC6.mkScan (m - 1) 0)
    as (s & Hrun & (Hpos & Hcount) & Hexit).
  - intros s Hinv. eexists. split; [reflexivity|]. intros Hc. apply Z.ltb_lt in Hc.
    destruct (hc6_scan_step_count x m y B H s Hlen Hm ltac:(lia) Hok ltac:(lia) Hinv)
      as (s' & Hs' & Hadv & Hinv').
    exists s'. split; [assumption|]. split; [assumption|]. lia.
  - split; cbn [HC6.pos HC6.count]; [lia|].
    replace (Z.to_nat (m - 1 - m + 1)) with O by lia. reflexivity.
  - cbn [HC6.pos]. lia.
  - rewrite Hrun. cbn [bind]. f_equal. rewrite Hcount. unfold occurrences.
    injection Hexit as Hexit. apply Z.ltb_ge in Hexit.
    apply count_below_none; [lia|].
    intros i Hi. apply occ_at_out; try assumption; lia.
Qed.

(** ** hc3: the count with an arbitrary table *)

Lemma count_below_mono x m y (k k' : nat) :
  (k <= k')%nat -> count_below x m y k <= count_below x m y k'.
Proof.
  intros Hle. induction Hle as [|k' Hle IH]; [lia|].
  cbn [count_below]. destruct (occ_at x m y (Z.of_nat k')); lia.
Qed.

(** Whatever the table and the pattern hash hold, the main loop of hc3 ends
    and counts verified windows only. *)
Lemma hc3_scan_any_table x m y n B Hm :
  Z.of_nat (length x) = m -> Z.of_nat (length y) = n -> 3 <= m ->
  n + m <= INT_MAX ->
  Z.of_nat (length B) = 2048 ->
  exists s, HC3.scan x m y n B Hm = Ok s /\ 0 <= HC3.count s <= occurrences x m y n.
Proof.
  intros Hlen Hn Hm3 Hint HB. unfold HC3.scan.
  destruct (while_total
    (fun s => m - 1 <= HC3.pos s /\
              0 <= HC3.count s <= count_below x m y (Z.to_nat (HC3.pos s - m + 1)))
    (fun s => Z.to_nat (n - HC3.pos s))
    (fun s => Ok (HC3.pos s <? n)) (HC3.scan_step x m y B Hm))
    with (fuel := Datatypes.S (Z.to_nat n)) (s := HC3.mkScan (m - 1) 0)
    as (s & Hrun & (Hpos & Hcount) & Hexit).
  - intros s (Hpos & Hcount). eexists. split; [reflexivity|]. intros Hc.
    apply Z.ltb_lt in Hc.
    destruct (hc3_scan_step x m y B Hm s Hlen Hm3 HB ltac:(lia) ltac:(lia))
      as (s' & Hrun & Hadv & Hcases).
    exists s'. split; [assumption|]. split; [|lia]. split; [lia|].
    pose proof (count_below_mono x m y (Z.to_nat (HC3.pos s - m + 1))
                  (Z.to_nat (HC3.pos s' - m + 1)) ltac:(lia)) as Hmono.
    destruct Hcases as [(_ & _ & Hc') | [(j & _ & _ & _ & Hc') | (i & _ & Hp' & Hc')]].
    + rewrite Hc'. lia.
    + rewrite Hc'. lia.
    + rewrite Hc', Hp'.
      replace (HC3.pos s + 1 - m + 1) with (HC3.pos s - m + 1 + 1) by lia.
      rewrite count_below_succ by lia.
      destruct (HC3S.roll y (HC3.pos s) i =? Hm); cbn [andb];
        destruct (occ_at x m y (HC3.pos s - m + 1)); lia.
  - cbn [HC3.pos HC3.count]. split; [lia|].
    pose proof (count_below_nonneg x m y (Z.to_nat (m - 1 - m + 1))). lia.
  - cbn [HC3.pos]. lia.
  - exists s. split; [exact Hrun|]. split; [lia|].
    injection Hexit as Hexit. apply Z.ltb_ge in Hexit.
    unfold occurrences.
    rewrite <- (count_below_none x m y (Z.to_nat (n - m + 1))
                  (Z.to_nat (HC3.pos s - m + 1))); [lia|lia|].
    intros i Hi. apply occ_at_out; try assumption; lia.
Qed.

(** ** The [int] cursor at the end of a very long text *)

Lemma byte_at_repeat (b : byte) (N : nat) i :
  0 <= i < Z.of_nat N -> byte_at (repeat b N) i = Some b.
Proof.
  intros Hi. unfold byte_at. destruct (Z.ltb_spec i 0); [lia|].
  apply nth_error_repeat. lia.
Qed.


(** A text of one repeated byte holds the pattern of the same byte at every
    position. *)
Lemma occ_at_repeat (b : byte) (M N : nat) i :
  0 <= i -> i + Z.of_nat M <= Z.of_nat N ->
  occ_at (repeat b M) (Z.of_nat M) (repeat b N) i = true.
Proof.
  intros Hi Hin. apply occ_at_of_bytes; try assumption.
  - now rewrite repeat_length.
  - now rewrite repeat_length.
  - intros k Hk. rewrite !byte_at_repeat by lia. reflexivity.
Qed.

(** With a non-empty probe, [pos - m + Q2] is evaluated; beyond [INT_MAX] it
    overflows. *)
Lemma hc3_scan_step_overflow x m y B Hm s H V :
  HC3.ANCHOR_HASH y (HC3.pos s) = Ok H ->
  rdi B (Z.land H HC3.TABLE_MASK) = Ok V -> V <> 0 ->
  INT_MAX < HC3.pos s - m + HC3.Q2 ->
  HC3.scan_step x m y B Hm s = Fault.
Proof.
  intros HH HV Hnz Hov. unfold HC3.scan_step. cbv zeta.
  rewrite HH. cbn [bind]. rewrite HV. cbn [bind].
  destruct (Z.eqb_spec V 0); [contradiction|].
  rewrite int_overflow by assumption. reflexivity.
Qed.

(** A pattern of the minimum length in a text that holds it at every
    position: the main loop moves by one position per iteration, and within
    two positions of [INT_MAX] the bound of the backward walk overflows. *)
Lemma hc3_scan_overflow x y n B Hm :
  Z.of_nat (length x) = 3 -> Z.of_nat (length y) = n -> INT_MAX - 2 < n ->
  hc3_table_ok x 3 B Hm ->
  (forall i, 0 <= i -> i + 3 <= n -> occ_at x 3 y i = true) ->
  HC3.scan x 3 y n B Hm = Fault.
Proof.
  intros Hlen Hn Hbig (HB & _ & Hnz & _) Hall. unfold HC3.scan.
  assert (Hprobe : forall p, 2 <= p < n ->
            word_at B (Z.land (HC3S.anchor y p) HC3.TABLE_MASK) <> 0).
  { intros p Hp.
    pose proof (Hall (p - 2) ltac:(lia) ltac:(lia)) as Hocc.
    apply occ_at_bytes in Hocc; try lia. destruct Hocc as (_ & Hbytes).
    replace p with (p - 2 + 2) by lia. unfold HC3S.anchor.
    rewrite (hc3_hashv_occ x 3 y (p - 2)) by (try assumption; lia).
    apply Hnz. lia. }
  apply (while_fault (fun s => 2 <= HC3.pos s <= INT_MAX - 2)
                     (fun s => Z.to_nat (INT_MAX - HC3.pos s))).
  - intros s Hpos. split; [f_equal; apply Z.ltb_lt; lia|].
    assert (HH : HC3.ANCHOR_HASH y (HC3.pos s) = Ok (HC3S.anchor y (HC3.pos s))).
    { unfold HC3.ANCHOR_HASH. apply hc3_HASH_val. lia. }
    pose proof (hc3_mask_range (HC3S.anchor y (HC3.pos s))) as Hr.
    assert (HV : rdi B (Z.land (HC3S.anchor y (HC3.pos s)) HC3.TABLE_MASK)
                 = Ok (word_at B (Z.land (HC3S.anchor y (HC3.pos s)) HC3.TABLE_MASK))).
    { apply rdi_word. lia. }
    destruct (Z.eq_dec (HC3.pos s) (INT_MAX - 2)) as [E|Hne].
    + left. eapply hc3_scan_step_overflow; [exact HH|exact HV|apply Hprobe; lia|].
      change HC3.Q2 with 6. lia.
    + right. unfold HC3.scan_step. cbv zeta. rewrite HH. cbn [bind]. rewrite HV. cbn [bind].
      destruct (Z.eqb_spec (word_at B (Z.land (HC3S.anchor y (HC3.pos s)) HC3.TABLE_MASK)) 0)
        as [Hz|_]; [exfalso; apply (Hprobe (HC3.pos s)); [lia|assumption]|].
      change HC3.Q with 3. change HC3.Q2 with 6. change HC3.END_FIRST_QGRAM with 2.
      int_in_range.
      destruct (hc3_walk_loop y B 3 (HC3.pos s)
                  (word_at B (Z.land (HC3S.anchor y (HC3.pos s)) HC3.TABLE_MASK))
                  HB ltac:(lia) ltac:(lia))
        as (w & Hrun & i & Hwp & _ & Hlow & Hfail & _).
      rewrite Hrun. cbn [bind].
      destruct (HC3.failed w) eqn:Ef; [destruct (Hfail eq_refl) as (Hi & _); lia|].
      rewrite memcmp_eq_occ by lia.
      destruct (HC3.wH w =? Hm); cbn [bind]; int_in_range;
        (eexists; split; [reflexivity|]; cbn [HC3.pos]; split; lia).
  - cbn [HC3.pos]. unfold INT_MAX. lia.
  - cbn [HC3.pos]. unfold INT_MAX in *. lia.
Qed.



Lemma text_of_a_length : Z.of_nat (length text_of_a) = INT_MAX.
Proof.
  unfold text_of_a. rewrite repeat_length. apply Z2Nat.id. unfold INT_MAX. lia.
Qed.

Lemma text_of_a_occ i :
  0 <= i -> i + 3 <= INT_MAX -> occ_at (str "aaa") 3 text_of_a i = true.
Proof.
  intros Hi Hin. unfold text_of_a.
  apply (occ_at_repeat "a"%byte 3 (Z.to_nat INT_MAX) i Hi).
  rewrite Z2Nat.id by (unfold INT_MAX; lia). exact Hin.
Qed.

(** The iteration at [INT_MAX - 2], two positions before the end of such a
    text. *)
Lemma hc3_scan_step_last x y n B Hm c :
  Z.of_nat (length x) = 3 -> Z.of_nat (length y) = n -> INT_MAX - 2 < n ->
  hc3_table_ok x 3 B Hm ->
  (forall i, 0 <= i -> i + 3 <= n -> occ_at x 3 y i = true) ->
  HC3.scan_step x 3 y B Hm (HC3.mkScan (INT_MAX - 2) c) = Fault.
Proof.
  intros Hlen Hn Hbig (HB & _ & Hnz & _) Hall.
  assert (Hp : 2 <= INT_MAX - 2 < n) by (unfold INT_MAX in *; lia).
  pose proof (hc3_mask_range (HC3S.anchor y (INT_MAX - 2))) as Hr.
  apply (hc3_scan_step_overflow x 3 y B Hm _ (HC3S.anchor y (INT_MAX - 2))
           (word_at B (Z.land (HC3S.anchor y (INT_MAX - 2)) HC3.TABLE_MASK))).
  - cbn [HC3.pos]. unfold HC3.ANCHOR_HASH. apply hc3_HASH_val. lia.
  - apply rdi_word. lia.
  - pose proof (Hall (INT_MAX - 4) ltac:(unfold INT_MAX; lia) ltac:(lia)) as Hocc.
    apply occ_at_bytes in Hocc; try (unfold INT_MAX in *; lia).
    destruct Hocc as (_ & Hbytes).
    replace (INT_MAX - 2) with (INT_MAX - 4 + 2) by lia. unfold HC3S.anchor.
    rewrite (hc3_hashv_occ x 3 y (INT_MAX - 4)) by (try assumption; unfold INT_MAX in *; lia).
    apply Hnz. lia.
  - cbn [HC3.pos]. change HC3.Q2 with 6. lia.
Qed.

(** ** The fill of the first q-grams, one entry *)

Lemma hc3_first_step_fill x s :
  2 <= HC3.anchor_pos s < Z.of_nat (length x) ->
  Z.of_nat (length (HC3.aB s)) = 2048 ->
  exists A V B',
    HC3.ANCHOR_HASH x (HC3.anchor_pos s) = Ok A /\
    rdi (HC3.aB s) (Z.land A HC3.TABLE_MASK) = Ok V /\
    HC3.first_step x s = Ok (HC3.mkAnchor (HC3.anchor_pos s + 1) B') /\
    (V <> 0 -> B' = HC3.aB s) /\
    (V = 0 ->
     rdi B' (Z.land A HC3.TABLE_MASK) = Ok (HC3.LINK_HASH (u32 (Z.lnot A))) /\
     forall k, 0 <= k -> k <> Z.land A HC3.TABLE_MASK -> rdi B' k = rdi (HC3.aB s) k).
Proof.
  intros Ha HB.
  set (A := HC3S.anchor x (HC3.anchor_pos s)).
  set (V := word_at (HC3.aB s) (Z.land A HC3.TABLE_MASK)).
  assert (HA : HC3.ANCHOR_HASH x (HC3.anchor_pos s) = Ok A).
  { unfold HC3.ANCHOR_HASH. apply hc3_HASH_val. lia. }
  pose proof (hc3_mask_range A) as Hr.
  assert (HV : rdi (HC3.aB s) (Z.land A HC3.TABLE_MASK) = Ok V) by (apply rdi_word; lia).
  assert (Hstep : HC3.first_step x s =
            let* B' := (if V =? 0
                        then wri (HC3.aB s) (Z.land A HC3.TABLE_MASK)
                                 (HC3.LINK_HASH (u32 (Z.lnot A)))
                        else Ok (HC3.aB s)) in
            Ok (HC3.mkAnchor (HC3.anchor_pos s + 1) B')).
  { unfold HC3.first_step. rewrite HA. cbn [bind]. rewrite HV. reflexivity. }
  destruct (Z.eqb_spec V 0) as [Hz|Hnz].
  - rewrite wri_Ok in Hstep by lia. cbn [bind] in Hstep.
    exists A, V. eexists. split; [exact HA|]. split; [exact HV|].
    split; [exact Hstep|]. split; [intros Hc; contradiction|]. intros _. split.
    + apply rdi_upd_eq. lia.
    + intros k Hk Hne. apply rdi_upd_ne; lia.
  - cbn [bind] in Hstep. exists A, V. eexists. split; [exact HA|]. split; [exact HV|].
    split; [exact Hstep|]. split; [reflexivity|]. intros Hc; contradiction.
Qed.

Lemma hc6_first_step_fill x s :
  5 <= HC6.anchor s < Z.of_nat (length x) ->
  Z.of_nat (length (HC6.aB s)) = 4096 ->
  exists A C V B',
    HC6.ANCHOR_HASH x (HC6.anchor s) = Ok A /\
    HC6.CHAIN_HASH x (HC6.anchor s) = Ok C /\
    rdi (HC6.aB s) (Z.land A HC6.TABLE_MASK) = Ok V /\
    HC6.first_step x s = Ok (HC6.mkAnchor (HC6.anchor s + 1) B') /\
    (V <> 0 -> B' = HC6.aB s) /\
    (V = 0 ->
     rdi B' (Z.land A HC6.TABLE_MASK) = Ok (HC6.FINGERPRINT (Z.lxor C 255)) /\
     forall k, 0 <= k -> k <> Z.land A HC6.TABLE_MASK -> rdi B' k = rdi (HC6.aB s) k).
Proof.
  intros Ha HB.
  set (A := HC6S.anchor x (HC6.anchor s)).
  set (V := word_at (HC6.aB s) (Z.land A HC6.TABLE_MASK)).
  pose proof (hc6_ANCHOR_HASH_val x _ Ha) as HA. fold A in HA.
  destruct (hc6_CHAIN_HASH_ok x _ Ha) as (C & HC).
  pose proof (hc6_mask_range A) as Hr.
  assert (HV : rdi (HC6.aB s) (Z.land A HC6.TABLE_MASK) = Ok V) by (apply rdi_word; lia).
  assert (Hstep : HC6.first_step x s =
            let* B' := (if V =? 0
                        then wri (HC6.aB s) (Z.land A HC6.TABLE_MASK)
                                 (HC6.FINGERPRINT (Z.lxor C 255))
                        else Ok (HC6.aB s)) in
            Ok (HC6.mkAnchor (HC6.anchor s + 1) B')).
  { unfold HC6.first_step. rewrite HA. cbn [bind]. rewrite HV. cbn [bind].
    rewrite HC. cbn [bind]. reflexivity. }
  destruct (Z.eqb_spec V 0) as [Hz|Hnz].
  - rewrite wri_Ok in Hstep by lia. cbn [bind] in Hstep.
    exists A, C, V. eexists. split; [exact HA|]. split; [exact HC|]. split; [exact HV|].
    split; [exact Hstep|]. split; [intros Hc; contradiction|]. intros _. split.
    + apply rdi_upd_eq. lia.
    + intros k Hk Hne. apply rdi_upd_ne; lia.
  - cbn [bind] in Hstep. exists A, C, V. eexists. split; [exact HA|]. split; [exact HC|].
    split; [exact HV|]. split; [exact Hstep|]. split; [reflexivity|].
    intros Hc; contradiction.
Qed.

(** [CHAIN_HASH(x, m - Q)] of shc6 for a pattern shorter than [2Q - 1]. *)
Lemma shc6_preprocessing_fault x m B0 :
  Z.of_nat (length x) = m -> 6 <= m < 11 -> SHC6.preprocessing x m B0 = Fault.
Proof.
  intros Hlen Hm. unfold SHC6.preprocessing. cbv zeta.
  change (Z.to_nat SHC6.Q) with 6%nat. cbn [while]. cbn [bind SHC6.chain_no].
  change (SHC6.Q >=? 1) with true. cbv iota.
  unfold SHC6.chain_step at 1. cbn [SHC6.chain_no]. change SHC6.Q with 6.
  rewrite shc6_CHAIN_HASH_fault by lia. reflexivity.
Qed.

(** ** The verification loop at the states of the main loop *)

(** The verification of the window that ends at [pos], entered with the
    state that the main loop carries. *)
Lemma kmp_verification_returns x m y n K pos pp nvp c :
  Z.of_nat (length x) = m -> Z.of_nat (length y) = n -> kmp_table_ok x m K ->
  m - 1 <= pos < n ->
  nvp - pp <= pos - m + 1 ->
  c = count_below x m y (Z.to_nat (pos - m + 1)) ->
  kmp_vinv x m y (KMP.mkKmp pp nvp c) ->
  exists k,
    KMP.verify x m y n K (pos - m + 1) (KMP.restart (pos - m + 1) (KMP.mkKmp pp nvp c))
      = Ok k /\
    KMP.next_verify_pos k <= n.
Proof.
  intros Hlen Hn HK Hpos Hal Hc Hv.
  pose proof Hv as (Hvpp & Hvle & _). cbn [KMP.pattern_pos KMP.next_verify_pos] in Hvpp, Hvle.
  set (ws := pos - m + 1).
  set (k0 := KMP.restart ws (KMP.mkKmp pp nvp c)).
  assert (Hk0 : kmp_vinv x m y k0).
  { subst k0. unfold KMP.restart. cbn [KMP.next_verify_pos KMP.kcount].
    destruct (ws >? nvp); [|assumption].
    unfold kmp_vinv. cbn [KMP.pattern_pos KMP.next_verify_pos KMP.kcount].
    split; [lia|]. split; [subst ws; lia|]. split; [intros i Hi; lia|].
    rewrite Hc. f_equal. subst ws. lia. }
  assert (Hk0n : KMP.next_verify_pos k0 <= n).
  { subst k0. unfold KMP.restart. cbn [KMP.next_verify_pos KMP.kcount].
    destruct (ws >? nvp); cbn [KMP.next_verify_pos]; subst ws; lia. }
  destruct (kmp_verify_spec x m y n K ws k0 Hlen Hn HK ltac:(subst ws; lia)
                            ltac:(subst ws; lia) Hk0)
    as (k & Hver & _ & _ & Hkn).
  exists k. split; [exact Hver|]. exact (Hkn Hk0n).
Qed.

Lemma lhc4_count_inv_init x m y :
  1 <= m -> lhc4_count_inv x m y (LHC4.mkScan (m - 1) 0 0 0 0).
Proof.
  intros Hm. unfold lhc4_count_inv, kmp_vinv.
  cbn [LHC4.pos LHC4.count LHC4.kmp_pattern_pos LHC4.kmp_next_verify_pos
       LHC4.rightmost_match_pos KMP.pattern_pos KMP.next_verify_pos KMP.kcount].
  replace (Z.to_nat (m - 1 - m + 1)) with O by lia.
  split; [lia|]. split; [lia|]. split; [reflexivity|]. split; [lia|]. split; [lia|].
  split; [lia|]. split; [intros i Hi; lia|reflexivity].
Qed.

Lemma lhc4_reached_inv x m y n B K s :
  Z.of_nat (length x) = m -> Z.of_nat (length y) = n -> 4 <= m ->
  lhc4_table_ok x m B -> kmp_table_ok x m K ->
  LHC4.reached x m y n B K s -> lhc4_count_inv x m y s.
Proof.
  intros Hlen Hn Hm Hok HK Hr. induction Hr as [|s s' Hr IH Hlt Hrun].
  - apply lhc4_count_inv_init. lia.
  - exact (proj2 (lhc4_scan_step_inv x m y n B K s s' Hlen Hn Hm Hok HK IH Hlt Hrun)).
Qed.

Lemma lhc3k_count_inv_init x m y :
  1 <= m -> lhc3k_count_inv x m y (LHC3K.mkScan (m - 1) 0 0 0).
Proof.
  intros Hm. unfold lhc3k_count_inv, kmp_vinv.
  cbn [LHC3K.pos LHC3K.count LHC3K.pattern_pos LHC3K.next_verify_pos
       KMP.pattern_pos KMP.next_verify_pos KMP.kcount].
  replace (Z.to_nat (m - 1 - m + 1)) with O by lia.
  split; [lia|]. split; [reflexivity|]. split; [lia|]. split; [lia|]. split; [lia|].
  split; [intros i Hi; lia|reflexivity].
Qed.

Lemma lhc3k_reached_inv x m y n B K s :
  Z.of_nat (length x) = m -> Z.of_nat (length y) = n -> 3 <= m ->
  whc3_table_ok x m B -> kmp_table_ok x m K ->
  LHC3K.reached x m y n B K s -> lhc3k_count_inv x m y s.
Proof.
  intros Hlen Hn Hm Hok HK Hr. induction Hr as [|s s' Hr IH Hlt Hrun].
  - apply lhc3k_count_inv_init. lia.
  - exact (proj2 (lhc3k_scan_step_inv x m y n B K s s' Hlen Hn Hm Hok HK IH Hlt Hrun)).
Qed.

(** * Claims *)




(** C2, as stated, fails at the far end of the [int] range.  In the text of
    [INT_MAX] bytes 'a' the pattern "aaa" occurs at [i = INT_MAX - 4].  The
    iteration at [pos = i + m - 1] finds a table word that is not zero and
    evaluates [pos - m + Q2 = INT_MAX + 1], which overflows: the walk over
    this occurrence is not reached and the occurrence is not counted. *)
Lemma hc3_occurrence_lost_to_overflow :
  occ_at (str "aaa") 3 text_of_a (INT_MAX - 4) = true /\
  ~ hc3_occurrence_found (str "aaa") 3 text_of_a INT_MAX (INT_MAX - 4).
Proof.
  split.
  - apply text_of_a_occ; unfold INT_MAX; lia.
  - intros (Hm & B & s & H & V & w & s' & _ & _ & Hpos & _ & HH & HV & Hnz
            & _ & _ & _ & _ & _ & _ & _ & Hstep & _).
    rewrite (hc3_scan_step_overflow (str "aaa") 3 text_of_a B Hm s H V HH HV Hnz) in Hstep.
    + discriminate.
    + rewrite Hpos. change HC3.Q2 with 6. lia.
Qed.

(** C2, amended.  No false negatives from the filter (hc3, the rolling
    variant whose preprocessing bounds each chain to CHAIN_LENGTH), with
    [n + m <= INT_MAX]: if [x] occurs in [y] at position [i] and [m >= Q],
    the main loop reaches [pos = i + m - 1]; there the probed table word is
    non-zero, every (table word, fingerprint) pair probed by the backward
    walk is present in [B], the walk does not fail and ends with [H == Hm],
    the verification step is taken at [pos - (Q-1) == i], [memcmp] succeeds
    and the occurrence is counted. *)
Theorem hc3_no_false_negatives (x : bytes) (m : Z) (y : bytes) (n i : Z) :
  Z.of_nat (length x) = m -> Z.of_nat (length y) = n -> HC3.Q <= m ->
  n + m <= INT_MAX ->
  0 <= i -> occ_at x m y i = true ->
  hc3_occurrence_found x m y n i.
Proof.
  intros Hlen Hn Hm3 Hint Hi Hocc. change HC3.Q with 3 in Hm3.
  destruct (hc3_preprocessing_ok x m (repeat 0 (Z.to_nat HC3.ASIZE)) Hlen Hm3)
    as (Hm & B & Hpre & Hok).
  { rewrite repeat_length. reflexivity. }
  destruct (hc3_reaches_occurrence x m y n B Hm i Hlen Hn Hm3 Hint Hok Hi Hocc)
    as (s & Hr & Hpos).
  destruct (hc3_walk_occurrence x m y B Hm i Hlen Hm3 Hok Hi Hocc)
    as (Hnz & Hlinks & w & Hwalk & Hnf & HwH).
  pose proof (occ_at_bytes x m y i Hlen Hi ltac:(lia) Hocc) as (Hin & Hbytes).
  destruct (hc3_scan_step_sound x m y B Hm s Hlen Hm3 Hok ltac:(lia) ltac:(lia))
    as (s' & Hrun & _ & _ & Hcount).
  assert (HB : Z.of_nat (length B) = 2048) by apply Hok.
  unfold hc3_occurrence_found.
  exists Hm, B, s, (HC3S.anchor y (i + m - 1)),
    (word_at B (Z.land (HC3S.anchor y (i + m - 1)) HC3.TABLE_MASK)), w, s'.
  rewrite Hpos.
  split; [assumption|]. split; [assumption|]. split; [reflexivity|]. split; [lia|].
  split; [unfold HC3.ANCHOR_HASH; apply hc3_HASH_val; lia|].
  split; [apply rdi_word; pose proof (hc3_mask_range (HC3S.anchor y (i + m - 1))); lia|].
  split; [assumption|]. split; [reflexivity|].
  split; [intros j Hj; apply Hlinks; change HC3.END_FIRST_QGRAM with 2 in Hj;
          change HC3.Q with 3 in Hj; lia|].
  split; [assumption|]. split; [assumption|]. split; [assumption|].
  split; [change HC3.Q2 with 6; change HC3.Q with 3; lia|].
  split; [rewrite memcmp_eq_occ by lia; now rewrite Hocc|].
  split; [assumption|].
  rewrite Hcount, Hpos. replace (i + m - 1 - m + 1) with i by lia. now rewrite Hocc.
Qed.

Lemma hc3_no_false_negatives_witness :
  hc3_occurrence_found (str "abcdefg") 7 (str "zzabcdefgzabcdefg") 17 2.
Proof.
  apply hc3_no_false_negatives.
  - reflexivity.
  - reflexivity.
  - unfold HC3.Q. lia.
  - unfold INT_MAX. lia.
  - lia.
  - vm_compute. reflexivity.
Defined.

(** C3, as stated, fails: with the q-grams taken by position, the word of
    the left q-gram need not carry the fingerprint of the right one.  In
    hc4-qverify on "baaaaaaa" the word of the q-gram that ends at 3 lacks the
    fingerprint of the q-gram that ends at 7. *)
Lemma hc4q_link_direction_counterexample :
  exists H B,
    HC4Q.preprocessing (str "baaaaaaa") 8 (repeat 0 (Z.to_nat HC4Q.ASIZE)) = Ok (H, B) /\
    ~ HC4QS.linked B (HC4QS.chain (str "baaaaaaa") 3) (HC4QS.chain (str "baaaaaaa") (3 + HC4Q.Q)).
Proof.
  eexists. eexists. split.
  - vm_compute. reflexivity.
  - unfold HC4QS.linked. vm_compute. discriminate.
Qed.

(** C3, amended.  The links run from right to left, the way the scanner
    walks: after preprocessing, for every pair of q-grams of the pattern that
    are Q apart, the table word of the right one carries the fingerprint of
    the left one.  In hc4-qverify (plain chain hash, patterns long enough to
    hold a pair) the pair is the q-grams that end at [p] and [p + Q]; in hc3
    (rolling hash) it is two consecutive values of the rolling hash of any
    anchor, as far back as the first q-gram. *)
Theorem preprocessing_links_right_to_left (x : bytes) (m : Z) :
  Z.of_nat (length x) = m ->
  (HC4Q.END_SECOND_QGRAM <= m ->
   exists H B,
     HC4Q.preprocessing x m (repeat 0 (Z.to_nat HC4Q.ASIZE)) = Ok (H, B) /\
     forall p, HC4Q.END_FIRST_QGRAM <= p -> p + HC4Q.Q <= m - 1 ->
       exists h h',
         HC4Q.CHAIN_HASH x p = Ok h /\ HC4Q.CHAIN_HASH x (p + HC4Q.Q) = Ok h' /\
         Z.land (word_at B (Z.land h' HC4Q.TABLE_MASK)) (HC4Q.LINK_HASH h) <> 0) /\
  (HC3.Q <= m ->
   exists Hm B,
     HC3.preprocessing x m (repeat 0 (Z.to_nat HC3.ASIZE)) = Ok (Hm, B) /\
     forall a (j : nat), HC3.END_SECOND_QGRAM <= a < m ->
       HC3.END_FIRST_QGRAM <= a - HC3.Q * (Z.of_nat j + 1) ->
       Z.land (word_at B (Z.land (HC3S.roll x a j) HC3.TABLE_MASK))
              (HC3.LINK_HASH (HC3S.roll x a (Datatypes.S j))) <> 0).
Proof.
  intros Hlen. split.
  - intros Hm. change HC4Q.END_SECOND_QGRAM with 7 in Hm.
    destruct (hc4q_preprocessing_links x m (repeat 0 (Z.to_nat HC4Q.ASIZE)) Hlen Hm)
      as (H & B & Hpre & _ & Hlinks & _).
    { rewrite repeat_length. reflexivity. }
    exists H, B. split; [assumption|].
    intros p Hp Hp4. change HC4Q.END_FIRST_QGRAM with 3 in Hp. change HC4Q.Q with 4 in *.
    exists (HC4QS.chain x p), (HC4QS.chain x (p + 4)).
    split; [apply hc4q_CHAIN_HASH_val; lia|]. split; [apply hc4q_CHAIN_HASH_val; lia|].
    specialize (Hlinks p Hp Hp4). unfold HC4QS.linked in Hlinks.
    unfold HC4Q.LINK_HASH. intros E. apply Z.eqb_eq in E.
    rewrite land_fp_zero, Hlinks in E. discriminate.
  - intros Hm. change HC3.Q with 3 in Hm.
    destruct (hc3_preprocessing_ok x m (repeat 0 (Z.to_nat HC3.ASIZE)) Hlen Hm)
      as (Hm0 & B & Hpre & _ & Hlinks & _).
    { rewrite repeat_length. reflexivity. }
    exists Hm0, B. split; [assumption|].
    intros a j Ha Hj. change HC3.END_SECOND_QGRAM with 5 in Ha.
    change HC3.END_FIRST_QGRAM with 2 in Hj. change HC3.Q with 3 in Hj.
    specialize (Hlinks a j Ha Hj). unfold HC3S.linked in Hlinks.
    unfold HC3.LINK_HASH. intros E. apply Z.eqb_eq in E.
    rewrite land_fp_zero, Hlinks in E. discriminate.
Qed.

Lemma preprocessing_links_right_to_left_witness :
  (exists H B,
     HC4Q.preprocessing (str "baaaaaaa") 8 (repeat 0 (Z.to_nat HC4Q.ASIZE)) = Ok (H, B) /\
     forall p, HC4Q.END_FIRST_QGRAM <= p -> p + HC4Q.Q <= 8 - 1 ->
       exists h h',
         HC4Q.CHAIN_HASH (str "baaaaaaa") p = Ok h /\
         HC4Q.CHAIN_HASH (str "baaaaaaa") (p + HC4Q.Q) = Ok h' /\
         Z.land (word_at B (Z.land h' HC4Q.TABLE_MASK)) (HC4Q.LINK_HASH h) <> 0) /\
  (exists Hm B,
     HC3.preprocessing (str "baaaaaaa") 8 (repeat 0 (Z.to_nat HC3.ASIZE)) = Ok (Hm, B) /\
     forall a (j : nat), HC3.END_SECOND_QGRAM <= a < 8 ->
       HC3.END_FIRST_QGRAM <= a - HC3.Q * (Z.of_nat j + 1) ->
       Z.land (word_at B (Z.land (HC3S.roll (str "baaaaaaa") a j) HC3.TABLE_MASK))
              (HC3.LINK_HASH (HC3S.roll (str "baaaaaaa") a (Datatypes.S j))) <> 0).
Proof.
  destruct (preprocessing_links_right_to_left (str "baaaaaaa") 8 eq_refl) as [H4 H3].
  split.
  - apply H4. unfold HC4Q.END_SECOND_QGRAM, HC4Q.Q2, HC4Q.Q. lia.
  - apply H3. unfold HC3.Q. lia.
Defined.

(** C4, as stated, fails at the far end of the [int] range.  In hc3 on the
    pattern "aaa" and the text of [INT_MAX] bytes 'a', the iteration at
    [pos = INT_MAX - 2 < n] evaluates [pos - m + Q2 = INT_MAX + 1]: it
    overflows instead of increasing [pos], and the main loop, which reaches
    that position, has no defined end. *)
Lemma hc3_main_loop_int_overflow :
  exists Hm B,
    HC3.preprocessing (str "aaa") 3 (repeat 0 (Z.to_nat HC3.ASIZE)) = Ok (Hm, B) /\
    INT_MAX - 2 < Z.of_nat (length text_of_a) /\
    (forall c, HC3.scan_step (str "aaa") 3 text_of_a B Hm (HC3.mkScan (INT_MAX - 2) c)
               = Fault) /\
    HC3.scan (str "aaa") 3 text_of_a INT_MAX B Hm = Fault.
Proof.
  destruct (hc3_preprocessing_ok (str "aaa") 3 (repeat 0 (Z.to_nat HC3.ASIZE))
              eq_refl ltac:(lia)) as (Hm & B & Hpre & Hok).
  { rewrite repeat_length. reflexivity. }
  assert (Hall : forall i, 0 <= i -> i + 3 <= INT_MAX ->
                           occ_at (str "aaa") 3 text_of_a i = true)
    by (intros i Hi Hin; now apply text_of_a_occ).
  exists Hm, B. split; [assumption|].
  split; [rewrite text_of_a_length; lia|]. split.
  - intros c.
    apply (hc3_scan_step_last (str "aaa") text_of_a INT_MAX B Hm c eq_refl text_of_a_length);
      [lia|assumption|assumption].
  - apply (hc3_scan_overflow (str "aaa") text_of_a INT_MAX B Hm eq_refl text_of_a_length);
      [lia|assumption|assumption].
Qed.

(** C4, amended.  Termination of the main loop, for hc3, hc4-qverify and
    lhc4, with [n + m <= INT_MAX]: for every pattern and text with
    [m >= Q], each iteration of the main loop -- a shift after an empty
    probe, a backward chain walk that fails, a walk followed by a
    verification, for hc4-qverify the batch verification of Q alignments,
    and for lhc4 a KMP verification that resumes at
    [pos = next_verify_pos + m - 1 - pattern_pos] -- increases [pos] by at
    least 1, and the main loop executes at most [n] iterations; [search] of
    hc3 and of lhc4 returns.  (For hc4-qverify the loop is taken with an
    arbitrary table: its iterations do not depend on what preprocessing
    wrote.  For lhc4 the iterations are those from the states that the main
    loop reaches.) *)
Theorem main_loop_advances (x : bytes) (m : Z) (y : bytes) (n : Z) :
  Z.of_nat (length x) = m -> Z.of_nat (length y) = n -> n + m <= INT_MAX ->
  (HC3.Q <= m -> hc3_main_loop_advances x m y n) /\
  (HC4Q.Q <= m -> hc4q_main_loop_advances x m y n) /\
  (LHC4.Q <= m -> lhc4_main_loop_advances x m y n).
Proof.
  intros Hlen Hn Hint. split; [|split].
  2: { intros Hm. change HC4Q.Q with 4 in Hm. apply hc4q_main_loop; assumption. }
  - intros Hm. change HC3.Q with 3 in Hm. split.
    + intros B Hm0 s HB Hpos. change HC3.ASIZE with 2048 in HB.
      destruct (hc3_scan_step x m y B Hm0 s Hlen Hm HB ltac:(lia) ltac:(lia))
        as (s' & Hs' & Hadv & _).
      eauto.
    + destruct (hc3_preprocessing_ok x m (repeat 0 (Z.to_nat HC3.ASIZE)) Hlen Hm)
        as (Hm0 & B & Hpre & Hok).
      { rewrite repeat_length. reflexivity. }
      assert (HB : Z.of_nat (length B) = 2048) by apply Hok.
      destruct (while_count_total (fun s => m - 1 <= HC3.pos s)
                  (fun s => Z.to_nat (n - HC3.pos s))
                  (fun s => Ok (HC3.pos s <? n)) (HC3.scan_step x m y B Hm0))
        with (fuel := Datatypes.S (Z.to_nat n)) (s := HC3.mkScan (m - 1) 0) (k := O)
        as (s & k & Hcnt & Hrun & Hinv & Hexit & Hk).
      * intros s Hinv. eexists. split; [reflexivity|]. intros Hc. apply Z.ltb_lt in Hc.
        destruct (hc3_scan_step x m y B Hm0 s Hlen Hm HB ltac:(lia) ltac:(lia))
          as (s' & Hs' & Hadv & _).
        exists s'. split; [assumption|]. split; lia.
      * cbn [HC3.pos]. lia.
      * cbn [HC3.pos]. lia.
      * exists Hm0, B, s, k. split; [assumption|]. split; [assumption|].
        cbn [HC3.pos] in Hk. split; [lia|]. split; [assumption|].
        injection Hexit as Hexit. apply Z.ltb_ge in Hexit. split; [assumption|].
        unfold HC3.search. destruct (Z.ltb_spec m HC3.Q) as [Hlt|_];
          [change HC3.Q with 3 in Hlt; lia|].
        cbv zeta. rewrite Hpre. cbn [bind]. unfold HC3.scan in *. rewrite Hrun. reflexivity.
  - intros Hm. change LHC4.Q with 4 in Hm.
    destruct (lhc4_table x m (repeat 0 (Z.to_nat LHC4.ASIZE)) Hlen Hm) as (H & B & Hpre & Hok).
    { rewrite repeat_length. reflexivity. }
    destruct (kmp_table_strong x m (repeat 0 (Z.to_nat (m + 1))) Hlen) as (K & HK & HKok).
    { rewrite repeat_length. lia. }
    assert (Hinit : lhc4_count_inv x m y (LHC4.mkScan (m - 1) 0 0 0 0))
      by (apply lhc4_count_inv_init; lia).
    exists H, B, K. split; [assumption|]. split; [exact HK|]. split.
    + intros s Hr Hpos.
      pose proof (lhc4_reached_inv x m y n B K s Hlen Hn Hm Hok HKok Hr) as Hinv.
      destruct (lhc4_scan_step_count x m y n B K s Hlen Hn Hm Hint Hok HKok Hinv Hpos)
        as (s' & Hs' & Hadv & _).
      eauto.
    + destruct (while_count_total (lhc4_count_inv x m y)
                  (fun s => Z.to_nat (n - LHC4.pos s))
                  (fun s => Ok (LHC4.pos s <? n)) (LHC4.scan_step x m y n B K))
        with (fuel := Datatypes.S (Z.to_nat n)) (s := LHC4.mkScan (m - 1) 0 0 0 0) (k := O)
        as (s & k & Hcnt & Hrun & Hinv & Hexit & Hk).
      * intros s Hinv. eexists. split; [reflexivity|]. intros Hc. apply Z.ltb_lt in Hc.
        destruct (lhc4_scan_step_count x m y n B K s Hlen Hn Hm Hint Hok HKok Hinv Hc)
          as (s' & Hs' & Hadv & Hinv').
        exists s'. split; [assumption|]. split; [assumption|]. lia.
      * exact Hinit.
      * cbn [LHC4.pos]. lia.
      * exists s, k. split; [assumption|].
        cbn [LHC4.pos] in Hk. split; [lia|]. split; [assumption|].
        injection Hexit as Hexit. apply Z.ltb_ge in Hexit. split; [assumption|].
        unfold LHC4.search. destruct (Z.ltb_spec m LHC4.Q) as [Hlt|_];
          [change LHC4.Q with 4 in Hlt; lia|].
        cbv zeta. rewrite Hpre. cbn [bind]. unfold LHC4.pre_kmp in *. rewrite HK. cbn [bind].
        unfold LHC4.scan in *. rewrite Hrun. reflexivity.
Qed.

Lemma main_loop_advances_witness :
  hc3_main_loop_advances (str "aaaa") 4 (str "aaaaaaa") 7 /\
  hc4q_main_loop_advances (str "aaaa") 4 (str "aaaaaaa") 7 /\
  lhc4_main_loop_advances (str "aaaa") 4 (str "aaaaaaa") 7.
Proof.
  destruct (main_loop_advances (str "aaaa") 4 (str "aaaaaaa") 7 eq_refl eq_refl
              ltac:(unfold INT_MAX; lia))
    as (H3 & H4Q & H4).
  split; [|split].
  - apply H3. unfold HC3.Q. lia.
  - apply H4Q. unfold HC4Q.Q. lia.
  - apply H4. unfold LHC4.Q. lia.
Defined.

(** C5.  The sentinel: [search] returns -1 exactly when [m < Q] (hc3 and
    whc3; thc2-1 also hands back its text buffer untouched).  For [m < Q] it
    returns before anything is read or written: the result is -1 whatever the
    buffers are, even empty ones, on which any access would fault.  For
    [m >= Q] a count that [search] returns is not negative; and it does
    return one when [n + m <= INT_MAX], where the [int] cursor cannot
    overflow. *)
Theorem search_sentinel_iff_short (x : bytes) (m : Z) (y : bytes) (n : Z) :
  Z.of_nat (length x) = m -> Z.of_nat (length y) = n ->
  (HC3.search x m y n = Ok (-1) <-> m < HC3.Q) /\
  (WHC3.search x m y n = Ok (-1) <-> m < WHC3.Q) /\
  (m < HC3.Q -> forall x' y' : bytes, HC3.search x' m y' n = Ok (-1)) /\
  (m < WHC3.Q -> forall x' y' : bytes, WHC3.search x' m y' n = Ok (-1)) /\
  (m < THC2.Q -> forall x' y' : bytes, THC2.search x' m y' n = Ok (-1, y')) /\
  (HC3.Q <= m -> forall c, HC3.search x m y n = Ok c -> 0 <= c) /\
  (WHC3.Q <= m -> forall c, WHC3.search x m y n = Ok c -> 0 <= c) /\
  (HC3.Q <= m -> n + m <= INT_MAX -> exists c, HC3.search x m y n = Ok c /\ 0 <= c) /\
  (WHC3.Q <= m -> n + m <= INT_MAX -> exists c, WHC3.search x m y n = Ok c /\ 0 <= c).
Proof.
  intros Hlen Hn.
  assert (H3 : m < HC3.Q -> forall x' y' : bytes, HC3.search x' m y' n = Ok (-1)).
  { intros Hm x' y'. unfold HC3.search. destruct (Z.ltb_spec m HC3.Q); [reflexivity|lia]. }
  assert (HW : m < WHC3.Q -> forall x' y' : bytes, WHC3.search x' m y' n = Ok (-1)).
  { intros Hm x' y'. unfold WHC3.search. destruct (Z.ltb_spec m WHC3.Q); [reflexivity|lia]. }
  split; [|split; [|split; [|split; [|split; [|split; [|split; [|split]]]]]]].
  - split; [|intros Hm; now apply H3].
    intros Hs. destruct (Z.lt_ge_cases m HC3.Q) as [|Hge]; [assumption|].
    apply hc3_search_nonneg in Hs; [lia|assumption].
  - split; [|intros Hm; now apply HW].
    intros Hs. destruct (Z.lt_ge_cases m WHC3.Q) as [|Hge]; [assumption|].
    apply whc3_search_nonneg in Hs; [lia|assumption].
  - exact H3.
  - exact HW.
  - intros Hm x' y'. unfold THC2.search. destruct (Z.ltb_spec m THC2.Q); [reflexivity|lia].
  - intros Hm c Hs. exact (hc3_search_nonneg x m y n c Hm Hs).
  - intros Hm c Hs. exact (whc3_search_nonneg x m y n c Hm Hs).
  - intros Hm Hint. exists (occurrences x m y n). split.
    + apply hc3_search_count; assumption.
    + apply count_below_nonneg.
  - intros Hm Hint. exists (occurrences x m y n). split.
    + apply whc3_search_count; assumption.
    + apply count_below_nonneg.
Qed.

Lemma search_sentinel_iff_short_witness :
  (HC3.search (str "ab") 2 (str "xababab") 7 = Ok (-1) <-> 2 < HC3.Q) /\
  (forall x' y' : bytes, WHC3.search x' 2 y' 7 = Ok (-1)) /\
  (forall c, HC3.search (str "abc") 3 (str "abcabcabc") 9 = Ok c -> 0 <= c) /\
  (exists c, HC3.search (str "abc") 3 (str "abcabcabc") 9 = Ok c /\ 0 <= c) /\
  (exists c, WHC3.search (str "abc") 3 (str "abcabcabc") 9 = Ok c /\ 0 <= c).
Proof.
  destruct (search_sentinel_iff_short (str "ab") 2 (str "xababab") 7 eq_refl eq_refl)
    as (A & _ & _ & B & _).
  destruct (search_sentinel_iff_short (str "abc") 3 (str "abcabcabc") 9 eq_refl eq_refl)
    as (_ & _ & _ & _ & _ & P & _ & C & D).
  split; [exact A|]. split; [apply B; unfold WHC3.Q; lia|].
  split; [apply P; unfold HC3.Q; lia|].
  split; [apply C; [unfold HC3.Q|unfold INT_MAX]; lia
         |apply D; [unfold WHC3.Q|unfold INT_MAX]; lia].
Defined.

(** C6, as stated, fails at [j = m]: the code compares [x[j]] with [x[i]]
    only under [j < m], and [KMP[m]] is the longest proper border of the
    whole pattern whatever byte follows it in memory.  For the pattern "aa"
    ([m = 2]) held in the buffer "aaa" the table is [-1, -1, 1]:
    [KMP[2] = 1 >= 0] and [x[KMP[2]] == x[2]]. *)
Lemma pre_kmp_last_entry_counterexample :
  KMP.pre_kmp (str "aaa") 2 [0; 0; 0] = Ok [-1; -1; 1] /\
  byte_at (str "aaa") 1 = byte_at (str "aaa") 2.
Proof.
  split; reflexivity.
Qed.

(** C6, amended.  The failure table of the linear variants ([pre_kmp] of
    lhc4, which is [preKmp] of lhc3-kmp): for a pattern of length [m >= 1],
    [KMP[0] = -1] and for every [j] with [1 <= j <= m] the entry
    [v = KMP[j]] satisfies [-1 <= v < j] and [x[0..v) == x[j-v..j)] (a proper
    prefix of [x[0..j)] that is also its suffix; both slices are empty for
    [v = -1]).  For [j < m], when [v >= 0] the bytes [x[v]] and [x[j]]
    differ, and [v] is the longest such border: every longer proper border
    [u] of [x[0..j)] has [x[u] == x[j]].  For [j = m], [v >= 0] is the length
    of the longest proper border of the pattern, and no byte is compared. *)
Theorem pre_kmp_table (x : bytes) (m : Z) (KMP0 : list Z) :
  Z.of_nat (length x) = m -> 1 <= m -> Z.of_nat (length KMP0) = m + 1 ->
  exists K,
    KMP.pre_kmp x m KMP0 = Ok K /\
    rdi K 0 = Ok (-1) /\
    forall j, 1 <= j <= m ->
      exists v, rdi K j = Ok v /\ -1 <= v < j /\
                slice x 0 v = slice x (j - v) j /\
                (0 <= v -> j < m ->
                 exists a b, byte_at x v = Some a /\ byte_at x j = Some b /\ a <> b) /\
                (forall u, v < u < j -> border x j u ->
                           j < m /\ byte_at x u = byte_at x j) /\
                (j = m -> 0 <= v /\ forall u, v < u < m -> ~ border x m u).
Proof.
  intros Hlen Hm HK0.
  destruct (kmp_table_strong x m KMP0 Hlen HK0) as (K & Hrun & HlenK & Hent).
  exists K. split; [assumption|]. split.
  - destruct (Hent 0 ltac:(lia)) as ((v & Hv & Hr & _) & _).
    assert (v = -1) as -> by lia. exact Hv.
  - intros j Hj. destruct (Hent j ltac:(lia)) as ((v & Hv & Hr & Hb & Hne) & Hmax).
    exists v. split; [assumption|]. split; [assumption|].
    split; [apply border_slice; [lia|assumption]|]. split; [|split].
    + intros Hv0 Hjm.
      destruct (byte_at_in_range x v ltac:(lia)) as (a & Ha).
      destruct (byte_at_in_range x j ltac:(lia)) as (b & Hbj).
      exists a, b. split; [assumption|]. split; [assumption|].
      intros ->. apply (Hne Hjm Hv0). congruence.
    + intros u Hu Hbu. exact (Hmax v u Hv Hu Hbu).
    + intros ->. split.
      * destruct (Z_le_gt_dec 0 v) as [|Hneg]; [assumption|].
        assert (Hb0 : border x m 0) by (intros i Hi; lia).
        destruct (Hmax v 0 Hv ltac:(lia) Hb0) as (Hlt & _). lia.
      * intros u Hu Hbu. destruct (Hmax v u Hv Hu Hbu) as (Hlt & _). lia.
Qed.

Lemma pre_kmp_table_witness :
  exists K,
    KMP.pre_kmp (str "abab") 4 [0; 0; 0; 0; 0] = Ok K /\
    rdi K 0 = Ok (-1) /\
    forall j, 1 <= j <= 4 ->
      exists v, rdi K j = Ok v /\ -1 <= v < j /\
                slice (str "abab") 0 v = slice (str "abab") (j - v) j /\
                (0 <= v -> j < 4 ->
                 exists a b, byte_at (str "abab") v = Some a /\
                             byte_at (str "abab") j = Some b /\ a <> b) /\
                (forall u, v < u < j -> border (str "abab") j u ->
                           j < 4 /\ byte_at (str "abab") u = byte_at (str "abab") j) /\
                (j = 4 -> 0 <= v /\ forall u, v < u < 4 -> ~ border (str "abab") 4 u).
Proof.
  apply (pre_kmp_table (str "abab") 4 [0; 0; 0; 0; 0]).
  - reflexivity.
  - lia.
  - reflexivity.
Defined.

(** C7.  The KMP verification loop of the linear variants (lhc4 and
    lhc3-kmp) reads the text only inside it, for every pattern and text with
    [m >= Q].  The loop reads the text in its matching condition
    [pattern_pos < m && x[pattern_pos] == y[next_verify_pos]]: evaluated
    with [0 <= pattern_pos < m], the condition returns exactly when
    [0 <= next_verify_pos < n], and faults otherwise.  At every state that
    the main loop of [search] reaches with [pos < n], whatever the length of
    the text, the verification of the window that ends at [pos] -- the
    restart test and the loop, with the table of [pre_kmp] and the
    [pattern_pos], [next_verify_pos] and [count] that the main loop carries
    -- returns: none of its reads faulted; and it leaves
    [next_verify_pos <= n].  [search] itself returns a count when
    [n + m <= INT_MAX], where the [int] cursor of the main loop cannot
    overflow. *)
Theorem kmp_verification_reads_in_text (x : bytes) (m : Z) (y : bytes) (n : Z) :
  Z.of_nat (length x) = m -> Z.of_nat (length y) = n ->
  (forall s b, KMP.match_cond x m y s = Ok b -> KMP.pattern_pos s < m ->
               0 <= KMP.next_verify_pos s < n) /\
  (forall s, 0 <= KMP.pattern_pos s < m ->
             ~ (0 <= KMP.next_verify_pos s < n) ->
             KMP.match_cond x m y s = Fault) /\
  (LHC4.Q <= m ->
   exists Hm B K,
     LHC4.preprocessing x m (repeat 0 (Z.to_nat LHC4.ASIZE)) = Ok (Hm, B) /\
     LHC4.pre_kmp x m (repeat 0 (Z.to_nat (m + 1))) = Ok K /\
     forall s, LHC4.reached x m y n B K s -> LHC4.pos s < n ->
       let window_start_pos := LHC4.pos s - m + LHC4.Q - LHC4.Q + 1 in
       exists k,
         KMP.verify x m y n K window_start_pos
           (KMP.restart window_start_pos
              (KMP.mkKmp (LHC4.kmp_pattern_pos s) (LHC4.kmp_next_verify_pos s)
                         (LHC4.count s))) = Ok k /\
         KMP.next_verify_pos k <= n) /\
  (LHC3K.Q <= m ->
   exists Hm B K,
     LHC3K.preprocessing x m (repeat 0 (Z.to_nat LHC3K.ASIZE)) = Ok (Hm, B) /\
     LHC3K.preKmp x m (repeat 0 (Z.to_nat (m + 1))) = Ok K /\
     forall s, LHC3K.reached x m y n B K s -> LHC3K.pos s < n ->
       let window_start_pos := LHC3K.pos s - m + LHC3K.Q2 - LHC3K.Q2 + 1 in
       exists k,
         KMP.verify x m y n K window_start_pos
           (KMP.restart window_start_pos
              (KMP.mkKmp (LHC3K.pattern_pos s) (LHC3K.next_verify_pos s)
                         (LHC3K.count s))) = Ok k /\
         KMP.next_verify_pos k <= n) /\
  (LHC4.Q <= m -> n + m <= INT_MAX -> exists c, LHC4.search x m y n = Ok c) /\
  (LHC3K.Q <= m -> n + m <= INT_MAX -> exists c, LHC3K.search x m y n = Ok c).
Proof.
  intros Hlen Hn. split; [|split; [|split; [|split; [|split]]]].
  - intros s b Hc Hpp. unfold KMP.match_cond in Hc.
    destruct (Z.ltb_spec (KMP.pattern_pos s) m); [|lia].
    destruct (rd x (KMP.pattern_pos s)) as [a| |]; cbn [bind] in Hc; try discriminate.
    destruct (rd y (KMP.next_verify_pos s)) as [c| |] eqn:E; cbn [bind] in Hc; try discriminate.
    apply rd_Ok_range in E. lia.
  - intros s Hpp Hout. unfold KMP.match_cond.
    destruct (Z.ltb_spec (KMP.pattern_pos s) m); [|lia].
    rewrite (rd_bv x) by lia. cbn [bind].
    destruct (rd y (KMP.next_verify_pos s)) as [c| |] eqn:E; cbn [bind]; try reflexivity.
    + apply rd_Ok_range in E. lia.
    + unfold rd in E. destruct (KMP.next_verify_pos s <? 0); [discriminate|].
      destruct (nth_error y _); discriminate.
  - intros Hm. change LHC4.Q with 4 in *.
    destruct (lhc4_table x m (repeat 0 (Z.to_nat LHC4.ASIZE)) Hlen Hm) as (H & B & Hpre & Hok).
    { rewrite repeat_length. reflexivity. }
    destruct (kmp_table_strong x m (repeat 0 (Z.to_nat (m + 1))) Hlen) as (K & HK & HKok).
    { rewrite repeat_length. lia. }
    exists H, B, K. split; [assumption|]. split; [exact HK|].
    intros s Hr Hlt. cbv zeta.
    pose proof (lhc4_reached_inv x m y n B K s Hlen Hn Hm Hok HKok Hr)
      as (_ & Hpos & Hcount & Hal & Hv).
    replace (LHC4.pos s - m + 4 - 4 + 1) with (LHC4.pos s - m + 1) by lia.
    apply kmp_verification_returns; try assumption. lia.
  - intros Hm. change LHC3K.Q with 3 in *. change LHC3K.Q2 with 6.
    unfold LHC3K.preprocessing, LHC3K.ASIZE.
    destruct (whc3_table x m (repeat 0 (Z.to_nat WHC3.ASIZE)) Hlen Hm) as (H & B & Hpre & Hok).
    { rewrite repeat_length. reflexivity. }
    destruct (kmp_table_strong x m (repeat 0 (Z.to_nat (m + 1))) Hlen) as (K & HK & HKok).
    { rewrite repeat_length. lia. }
    exists H, B, K. split; [assumption|]. split; [exact HK|].
    intros s Hr Hlt. cbv zeta.
    pose proof (lhc3k_reached_inv x m y n B K s Hlen Hn Hm Hok HKok Hr)
      as (Hpos & Hcount & Hal & Hv).
    replace (LHC3K.pos s - m + 6 - 6 + 1) with (LHC3K.pos s - m + 1) by lia.
    apply kmp_verification_returns; try assumption. lia.
  - intros Hm Hint. change LHC4.Q with 4 in Hm. exists (occurrences x m y n).
    now apply lhc4_search_count.
  - intros Hm Hint. change LHC3K.Q with 3 in Hm. exists (occurrences x m y n).
    now apply lhc3k_search_count.
Qed.

Lemma kmp_verification_reads_in_text_witness :
  (forall s b, KMP.match_cond (str "abab") 4 (str "abababababab") s = Ok b ->
               KMP.pattern_pos s < 4 -> 0 <= KMP.next_verify_pos s < 12) /\
  (forall s, 0 <= KMP.pattern_pos s < 4 ->
             ~ (0 <= KMP.next_verify_pos s < 12) ->
             KMP.match_cond (str "abab") 4 (str "abababababab") s = Fault) /\
  (exists Hm B K,
     LHC4.preprocessing (str "abab") 4 (repeat 0 (Z.to_nat LHC4.ASIZE)) = Ok (Hm, B) /\
     LHC4.pre_kmp (str "abab") 4 (repeat 0 (Z.to_nat (4 + 1))) = Ok K /\
     forall s, LHC4.reached (str "abab") 4 (str "abababababab") 12 B K s -> LHC4.pos s < 12 ->
       let window_start_pos := LHC4.pos s - 4 + LHC4.Q - LHC4.Q + 1 in
       exists k,
         KMP.verify (str "abab") 4 (str "abababababab") 12 K window_start_pos
           (KMP.restart window_start_pos
              (KMP.mkKmp (LHC4.kmp_pattern_pos s) (LHC4.kmp_next_verify_pos s)
                         (LHC4.count s))) = Ok k /\
         KMP.next_verify_pos k <= 12) /\
  (exists c, LHC4.search (str "abab") 4 (str "abababababab") 12 = Ok c) /\
  (exists c, LHC3K.search (str "abab") 4 (str "abababababab") 12 = Ok c).
Proof.
  destruct (kmp_verification_reads_in_text (str "abab") 4 (str "abababababab") 12
              eq_refl eq_refl) as (A & B & C & _ & D & E).
  split; [exact A|]. split; [exact B|].
  split; [apply C; unfold LHC4.Q; lia|].
  split; [apply D; [unfold LHC4.Q|unfold INT_MAX]; lia
         |apply E; [unfold LHC3K.Q|unfold INT_MAX]; lia].
Defined.

(** C8.  Preprocessing reads of the pattern.  hc4-qverify and shc2-1 start
    their Q chains at [m - Q, ..., m - 1] without the guard
    [start = m < Q2 ? m - END_FIRST_QGRAM : Q] that lhc4 has: for
    [Q <= m < 2Q - 1] the first chain hash is taken at a position [p] with
    [p - Q + 1 < 0].  On the minimum pattern the read leaves the buffer in
    hc4-qverify and in shc2-1, and stays inside it in lhc4. *)
Theorem unguarded_chain_reads_before_pattern :
  HC4Q.CHAIN_HASH (str "abcd") (4 - HC4Q.Q) = Fault /\
  HC4Q.preprocessing (str "abcd") 4 (repeat 0 (Z.to_nat HC4Q.ASIZE)) = Fault /\
  SHC2.CHAIN_HASH (str "ab") (2 - SHC2.Q) = Fault /\
  SHC2.preprocessing (str "ab") 2 (repeat 0 (Z.to_nat SHC2.ASIZE)) = Fault /\
  exists H B, LHC4.preprocessing (str "abcd") 4 (repeat 0 (Z.to_nat LHC4.ASIZE)) = Ok (H, B).
Proof.
  split; [reflexivity|].
  split; [apply hc4q_preprocessing_fault; [reflexivity|lia]|].
  split; [reflexivity|].
  split; [apply shc2_preprocessing_fault; reflexivity|].
  destruct (lhc4_preprocessing_total (str "abcd") 4 (repeat 0 (Z.to_nat LHC4.ASIZE)))
    as (H & B & Hrun & _); [reflexivity|lia|reflexivity|eauto].
Qed.

(** C9, as stated, fails for thc2-1 on a pattern shorter than Q: [search]
    returns -1 before the copy, and the byte behind the text is not the first
    byte of the pattern. *)
Lemma thc2_short_pattern_no_copy :
  THC2.search (str "a") 1 (str "bcd_") 3 = Ok (-1, str "bcd_") /\
  byte_at (str "bcd_") (3 + 0) <> byte_at (str "a") 0.
Proof.
  split; [reflexivity|]. vm_compute. discriminate.
Qed.

(** C9, amended.  In thc2-1 the text buffer is state.  For a pattern [x]
    and a buffer [y] that are separate objects, [y] with room for [m] bytes
    behind the [n] bytes of text and [n + 2m <= INT_MAX], [search] returns;
    when [m >= Q] the buffer it leaves holds the text unchanged in
    [y[0..n)], the pattern in [y[n..n+m)] ([y[n+i] = x[i]] for
    [0 <= i < m]) and what was there before from [n + m] on; when [m < Q] it
    returns -1 and the whole buffer is as it was. *)
Theorem thc2_search_frame (x : bytes) (m : Z) (y : bytes) (n : Z) :
  Z.of_nat (length x) = m -> 0 <= n -> n + m <= Z.of_nat (length y) ->
  n + 2 * m <= INT_MAX ->
  (THC2.Q <= m ->
   exists c y', THC2.search x m y n = Ok (c, y') /\ 0 <= c /\
     length y' = length y /\
     (forall k, 0 <= k < n -> byte_at y' k = byte_at y k) /\
     (forall i, 0 <= i < m -> byte_at y' (n + i) = byte_at x i) /\
     (forall k, n + m <= k -> byte_at y' k = byte_at y k)) /\
  (m < THC2.Q -> THC2.search x m y n = Ok (-1, y)).
Proof.
  intros Hlen Hn Hcap Hint. split.
  - intros Hm. change THC2.Q with 2 in Hm.
    destruct (thc2_search_count x m y n Hlen Hm Hn Hcap Hint) as (y' & Hrun & Hsc).
    exists (occurrences x m y n), y'. split; [assumption|].
    split; [apply count_below_nonneg|]. exact Hsc.
  - intros Hm. unfold THC2.search. destruct (Z.ltb_spec m THC2.Q); [reflexivity|lia].
Qed.

Lemma thc2_search_frame_witness :
  (exists c y', THC2.search (str "ab") 2 (str "xababab__") 7 = Ok (c, y') /\ 0 <= c /\
     length y' = length (str "xababab__") /\
     (forall k, 0 <= k < 7 -> byte_at y' k = byte_at (str "xababab__") k) /\
     (forall i, 0 <= i < 2 -> byte_at y' (7 + i) = byte_at (str "ab") i) /\
     (forall k, 7 + 2 <= k -> byte_at y' k = byte_at (str "xababab__") k)) /\
  THC2.search (str "a") 1 (str "bcd_") 3 = Ok (-1, str "bcd_").
Proof.
  assert (C1 : 7 + 2 <= Z.of_nat (length (str "xababab__"))) by (simpl; lia).
  assert (C2 : 3 + 1 <= Z.of_nat (length (str "bcd_"))) by (simpl; lia).
  destruct (thc2_search_frame (str "ab") 2 (str "xababab__") 7 eq_refl ltac:(lia) C1
              ltac:(unfold INT_MAX; lia)) as [A _].
  destruct (thc2_search_frame (str "a") 1 (str "bcd_") 3 eq_refl ltac:(lia) C2
              ltac:(unfold INT_MAX; lia)) as [_ B].
  split.
  - apply A. unfold THC2.Q. lia.
  - apply B. unfold THC2.Q. lia.
Defined.

(** C10, as stated, fails for hc3: the fill indexes the table with the
    anchor hash (shift S1), not with the chain hash (shift S3).  After
    preprocessing "abc" the entry of the chain hash of its only q-gram is
    empty. *)
Lemma hc3_chain_hash_entry_empty :
  exists Hm B F,
    HC3.preprocessing (str "abc") 3 (repeat 0 (Z.to_nat HC3.ASIZE)) = Ok (Hm, B) /\
    HC3.CHAIN_HASH (str "abc") (HC3.Q - 1) = Ok F /\
    word_at B (Z.land F HC3.TABLE_MASK) = 0.
Proof.
  eexists. eexists. eexists. split; [vm_compute; reflexivity|].
  split; [vm_compute; reflexivity|]. vm_compute. reflexivity.
Qed.

(** C10, amended.  The fill of the first q-grams, entry by entry.  One step
    of the fill, at a position [p] of the pattern and on any table, indexes
    the table with the anchor hash [A] of the q-gram that ends at [p]: a
    word that is not zero is left as it is, and an empty word becomes
    [fp(~A)] in hc3 and [fp(C ^ 0xFF)] in hc6, where [C] is the chain hash
    of the same q-gram; no other word changes.  The word written is not zero
    and is not the fingerprint of the hash it is made from: [fp(~F) != 0],
    [fp(~F) != fp(F)], [fp(F ^ 0xFF) != 0] and [fp(F ^ 0xFF) != fp(F)] for
    every [F].  Hence after preprocessing a pattern with [m >= Q], for every
    first q-gram, ending at [p] in [[Q-1, min(m, 2Q-1))], the table entry of
    its anchor hash is not zero. *)
Theorem first_qgram_entries_nonzero (x : bytes) (m : Z) (F log2_asize : Z) :
  Z.of_nat (length x) = m ->
  (HC3.LINK_HASH (u32 (Z.lnot F)) <> 0 /\
   HC3.LINK_HASH (u32 (Z.lnot F)) <> HC3.LINK_HASH F /\
   HC6.FINGERPRINT (Z.lxor F 255) <> 0 /\
   HC6.FINGERPRINT (Z.lxor F 255) <> HC6.FINGERPRINT F) /\
  (forall s,
     HC3.END_FIRST_QGRAM <= HC3.anchor_pos s < m ->
     Z.of_nat (length (HC3.aB s)) = HC3.ASIZE ->
     exists A V B',
       HC3.ANCHOR_HASH x (HC3.anchor_pos s) = Ok A /\
       rdi (HC3.aB s) (Z.land A HC3.TABLE_MASK) = Ok V /\
       HC3.first_step x s = Ok (HC3.mkAnchor (HC3.anchor_pos s + 1) B') /\
       (V <> 0 -> B' = HC3.aB s) /\
       (V = 0 ->
        rdi B' (Z.land A HC3.TABLE_MASK) = Ok (HC3.LINK_HASH (u32 (Z.lnot A))) /\
        HC3.LINK_HASH (u32 (Z.lnot A)) <> 0 /\
        HC3.LINK_HASH (u32 (Z.lnot A)) <> HC3.LINK_HASH A /\
        forall k, 0 <= k -> k <> Z.land A HC3.TABLE_MASK -> rdi B' k = rdi (HC3.aB s) k)) /\
  (forall s,
     HC6.Q - 1 <= HC6.anchor s < m ->
     Z.of_nat (length (HC6.aB s)) = HC6.ASIZE ->
     exists A C V B',
       HC6.ANCHOR_HASH x (HC6.anchor s) = Ok A /\
       HC6.CHAIN_HASH x (HC6.anchor s) = Ok C /\
       rdi (HC6.aB s) (Z.land A HC6.TABLE_MASK) = Ok V /\
       HC6.first_step x s = Ok (HC6.mkAnchor (HC6.anchor s + 1) B') /\
       (V <> 0 -> B' = HC6.aB s) /\
       (V = 0 ->
        rdi B' (Z.land A HC6.TABLE_MASK) = Ok (HC6.FINGERPRINT (Z.lxor C 255)) /\
        HC6.FINGERPRINT (Z.lxor C 255) <> 0 /\
        HC6.FINGERPRINT (Z.lxor C 255) <> HC6.FINGERPRINT C /\
        forall k, 0 <= k -> k <> Z.land A HC6.TABLE_MASK -> rdi B' k = rdi (HC6.aB s) k)) /\
  (HC3.Q <= m ->
   exists Hm B,
     HC3.preprocessing x m (repeat 0 (Z.to_nat HC3.ASIZE)) = Ok (Hm, B) /\
     forall p, HC3.Q - 1 <= p < Z.min m (2 * HC3.Q - 1) ->
       exists A V, HC3.ANCHOR_HASH x p = Ok A /\
                   rdi B (Z.land A HC3.TABLE_MASK) = Ok V /\ V <> 0) /\
  (HC6.Q <= m ->
   exists Hm B,
     HC6.preprocessing log2_asize x m (repeat 0 (Z.to_nat HC6.ASIZE)) = Ok (Hm, B) /\
     forall p, HC6.Q - 1 <= p < Z.min m (2 * HC6.Q - 1) ->
       exists A V, HC6.ANCHOR_HASH x p = Ok A /\
                   rdi B (Z.land A HC6.TABLE_MASK) = Ok V /\ V <> 0).
Proof.
  intros Hlen. split; [|split; [|split; [|split]]].
  - unfold HC3.LINK_HASH, HC6.FINGERPRINT.
    pose proof (fp_lnot_differs F) as [A B]. pose proof (fp_xor_ff_differs F) as [C D].
    auto.
  - intros s Hp HB. change HC3.END_FIRST_QGRAM with 2 in Hp. change HC3.ASIZE with 2048 in HB.
    destruct (hc3_first_step_fill x s ltac:(lia) HB)
      as (A & V & B' & HA & HV & Hstep & Hkeep & Hfill).
    exists A, V, B'. split; [assumption|]. split; [assumption|]. split; [assumption|].
    split; [assumption|]. intros Hz. destruct (Hfill Hz) as (Hw & Hother).
    unfold HC3.LINK_HASH in *. pose proof (fp_lnot_differs A) as [P Q]. auto.
  - intros s Hp HB. change HC6.Q with 6 in Hp. change HC6.ASIZE with 4096 in HB.
    destruct (hc6_first_step_fill x s ltac:(lia) HB)
      as (A & C & V & B' & HA & HC & HV & Hstep & Hkeep & Hfill).
    exists A, C, V, B'. split; [assumption|]. split; [assumption|]. split; [assumption|].
    split; [assumption|]. split; [assumption|].
    intros Hz. destruct (Hfill Hz) as (Hw & Hother).
    unfold HC6.FINGERPRINT in *. pose proof (fp_xor_ff_differs C) as [P Q]. auto.
  - intros Hm. change HC3.Q with 3 in *.
    destruct (hc3_preprocessing_ok x m (repeat 0 (Z.to_nat HC3.ASIZE)) Hlen Hm)
      as (Hm0 & B & Hpre & HB & _ & Hnz & _).
    { rewrite repeat_length. reflexivity. }
    exists Hm0, B. split; [assumption|]. intros p Hp.
    exists (HC3S.anchor x p), (word_at B (Z.land (HC3S.anchor x p) HC3.TABLE_MASK)).
    split; [unfold HC3.ANCHOR_HASH; apply hc3_HASH_val; lia|].
    split; [apply rdi_word; pose proof (hc3_mask_range (HC3S.anchor x p)); lia|].
    apply Hnz. lia.
  - intros Hm. change HC6.Q with 6 in *.
    destruct (hc6_preprocessing_first x m (repeat 0 (Z.to_nat HC6.ASIZE)) log2_asize Hlen Hm)
      as (Hm0 & B & Hpre & HB & Hnz).
    { rewrite repeat_length. reflexivity. }
    exists Hm0, B. split; [assumption|]. intros p Hp.
    exists (HC6S.anchor x p), (word_at B (Z.land (HC6S.anchor x p) HC6.TABLE_MASK)).
    split; [apply hc6_ANCHOR_HASH_val; lia|].
    split; [apply rdi_word; pose proof (hc6_mask_range (HC6S.anchor x p)); lia|].
    apply Hnz. lia.
Qed.

Lemma first_qgram_entries_nonzero_witness :
  (HC3.LINK_HASH (u32 (Z.lnot 689)) <> 0 /\
   HC3.LINK_HASH (u32 (Z.lnot 689)) <> HC3.LINK_HASH 689 /\
   HC6.FINGERPRINT (Z.lxor 689 255) <> 0 /\
   HC6.FINGERPRINT (Z.lxor 689 255) <> HC6.FINGERPRINT 689) /\
  (exists A V B',
     HC3.ANCHOR_HASH (str "abcdefg") 2 = Ok A /\
     rdi (repeat 0 (Z.to_nat HC3.ASIZE)) (Z.land A HC3.TABLE_MASK) = Ok V /\
     HC3.first_step (str "abcdefg") (HC3.mkAnchor 2 (repeat 0 (Z.to_nat HC3.ASIZE)))
       = Ok (HC3.mkAnchor (2 + 1) B') /\
     (V <> 0 -> B' = repeat 0 (Z.to_nat HC3.ASIZE)) /\
     (V = 0 ->
      rdi B' (Z.land A HC3.TABLE_MASK) = Ok (HC3.LINK_HASH (u32 (Z.lnot A))) /\
      HC3.LINK_HASH (u32 (Z.lnot A)) <> 0 /\
      HC3.LINK_HASH (u32 (Z.lnot A)) <> HC3.LINK_HASH A /\
      forall k, 0 <= k -> k <> Z.land A HC3.TABLE_MASK ->
                rdi B' k = rdi (repeat 0 (Z.to_nat HC3.ASIZE)) k)) /\
  (exists A C V B',
     HC6.ANCHOR_HASH (str "abcdefg") 5 = Ok A /\
     HC6.CHAIN_HASH (str "abcdefg") 5 = Ok C /\
     rdi (repeat 0 (Z.to_nat HC6.ASIZE)) (Z.land A HC6.TABLE_MASK) = Ok V /\
     HC6.first_step (str "abcdefg") (HC6.mkAnchor 5 (repeat 0 (Z.to_nat HC6.ASIZE)))
       = Ok (HC6.mkAnchor (5 + 1) B') /\
     (V <> 0 -> B' = repeat 0 (Z.to_nat HC6.ASIZE)) /\
     (V = 0 ->
      rdi B' (Z.land A HC6.TABLE_MASK) = Ok (HC6.FINGERPRINT (Z.lxor C 255)) /\
      HC6.FINGERPRINT (Z.lxor C 255) <> 0 /\
      HC6.FINGERPRINT (Z.lxor C 255) <> HC6.FINGERPRINT C /\
      forall k, 0 <= k -> k <> Z.land A HC6.TABLE_MASK ->
                rdi B' k = rdi (repeat 0 (Z.to_nat HC6.ASIZE)) k)) /\
  (exists Hm B,
     HC3.preprocessing (str "abcdefg") 7 (repeat 0 (Z.to_nat HC3.ASIZE)) = Ok (Hm, B) /\
     forall p, HC3.Q - 1 <= p < Z.min 7 (2 * HC3.Q - 1) ->
       exists A V, HC3.ANCHOR_HASH (str "abcdefg") p = Ok A /\
                   rdi B (Z.land A HC3.TABLE_MASK) = Ok V /\ V <> 0) /\
  (exists Hm B,
     HC6.preprocessing 12 (str "abcdefg") 7 (repeat 0 (Z.to_nat HC6.ASIZE)) = Ok (Hm, B) /\
     forall p, HC6.Q - 1 <= p < Z.min 7 (2 * HC6.Q - 1) ->
       exists A V, HC6.ANCHOR_HASH (str "abcdefg") p = Ok A /\
                   rdi B (Z.land A HC6.TABLE_MASK) = Ok V /\ V <> 0).
Proof.
  destruct (first_qgram_entries_nonzero (str "abcdefg") 7 689 12 eq_refl)
    as (A & S3 & S6 & B & C).
  split; [exact A|]. split; [|split; [|split]].
  - apply (S3 (HC3.mkAnchor 2 (repeat 0 (Z.to_nat HC3.ASIZE)))).
    + unfold HC3.END_FIRST_QGRAM, HC3.Q. simpl. lia.
    + reflexivity.
  - apply (S6 (HC6.mkAnchor 5 (repeat 0 (Z.to_nat HC6.ASIZE)))).
    + unfold HC6.Q. simpl. lia.
    + reflexivity.
  - apply B. unfold HC3.Q. lia.
  - apply C. unfold HC6.Q. lia.
Defined.

(** * Further properties *)

(** X1.  hc3.c: for every pattern of length [m >= Q] and every text with
    [n + m <= INT_MAX], [search] returns the number of occurrences of the
    pattern in the text: the number of positions [i] in [[0, n - m]] with
    [y[i..i+m) == x].  It reads no byte outside the two buffers and no table
    word outside [B], and no [int] expression of it overflows. *)
Theorem hc3_search_counts_occurrences (x : bytes) (m : Z) (y : bytes) (n : Z) :
  Z.of_nat (length x) = m -> Z.of_nat (length y) = n -> HC3.Q <= m ->
  n + m <= INT_MAX ->
  HC3.search x m y n = Ok (occurrences x m y n).
Proof.
  intros Hlen Hn Hm Hint. change HC3.Q with 3 in Hm. now apply hc3_search_count.
Qed.

Lemma hc3_search_counts_occurrences_witness :
  HC3.search (str "aba") 3 (str "abababa") 7 = Ok 3.
Proof.
  exact (hc3_search_counts_occurrences (str "aba") 3 (str "abababa") 7 eq_refl eq_refl
           ltac:(unfold HC3.Q; lia) ltac:(unfold INT_MAX; lia)).
Defined.

(** X2.  hc4-qverify.c: for every pattern of length [m >= 2Q - 1] and every
    text with [n + m <= INT_MAX], [search] returns the number of
    occurrences; the batch verification of Q alignments after a successful
    walk counts each of them once. *)
Theorem hc4q_search_counts_occurrences (x : bytes) (m : Z) (y : bytes) (n : Z) :
  Z.of_nat (length x) = m -> Z.of_nat (length y) = n -> 2 * HC4Q.Q - 1 <= m ->
  n + m <= INT_MAX ->
  HC4Q.search x m y n = Ok (occurrences x m y n).
Proof.
  intros Hlen Hn Hm Hint. change HC4Q.Q with 4 in Hm. apply hc4q_search_count; try assumption; lia.
Qed.

Lemma hc4q_search_counts_occurrences_witness :
  HC4Q.search (str "abababa") 7 (str "xabababababa") 12 = Ok 3.
Proof.
  exact (hc4q_search_counts_occurrences (str "abababa") 7 (str "xabababababa") 12
           eq_refl eq_refl ltac:(unfold HC4Q.Q; lia) ltac:(unfold INT_MAX; lia)).
Defined.

(** X3.  whc3.c: for every pattern of length [m >= Q] and every text with
    [n + m <= INT_MAX], [search] returns the number of occurrences.  The guard [start] of its
    preprocessing makes the table complete for the short patterns too, and
    the walk that stops early at [rightmost_match_pos] loses no
    occurrence. *)
Theorem whc3_search_counts_occurrences (x : bytes) (m : Z) (y : bytes) (n : Z) :
  Z.of_nat (length x) = m -> Z.of_nat (length y) = n -> WHC3.Q <= m ->
  n + m <= INT_MAX ->
  WHC3.search x m y n = Ok (occurrences x m y n).
Proof.
  intros Hlen Hn Hm Hint. change WHC3.Q with 3 in Hm. now apply whc3_search_count.
Qed.

Lemma whc3_search_counts_occurrences_witness :
  WHC3.search (str "aba") 3 (str "abababababa") 11 = Ok 5.
Proof.
  exact (whc3_search_counts_occurrences (str "aba") 3 (str "abababababa") 11
           eq_refl eq_refl ltac:(unfold WHC3.Q; lia) ltac:(unfold INT_MAX; lia)).
Defined.

(** X4.  lhc4.c: for every pattern of length [m >= Q] and every text with
    [n + m <= INT_MAX], [search] returns the number of occurrences.  The verification by the
    failure table, resumed from one window to the next through
    [next_verify_pos] and [pattern_pos], counts every occurrence once; the
    resume position [pos = next_verify_pos + m - 1 - pattern_pos] skips
    none. *)
Theorem lhc4_search_counts_occurrences (x : bytes) (m : Z) (y : bytes) (n : Z) :
  Z.of_nat (length x) = m -> Z.of_nat (length y) = n -> LHC4.Q <= m ->
  n + m <= INT_MAX ->
  LHC4.search x m y n = Ok (occurrences x m y n).
Proof.
  intros Hlen Hn Hm Hint. change LHC4.Q with 4 in Hm. now apply lhc4_search_count.
Qed.

Lemma lhc4_search_counts_occurrences_witness :
  LHC4.search (str "aaaa") 4 (str "aaaaaaaaa") 9 = Ok 6.
Proof.
  exact (lhc4_search_counts_occurrences (str "aaaa") 4 (str "aaaaaaaaa") 9
           eq_refl eq_refl ltac:(unfold LHC4.Q; lia) ltac:(unfold INT_MAX; lia)).
Defined.

(** X5.  lhc3-kmp.c: for every pattern of length [m >= Q] and every text
    with [n + m <= INT_MAX], [search] returns the number of occurrences. *)
Theorem lhc3k_search_counts_occurrences (x : bytes) (m : Z) (y : bytes) (n : Z) :
  Z.of_nat (length x) = m -> Z.of_nat (length y) = n -> LHC3K.Q <= m ->
  n + m <= INT_MAX ->
  LHC3K.search x m y n = Ok (occurrences x m y n).
Proof.
  intros Hlen Hn Hm Hint. change LHC3K.Q with 3 in Hm. now apply lhc3k_search_count.
Qed.

Lemma lhc3k_search_counts_occurrences_witness :
  LHC3K.search (str "aba") 3 (str "abababababa") 11 = Ok 5.
Proof.
  exact (lhc3k_search_counts_occurrences (str "aba") 3 (str "abababababa") 11
           eq_refl eq_refl ltac:(unfold LHC3K.Q; lia) ltac:(unfold INT_MAX; lia)).
Defined.

(** X6.  experiments/shc2-1.c: for every pattern of length [m >= 2Q - 1] and
    every text with [n + m <= INT_MAX], [search] returns the number of
    occurrences; the value that
    [preprocessing] returns is the hash of the leftmost q-gram of the chain
    that ends at the last byte of the pattern, which is the hash the scanner
    holds when its walk reaches the start of a window. *)
Theorem shc2_search_counts_occurrences (x : bytes) (m : Z) (y : bytes) (n : Z) :
  Z.of_nat (length x) = m -> Z.of_nat (length y) = n -> 2 * SHC2.Q - 1 <= m ->
  n + m <= INT_MAX ->
  SHC2.search x m y n = Ok (occurrences x m y n).
Proof.
  intros Hlen Hn Hm Hint. change SHC2.Q with 2 in Hm. apply shc2_search_count; try assumption; lia.
Qed.

Lemma shc2_search_counts_occurrences_witness :
  SHC2.search (str "ana") 3 (str "banana") 6 = Ok 2.
Proof.
  exact (shc2_search_counts_occurrences (str "ana") 3 (str "banana") 6
           eq_refl eq_refl ltac:(unfold SHC2.Q; lia) ltac:(unfold INT_MAX; lia)).
Defined.

(** X7.  shc6.c: for every pattern of length [m >= 2Q - 1] and every text
    with [n + m <= INT_MAX], [search], with its helper [search_chain],
    returns the number of occurrences. *)
Theorem shc6_search_counts_occurrences (x : bytes) (m : Z) (y : bytes) (n : Z) :
  Z.of_nat (length x) = m -> Z.of_nat (length y) = n -> 2 * SHC6.Q - 1 <= m ->
  n + m <= INT_MAX ->
  SHC6.search x m y n = Ok (occurrences x m y n).
Proof.
  intros Hlen Hn Hm Hint. change SHC6.Q with 6 in Hm. apply shc6_search_count; try assumption; lia.
Qed.

Lemma shc6_search_counts_occurrences_witness :
  SHC6.search (str "abcabcabcab") 11 (str "xabcabcabcabcabcabcab") 21 = Ok 4.
Proof.
  exact (shc6_search_counts_occurrences (str "abcabcabcab") 11 (str "xabcabcabcabcabcabcab") 21
           eq_refl eq_refl ltac:(unfold SHC6.Q; lia) ltac:(unfold INT_MAX; lia)).
Defined.

(** X8.  src/Experimental/FastHashChain/fhc1.c: for every non-empty pattern
    ([m >= Q = 1]) and every text with [n + 2m <= INT_MAX], [search] returns
    the number of occurrences.  Its fast loop tests [pos < n] before it
    reads the text, so the text needs no sentinel behind it; the cursor it
    leaves can be as far as [n + m - 1], and the shift that follows adds
    [m - Q + 1] to it. *)
Theorem fhc1_search_counts_occurrences (x : bytes) (m : Z) (y : bytes) (n : Z) :
  Z.of_nat (length x) = m -> Z.of_nat (length y) = n -> FHC1.Q <= m ->
  n + 2 * m <= INT_MAX ->
  FHC1.search x m y n = Ok (occurrences x m y n).
Proof.
  intros Hlen Hn Hm Hint. change FHC1.Q with 1 in Hm. now apply fhc1_search_count.
Qed.

Lemma fhc1_search_counts_occurrences_witness :
  FHC1.search (str "a") 1 (str "banana") 6 = Ok 3.
Proof.
  exact (fhc1_search_counts_occurrences (str "a") 1 (str "banana") 6
           eq_refl eq_refl ltac:(unfold FHC1.Q; lia) ltac:(unfold INT_MAX; lia)).
Defined.

(** X9.  experiments/thc2-1.c: for every pattern of length [m >= Q] and
    every buffer [y], separate from the pattern, that has room for [m] bytes
    behind its [n] bytes of text, with [n + 2m <= INT_MAX], [search] returns
    the number of occurrences inside the text [y[0..n)].  The copy of the pattern that it writes at [y[n..n+m)], and
    the windows that overlap it, are not counted, and the skip loop, which
    has no position check, stops inside the buffer. *)
Theorem thc2_search_counts_text_occurrences (x : bytes) (m : Z) (y : bytes) (n : Z) :
  Z.of_nat (length x) = m -> THC2.Q <= m -> 0 <= n -> n + m <= Z.of_nat (length y) ->
  n + 2 * m <= INT_MAX ->
  exists y', THC2.search x m y n = Ok (occurrences x m y n, y') /\
             sentinel_copy x m y n y'.
Proof.
  intros Hlen Hm Hn Hcap Hint. change THC2.Q with 2 in Hm. now apply thc2_search_count.
Qed.

Lemma thc2_search_counts_text_occurrences_witness :
  exists y', THC2.search (str "ab") 2 (str "ababab__") 6 = Ok (3, y') /\
             sentinel_copy (str "ab") 2 (str "ababab__") 6 y'.
Proof.
  exact (thc2_search_counts_text_occurrences (str "ab") 2 (str "ababab__") 6
           eq_refl ltac:(unfold THC2.Q; lia) ltac:(lia) ltac:(cbn; lia)
           ltac:(unfold INT_MAX; lia)).
Defined.

(** X10.  hc6.c: for every pattern of length [m >= Q] and every text with
    [n + m <= INT_MAX], [search] returns the number of occurrences.  [LOG2(ASIZE)], which bounds
    the chains of step 1 of the preprocessing, comes from a header that is
    not among the sources: the property holds for every value of it from 9
    on (12, the logarithm of the table size, among them), for which each
    bounded chain still has the four steps after which the table index no
    longer depends on the anchor. *)
Theorem hc6_search_counts_occurrences (log2_asize : Z) (x : bytes) (m : Z)
        (y : bytes) (n : Z) :
  Z.of_nat (length x) = m -> Z.of_nat (length y) = n -> HC6.Q <= m ->
  9 <= log2_asize -> n + m <= INT_MAX ->
  HC6.search log2_asize x m y n = Ok (occurrences x m y n).
Proof.
  intros Hlen Hn Hm HL Hint. change HC6.Q with 6 in Hm. now apply hc6_search_count.
Qed.

Lemma hc6_search_counts_occurrences_witness :
  HC6.search 12 (str "abcdefg") 7 (str "xxabcdefgabcdefg") 16 = Ok 2.
Proof.
  exact (hc6_search_counts_occurrences 12 (str "abcdefg") 7 (str "xxabcdefgabcdefg") 16
           eq_refl eq_refl ltac:(unfold HC6.Q; lia) ltac:(lia) ltac:(unfold INT_MAX; lia)).
Defined.

(** X11.  The variants whose chain construction starts at [chain_no = Q]
    whatever the length of the pattern (hc4-qverify.c, shc6.c,
    experiments/shc2-1.c): for every pattern of length [Q <= m < 2Q - 1],
    whatever the table holds on entry, the first chain hash of
    [preprocessing] is taken at [m - Q], for a q-gram that would start in
    front of the pattern: the hash reads the pattern at a negative index,
    and the preprocessing with it. *)
Theorem short_pattern_preprocessing_reads_before_pattern (x : bytes) (m : Z)
        (B0 : list Z) :
  Z.of_nat (length x) = m ->
  (HC4Q.Q <= m < 2 * HC4Q.Q - 1 ->
   m - HC4Q.Q - (HC4Q.Q - 1) < 0 /\
   HC4Q.CHAIN_HASH x (m - HC4Q.Q) = Fault /\ HC4Q.preprocessing x m B0 = Fault) /\
  (SHC6.Q <= m < 2 * SHC6.Q - 1 ->
   m - SHC6.Q - (SHC6.Q - 1) < 0 /\
   SHC6.CHAIN_HASH x (m - SHC6.Q) = Fault /\ SHC6.preprocessing x m B0 = Fault) /\
  (SHC2.Q <= m < 2 * SHC2.Q - 1 ->
   m - SHC2.Q - (SHC2.Q - 1) < 0 /\
   SHC2.CHAIN_HASH x (m - SHC2.Q) = Fault /\ SHC2.preprocessing x m B0 = Fault).
Proof.
  intros Hlen. split; [|split].
  - intros Hm. change HC4Q.Q with 4 in *. split; [lia|]. split.
    + apply hc4q_CHAIN_HASH_fault; lia.
    + apply hc4q_preprocessing_fault; [assumption|lia].
  - intros Hm. change SHC6.Q with 6 in *. split; [lia|]. split.
    + apply shc6_CHAIN_HASH_fault; lia.
    + apply shc6_preprocessing_fault; [assumption|lia].
  - intros Hm. change SHC2.Q with 2 in *. assert (m = 2) as -> by lia.
    assert (Hl : length x = 2%nat) by lia.
    split; [lia|]. split.
    + destruct x as [|a [|b [|c x]]]; try discriminate. reflexivity.
    + now apply shc2_preprocessing_fault.
Qed.

Lemma short_pattern_preprocessing_reads_before_pattern_witness :
  (HC4Q.CHAIN_HASH (str "abcdef") (6 - HC4Q.Q) = Fault /\
   HC4Q.preprocessing (str "abcdef") 6 (repeat 0 (Z.to_nat HC4Q.ASIZE)) = Fault) /\
  (SHC6.CHAIN_HASH (str "abcdef") (6 - SHC6.Q) = Fault /\
   SHC6.preprocessing (str "abcdef") 6 (repeat 0 (Z.to_nat SHC6.ASIZE)) = Fault) /\
  (SHC2.CHAIN_HASH (str "an") (2 - SHC2.Q) = Fault /\
   SHC2.preprocessing (str "an") 2 (repeat 0 (Z.to_nat SHC2.ASIZE)) = Fault).
Proof.
  destruct (short_pattern_preprocessing_reads_before_pattern (str "abcdef") 6
              (repeat 0 (Z.to_nat HC4Q.ASIZE)) eq_refl) as (A & _ & _).
  destruct (short_pattern_preprocessing_reads_before_pattern (str "abcdef") 6
              (repeat 0 (Z.to_nat SHC6.ASIZE)) eq_refl) as (_ & B & _).
  destruct (short_pattern_preprocessing_reads_before_pattern (str "an") 2
              (repeat 0 (Z.to_nat SHC2.ASIZE)) eq_refl) as (_ & _ & C).
  split; [apply A; unfold HC4Q.Q; lia|].
  split; [apply B; unfold SHC6.Q; lia|apply C; unfold SHC2.Q; lia].
Defined.

(** X12.  experiments/thc2-1.c: [search] (for [m >= Q]) begins by storing
    the pattern at [y[n..n+m)].  When the buffer holds fewer than [n + m]
    bytes, one of these stores is outside the buffer: the copy loop, with
    its stores checked against the length of the buffer, faults. *)
Theorem thc2_copy_needs_room (x : bytes) (m : Z) (y : bytes) (n : Z) :
  Z.of_nat (length x) = m -> THC2.Q <= m -> 0 <= n -> Z.of_nat (length y) < n + m ->
  THC2.copy_pattern x m y n = Fault.
Proof.
  intros Hlen Hm Hn Hcap. change THC2.Q with 2 in Hm.
  apply thc2_copy_pattern_fault; try assumption; lia.
Qed.

Lemma thc2_copy_needs_room_witness :
  THC2.copy_pattern (str "ab") 2 (str "ababab_") 6 = Fault.
Proof.
  exact (thc2_copy_needs_room (str "ab") 2 (str "ababab_") 6
           eq_refl ltac:(unfold THC2.Q; lia) ltac:(lia) ltac:(cbn; lia)).
Defined.

(** X13.  [pre_kmp] of lhc4.c ([preKmp] of lhc3-kmp.c): every entry of the
    table it returns is the longest of its kind.  For [0 <= k <= m] and
    [v = KMP[k]], every proper border [u] of [x[0..k)] that is longer than
    [v] is followed by the byte that follows the prefix, [x[u] == x[k]] with
    [k < m]; in particular [KMP[m]] is the longest proper border of the
    pattern. *)
Theorem pre_kmp_longest_borders (x : bytes) (m : Z) (KMP0 : list Z) :
  Z.of_nat (length x) = m -> Z.of_nat (length KMP0) = m + 1 ->
  exists K,
    KMP.pre_kmp x m KMP0 = Ok K /\ Z.of_nat (length K) = m + 1 /\
    forall k v u, 0 <= k <= m -> rdi K k = Ok v -> v < u < k -> border x k u ->
                  k < m /\ byte_at x u = byte_at x k.
Proof.
  intros Hlen HK0.
  destruct (kmp_table_strong x m KMP0 Hlen HK0) as (K & Hrun & HKlen & HK).
  exists K. split; [assumption|]. split; [assumption|].
  intros k v u Hk Hv Hu Hb. destruct (HK k Hk) as (_ & Hmax). exact (Hmax v u Hv Hu Hb).
Qed.

Lemma pre_kmp_longest_borders_witness :
  exists K,
    KMP.pre_kmp (str "abab") 4 [0; 0; 0; 0; 0] = Ok K /\ Z.of_nat (length K) = 4 + 1 /\
    forall k v u, 0 <= k <= 4 -> rdi K k = Ok v -> v < u < k -> border (str "abab") k u ->
                  k < 4 /\ byte_at (str "abab") u = byte_at (str "abab") k.
Proof.
  exact (pre_kmp_longest_borders (str "abab") 4 [0; 0; 0; 0; 0] eq_refl eq_refl).
Defined.

(** X14.  [pre_kmp]: the table does not depend on what the caller's array
    holds on entry ([search] passes it uninitialised): every entry [0..m] is
    written before it is read. *)
Theorem pre_kmp_ignores_initial_contents (x : bytes) (m : Z) (K0 K0' : list Z) :
  Z.of_nat (length x) = m ->
  Z.of_nat (length K0) = m + 1 -> Z.of_nat (length K0') = m + 1 ->
  exists K, KMP.pre_kmp x m K0 = Ok K /\ KMP.pre_kmp x m K0' = Ok K.
Proof.
  intros Hlen H0 H0'.
  destruct (kmp_table_strong x m K0 Hlen H0) as (K & Hrun & HK).
  destruct (kmp_table_strong x m K0' Hlen H0') as (K' & Hrun' & HK').
  exists K. split; [assumption|].
  rewrite Hrun'. f_equal. symmetry. exact (kmp_table_ok_unique x m K K' HK HK').
Qed.

Lemma pre_kmp_ignores_initial_contents_witness :
  exists K, KMP.pre_kmp (str "abab") 4 [0; 0; 0; 0; 0] = Ok K /\
            KMP.pre_kmp (str "abab") 4 [7; -3; 100; 5; 1] = Ok K.
Proof.
  exact (pre_kmp_ignores_initial_contents (str "abab") 4 [0; 0; 0; 0; 0] [7; -3; 100; 5; 1]
           eq_refl eq_refl eq_refl).
Defined.

(** X15.  The verification loop of lhc4.c and lhc3-kmp.c
    ([while (pattern_pos >= next_verify_pos - window_start_pos)]), run with
    the table of [pre_kmp] for a window that lies inside the text.  If on
    entry the first [pattern_pos] bytes of the alignment
    [next_verify_pos - pattern_pos] match and [count] is the number of
    occurrences that start before that alignment, then the loop returns, the
    same holds on exit, and the alignment on exit is to the right of the
    window start: every occurrence up to the window start has been counted
    once. *)
Theorem kmp_verify_counts_occurrences (x : bytes) (m : Z) (y : bytes) (n : Z)
        (K0 : list Z) (window_start_pos : Z) (s : KMP.kmp_st) :
  Z.of_nat (length x) = m -> Z.of_nat (length y) = n ->
  Z.of_nat (length K0) = m + 1 ->
  0 <= window_start_pos -> window_start_pos + m <= n ->
  kmp_vinv x m y s ->
  exists K s',
    KMP.pre_kmp x m K0 = Ok K /\
    KMP.verify x m y n K window_start_pos s = Ok s' /\ kmp_vinv x m y s' /\
    window_start_pos < KMP.next_verify_pos s' - KMP.pattern_pos s'.
Proof.
  intros Hlen Hn HK0 Hws Hroom Hinv.
  destruct (kmp_table_strong x m K0 Hlen HK0) as (K & Hrun & HK).
  destruct (kmp_verify_spec x m y n K window_start_pos s Hlen Hn HK Hws Hroom Hinv)
    as (s' & Hver & Hinv' & Hadv & _).
  exists K, s'. auto.
Qed.

Lemma kmp_verify_counts_occurrences_witness :
  exists K s',
    KMP.pre_kmp (str "aba") 3 [0; 0; 0; 0] = Ok K /\
    KMP.verify (str "aba") 3 (str "ababa") 5 K 2 (KMP.mkKmp 0 0 0) = Ok s' /\
    kmp_vinv (str "aba") 3 (str "ababa") s' /\
    2 < KMP.next_verify_pos s' - KMP.pattern_pos s'.
Proof.
  apply (kmp_verify_counts_occurrences (str "aba") 3 (str "ababa") 5 [0; 0; 0; 0] 2
           (KMP.mkKmp 0 0 0) eq_refl eq_refl eq_refl); [lia|lia|].
  unfold kmp_vinv. cbn [KMP.pattern_pos KMP.next_verify_pos KMP.kcount].
  split; [lia|]. split; [lia|]. split; [intros i Hi; lia|reflexivity].
Defined.

(** X16.  hc3.c: the main loop of [search] counts no false positive, whatever
    the table holds.  For an arbitrary table [B] of [ASIZE] words, an
    arbitrary pattern hash [Hm] and [n + m <= INT_MAX], the loop returns and
    its count is at most the number of occurrences: a window is counted only after [memcmp] has
    compared it with the pattern. *)
Theorem hc3_scan_counts_no_false_positive (x : bytes) (m : Z) (y : bytes) (n : Z)
        (B : list Z) (Hm : Z) :
  Z.of_nat (length x) = m -> Z.of_nat (length y) = n -> HC3.Q <= m ->
  n + m <= INT_MAX ->
  Z.of_nat (length B) = HC3.ASIZE ->
  exists s, HC3.scan x m y n B Hm = Ok s /\ 0 <= HC3.count s <= occurrences x m y n.
Proof.
  intros Hlen Hn Hm3 Hint HB. change HC3.Q with 3 in Hm3. change HC3.ASIZE with 2048 in HB.
  now apply hc3_scan_any_table.
Qed.

Lemma hc3_scan_counts_no_false_positive_witness :
  exists s, HC3.scan (str "abc") 3 (str "xxabcabc") 8 (repeat (-1) 2048) 7217 = Ok s /\
            0 <= HC3.count s <= occurrences (str "abc") 3 (str "xxabcabc") 8.
Proof.
  apply (hc3_scan_counts_no_false_positive (str "abc") 3 (str "xxabcabc") 8 (repeat (-1) 2048) 7217
           eq_refl eq_refl); [unfold HC3.Q; lia|unfold INT_MAX; lia|].
  rewrite repeat_length. reflexivity.
Defined.
